(* ===== verification/_CoqProject ===== *)
-Q . S2P
Prelude.v
Text.v
Floats.v
Rounding.v
Division.v
Crc.v
Gamepad.v
Joystick.v
StateMachine.v
LowCmd.v
HgMsg.v
RobotInterface.v
RobotController.v
Udp.v
Livox.v
LivoxFull.v
ControlInterface.v
CrowJson.v
CrowJsonProps.v
CrowValues.v
CrowDump.v
ControlHttp.v
Stand.v
Go2Motion.v
Wav.v
Audio.v
Multipart.v
BlockQueue.v
DdsChannel.v
Topics.v
Publisher.v
RobotWrappers.v
Any.v
JsonConfig.v
Json.v
JsonTypes.v
Clients.v
LocoCli.v
G1Audio.v
SportMenu.v
ArmSdk.v
LowLevel.v
LowLevelSchedule.v
LowLevelSafety.v
H1LowLevel.v
Dex3.v
Terminations.v
