(* ===== verification/Prelude.v ===== *)
(** * A verified model of the Unitree SDK2 programs.

    The repository is a C++ SDK for Unitree robots: headers of a communication
    library whose bodies are mostly a closed binary, and the programs under
    [src/example] that talk to the robots.  This development models the parts
    that carry logic of their own, as executable definitions, and proves what
    makes them correct.  The root file holds this description and the shared
    prelude (hint databases, tactics, machine integers, bytes, generic lemmas).

    ** How the program is put together

    A program subscribes to state messages and publishes command messages on DDS
    channels.  A subscriber callback stores the state, a recurrent thread computes
    a command from it, and another recurrent thread writes the command out; they
    share members or buffers.  Low-level commands carry a CRC over the memory of
    the C++ object.  High-level programs call a service through a client
    that encodes its request as JSON.  The TypeGo services bridge a Go2 to the
    network: HTTP routes for control and audio, UDP for robot state and point
    clouds.

    ** Files

    Arithmetic and wire formats:
    - [Floats]: [float] and [double] with their operators, conversions and bit
      codec, on the Standard Library's executable IEEE 754 specification.
    - [Rounding]: rounding is monotone, with the range lemmas that follow;
      [Division] extends it to quotients.
    - [Crc]: [dds_wrapper/common/crc.h]; [Crc32Spec] and [Crc16Spec] relate the
      loops to remainders of polynomials over GF(2).
    - [LowCmd]: [state_machine/comm.h], [conversion.hpp] and the go2 [LowCmd_];
      the memory images under the checksum.
    - [HgMsg]: the [LowCmd_] and [LowState_] of the humanoids.
    - [Gamepad], [Joystick]: the remote frame, keys and sticks, in the three
      variants of the repository.

    The state-machine example ([src/example/state_machine]):
    - [StateMachine] ([state_machine.hpp]), [RobotInterface]
      ([robot_interface.hpp], [user_controller.hpp], [cfg.hpp]) and
      [RobotController] ([robot_controller.hpp]).  The class
      [RobotInterface.UserController] is the interface of the template parameter;
      the theorems of [RobotController] are proved against it and hold for every
      interleaving of the callback, the control thread and the writer.

    Programs that drive motors:
    - [Stand]: the stand-up sequences of go2, b2, go2w and b2w.
    - [ArmSdk]: the four arm programs of g1 and h1, with an abstract schedule
      they refine.
    - [LowLevel]: ankle swing, dual arm and 27-dof programs, one architecture of
      three threads whose accesses to shared members interleave;
      [LowLevelSchedule] says when each stage begins and ends,
      [LowLevelSafety] what is published in every interleaving.
    - [H1LowLevel]: [h1_2_ankle_track.cpp] and the [humanoid.hpp] program.
    - [Go2Motion]: the go2 low-level example ([Go2Low]) and the trajectory example
      ([Trajectory]).
    - [Dex3]: the keyboard-driven program of the g1 hand, three threads.
    - [SportMenu]: the menus of the go2w and b2w sport clients, over the class
      [SportMenuProps.Table] of what their tables have in common, and the periodic
      test of the go2.
    - [LocoCli]: the command-line programs of the g1 and h1 locomotion clients.
    - [Terminations]: the protective checks of [g1/common/terminations.hpp].

    The TypeGo services ([src/example/go2]):
    - [Udp] (sockets and the client address shared by two threads), [Livox],
      [LivoxFull] (point clouds), [ControlInterface] (HTTP control), [Wav] and
      [Audio] (wave files and playback).  [G1Audio] is the audio example of the g1,
      which uses the same wave files.
    - What they use of the HTTP library in [src/include/crow]: [CrowJson] (the JSON reader
      and writer of [json.h]), with a grammar of the accepted texts in [CrowJsonProps],
      the values read in [CrowValues] (over the class [CrowValues.Sorting] of what
      [std::sort] promises) and the texts written in [CrowDump]; [Multipart]
      ([multipart.h], over the class [Multipart.MultimapFind]).  [ControlHttp] and the
      end of [Multipart] put them and the routes together: from the text of a request
      to what the robot is asked, what is saved, and the text of the answer.

    The library ([src/include/unitree]):
    - [BlockQueue]; [DdsChannel], which puts it between the DDS callback and the
      handler of a subscriber ([dds_entity.hpp], [robot/channel]); [Topics], the
      templates that create channels and find them by the name of their topic
      ([dds_topic_channel.hpp], [dds_easy_model.hpp], [dds_factory_model.hpp],
      [robot/channel]).
    - [Publisher] (with [Subscription]), whose loop calls the hook
      [pre_communication] of a derived class, a relation it is proved for in
      general; [RobotWrappers] holds the hooks of [dds_wrapper/robots] and the
      joystick subscription.
    - [Any], [Json] (the [Jsonize] templates over the class [Json.Sdk] of closed
      operations, whose documented behaviour is the class [Json.Channel]),
      [JsonTypes], [Clients]; [JsonConfig], the typed reads of a configuration over
      the class of its closed operations.
    - [Text]: what the programs use of [std::string], [std::stoi] and [std::map].

    ** Conventions

    A C++ object is a Record, a method a function from the old object to the new
    one; what it writes to a channel is recorded in the object or returned.
    Integers are [Z] with the wrap-around of their width written out; overflow
    of a signed integer, an index outside an array and an exception are [None] or
    a constructor of an outcome type.  Threads are step relations; a step is one
    access to shared state where the code takes no lock and one handler where a
    lock or the example's use makes it atomic, as each file says.  [std::sin],
    [std::cos], [std::acos], Eigen's rotation, uninitialised members, padding
    bytes, clocks, answers of services and devices, the structs of the LiDAR's SDK
    ([LivoxFull.SdkStruct]) and the recorded motion of the dual-arm program are
    parameters or inputs.

    ** What the theorems show

    - Safety of the controller: the emergency stop, the fall protection, the
      guard of the CTRL state and the validity of every published frame, over all
      interleavings; the control step refines the abstract three-state machine.
    - Safety of the low-level programs: targets, gains and seals of every
      published frame over all interleavings, indifference to corrupted state
      messages, and a race on [mode_] that a published frame can exhibit; the
      range of the calf joint ([Go2Motion]) and the limits of the hand ([Dex3]),
      whose stop key is obeyed except in the initial state.
    - Protection of the g1: which states pass every check, and when the connection
      is reported lost, to the nanosecond ([Terminations]).
    - Schedules: postures and stages are reached after a computed number of
      calls ([Stand], [LowLevelSchedule], [H1LowLevel], [ArmSdk], [StateMachine]).
    - Wire formats: the CRC loops compute polynomial remainders; conversion
      seals commands; remote frames, wave files, containers and service types
      (but the g1 audio parameters, which are only written) survive their round
      trips; datagrams carry exactly the points that pass the height test, made
      after the cut to 16 bits ([Livox]), or all high-resolution points and IMU
      samples, while low-resolution points are misread ([LivoxFull]).
    - Concurrency of the library: the queue is a bounded FIFO, a subscriber sees
      the valid samples in order but for evicted ones, shuts down in a bounded
      number of steps given a wake-up, which can be missed ([DdsChannel]); the
      publisher delivers what was filled after its hook, so that command
      publishers send sealed commands and a joystick reaches the subscriber of a
      state message ([RobotWrappers]); a guarded client address is never torn while
      an unguarded one can be.
    - Command-line programs: the requests are those the options or the typed lines
      stand for, in which order, and at which option a program stops ([LocoCli],
      [SportMenu]); a recording of the microphone is played back byte for byte
      ([G1Audio]).
    - HTTP: the JSON reader accepts exactly the texts of its grammar and returns their
      values, what the writer produces is read back, multipart messages survive their
      round trip; a control request is dispatched by the text of its command, the
      state is reported to six decimals, and an upload saves exactly the bytes of
      its part.
    - Channels by topic: the outcome of every call is a function of the calls
      before it, with the exact cases in which a call has no meaning ([Topics]).
    - Errors: NaN in a stick filter is permanent, a negative chunk size hangs the
      wave reader, the loops of the remote control end but go on after a stop, and
      a cancellation is lost when another loop starts before it is seen, and what the getters of a locomotion client do on a failed call.

    ** Fuel and bounds

    Loops whose number of iterations is fixed are structural.  Loops that depend
    on data take fuel: the number of samples is enough for the sending loop of
    [LivoxFull], the number of records for its key-value scan, one step per byte
    of the file for the player of [Audio]; the chunk scan of [Wav] needs one step
    per chunk, and no fuel is enough for the file of
    [Wav.WavProps.negative_chunk_hangs_reader].  The loops of [ControlInterface]
    consume a list of ticks, one per iteration, and end with the first one whose
    clock is past the deadline.  101 steps are enough for the wait of
    [DdsChannel.WaitReader], a second in slices of 10 ms.  One step more than there
    are bytes is enough for the pieces of [G1Audio.play_loop], and one step more than
    there are characters for [LocoCli.stringToFloatVector].  The parser of [CrowJson]
    takes two steps per character and two more, which is proved to be enough for
    every text; the loops of [Multipart] one step per character, beyond which more fuel
    changes nothing.  The clocks of the examples accumulate a rounded step; the number of
    steps to a boundary is computed on the rounded values: 1500 per stage of the
    swing programs, 5317 calls for a turn of the dual-arm program, 1000 for the
    standing program.  The invariants of [LowLevelSafety] and [Stand] hold for any
    number of steps.

    ** Not modelled

    - Third-party code in the tree: the server, connections and routing of [crow] and
      the parts of its JSON values that the programs do not use, [asio], the DDS
      headers; generated code under [idl] beyond the members used.
    - Declarations whose bodies are in the closed library: logging, files, locks,
      threads, services, sport, video and motion-switcher clients; the DDS
      implementation under the channels, which offers samples in any order of
      calls, and the set-up of its entities and QoS.
    - Wrapper classes that only name a topic or a message type.
    - Demonstrations that call one method after another, printing, thread
      creation, the conversion of text to [float] (a parameter). *)

From stdpp Require Export prelude.
From Stdlib Require Export ZArith Lia Btauto.

Local Open Scope Z_scope.

(** ** Hint databases and tactics *)

Create HintDb mach.
Create HintDb bytes.
Create Rewrite HintDb bytes.

(** [mach] closes the range side conditions of machine integers. *)
Ltac mach := eauto with mach; lia.

(** [split_if] destructs the boolean tests of the goal, one at a time. *)
Ltac split_if :=
  match goal with
  | |- context [if ?b then _ else _] => destruct b eqn:?
  end.

(** [forward_all] introduces and splits the conjunctions of the context. *)
Ltac split_hyps :=
  repeat match goal with
    | H : _ ∧ _ |- _ => destruct H
    | H : ∃ _, _ |- _ => destruct H
    | H : (_ && _)%bool = true |- _ => apply andb_true_iff in H
    | H : (_ || _)%bool = false |- _ => apply orb_false_iff in H
    end.

(** ** Machine integers

    A [w]-bit unsigned integer is a [Z] in [0, 2^w); a signed one is a [Z] in
    [-2^(w-1), 2^(w-1)).  The C++ conversions reduce modulo [2^w]. *)

Definition uwrap (w z : Z) : Z := z mod 2 ^ w.
Definition swrap (w z : Z) : Z := (z + 2 ^ (w - 1)) mod 2 ^ w - 2 ^ (w - 1).

Abbreviation u8 := (uwrap 8).
Abbreviation u16 := (uwrap 16).
Abbreviation u32 := (uwrap 32).
Abbreviation u64 := (uwrap 64).
Abbreviation i8 := (swrap 8).
Abbreviation i16 := (swrap 16).
Abbreviation i32 := (swrap 32).

Definition in_u (w z : Z) : Prop := 0 <= z < 2 ^ w.
Definition in_s (w z : Z) : Prop := - 2 ^ (w - 1) <= z < 2 ^ (w - 1).

#[global] Instance in_u_dec w z : Decision (in_u w z).
Proof. unfold in_u. apply _. Defined.

#[global] Instance in_s_dec w z : Decision (in_s w z).
Proof. unfold in_s. apply _. Defined.

Lemma uwrap_in w z : 0 <= w -> in_u w (uwrap w z).
Proof. intros. apply Z.mod_pos_bound. lia. Qed.

Lemma uwrap_id w z : in_u w z -> uwrap w z = z.
Proof. apply Z.mod_small. Qed.

Lemma pow2_half w : 0 < w -> 2 ^ w = 2 * 2 ^ (w - 1).
Proof. intros. rewrite <- Z.pow_succ_r by lia. f_equal. lia. Qed.

Lemma swrap_in w z : 0 < w -> in_s w (swrap w z).
Proof.
  intros Hw. unfold in_s, swrap.
  pose proof (pow2_half w Hw).
  pose proof (Z.mod_pos_bound (z + 2 ^ (w - 1)) (2 ^ w)). lia.
Qed.

Lemma swrap_id w z : 0 < w -> in_s w z -> swrap w z = z.
Proof.
  unfold in_s, swrap. intros Hw Hz. pose proof (pow2_half w Hw).
  rewrite Z.mod_small by lia. lia.
Qed.

(** A signed value survives the round trip through its bit pattern. *)
Lemma swrap_uwrap w z : 0 < w -> swrap w (uwrap w z) = swrap w z.
Proof.
  intros. unfold swrap, uwrap. f_equal.
  rewrite Z.add_mod_idemp_l by lia. done.
Qed.

Lemma swrap_of_pattern w z : 0 < w -> in_s w z -> swrap w (uwrap w z) = z.
Proof. intros. rewrite swrap_uwrap by done. by apply swrap_id. Qed.

Lemma uwrap_of_signed w z : 0 < w -> in_u w z -> uwrap w (swrap w z) = z.
Proof.
  intros Hw Hz. unfold uwrap, swrap.
  rewrite Zminus_mod_idemp_l.
  replace (z + 2 ^ (w - 1) - 2 ^ (w - 1)) with z by lia.
  by apply Z.mod_small.
Qed.

#[export] Hint Resolve uwrap_in swrap_in : mach.
#[export] Hint Extern 2 (_ < _) => lia : mach.
#[export] Hint Extern 2 (_ <= _) => lia : mach.

(** ** Bits *)

Lemma in_u_testbit_high w z i : in_u w z -> 0 <= w <= i -> Z.testbit z i = false.
Proof.
  intros [H0 H1] Hi. destruct (decide (z = 0)) as [-> |].
  - apply Z.testbit_0_l.
  - apply Z.bits_above_log2; [lia |].
    apply Z.log2_lt_pow2; [lia |].
    apply Z.lt_le_trans with (2 ^ w); [lia |]. apply Z.pow_le_mono_r; lia.
Qed.

Lemma testbit_high_in_u w z :
  0 <= w -> 0 <= z -> (∀ i, w <= i -> Z.testbit z i = false) -> in_u w z.
Proof.
  intros Hw Hz Hi. split; [done |].
  destruct (decide (z = 0)) as [-> |]; [lia |].
  apply Z.log2_lt_pow2; [lia |].
  destruct (decide (Z.log2 z < w)); [done |].
  specialize (Hi (Z.log2 z) ltac:(lia)). rewrite Z.bit_log2 in Hi by lia. done.
Qed.

Lemma lxor_in_u w x y : 0 <= w -> in_u w x -> in_u w y -> in_u w (Z.lxor x y).
Proof.
  intros Hw Hx Hy. apply testbit_high_in_u; [done | |].
  - apply Z.lxor_nonneg. destruct Hx, Hy. split; done.
  - intros i Hi. rewrite Z.lxor_spec.
    by rewrite (in_u_testbit_high w x), (in_u_testbit_high w y) by (done || lia).
Qed.

Lemma shiftr_in_u w x k : 0 <= w -> 0 <= k -> in_u (w + k) x -> in_u w (Z.shiftr x k).
Proof.
  intros Hw Hk [H0 H1]. rewrite Z.shiftr_div_pow2 by lia. split.
  - apply Z.div_pos; lia.
  - apply Z.div_lt_upper_bound; [lia |]. rewrite <- Z.pow_add_r by lia.
    by rewrite Z.add_comm.
Qed.

Lemma in_u_mono w w' z : 0 <= w <= w' -> in_u w z -> in_u w' z.
Proof.
  intros ? [? ?]. pose proof (Z.pow_le_mono_r 2 w w'). split; lia.
Qed.

#[export] Hint Resolve lxor_in_u : mach.

(** [Z.lxor] is an abelian group of exponent two; [xor_solve] decides its
    equations (with left shifts pushed inwards) bit by bit. *)
Ltac xor_solve :=
  rewrite ?Z.shiftl_lxor, ?Z.shiftl_0_l;
  apply Z.bits_inj'; intros ? ?;
  rewrite ?Z.lxor_spec, ?Z.testbit_0_l; btauto.

Lemma land_pow2 x k :
  0 <= k -> Z.land x (2 ^ k) = if Z.testbit x k then 2 ^ k else 0.
Proof.
  intros Hk. apply Z.bits_inj'; intros i Hi.
  rewrite Z.land_spec, Z.pow2_bits_eqb by done.
  destruct (Z.eqb_spec k i) as [<- |].
  - destruct (Z.testbit x k); [by rewrite Z.pow2_bits_true | by rewrite Z.testbit_0_l].
  - rewrite andb_false_r. destruct (Z.testbit x k); [| by rewrite Z.testbit_0_l].
    by rewrite Z.pow2_bits_false by lia.
Qed.

Lemma land_pow2_nonzero x k :
  0 <= k -> negb (Z.land x (2 ^ k) =? 0) = Z.testbit x k.
Proof.
  intros. rewrite land_pow2 by done. pose proof (Z.pow_pos_nonneg 2 k).
  destruct (Z.testbit x k); [| done]. by rewrite (proj2 (Z.eqb_neq _ _)) by lia.
Qed.

(** ** Bytes: little- and big-endian encodings of [n]-byte integers *)

Abbreviation byte := Z (only parsing).
Abbreviation bytes := (list Z) (only parsing).

Definition bytes_ok (l : bytes) : Prop := Forall (in_u 8) l.

#[global] Instance bytes_ok_dec l : Decision (bytes_ok l).
Proof. unfold bytes_ok. apply _. Defined.

(** [le_bytes n z]: the [n] bytes an [8n]-bit object of value [z] occupies in
    the memory of a little-endian machine. *)
Fixpoint le_bytes (n : nat) (z : Z) : bytes :=
  match n with
  | O => []
  | S n => z mod 256 :: le_bytes n (z / 256)
  end.

Fixpoint le_val (l : bytes) : Z :=
  match l with
  | [] => 0
  | b :: l => b + 256 * le_val l
  end.

Definition be_bytes (n : nat) (z : Z) : bytes := reverse (le_bytes n z).
Definition be_val (l : bytes) : Z := le_val (reverse l).

Lemma length_le_bytes n z : length (le_bytes n z) = n.
Proof. revert z; induction n; intros; simpl; auto. Qed.

Lemma length_be_bytes n z : length (be_bytes n z) = n.
Proof. unfold be_bytes. by rewrite length_reverse, length_le_bytes. Qed.

Lemma le_bytes_ok n z : bytes_ok (le_bytes n z).
Proof.
  revert z; induction n; intros; simpl; constructor; [| apply IHn].
  apply Z.mod_pos_bound. lia.
Qed.

Lemma be_bytes_ok n z : bytes_ok (be_bytes n z).
Proof. unfold be_bytes, bytes_ok. rewrite Forall_reverse. apply le_bytes_ok. Qed.

Lemma pow_bytes n : 2 ^ (8 * Z.of_nat (S n)) = 256 * 2 ^ (8 * Z.of_nat n).
Proof.
  replace (8 * Z.of_nat (S n)) with (8 + 8 * Z.of_nat n) by lia.
  rewrite Z.pow_add_r by lia. done.
Qed.

Lemma le_val_bytes n z : in_u (8 * Z.of_nat n) z -> le_val (le_bytes n z) = z.
Proof.
  revert z; induction n as [| n IH]; intros z Hz.
  - unfold in_u in Hz. simpl in *. lia.
  - cbn [le_bytes le_val]. rewrite IH.
    + pose proof (Z.div_mod z 256). lia.
    + destruct Hz as [H0 H1]. rewrite pow_bytes in H1.
      split; [apply Z.div_pos; lia | apply Z.div_lt_upper_bound; lia].
Qed.

Lemma le_val_range l : bytes_ok l -> in_u (8 * Z.of_nat (length l)) (le_val l).
Proof.
  induction 1 as [| b l Hb _ IH]; [done |].
  cbn [le_val length]. unfold in_u in *. rewrite pow_bytes. lia.
Qed.

Lemma le_bytes_val l : bytes_ok l -> le_bytes (length l) (le_val l) = l.
Proof.
  induction 1 as [| b l Hb _ IH]; [done |]. unfold in_u in Hb.
  cbn [le_val length le_bytes]. f_equal.
  - rewrite (Z.mul_comm 256), Z.mod_add by lia. apply Z.mod_small. lia.
  - rewrite (Z.mul_comm 256), Z.div_add by lia.
    by rewrite (Z.div_small b), Z.add_0_l by lia.
Qed.

Lemma be_val_bytes n z : in_u (8 * Z.of_nat n) z -> be_val (be_bytes n z) = z.
Proof. intros. unfold be_val, be_bytes. rewrite reverse_involutive. by apply le_val_bytes. Qed.

(** Two values written in the same width agree only if they are equal. *)
Lemma le_bytes_inj n x y :
  in_u (8 * Z.of_nat n) x -> in_u (8 * Z.of_nat n) y ->
  le_bytes n x = le_bytes n y -> x = y.
Proof. intros Hx Hy E. by rewrite <- (le_val_bytes n x), E, le_val_bytes. Qed.

#[export] Hint Rewrite length_le_bytes length_be_bytes @length_app @length_map : bytes.
#[export] Hint Resolve le_bytes_ok be_bytes_ok : bytes.

(** ** Lists *)

(** [slice off n l] reads [n] bytes at offset [off]: the object a pointer cast
    into a buffer denotes. *)
Definition slice {A} (off n : nat) (l : list A) : list A := take n (drop off l).

Lemma slice_app_r {A} off n (l k : list A) :
  off = length l -> slice off n (l ++ k) = take n k.
Proof. intros ->. unfold slice. by rewrite drop_app_length. Qed.

Lemma slice_skip {A} off n (l k : list A) :
  (length l <= off)%nat -> slice off n (l ++ k) = slice (off - length l) n k.
Proof. intros. unfold slice. by rewrite drop_app_ge by done. Qed.

Lemma slice_all {A} n (l k : list A) : n = length l -> slice 0 n (l ++ k) = l.
Proof. intros ->. unfold slice. rewrite drop_0. by rewrite take_app_length. Qed.

Lemma length_slice {A} off n (l : list A) :
  (off + n <= length l)%nat -> length (slice off n l) = n.
Proof. intros. unfold slice. rewrite length_take, length_drop. lia. Qed.

#[global] Arguments slice : simpl never.
#[global] Arguments le_bytes : simpl never.
#[global] Arguments be_bytes : simpl never.
#[global] Arguments le_val : simpl never.

(** [read_slices] resolves the reads at constant offsets of a buffer given as a
    concatenation of fields of known lengths. *)
Ltac read_slices :=
  repeat match goal with
    | |- context [slice ?o ?n (?l ++ ?k)] =>
        first [ rewrite (slice_all n l k) by (autorewrite with bytes; lia)
              | rewrite (slice_skip o n l k) by (autorewrite with bytes; lia);
                autorewrite with bytes;
                repeat match goal with H : length _ = _ |- _ => rewrite H end;
                cbn [Nat.sub] ]
    end.

Lemma Forall_replicate_iff {A} (P : A -> Prop) n x : P x -> Forall P (replicate n x).
Proof. intros. by apply Forall_replicate. Qed.

(** ** Arrays of fixed-size records *)

Lemma length_concat_fixed {A B} (f : A -> list B) k l :
  (∀ a, length (f a) = k) -> length (concat (f <$> l)) = (k * length l)%nat.
Proof.
  intros Hf. induction l as [| a l IH]; cbn; [lia |]. rewrite length_app, Hf, IH. lia.
Qed.

Lemma slice_concat {A B} (f : A -> list B) k l i x :
  (∀ a, length (f a) = k) -> l !! i = Some x -> slice (k * i) k (concat (f <$> l)) = f x.
Proof.
  intros Hf. revert i; induction l as [| a l IH]; intros i Hi; [done |].
  destruct i as [| i]; cbn [fmap list_fmap concat].
  - injection Hi as ->. rewrite Nat.mul_0_r. apply slice_all. by rewrite Hf.
  - rewrite slice_skip by (rewrite Hf; lia). rewrite Hf.
    replace (k * S i - k)%nat with (k * i)%nat by lia. by apply IH.
Qed.

(** Reading back an array of records, field by field. *)
Lemma read_concat {A B} (f : A -> list B) (g : list B -> A) k l :
  (∀ a, length (f a) = k) -> Forall (fun a => g (f a) = a) l ->
  (fun i => g (slice (k * i) k (concat (f <$> l)))) <$> seq 0 (length l) = l.
Proof.
  intros Hf Hg. apply list_eq. intros i. rewrite list_lookup_fmap.
  destruct (l !! i) as [x |] eqn:E.
  - rewrite lookup_seq_lt by by eapply lookup_lt_Some. cbn [fmap option_fmap option_map Nat.add].
    rewrite (slice_concat f k l i x) by done. f_equal. rewrite Forall_lookup in Hg. by eapply Hg.
  - rewrite lookup_seq_ge; [done |]. by apply lookup_ge_None.
Qed.

(** [chunks n l] cuts [l] into consecutive groups of [n], the last one
    shorter. *)
Fixpoint chunks_fuel {A} (fuel n : nat) (l : list A) : list (list A) :=
  match fuel, l with
  | _, [] => []
  | O, _ => []
  | S fuel, _ => take n l :: chunks_fuel fuel n (drop n l)
  end.

Definition chunks {A} (n : nat) (l : list A) : list (list A) := chunks_fuel (length l) n l.

Lemma chunks_fuel_concat {A} fuel n (l : list A) :
  (0 < n)%nat -> (length l <= fuel)%nat -> concat (chunks_fuel fuel n l) = l.
Proof.
  intros Hn. revert l; induction fuel as [| fuel IH]; intros l Hl.
  - by destruct l; simpl in *; [| lia].
  - destruct l as [| a l]; [done |]. cbn [chunks_fuel concat].
    rewrite IH; [by rewrite take_drop |]. rewrite length_drop. simpl in *. lia.
Qed.

Lemma chunks_concat {A} n (l : list A) : (0 < n)%nat -> concat (chunks n l) = l.
Proof. intros. by apply chunks_fuel_concat. Qed.

Lemma chunks_fuel_length {A} fuel n (l : list A) :
  Forall (fun c => (length c <= n)%nat) (chunks_fuel fuel n l).
Proof.
  revert l; induction fuel as [| fuel IH]; intros [| a l]; cbn; constructor; auto.
  rewrite length_take. lia.
Qed.

Lemma chunks_fuel_nonempty {A} fuel n (l : list A) :
  (0 < n)%nat -> Forall (fun c => (1 <= length c)%nat) (chunks_fuel fuel n l).
Proof.
  intros Hn. revert l; induction fuel as [| fuel IH]; intros [| a l]; cbn; constructor; auto.
  rewrite length_take. cbn. lia.
Qed.

(** All but the last group are full. *)
Lemma chunks_fuel_full {A} fuel n (l : list A) :
  Forall (fun c => length c = n) (removelast (chunks_fuel fuel n l)).
Proof.
  revert l; induction fuel as [| fuel IH]; intros l; [destruct l; cbn; apply Forall_nil_2 |].
  destruct l as [| a l]; [apply Forall_nil_2 |]. cbn [chunks_fuel].
  destruct (chunks_fuel fuel n (drop n (a :: l))) as [| c cs] eqn:E; [apply Forall_nil_2 |].
  change (removelast (?x :: c :: cs)) with (x :: removelast (c :: cs)).
  constructor; [| rewrite <- E; apply IH].
  rewrite length_take, Nat.min_l; [done |]. apply Nat.lt_le_incl, Nat.nle_gt. intros Hle.
  rewrite drop_ge in E by done. by destruct fuel.
Qed.

Lemma removelast_fmap {A B} (f : A -> B) l : removelast (f <$> l) = f <$> removelast l.
Proof.
  induction l as [| x l IH]; [done |]. destruct l; [done |].
  cbn [fmap list_fmap removelast] in *. f_equal. exact IH.
Qed.

(** ** Iterated updates

    A filter or a ramp is an update iterated from an initial state.  To prove a
    boolean property of every iterate it is enough to run the iteration to a
    fixed point, checking on the way. *)
Section Iterate.
Context {A : Type} (f : A -> A) (test : nat -> A -> bool).

(** Checks [fuel] consecutive iterates, the first being number [n]. *)
Fixpoint check_iter (fuel n : nat) (a : A) : bool :=
  match fuel with
  | O => true
  | S fuel => test n a && check_iter fuel (S n) (f a)
  end.

Lemma check_iter_sound fuel n a :
  check_iter fuel n a = true ->
  ∀ i, (i < fuel)%nat -> test (n + i) (Nat.iter i f a) = true.
Proof.
  revert n a; induction fuel as [| fuel IH]; intros n a H i Hi; [lia |].
  cbn [check_iter] in H. apply andb_true_iff in H as [H1 H2].
  destruct i as [| i]; [by rewrite Nat.add_0_r |].
  rewrite Nat.iter_succ_r, Nat.add_succ_r, <- Nat.add_succ_l. apply IH; [done | lia].
Qed.

Lemma iter_fixpoint N a n :
  f (Nat.iter N f a) = Nat.iter N f a -> (N <= n)%nat -> Nat.iter n f a = Nat.iter N f a.
Proof.
  intros Hf Hn. replace n with ((n - N) + N)%nat by lia.
  induction (n - N)%nat as [| k IH]; [done |]. cbn [Nat.add]. rewrite Nat.iter_succ, IH. done.
Qed.

(** The test holds of every iterate if it holds up to the fixed point, and
    there does not depend on the number of the iterate. *)
Lemma check_iter_all N a :
  check_iter (S N) 0 a = true ->
  f (Nat.iter N f a) = Nat.iter N f a ->
  (∀ n b, (N <= n)%nat -> test n b = test N b) ->
  ∀ n, test n (Nat.iter n f a) = true.
Proof.
  intros Hc Hf Ht n. destruct (decide (n <= N)%nat).
  - apply (check_iter_sound (S N) 0 a Hc). lia.
  - rewrite Ht, (iter_fixpoint N a n) by (done || lia).
    apply (check_iter_sound (S N) 0 a Hc). lia.
Qed.

(** An iteration that is busy for exactly [N] steps and then done for ever. *)
Fixpoint check_until (busy done_ : A -> bool) (eqb : A -> A -> bool) (fuel : nat) (a : A) : bool :=
  match fuel with
  | O => done_ a && eqb (f a) a
  | S fuel => busy a && check_until busy done_ eqb fuel (f a)
  end.

Lemma check_until_sound busy done_ (eqb : A -> A -> bool) N a :
  (∀ a b, eqb a b = true -> a = b) -> check_until busy done_ eqb N a = true ->
  ∀ n, ((n < N)%nat -> busy (Nat.iter n f a) = true) ∧ ((N <= n)%nat -> done_ (Nat.iter n f a) = true).
Proof.
  intros He H.
  assert (Hs : (∀ i, (i < N)%nat -> busy (Nat.iter i f a) = true) ∧
               done_ (Nat.iter N f a) = true ∧ f (Nat.iter N f a) = Nat.iter N f a).
  { revert a H. induction N as [| N IH]; intros a H; cbn [check_until] in H; apply andb_true_iff in H as [H1 H2].
    - split_and!; [intros i Hi; lia | done | by apply He].
    - destruct (IH _ H2) as (Hb & Hd & Hf). rewrite Nat.iter_succ_r. split_and!; try done.
      intros [| i] Hi; [done |]. rewrite Nat.iter_succ_r. apply Hb. lia. }
  destruct Hs as (Hb & Hd & Hf). intros n. split; [apply Hb |]. intros Hn.
  by rewrite (iter_fixpoint N a n Hf Hn).
Qed.
End Iterate.

(** A threshold test stabilises after its threshold. *)
Lemma leb_stable k N n : (k <= N)%nat -> (N <= n)%nat -> (k <=? n)%nat = (k <=? N)%nat.
Proof. intros. rewrite !(proj2 (Nat.leb_le _ _)); lia || done. Qed.

Lemma eqb_stable k N n : (k < N)%nat -> (N <= n)%nat -> (n =? k)%nat = (N =? k)%nat.
Proof. intros. rewrite !(proj2 (Nat.eqb_neq _ _)); lia || done. Qed.
