(* ===== verification/Text.v ===== *)
(** * Text and ordered maps.

    What the command-line programs use of [std::string] and [std::map]: searching,
    cutting, the conversions [std::stoi], and a map from strings that is iterated
    in the order of its keys (bytes compared as unsigned, a prefix first). *)

From stdpp Require Export strings sorting.
From Stdlib Require Import Ascii String.
From S2P Require Import Prelude.

Local Open Scope Z_scope.

(** ** std::stoi *)

(** [std::invalid_argument] and [std::out_of_range] are exceptions. *)
Inductive conversion (A : Type) := Converted (a : A) | InvalidArgument | OutOfRange.
Arguments Converted {A} a. Arguments InvalidArgument {A}. Arguments OutOfRange {A}.

(** White space and digits as in the C locale. *)
Fixpoint skip_space (s : string) : string :=
  match s with String c r => if Ascii.is_space c then skip_space r else s | EmptyString => s end.

(** The value of the leading digits, after those that gave [acc]. *)
Fixpoint digits (s : string) (acc : Z) : Z :=
  match s with
  | String c r => match Ascii.is_nat c with Some d => digits r (10 * acc + Z.of_nat d) | None => acc end
  | EmptyString => acc
  end.

Definition starts_with_digit (s : string) : bool :=
  match s with String c _ => bool_decide (is_Some (Ascii.is_nat c)) | EmptyString => false end.

(** The sign [strtol] accepts before the digits. *)
Definition sign (s : string) : bool * string :=
  match s with
  | String "-"%char r => (true, r)
  | String "+"%char r => (false, r)
  | String _ _ => (false, s)
  | EmptyString => (false, s)
  end.

(** Text after the digits is ignored. *)
Definition stoi (s : string) : conversion Z :=
  let '(negative, s) := sign (skip_space s) in
  if starts_with_digit s then
    let z := if negative then - digits s 0 else digits s 0 in
    if decide (in_s 32 z) then Converted z else OutOfRange
  else InvalidArgument.

(** ** std::map<std::string, V> *)

Section Map.
Context {V : Type}.

Abbreviation map := (list (string * V)).

(** [m[k] = v]. *)
Fixpoint map_set (k : string) (v : V) (m : map) : map :=
  match m with
  | [] => [(k, v)]
  | (k', v') :: m' =>
      match String.compare k k' with
      | Lt => (k, v) :: m
      | Eq => (k, v) :: m'
      | Gt => (k', v') :: map_set k v m'
      end
  end.

Fixpoint map_get (k : string) (m : map) : option V :=
  match m with
  | [] => None
  | (k', v') :: m' => if String.eqb k k' then Some v' else map_get k m'
  end.

Definition before (a b : string) : Prop := String.compare a b = Lt.

(** The keys ascend strictly. *)
Definition ascending (m : map) : Prop := StronglySorted before (fst <$> m).

End Map.

(** *** Laws *)

Lemma compare_refl a : String.compare a a = Eq.
Proof. pose proof (String.compare_antisym a a) as H. by destruct (String.compare a a). Qed.

Lemma compare_gt a b : String.compare a b = Gt <-> before b a.
Proof. unfold before. rewrite String.compare_antisym. by destruct (String.compare b a). Qed.

Lemma before_le a b : before a b <-> String.le a b ∧ a ≠ b.
Proof.
  unfold before, String.le, String.leb. split.
  - intros E. rewrite E. split; [done|]. intros ->. by rewrite compare_refl in E.
  - destruct (String.compare a b) eqn:E; [|done|by intros []]. apply String.compare_eq_iff in E. by intros [].
Qed.

#[global] Instance before_trans : Transitive before.
Proof.
  intros a b c [H1 N1]%before_le [H2 N2]%before_le. apply before_le. split; [by etrans|]. intros ->.
  apply N1. by apply (anti_symm String.le).
Qed.

#[global] Instance before_irrefl : Irreflexive before.
Proof. intros a [_ H]%before_le. done. Qed.

Section MapLaws.
Context {V : Type}.

Lemma map_set_keys k (v : V) m a : a ∈ (map_set k v m).*1 <-> a = k ∨ a ∈ m.*1.
Proof.
  induction m as [|[k' v'] m IH]; cbn [map_set].
  { cbn. set_solver. }
  destruct (String.compare k k') eqn:E; cbn [fmap list_fmap fst].
  - apply String.compare_eq_iff in E as ->. set_solver.
  - set_solver.
  - set_solver.
Qed.

Lemma map_set_ascending k (v : V) m : ascending m -> ascending (map_set k v m).
Proof.
  unfold ascending. induction m as [|[k' v'] m IH]; cbn [map_set]; intros H.
  { by repeat constructor. }
  cbn in H. apply StronglySorted_inv in H as [Hs Hf].
  destruct (String.compare k k') eqn:E; cbn.
  - apply String.compare_eq_iff in E as ->. by constructor.
  - constructor; [by constructor|]. constructor; [done|]. eapply Forall_impl; [exact Hf|]. intros x Hx. by etrans.
  - constructor; [by apply IH|]. apply Forall_forall. intros x [->|Hx]%map_set_keys; [by apply compare_gt|].
    rewrite Forall_forall in Hf. by apply Hf.
Qed.

Lemma map_get_set k (v : V) m a : ascending m -> map_get a (map_set k v m) = if decide (a = k) then Some v else map_get a m.
Proof.
  intros Hm. induction m as [|[k' v'] m IH]; cbn [map_set map_get].
  { cbn. destruct (String.eqb_spec a k), (decide (a = k)); done. }
  destruct (String.compare k k') eqn:E; cbn [map_get].
  - apply String.compare_eq_iff in E as ->. destruct (String.eqb_spec a k'), (decide (a = k')); done.
  - destruct (String.eqb_spec a k), (decide (a = k)); done.
  - rewrite IH by (apply StronglySorted_inv in Hm; tauto).
    destruct (String.eqb_spec a k') as [->|]; [|done]. destruct (decide (k' = k)) as [->|]; [|done].
    by rewrite compare_refl in E.
Qed.

Lemma map_get_elem k (v : V) m : ascending m -> (k, v) ∈ m <-> map_get k m = Some v.
Proof.
  induction m as [|[k' v'] m IH]; cbn [map_get]; intros H; [set_solver|].
  apply StronglySorted_inv in H as [Hs Hf]. rewrite elem_of_cons, (IH Hs).
  destruct (String.eqb_spec k k') as [->|Hne]; [|naive_solver]. split; [|naive_solver]. intros [[= ->]|Hg]; [done|].
  exfalso. apply (IH Hs) in Hg. rewrite Forall_forall in Hf. apply (before_irrefl k'). apply Hf.
  apply list_elem_of_fmap. by exists (k', v).
Qed.

(** Keys below the first are absent. *)
Lemma map_get_below k k' (v' : V) m : ascending ((k', v') :: m) -> before k k' -> map_get k ((k', v') :: m) = None.
Proof.
  intros Hm Hk. destruct (map_get k ((k', v') :: m)) as [v|] eqn:E; [|done]. exfalso. apply map_get_elem in E; [|done].
  apply StronglySorted_inv in Hm as [_ Hf]. apply elem_of_cons in E as [[= -> _]|E]; [by apply (before_irrefl k')|].
  rewrite Forall_forall in Hf. apply (before_irrefl k). etrans; [exact Hk|]. apply Hf. apply list_elem_of_fmap. by exists (k, v).
Qed.

Lemma map_get_first k (v : V) m : map_get k ((k, v) :: m) = Some v.
Proof. cbn. by rewrite String.eqb_refl. Qed.

(** Two maps with the same content are the same list. *)
Lemma map_ext (m1 m2 : list (string * V)) :
  ascending m1 -> ascending m2 -> (∀ k, map_get k m1 = map_get k m2) -> m1 = m2.
Proof.
  revert m2. induction m1 as [|[k1 v1] m1 IH]; intros [|[k2 v2] m2] H1 H2 E; [done| | |].
  - specialize (E k2). by rewrite map_get_first in E.
  - specialize (E k1). by rewrite map_get_first in E.
  - destruct (String.compare k1 k2) eqn:C.
    + apply String.compare_eq_iff in C as <-. pose proof (E k1) as Ek. rewrite !map_get_first in Ek. simplify_eq. f_equal.
      pose proof H1 as [Hs1 Hf1]%StronglySorted_inv. pose proof H2 as [Hs2 Hf2]%StronglySorted_inv.
      apply IH; [done|done|]. intros k. specialize (E k). cbn [map_get] in E. destruct (String.eqb_spec k k1) as [Ek|]; [rewrite Ek|done].
      assert (Hno : ∀ m : list (string * V), ascending m -> Forall (before k1) m.*1 -> map_get k1 m = None).
      { intros m Hm Hf. destruct (map_get k1 m) as [v|] eqn:G; [|done]. exfalso. apply map_get_elem in G; [|done].
        rewrite Forall_forall in Hf. apply (before_irrefl k1). apply Hf. apply list_elem_of_fmap. by exists (k1, v). }
      by rewrite !Hno.
    + specialize (E k1). by rewrite map_get_first, map_get_below in E.
    + apply compare_gt in C. specialize (E k2). by rewrite map_get_first, map_get_below in E.
Qed.
End MapLaws.
