(* ===== verification/Floats.v ===== *)
(** * IEEE 754 arithmetic of the C++ [float] and [double] types.

    A [float] is a [spec_float] of precision 24 and maximal exponent 128, a
    [double] one of precision 53 and maximal exponent 1024; the operations are
    the Standard Library's executable round-to-nearest-even specification.
    The targets evaluate each operation in the type of its operands
    (FLT_EVAL_METHOD 0) and the build selects ISO C++17, so no contraction into
    fused operations takes place.  NaN has no sign and no payload here.

    The file gives the operators the sources use, the conversions between the
    two formats, the bit-level codec of [float] objects, and the order lemmas
    on which the clamping and thresholding code of the program rests. *)

From S2P Require Import Prelude.
From Stdlib Require Export SpecFloat.

Local Open Scope Z_scope.

Abbreviation float32 := spec_float (only parsing).
Abbreviation float64 := spec_float (only parsing).

Module F32.
Definition add := SFadd 24 128.
Definition sub := SFsub 24 128.
Definition mul := SFmul 24 128.
Definition div := SFdiv 24 128.
Definition of_Z (z : Z) : float32 := binary_normalize 24 128 z 0 false.
(** Conversion of a [double] to [float]. *)
Definition of_f64 (x : float64) : float32 :=
  match x with
  | S754_finite s m e => binary_round 24 128 s m e
  | _ => x
  end.
End F32.

Module F64.
Definition add := SFadd 53 1024.
Definition sub := SFsub 53 1024.
Definition mul := SFmul 53 1024.
Definition div := SFdiv 53 1024.
Definition of_Z (z : Z) : float64 := binary_normalize 53 1024 z 0 false.
(** Conversion of a [float] to [double]: exact, but renormalised. *)
Definition of_f32 (x : float32) : float64 :=
  match x with
  | S754_finite s m e => binary_round 53 1024 s m e
  | _ => x
  end.
(** The literal [num/den] (an integer over a power of ten): both are exactly
    representable, so the division is the correctly rounded literal. *)
Definition lit (num den : Z) : float64 := div (of_Z num) (of_Z den).
(** [M_PI], 0x400921FB54442D18. *)
Definition M_PI : float64 := S754_finite false 7074237752028440 (-51).
End F64.

(** A literal with an [f] suffix, or a [double] literal stored in a [float]. *)
Definition lit32 (num den : Z) : float32 := F32.of_f64 (F64.lit num den).

(** ** Comparison *)

Definition flt : spec_float -> spec_float -> bool := SFltb.
Definition fle : spec_float -> spec_float -> bool := SFleb.
Definition fgt (x y : spec_float) : bool := SFltb y x.
Definition fneg : spec_float -> spec_float := SFopp.
Definition fabs : spec_float -> spec_float := SFabs.
Definition fzero : spec_float := S754_zero false.

#[global] Instance spec_float_inhabited : Inhabited spec_float := populate fzero.

#[global] Instance spec_float_eq_dec : EqDecision spec_float.
Proof. solve_decision. Defined.

Definition is_nan (x : spec_float) : bool :=
  match x with S754_nan => true | _ => false end.

(** [std::clamp(v, lo, hi)], [std::max(a, b)], [std::min(a, b)], as
    [<algorithm>] defines them: the result is the first argument unless the
    comparison says otherwise, which decides the NaN cases. *)
Definition std_clamp (v lo hi : spec_float) : spec_float :=
  if flt v lo then lo else if flt hi v then hi else v.
Definition std_max (a b : spec_float) : spec_float := if flt a b then b else a.
Definition std_min (a b : spec_float) : spec_float := if flt b a then b else a.

(** Conversion to an integer type discards the fraction; it is undefined on
    NaN, infinities and (checked by the caller) values out of range. *)
Definition ftrunc (x : spec_float) : option Z :=
  match x with
  | S754_zero _ => Some 0
  | S754_finite s m e =>
      let a := if 0 <=? e then Zpos m * 2 ^ e else Zpos m / 2 ^ (- e) in
      Some (if s then - a else a)
  | _ => None
  end.

(** ** The memory image of a [float] *)

Definition bits_of_f32 (x : float32) : Z :=
  match x with
  | S754_zero s => if s then 2 ^ 31 else 0
  | S754_infinity s => (if s then 2 ^ 31 else 0) + 255 * 2 ^ 23
  | S754_nan => 2143289344 (* 0x7FC00000 *)
  | S754_finite s m e =>
      (if s then 2 ^ 31 else 0) +
      (if Zpos m <? 2 ^ 23 then Zpos m else (e + 150) * 2 ^ 23 + (Zpos m - 2 ^ 23))
  end.

Definition f32_of_bits (z : Z) : float32 :=
  let s := Z.testbit z 31 in
  let ex := (z / 2 ^ 23) mod 256 in
  let m := z mod 2 ^ 23 in
  if ex =? 255 then (if m =? 0 then S754_infinity s else S754_nan)
  else if ex =? 0 then
    match m with
    | Zpos p => S754_finite s p (-149)
    | _ => S754_zero s
    end
  else
    match m + 2 ^ 23 with
    | Zpos p => S754_finite s p (ex - 150)
    | _ => S754_nan
    end.

Definition f32_le (x : float32) : bytes := le_bytes 4 (bits_of_f32 x).
Definition f32_read (l : bytes) : float32 := f32_of_bits (le_val l).

(** A [float] object: the exponent and mantissa are in canonical form. *)
Definition f32_ok (x : float32) : bool := valid_binary 24 128 x.

(** ** The order on numbers

    Comparison of canonical floats is lexicographic in sign class, exponent and
    mantissa; [fkey] makes that explicit, which turns order lemmas into integer
    arithmetic. *)

Definition fkey (x : spec_float) : Z * Z * Z :=
  match x with
  | S754_infinity s => (if s then -2 else 2, 0, 0)
  | S754_zero _ => (0, 0, 0)
  | S754_nan => (3, 0, 0)
  | S754_finite true m e => (-1, - e, Zneg m)
  | S754_finite false m e => (1, e, Zpos m)
  end.

Definition lex_lt (a b : Z * Z * Z) : Prop :=
  match a, b with
  | (a1, a2, a3), (b1, b2, b3) =>
      a1 < b1 ∨ (a1 = b1 ∧ (a2 < b2 ∨ (a2 = b2 ∧ a3 < b3)))
  end.

Lemma flt_spec x y :
  flt x y = true <-> is_nan x = false ∧ is_nan y = false ∧ lex_lt (fkey x) (fkey y).
Proof.
  unfold flt, SFltb.
  destruct x as [[]|[]| |[] m e], y as [[]|[]| |[] m' e']; cbn;
    try (intuition (discriminate || lia)).
  - destruct (Z.compare_spec e e'); subst; cbn; try (intuition (discriminate || lia)).
    fold (Pos.compare m m'). destruct (Pos.compare_spec m m'); cbn; intuition (discriminate || lia).
  - destruct (Z.compare_spec e e'); subst; cbn; try (intuition (discriminate || lia)).
    fold (Pos.compare m m'). destruct (Pos.compare_spec m m'); cbn; intuition (discriminate || lia).
Qed.

Lemma fle_spec x y :
  fle x y = true <-> is_nan x = false ∧ is_nan y = false ∧ ¬ lex_lt (fkey y) (fkey x).
Proof.
  unfold fle, SFleb.
  destruct x as [[]|[]| |[] m e], y as [[]|[]| |[] m' e']; cbn;
    try (intuition (discriminate || lia)).
  - destruct (Z.compare_spec e e'); subst; cbn; try (intuition (discriminate || lia)).
    fold (Pos.compare m m'). destruct (Pos.compare_spec m m'); cbn; intuition (discriminate || lia).
  - destruct (Z.compare_spec e e'); subst; cbn; try (intuition (discriminate || lia)).
    fold (Pos.compare m m'). destruct (Pos.compare_spec m m'); cbn; intuition (discriminate || lia).
Qed.

(** [ford] turns float comparisons of the context and the goal into integer
    arithmetic on the keys. *)
Ltac ford :=
  repeat match goal with
    | H : flt _ _ = true |- _ => apply flt_spec in H
    | H : fle _ _ = true |- _ => apply fle_spec in H
    | H : flt _ _ = false |- _ => apply not_true_iff_false in H; rewrite flt_spec in H
    | H : fle _ _ = false |- _ => apply not_true_iff_false in H; rewrite fle_spec in H
    | |- flt _ _ = true => apply flt_spec
    | |- fle _ _ = true => apply fle_spec
    | |- flt _ _ = false => apply not_true_iff_false; rewrite flt_spec
    | |- fle _ _ = false => apply not_true_iff_false; rewrite fle_spec
    end;
  unfold lex_lt in *;
  repeat match goal with
    | H : context [fkey ?x] |- _ => destruct (fkey x) as [[? ?] ?]
    | |- context [fkey ?x] => destruct (fkey x) as [[? ?] ?]
    end;
  simplify_eq; repeat match goal with H : _ ∧ _ |- _ => destruct H end;
  repeat (split; [first [assumption | lia] |]); first [assumption | lia | intuition (congruence || lia)].

Lemma flt_trans x y z : flt x y = true -> flt y z = true -> flt x z = true.
Proof. intros. ford. Qed.

Lemma fle_trans x y z : fle x y = true -> fle y z = true -> fle x z = true.
Proof. intros. ford. Qed.

Lemma flt_asym x y : flt x y = true -> flt y x = false.
Proof. intros. ford. Qed.

Lemma flt_fle x y : flt x y = true -> fle x y = true.
Proof. intros. ford. Qed.

Lemma flt_false_fle x y :
  is_nan x = false -> is_nan y = false -> flt x y = false -> fle y x = true.
Proof. intros. ford. Qed.

Lemma fle_refl x : is_nan x = false -> fle x x = true.
Proof. intros. ford. Qed.

Lemma fle_not_nan_l x y : fle x y = true -> is_nan x = false.
Proof. intros. ford. Qed.

Lemma fle_not_nan_r x y : fle x y = true -> is_nan y = false.
Proof. intros. ford. Qed.

#[export] Hint Resolve fle_refl flt_fle : mach.

(** [x] lies between [lo] and [hi]; in particular it is a number. *)
Definition fin_range (lo x hi : spec_float) : Prop := fle lo x = true ∧ fle x hi = true.

#[global] Instance fin_range_dec lo x hi : Decision (fin_range lo x hi).
Proof. unfold fin_range. apply _. Defined.

Lemma std_clamp_range v lo hi :
  is_nan v = false -> fle lo hi = true -> fin_range lo (std_clamp v lo hi) hi.
Proof.
  intros Hv Hb. unfold fin_range, std_clamp.
  destruct (flt v lo) eqn:E1; [| destruct (flt hi v) eqn:E2]; split; ford.
Qed.

Lemma std_clamp_nan lo hi : std_clamp S754_nan lo hi = S754_nan.
Proof. unfold std_clamp, flt, SFltb. simpl. by destruct hi. Qed.

(** [max(lo, min(hi, x))] lies in [lo, hi] whatever [x] is, NaN included: the
    comparison with NaN is false and [std::min] then keeps its first
    argument. *)
Lemma max_min_range lo hi x :
  fle lo hi = true -> fin_range lo (std_max lo (std_min hi x)) hi.
Proof.
  intros Hb. unfold fin_range, std_max, std_min.
  destruct (flt x hi) eqn:E1;
    [destruct (flt lo x) eqn:E2 | destruct (flt lo hi) eqn:E2]; split; ford.
Qed.

Lemma max_min_id lo hi x :
  fin_range lo x hi -> flt lo x = true -> flt x hi = true -> std_max lo (std_min hi x) = x.
Proof. intros _ H1 H2. unfold std_max, std_min. by rewrite H2, H1. Qed.

(** Equality with a finite nonzero number identifies it. *)
Lemma SFeqb_finite x s m e : SFeqb x (S754_finite s m e) = true -> x = S754_finite s m e.
Proof.
  unfold SFeqb. destruct x as [[] | [] | | [] m' e'], s; cbn; try done;
    destruct (Z.compare_spec e' e) as [-> | |]; try done; fold (Pos.compare m' m);
    destruct (Pos.compare_spec m' m) as [-> | |]; done.
Qed.

(** ** The codec of [float] objects *)

Lemma digits2_pos_spec m :
  2 ^ (Zpos (digits2_pos m) - 1) <= Zpos m < 2 ^ Zpos (digits2_pos m).
Proof.
  induction m as [m IH | m IH |]; cbn [digits2_pos]; [| | done];
    rewrite Pos2Z.inj_succ, Z.pow_succ_r by lia;
    (replace (Z.succ (Zpos (digits2_pos m)) - 1) with (Zpos (digits2_pos m)) by lia);
    pose proof (pow2_half (Zpos (digits2_pos m))); lia.
Qed.

(** The two shapes of a canonical finite [float]: normal and subnormal. *)
Lemma f32_ok_cases s m e :
  f32_ok (S754_finite s m e) = true ->
  (2 ^ 23 <= Zpos m < 2 ^ 24 ∧ -149 <= e <= 104) ∨ (Zpos m < 2 ^ 23 ∧ e = -149).
Proof.
  unfold f32_ok, valid_binary, bounded, canonical_mantissa, fexp, emin.
  intros H. apply andb_true_iff in H as [H1 H2].
  apply Z.eqb_eq in H1. apply Z.leb_le in H2.
  pose proof (digits2_pos_spec m) as [Hlo Hhi].
  set (d := Zpos (digits2_pos m)) in *.
  destruct (decide (d = 24)) as [E | E].
  - rewrite E in *. left. simpl in *. lia.
  - right. split; [| lia]. apply Z.lt_le_trans with (2 ^ d); [done |].
    apply Z.pow_le_mono_r; lia.
Qed.

Lemma bits_of_f32_range x : f32_ok x = true -> in_u 32 (bits_of_f32 x).
Proof.
  intros Hx. unfold in_u, bits_of_f32. destruct x as [[]|[]| |s m e]; try lia.
  apply f32_ok_cases in Hx. destruct s; destruct (Z.ltb_spec (Zpos m) (2 ^ 23)); lia.
Qed.

(** The three fields of the pattern [s * 2^31 + ex * 2^23 + m]. *)
Lemma f32_fields (s : bool) ex m :
  0 <= ex < 256 -> 0 <= m < 2 ^ 23 ->
  let z := (if s then 2 ^ 31 else 0) + (ex * 2 ^ 23 + m) in
  Z.testbit z 31 = s ∧ (z / 2 ^ 23) mod 256 = ex ∧ z mod 2 ^ 23 = m.
Proof.
  intros Hex Hm z. subst z. set (h := if s then 256 else 0).
  replace ((if s then 2 ^ 31 else 0) + (ex * 2 ^ 23 + m)) with (m + (h + ex) * 2 ^ 23)
    by (subst h; destruct s; lia).
  rewrite Z.div_add, Z.mod_add, (Z.div_small m), Z.add_0_l, (Z.mod_small m) by lia.
  split; [| split; [| done]].
  - rewrite Z.testbit_eqb by lia.
    replace (2 ^ 31) with (2 ^ 23 * 256) by done.
    rewrite <- Z.div_div, Z.div_add, (Z.div_small m), Z.add_0_l by lia.
    subst h. destruct s.
    + replace ((256 + ex) / 256) with 1 by (apply (Z.div_unique _ _ 1 ex); lia). done.
    + rewrite Z.div_small by lia. done.
  - subst h. destruct s; [| by apply Z.mod_small].
    symmetry. apply (Z.mod_unique _ _ 1); lia.
Qed.

Lemma f32_of_bits_to_bits x : f32_ok x = true -> f32_of_bits (bits_of_f32 x) = x.
Proof.
  intros Hx. destruct x as [[]|[]| |s m e]; try reflexivity.
  apply f32_ok_cases in Hx. cbn [bits_of_f32].
  assert (∃ ex mm, 0 <= ex < 255 ∧ 0 <= mm < 2 ^ 23 ∧
      (if Zpos m <? 2 ^ 23 then Zpos m else (e + 150) * 2 ^ 23 + (Zpos m - 2 ^ 23))
        = ex * 2 ^ 23 + mm ∧
      ((ex = 0 ∧ mm = Zpos m ∧ e = -149) ∨ (0 < ex ∧ mm + 2 ^ 23 = Zpos m ∧ ex = e + 150)))
    as (ex & mm & Hex & Hmm & -> & Hc).
  { destruct (Z.ltb_spec (Zpos m) (2 ^ 23)).
    - exists 0, (Zpos m). lia.
    - exists (e + 150), (Zpos m - 2 ^ 23). lia. }
  pose proof (f32_fields s ex mm ltac:(lia) Hmm) as (E1 & E2 & E3). unfold f32_of_bits.
  rewrite E1, E2, E3, (proj2 (Z.eqb_neq ex 255)) by lia.
  destruct Hc as [(-> & -> & ->) | (H0 & -> & ->)]; [done |].
  rewrite (proj2 (Z.eqb_neq _ 0)) by lia. by rewrite Z.add_simpl_r.
Qed.

Lemma f32_read_le x : f32_ok x = true -> f32_read (f32_le x) = x.
Proof.
  intros. unfold f32_read, f32_le. rewrite le_val_bytes by by apply bits_of_f32_range.
  by apply f32_of_bits_to_bits.
Qed.

Lemma length_f32_le x : length (f32_le x) = 4%nat.
Proof. apply length_le_bytes. Qed.

#[export] Hint Rewrite length_f32_le : bytes.
#[global] Arguments f32_le : simpl never.
#[global] Arguments f32_read : simpl never.

Example lit_3_percent : bits_of_f32 (lit32 3 100) = 0x3CF5C28F.
Proof. vm_compute. reflexivity. Qed.

Example pi_to_float : bits_of_f32 (F32.of_f64 F64.M_PI) = 0x40490FDB.
Proof. vm_compute. reflexivity. Qed.

(** ** Exact results

    Values that are representable are not changed by rounding. *)

Section Exact.
Context (prec emax : Z) (Hprec : 0 < prec).

Lemma shr_fexp_canonical m e :
  canonical_mantissa prec emax m e = true ->
  shr_fexp prec emax (Zpos m) e loc_Exact = ({| shr_m := Zpos m; shr_r := false; shr_s := false |}, e).
Proof.
  unfold canonical_mantissa, shr_fexp. intros H%Z.eqb_eq. cbn [Zdigits2 shr_record_of_loc].
  rewrite H, Z.sub_diag. done.
Qed.

Lemma binary_round_aux_exact s m e :
  bounded prec emax m e = true ->
  binary_round_aux prec emax s (Zpos m) e loc_Exact = S754_finite s m e.
Proof.
  unfold bounded. intros [Hc He]%andb_true_iff. unfold binary_round_aux.
  rewrite (shr_fexp_canonical _ _ Hc). cbn [shr_m loc_of_shr_record round_nearest_even].
  rewrite (shr_fexp_canonical _ _ Hc). cbn [shr_m]. by rewrite He.
Qed.

Lemma iter_xO m d : Zpos (Pos.iter xO m d) = Zpos m * 2 ^ Zpos d.
Proof.
  induction d using Pos.peano_ind; [cbn; lia|].
  rewrite Pos.iter_succ, Pos2Z.inj_xO, IHd, Pos2Z.inj_succ, Z.pow_succ_r; lia.
Qed.

Lemma digits2_iter_xO m d : digits2_pos (Pos.iter xO m d) = (digits2_pos m + d)%positive.
Proof.
  induction d using Pos.peano_ind; [cbn; lia|].
  rewrite Pos.iter_succ. cbn [digits2_pos]. rewrite IHd. lia.
Qed.

(** A number of at most [prec] bits within the range of the exponent is represented
    exactly. *)
Lemma binary_round_exact s m e :
  Zpos (digits2_pos m) <= prec -> emin prec emax <= Zpos (digits2_pos m) + e - prec -> Zpos (digits2_pos m) + e <= emax ->
  ∃ m' k, 0 <= k ∧ Zpos m' = Zpos m * 2 ^ k ∧ Zpos (digits2_pos m') = prec ∧ binary_round prec emax s m e = S754_finite s m' (e - k).
Proof.
  intros Hd Hlo Hhi. unfold binary_round, shl_align.
  assert (Hf : fexp prec emax (Zpos (digits2_pos m) + e) = Zpos (digits2_pos m) + e - prec).
  { unfold fexp. lia. }
  rewrite Hf. replace (Zpos (digits2_pos m) + e - prec - e) with (Zpos (digits2_pos m) - prec) by lia.
  destruct (Zpos (digits2_pos m) - prec) as [|d|d] eqn:E; [|lia|].
  - exists m, 0. split_and!; [lia|lia|lia|]. rewrite Z.sub_0_r. apply binary_round_aux_exact.
    unfold bounded, canonical_mantissa. rewrite Hf. apply andb_true_iff. split; [lia|]. apply Z.leb_le. lia.
  - exists (Pos.iter xO m d), (Zpos d). split_and!; [lia|apply iter_xO|rewrite digits2_iter_xO; lia|].
    replace (Zpos (digits2_pos m) + e - prec) with (e - Zpos d) by lia. apply binary_round_aux_exact.
    unfold bounded, canonical_mantissa. rewrite digits2_iter_xO.
    apply andb_true_iff. split; [apply Z.eqb_eq; unfold fexp; lia|apply Z.leb_le; lia].
Qed.

(** An integer of at most [prec] bits is represented exactly. *)
Lemma binary_round_int s m :
  Zpos (digits2_pos m) <= prec -> prec < emax ->
  ∃ m' k, 0 <= k ∧ Zpos m' = Zpos m * 2 ^ k ∧ binary_round prec emax s m 0 = S754_finite s m' (- k).
Proof.
  intros Hd He. destruct (binary_round_exact s m 0) as (m' & k & ? & ? & _ & ?); [lia|unfold emin; lia|lia|]. by exists m', k.
Qed.

End Exact.

Lemma ftrunc_scaled s m m' k :
  0 <= k -> Zpos m' = Zpos m * 2 ^ k -> ftrunc (S754_finite s m' (- k)) = Some (if s then Zneg m else Zpos m).
Proof.
  intros Hk E. unfold ftrunc. rewrite E.
  destruct (Z.leb_spec 0 (- k)) as [H|H].
  - assert (k = 0) as -> by lia. by destruct s; rewrite ?Z.mul_1_r.
  - rewrite Z.opp_involutive, Z.div_mul by (apply Z.pow_nonzero; lia). by destruct s.
Qed.

Lemma digits2_pos_le m n : 0 < n -> Zpos m < 2 ^ n -> Zpos (digits2_pos m) <= n.
Proof.
  intros Hn Hm. destruct (digits2_pos_spec m) as [H1 H2].
  destruct (Z.le_gt_cases (Zpos (digits2_pos m)) n) as [|Hgt]; [done|].
  exfalso. assert (2 ^ n <= 2 ^ (Zpos (digits2_pos m) - 1)) by (apply Z.pow_le_mono_r; lia). lia.
Qed.

(** Integers below [2^53] pass through [double] unchanged. *)
Lemma ftrunc_f64_of_Z z : Z.abs z < 2 ^ 53 -> ftrunc (F64.of_Z z) = Some z.
Proof.
  intros Hz. unfold F64.of_Z, binary_normalize.
  destruct z as [|m|m]; [done| |];
    match goal with |- ftrunc (binary_round _ _ ?s _ _) = _ =>
      destruct (binary_round_int 53 1024 ltac:(lia) s m) as (m' & k & Hk & E & ->)
    end; try (apply digits2_pos_le); try lia; by rewrite (ftrunc_scaled _ m).
Qed.

(** A [float] is a [double] with the same value. *)
Lemma f64_of_f32_exact s m e :
  f32_ok (S754_finite s m e) = true ->
  ∃ m' k, 0 <= k ∧ Zpos m' = Zpos m * 2 ^ k ∧ Zpos m' < 2 ^ 53 ∧ F64.of_f32 (S754_finite s m e) = S754_finite s m' (e - k).
Proof.
  intros Hx%f32_ok_cases. assert (Hm : Zpos m < 2 ^ 24) by lia. pose proof (digits2_pos_le m 24 ltac:(lia) Hm) as Hd.
  destruct (binary_round_exact 53 1024 s m e) as (m' & k & Hk & E & Hp & Er); [lia|unfold emin; lia|lia|].
  exists m', k. pose proof (digits2_pos_spec m') as [_ H]. rewrite Hp in H. done.
Qed.

(** *** Multiplication by one *)

Lemma F32_mul_one x : f32_ok x = true -> F32.mul x (F32.of_Z 1) = x.
Proof.
  intros Hx. change (F32.of_Z 1) with (S754_finite false 8388608 (-23)).
  destruct x as [[]|[]| |s m e]; try done.
  unfold F32.mul, SFmul. rewrite xorb_false_r. unfold binary_round_aux, shr_fexp.
  assert (Hm : (m * 8388608 = Pos.iter xO m 23)%positive) by (cbn [Pos.iter]; lia).
  rewrite Hm. cbn [Zdigits2]. rewrite digits2_iter_xO.
  cbn in Hx. unfold bounded in Hx. apply andb_true_iff in Hx as [Hc He].
  pose proof Hc as Hf. unfold canonical_mantissa in Hf. apply Z.eqb_eq in Hf.
  replace (fexp 24 128 (Zpos (digits2_pos m + 23) + (e + -23)) - (e + -23)) with 23
    by (unfold fexp, emin in *; lia).
  cbn [shr shr_record_of_loc iter_pos Pos.iter shr_1 orb shr_m loc_of_shr_record round_nearest_even].
  replace (e + -23 + 23) with e by lia.
  cbn [Zdigits2]. rewrite Hf, Z.sub_diag. cbn [shr shr_m].
  apply Z.leb_le in He. destruct (Z.leb_spec e (128 - 24)); [done|lia].
Qed.
