(* ===== verification/Rounding.v ===== *)
(** * Rounding is monotone.

    The Standard Library gives the executable definition of IEEE rounding but
    no theorem about it.  This file proves the one the range properties of the
    program rest on: when the exact result of an operation lies between two
    representable numbers, the rounded result is a number and lies between them.
    It holds for sums, differences, products and conversions between the
    formats, for every format of at most [double]'s size. *)

From S2P Require Import Prelude Floats.

Local Open Scope Z_scope.

(** ** Values

    Every finite number of the formats in use is an integer multiple of
    [2^-2200]; so is the product of two of them.  [fval] is that integer. *)

Definition scale : Z := 2200.
Definition pw (e : Z) : Z := 2 ^ (e + scale).

Definition fval (x : spec_float) : Z :=
  match x with
  | S754_finite s m e => cond_Zopp s (Zpos m * pw e)
  | _ => 0
  end.

Definition is_finite (x : spec_float) : bool :=
  match x with S754_zero _ | S754_finite _ _ _ => true | _ => false end.

(** A finite number of the format. *)
Definition is_number (prec emax : Z) (x : spec_float) : bool := is_finite x && valid_binary prec emax x.

Lemma pw_pos e : - scale <= e -> 0 < pw e.
Proof. intros. apply Z.pow_pos_nonneg; unfold scale in *; lia. Qed.

Lemma pw_add e n : - scale <= e -> 0 <= n -> pw (e + n) = 2 ^ n * pw e.
Proof.
  intros. unfold pw. rewrite <- Z.pow_add_r by (unfold scale in *; lia). f_equal. lia.
Qed.

Lemma pw_mono e e' : e <= e' -> pw e <= pw e'.
Proof. intros. apply Z.pow_le_mono_r; lia. Qed.

(** ** Shifting with a sticky bit *)

Lemma iter_pos_iter {A} (f : A -> A) n x : iter_pos f n x = Pos.iter f x n.
Proof.
  revert x; induction n as [n IH|n IH|]; intros x; cbn; [| |done].
  - by rewrite !IH, !Pos.iter_swap.
  - by rewrite !IH.
Qed.

Lemma shr_1_spec m r s :
  0 <= m ->
  shr_m (shr_1 {| shr_m := m; shr_r := r; shr_s := s |}) = m / 2 ∧
  (r = false -> s = false -> m mod 2 = 0 ->
   shr_1 {| shr_m := m; shr_r := r; shr_s := s |} = {| shr_m := m / 2; shr_r := false; shr_s := false |}).
Proof.
  intros Hm. destruct m as [|p|p]; [by split; [|intros -> ->]| |lia].
  destruct p as [p|p|]; cbn [shr_1 shr_m orb]; (split; [|intros -> ->]).
  - rewrite Pos2Z.inj_xI. apply Z.div_unique with 1; lia.
  - rewrite Pos2Z.inj_xI. intros H. rewrite Z.add_comm, Z.mul_comm, Z.mod_add in H by lia. done.
  - rewrite Pos2Z.inj_xO. apply Z.div_unique with 0; lia.
  - intros _. f_equal. rewrite Pos2Z.inj_xO. apply Z.div_unique with 0; lia.
  - done.
  - done.
Qed.

Lemma shr_iter m n :
  0 <= m ->
  shr_m (iter_pos shr_1 n {| shr_m := m; shr_r := false; shr_s := false |}) = m / 2 ^ Zpos n ∧
  (m mod 2 ^ Zpos n = 0 ->
   iter_pos shr_1 n {| shr_m := m; shr_r := false; shr_s := false |}
   = {| shr_m := m / 2 ^ Zpos n; shr_r := false; shr_s := false |}).
Proof.
  intros Hm. rewrite iter_pos_iter. induction n as [|n [IH1 IH2]] using Pos.peano_ind.
  { destruct (shr_1_spec m false false Hm) as [H1 H2]. split; [done|]. by apply H2. }
  rewrite Pos.iter_succ, Pos2Z.inj_succ, Z.pow_succ_r, Z.mul_comm by lia.
  rewrite <- Z.div_div by lia.
  assert (Hq : 0 <= m / 2 ^ Zpos n) by (apply Z.div_pos; lia). split.
  - destruct (Pos.iter _ _ n) as [q r s]. cbn [shr_m] in IH1. subst q. by apply shr_1_spec.
  - intros H0. assert (m mod 2 ^ Zpos n = 0 ∧ (m / 2 ^ Zpos n) mod 2 = 0) as [Ha Hb].
    { rewrite Z.rem_mul_r in H0 by lia.
      pose proof (Z.mod_pos_bound m (2 ^ Zpos n)). pose proof (Z.mod_pos_bound (m / 2 ^ Zpos n) 2). nia. }
    rewrite (IH2 Ha). by apply shr_1_spec.
Qed.

(** What [shr_fexp] and the choice of the nearest even mantissa leave. *)
Lemma nearest_spec mrs : round_nearest_even (shr_m mrs) (loc_of_shr_record mrs) = shr_m mrs ∨
                         round_nearest_even (shr_m mrs) (loc_of_shr_record mrs) = shr_m mrs + 1.
Proof.
  destruct mrs as [m [] []]; cbn; try (by left); try (by right). destruct (Z.even m); [by left|by right].
Qed.

(** ** Rounding a positive number *)

Section Format.
Context (prec emax : Z) (Hprec : 1 < prec) (Hemax : prec < emax) (Hsmall : emax + prec <= 1100).

#[local] Abbreviation fexp := (fexp prec emax).
#[local] Abbreviation emin := (emin prec emax).
#[local] Abbreviation number := (is_number prec emax).

Lemma emin_scale : - scale <= 2 * emin.
Proof. unfold SpecFloat.emin, scale. lia. Qed.

Lemma fexp_ge e : emin <= fexp e ∧ e - prec <= fexp e ∧ (fexp e = emin ∨ fexp e = e - prec).
Proof. unfold SpecFloat.fexp. lia. Qed.

Lemma digits_bounds m : 2 ^ (Zpos (digits2_pos m) - 1) <= Zpos m < 2 ^ Zpos (digits2_pos m).
Proof. apply digits2_pos_spec. Qed.

Lemma digits_unique m d : 0 < d -> 2 ^ (d - 1) <= Zpos m < 2 ^ d -> Zpos (digits2_pos m) = d.
Proof.
  intros Hd [H1 H2]. pose proof (digits2_pos_le m d Hd H2). pose proof (digits_bounds m) as [_ H3].
  destruct (Z.le_gt_cases d (Zpos (digits2_pos m))); [lia|].
  assert (2 ^ Zpos (digits2_pos m) <= 2 ^ (d - 1)) by (apply Z.pow_le_mono_r; lia). lia.
Qed.

(** A representable magnitude: mantissa and exponent. *)
Lemma number_finite s m e :
  number (S754_finite s m e) = true <->
  fexp (Zpos (digits2_pos m) + e) = e ∧ e <= emax - prec.
Proof.
  unfold is_number, is_finite. cbn. unfold bounded, canonical_mantissa.
  rewrite andb_true_iff, Z.eqb_eq, Z.leb_le. done.
Qed.

Lemma number_mantissa s m e :
  number (S754_finite s m e) = true ->
  emin <= e ∧ e <= emax - prec ∧ Zpos m < 2 ^ prec ∧ (emin < e -> 2 ^ (prec - 1) <= Zpos m).
Proof.
  intros [He1 He2]%number_finite. pose proof (fexp_ge (Zpos (digits2_pos m) + e)) as (G1 & G2 & G3).
  pose proof (digits_bounds m) as [D1 D2]. split_and!; [lia|lia| |].
  - assert (2 ^ Zpos (digits2_pos m) <= 2 ^ prec) by (apply Z.pow_le_mono_r; lia). lia.
  - intros Hn. assert (Zpos (digits2_pos m) = prec) as <- by lia. done.
Qed.

(** The float of the rounded mantissa [r] at exponent [e]. *)
Definition finish (s : bool) (r e : Z) : spec_float :=
  match r with
  | Zpos p =>
      if Zpos p =? 2 ^ prec then
        if e + 1 <=? emax - prec then S754_finite s (Z.to_pos (2 ^ (prec - 1))) (e + 1) else S754_infinity s
      else if e <=? emax - prec then S754_finite s p e else S754_infinity s
  | _ => S754_zero s
  end.

Lemma shr_fexp_shift m e :
  0 <= m -> 0 <= fexp (Zdigits2 m + e) - e ->
  let n := fexp (Zdigits2 m + e) - e in
  ∃ mrs, shr_fexp prec emax m e loc_Exact = (mrs, e + n) ∧ shr_m mrs = m / 2 ^ n ∧
         (m mod 2 ^ n = 0 -> loc_of_shr_record mrs = loc_Exact).
Proof.
  intros Hm Hn n. unfold shr_fexp. fold n in Hn |- *. clearbody n. destruct n as [|p|p]; cbn [shr].
  - eexists. rewrite Z.add_0_r, Z.pow_0_r, Z.div_1_r. done.
  - cbn [shr_record_of_loc]. eexists. split; [done|]. destruct (shr_iter m p Hm) as [H1 H2].
    split; [exact H1|]. intros H0. by rewrite (H2 H0).
  - lia.
Qed.

Lemma to_pos_pow n : 0 <= n -> Zpos (Z.to_pos (2 ^ n)) = 2 ^ n.
Proof. intros. apply Z2Pos.id. by apply Z.pow_pos_nonneg. Qed.

(** The second normalisation only acts on a mantissa that has grown to [2^prec]. *)
Lemma finish_spec s r e :
  0 <= r <= 2 ^ prec -> emin <= e ->
  (let '(mrs, e') := shr_fexp prec emax r e loc_Exact in
   match shr_m mrs with
   | Z0 => S754_zero s
   | Zpos m => if e' <=? emax - prec then S754_finite s m e' else S754_infinity s
   | Zneg _ => S754_nan
   end) = finish s r e.
Proof.
  intros [Hr1 Hr2] He. destruct r as [|p|p]; [| |lia].
  { unfold shr_fexp. by destruct (fexp (Zdigits2 0 + e) - e) as [|n|n]; cbn [shr shr_record_of_loc];
      [| rewrite (proj2 (shr_iter 0 n ltac:(lia)) ltac:(done)) |]. }
  cbn [finish]. destruct (Z.eqb_spec (Zpos p) (2 ^ prec)) as [Hp|Hp].
  - assert (HD : Zpos (digits2_pos p) = prec + 1).
    { apply digits_unique; [lia|]. replace (prec + 1 - 1) with prec by lia. rewrite Hp. split; [lia|].
      apply Z.pow_lt_mono_r; lia. }
    assert (Hf : fexp (Zdigits2 (Zpos p) + e) - e = 1).
    { cbn [Zdigits2]. rewrite HD. unfold SpecFloat.fexp. lia. }
    destruct (shr_fexp_shift (Zpos p) e) as (mrs & -> & Hm & _); [lia|lia|].
    rewrite Hf, Z.pow_1_r, Hp in Hm. rewrite Hf.
    assert (Hq : shr_m mrs = 2 ^ (prec - 1)).
    { rewrite Hm. replace prec with (prec - 1 + 1) at 1 by lia.
      rewrite Z.pow_add_r, Z.pow_1_r, Z.div_mul by lia. done. }
    rewrite Hq, <- (to_pos_pow (prec - 1)) at 1 by lia. done.
  - assert (HD : Zpos (digits2_pos p) <= prec) by (apply digits2_pos_le; lia).
    unfold shr_fexp. cbn [Zdigits2].
    destruct (fexp (Zpos (digits2_pos p) + e) - e) as [|n|n] eqn:E; [done| |done].
    unfold SpecFloat.fexp in E. lia.
Qed.

Lemma round_mantissa s m e :
  e <= fexp (Zpos (digits2_pos m) + e) ->
  let e1 := fexp (Zpos (digits2_pos m) + e) in
  let q := Zpos m / 2 ^ (e1 - e) in
  ∃ r, binary_round_aux prec emax s (Zpos m) e loc_Exact = finish s r e1 ∧ q <= r <= q + 1 ∧
       (Zpos m mod 2 ^ (e1 - e) = 0 -> r = q) ∧ 0 <= r <= 2 ^ prec.
Proof.
  intros He e1 q. pose proof (fexp_ge (Zpos (digits2_pos m) + e)) as (G1 & G2 & G3). fold e1 in He, G1, G2, G3.
  destruct (shr_fexp_shift (Zpos m) e) as (mrs & E & Hm & Hx); [lia | cbn [Zdigits2]; fold e1; lia |].
  cbn [Zdigits2] in E, Hm, Hx. fold e1 in E, Hm, Hx. fold q in Hm.
  assert (Hq : 0 <= q) by (apply Z.div_pos; [lia | apply Z.pow_pos_nonneg; lia]).
  assert (Hlt : q < 2 ^ prec).
  { apply Z.div_lt_upper_bound; [apply Z.pow_pos_nonneg; lia|].
    rewrite <- Z.pow_add_r by lia. pose proof (digits_bounds m) as [_ D].
    eapply Z.lt_le_trans; [exact D|]. apply Z.pow_le_mono_r; lia. }
  exists (round_nearest_even (shr_m mrs) (loc_of_shr_record mrs)).
  pose proof (nearest_spec mrs) as Hn. rewrite Hm in Hn |- *. split_and!; [| | |intros H0; by rewrite (Hx H0)| |]; try lia.
  unfold binary_round_aux. rewrite E, Hm. replace (e + (e1 - e)) with e1 by lia. apply finish_spec; lia.
Qed.

Lemma pow_split n k : 0 <= n -> 0 <= k -> 2 ^ (n + k) = 2 ^ n * 2 ^ k.
Proof. intros. by apply Z.pow_add_r. Qed.

(** The value rounded to, when nothing overflows. *)
Lemma fval_finish r e :
  0 <= r <= 2 ^ prec -> emin <= e ->
  e <= emax - prec -> (r = 2 ^ prec -> e + 1 <= emax - prec) ->
  is_finite (finish false r e) = true ∧ fval (finish false r e) = r * pw e.
Proof.
  pose proof emin_scale. unfold scale in *.
  intros Hr He H1 H2. destruct r as [|p|p]; [done| |lia]. cbn [finish].
  destruct (Z.eqb_spec (Zpos p) (2 ^ prec)) as [Hp|Hp].
  - destruct (Z.leb_spec (e + 1) (emax - prec)); [|specialize (H2 Hp); lia]. split; [done|].
    cbn [fval cond_Zopp]. rewrite to_pos_pow, Hp, pw_add by (unfold scale, SpecFloat.emin in *; lia).
    rewrite Z.mul_assoc, <- pow_split by lia. f_equal. f_equal. lia.
  - destruct (Z.leb_spec e (emax - prec)); [|lia]. done.
Qed.

(** A rounded result is a number of the format, an infinity or a zero. *)
Lemma finish_valid s r e q :
  q <= r -> 0 <= r <= 2 ^ prec -> emin <= e -> (e = emin ∨ 2 ^ (prec - 1) <= q) ->
  valid_binary prec emax (finish s r e) = true.
Proof.
  intros Hq Hr He Hn. destruct r as [|p|p]; [done| |lia]. cbn [finish].
  destruct (Z.eqb_spec (Zpos p) (2 ^ prec)) as [Hp|Hp].
  - destruct (Z.leb_spec (e + 1) (emax - prec)); [|done].
    cbn. unfold bounded, canonical_mantissa. apply andb_true_iff.
    rewrite (digits_unique _ prec), Z.eqb_eq, Z.leb_le; [| lia |].
    + unfold SpecFloat.fexp. lia.
    + rewrite to_pos_pow by lia. split; [lia|]. apply Z.pow_lt_mono_r; lia.
  - destruct (Z.leb_spec e (emax - prec)); [|done].
    cbn. unfold bounded, canonical_mantissa. apply andb_true_iff. rewrite Z.eqb_eq, Z.leb_le.
    assert (HD : Zpos (digits2_pos p) <= prec) by (apply digits2_pos_le; lia).
    split; [|lia]. destruct Hn as [->|Hn]; [unfold SpecFloat.fexp; lia|].
    rewrite (digits_unique p prec); [unfold SpecFloat.fexp; lia| lia |split; lia].
Qed.

(** Representable numbers below or above the exact value stay so after rounding. *)
Section Sandwich.
Context (m : positive) (e : Z) (He : e <= fexp (Zpos (digits2_pos m) + e)) (Hs : - scale <= e).

#[local] Abbreviation e1 := (fexp (Zpos (digits2_pos m) + e)).
#[local] Abbreviation q := (Zpos m / 2 ^ (e1 - e)).

Lemma pw_e1 : pw e1 = 2 ^ (e1 - e) * pw e.
Proof. rewrite <- pw_add by lia. f_equal. lia. Qed.

Lemma div_bounds : q * 2 ^ (e1 - e) <= Zpos m < (q + 1) * 2 ^ (e1 - e).
Proof.
  assert (0 < 2 ^ (e1 - e)) by (apply Z.pow_pos_nonneg; lia).
  pose proof (Z.div_mod (Zpos m) (2 ^ (e1 - e))). pose proof (Z.mod_pos_bound (Zpos m) (2 ^ (e1 - e))). nia.
Qed.

(** Either the exponent is minimal, or the kept mantissa is full. *)
Lemma kept_full : e1 = emin ∨ 2 ^ (prec - 1) <= q.
Proof.
  destruct (fexp_ge (Zpos (digits2_pos m) + e)) as (_ & _ & [|G]); [by left|]. right.
  pose proof (digits_bounds m) as [D _]. apply Z.div_le_lower_bound; [apply Z.pow_pos_nonneg; lia|].
  rewrite <- pow_split by lia. etransitivity; [|exact D]. apply Z.pow_le_mono_r; lia.
Qed.

Lemma below_exact s ml el :
  number (S754_finite s ml el) = true -> Zpos ml * pw el <= Zpos m * pw e -> Zpos ml * pw el <= q * pw e1.
Proof.
  intros Hl Hle. pose proof (number_mantissa _ _ _ Hl) as (L1 & L2 & L3 & L4).
  pose proof (fexp_ge (Zpos (digits2_pos m) + e)) as (G1 & G2 & G3). pose proof emin_scale as Hsc.
  pose proof (digits_bounds m) as [_ D]. pose proof div_bounds as [DB1 DB2]. unfold scale in *.
  assert (Hpe : 0 < pw e) by (apply pw_pos; unfold scale; lia).
  assert (Hpl : 0 < pw el) by (apply pw_pos; unfold scale, SpecFloat.emin in *; lia).
  destruct (Z.lt_trichotomy el e1) as [Hlt|[->|Hgt]].
  - assert (2 ^ (prec - 1) <= q) by (destruct kept_full; lia).
    apply Z.le_trans with (2 ^ (prec - 1) * pw e1).
    + apply Z.le_trans with (2 ^ prec * pw el); [nia|].
      rewrite <- !pw_add by (unfold scale, SpecFloat.emin in *; lia). apply pw_mono. lia.
    + apply Z.mul_le_mono_nonneg_r; [|lia]. apply Z.lt_le_incl, pw_pos. unfold scale. lia.
  - rewrite pw_e1 in *. apply Z.mul_le_mono_nonneg_r; [lia|].
    apply Z.div_le_lower_bound; [apply Z.pow_pos_nonneg; lia|]. nia.
  - exfalso. specialize (L4 ltac:(lia)). assert (Zpos m * pw e < Zpos ml * pw el); [|lia].
    apply Z.lt_le_trans with (2 ^ Zpos (digits2_pos m) * pw e); [nia|].
    rewrite <- pw_add by (unfold scale; lia).
    apply Z.le_trans with (2 ^ (prec - 1) * pw el); [|nia].
    rewrite <- pw_add by (unfold scale, SpecFloat.emin in *; lia). apply pw_mono. lia.
Qed.

Lemma above_exact s mh eh r :
  number (S754_finite s mh eh) = true -> Zpos m * pw e <= Zpos mh * pw eh ->
  r <= q + 1 -> (Zpos m mod 2 ^ (e1 - e) = 0 -> r = q) -> r <= 2 ^ prec ->
  r * pw e1 <= Zpos mh * pw eh ∧ e1 <= eh ∧ (r = 2 ^ prec -> e1 < eh).
Proof.
  intros Hh Hle Hr Hx Hr2. pose proof (number_mantissa _ _ _ Hh) as (L1 & L2 & L3 & L4).
  pose proof (fexp_ge (Zpos (digits2_pos m) + e)) as (G1 & G2 & G3). pose proof emin_scale as Hsc.
  pose proof (digits_bounds m) as [D _]. pose proof div_bounds as [DB1 DB2]. unfold scale in *.
  assert (Hpe : 0 < pw e) by (apply pw_pos; unfold scale; lia).
  assert (Hpl : 0 < pw eh) by (apply pw_pos; unfold scale, SpecFloat.emin in *; lia).
  destruct (Z.lt_trichotomy eh e1) as [Hlt|[->|Hgt]].
  - exfalso. assert (Zpos mh * pw eh < Zpos m * pw e); [|lia].
    apply Z.lt_le_trans with (2 ^ prec * pw eh); [nia|].
    apply Z.le_trans with (2 ^ (Zpos (digits2_pos m) - 1) * pw e); [|nia].
    rewrite <- !pw_add by (unfold scale, SpecFloat.emin in *; lia). apply pw_mono. lia.
  - assert (Hpow : 0 < 2 ^ (e1 - e)) by (apply Z.pow_pos_nonneg; lia). rewrite pw_e1 in *.
    assert (Hm : Zpos m <= Zpos mh * 2 ^ (e1 - e)) by nia.
    assert (Hrm : r <= Zpos mh).
    { destruct (Z.eq_dec (Zpos m mod 2 ^ (e1 - e)) 0) as [H0|H0].
      - rewrite (Hx H0). apply Z.div_le_upper_bound; lia.
      - assert (q < Zpos mh); [|lia]. apply Z.div_lt_upper_bound; [lia|].
        assert (Zpos m ≠ 2 ^ (e1 - e) * Zpos mh); [|lia].
        intros Heq. apply H0. rewrite Heq, Z.mul_comm. by apply Z.mod_mul; lia. }
    split_and!; [nia|lia|lia].
  - specialize (L4 ltac:(lia)). split_and!; [|lia|lia].
    apply Z.le_trans with (2 ^ prec * pw e1).
    { apply Z.mul_le_mono_nonneg_r; [|lia]. apply Z.lt_le_incl, pw_pos. unfold scale; lia. }
    apply Z.le_trans with (2 ^ (prec - 1) * pw eh); [|nia].
    rewrite <- !pw_add by (unfold scale, SpecFloat.emin in *; lia). apply pw_mono. lia.
Qed.

End Sandwich.

(** ** The sandwich, for either sign *)

Lemma fval_opp x : fval (SFopp x) = - fval x.
Proof. destruct x as [[]|[]| |[] m e]; cbn; lia. Qed.

Lemma number_opp x : number (SFopp x) = number x.
Proof. by destruct x. Qed.

Lemma finish_opp r e : finish true r e = SFopp (finish false r e).
Proof. destruct r; cbn [finish SFopp negb]; [done|repeat split_if; done|done]. Qed.

(** [between lo x hi]: [x] is a number of the format, and lies between. *)
Definition between (lo : Z) (x : spec_float) (hi : Z) : Prop := number x = true ∧ lo <= fval x <= hi.

Lemma round_aux_between_pos m e lo hi :
  e <= fexp (Zpos (digits2_pos m) + e) -> - scale <= e ->
  number lo = true -> number hi = true -> fval lo <= Zpos m * pw e <= fval hi ->
  between (fval lo) (binary_round_aux prec emax false (Zpos m) e loc_Exact) (fval hi).
Proof.
  intros He Hs Hlo Hhi [H1 H2]. assert (Hpe : 0 < pw e) by by apply pw_pos.
  pose proof (fexp_ge (Zpos (digits2_pos m) + e)) as (G1 & _).
  destruct (round_mantissa false m e He) as (r & -> & Hq & Hx & Hr).
  assert (∃ mh eh, hi = S754_finite false mh eh) as (mh & eh & ->).
  { destruct hi as [s|s| |[] mh eh]; cbn [fval cond_Zopp] in H2; try nia; [|by eauto].
    assert (0 < pw eh); [|nia]. apply pw_pos. pose proof (number_mantissa _ _ _ Hhi). pose proof emin_scale.
    unfold scale, SpecFloat.emin in *. lia. }
  destruct (above_exact m e He Hs false mh eh r Hhi H2) as (A1 & A2 & A3); [lia|done|lia|].
  pose proof (number_mantissa _ _ _ Hhi) as (_ & M2 & _).
  destruct (fval_finish r (fexp (Zpos (digits2_pos m) + e))) as [Hf Hv]; [lia|lia|lia|lia|].
  unfold between, is_number. rewrite Hf, Hv. split.
  - eapply finish_valid; [apply Hq|lia|lia|]. by apply kept_full.
  - cbn [fval cond_Zopp]. split; [|exact A1].
    assert (Hp1 : 0 < pw (fexp (Zpos (digits2_pos m) + e))).
    { apply pw_pos. pose proof emin_scale. unfold scale, SpecFloat.emin in *. lia. }
    destruct lo as [s|s| |[] ml el]; cbn [fval cond_Zopp] in H1 |- *; try nia.
    + assert (0 < pw el); [|nia]. apply pw_pos. pose proof (number_mantissa _ _ _ Hlo). pose proof emin_scale.
      unfold scale, SpecFloat.emin in *. lia.
    + pose proof (below_exact m e He Hs false ml el Hlo H1). nia.
Qed.

Lemma round_aux_between s m e lo hi :
  e <= fexp (Zpos (digits2_pos m) + e) -> - scale <= e ->
  number lo = true -> number hi = true -> fval lo <= cond_Zopp s (Zpos m * pw e) <= fval hi ->
  between (fval lo) (binary_round_aux prec emax s (Zpos m) e loc_Exact) (fval hi).
Proof.
  destruct s; cbn [cond_Zopp]; [|apply round_aux_between_pos]. intros He Hs Hlo Hhi H.
  destruct (round_aux_between_pos m e (SFopp hi) (SFopp lo)) as [Hn Hb];
    [done|done|by rewrite number_opp|by rewrite number_opp|rewrite !fval_opp; lia|].
  assert (binary_round_aux prec emax true (Zpos m) e loc_Exact
          = SFopp (binary_round_aux prec emax false (Zpos m) e loc_Exact)) as ->.
  { clear. unfold binary_round_aux. destruct (shr_fexp _ _ _ _ _) as [mrs e1].
    destruct (shr_fexp _ _ _ e1 _) as [mrs' e']. destruct (shr_m mrs'); [done| |done]. by split_if. }
  unfold between. rewrite number_opp, fval_opp, !fval_opp in *. split; [done|lia].
Qed.

Lemma binary_round_between s m e lo hi :
  - scale <= e -> number lo = true -> number hi = true ->
  fval lo <= cond_Zopp s (Zpos m * pw e) <= fval hi ->
  between (fval lo) (binary_round prec emax s m e) (fval hi).
Proof.
  intros Hs Hlo Hhi H. unfold binary_round, shl_align.
  pose proof (fexp_ge (Zpos (digits2_pos m) + e)) as (G1 & _). pose proof emin_scale.
  destruct (fexp (Zpos (digits2_pos m) + e) - e) as [|d|d] eqn:E;
    [apply round_aux_between; [lia|done..]|apply round_aux_between; [lia|done..]|].
  assert (Hd : Zpos (digits2_pos (Pos.iter xO m d)) + fexp (Zpos (digits2_pos m) + e) = Zpos (digits2_pos m) + e).
  { rewrite digits2_iter_xO. lia. }
  apply round_aux_between; [rewrite Hd; lia|unfold scale, SpecFloat.emin in *; lia|done|done|].
  rewrite iter_xO. replace (fexp (Zpos (digits2_pos m) + e)) with (e - Zpos d) in G1 |- * by lia.
  replace (Zpos m * 2 ^ Zpos d * pw (e - Zpos d)) with (Zpos m * pw e); [done|].
  replace e with (e - Zpos d + Zpos d) at 1 by lia.
  rewrite pw_add by (unfold scale, SpecFloat.emin in *; lia). lia.
Qed.

Lemma binary_normalize_between m e s lo hi :
  - scale <= e -> number lo = true -> number hi = true ->
  fval lo <= m * pw e <= fval hi ->
  between (fval lo) (binary_normalize prec emax m e s) (fval hi).
Proof.
  intros Hs Hlo Hhi H. destruct m as [|m|m]; cbn [binary_normalize].
  - split; [done|]. cbn. lia.
  - by apply (binary_round_between false).
  - apply (binary_round_between true); [done..|]. cbn [cond_Zopp]. lia.
Qed.

(** ** The operations *)

Lemma number_scale s m e : number (S754_finite s m e) = true -> emin <= e.
Proof. intros (H & _)%number_mantissa. exact H. Qed.

Lemma shl_align_fst m e e' :
  - scale <= e' -> e' <= e -> Zpos (shl_align m e e').1 * pw e' = Zpos m * pw e.
Proof.
  intros Hs He. unfold shl_align. destruct (e' - e) as [|d|d] eqn:E; cbn [fst]; [by replace e' with e by lia|lia|].
  rewrite iter_xO. replace e with (e' + Zpos d) by lia. rewrite pw_add by lia. lia.
Qed.

Lemma shl_align_signed s m e e' :
  - scale <= e' -> e' <= e -> cond_Zopp s (Zpos (shl_align m e e').1) * pw e' = cond_Zopp s (Zpos m * pw e).
Proof. intros H1 H2. rewrite <- (shl_align_fst m e e' H1 H2). destruct s; cbn [cond_Zopp]; lia. Qed.

Lemma between_fval x : number x = true -> between (fval x) x (fval x).
Proof. intros. split; [done|lia]. Qed.

Lemma add_between x y lo hi :
  number x = true -> number y = true -> number lo = true -> number hi = true ->
  fval lo <= fval x + fval y <= fval hi -> between (fval lo) (SFadd prec emax x y) (fval hi).
Proof.
  intros Hx Hy Hlo Hhi H. pose proof emin_scale.
  destruct x as [sx|sx| |sx mx ex], y as [sy|sy| |sy my ey]; try done; cbn [SFadd].
  - assert (Hb : ∀ s, between (fval lo) (S754_zero s) (fval hi)) by (intros s; split; [done|exact H]). destruct sx, sy; apply Hb.
  - split; [exact Hx|]. cbn [fval] in H |- *. lia.
  - apply number_scale in Hx, Hy. apply binary_normalize_between;
      [unfold scale, SpecFloat.emin in *; lia|done|done|]. cbn [fval] in H.
    rewrite Z.mul_add_distr_r.
    rewrite !shl_align_signed by (unfold scale, SpecFloat.emin in *; lia). done.
Qed.

Lemma sub_opp x y : is_finite x = true -> is_finite y = true -> SFsub prec emax x y = SFadd prec emax x (SFopp y).
Proof.
  destruct x as [[]|[]| |[] mx ex], y as [[]|[]| |[] my ey]; try done; intros _ _; cbn [SFsub SFadd SFopp negb cond_Zopp];
    rewrite ?Z.sub_opp_r, ?Z.add_opp_r; done.
Qed.

Lemma number_is_finite x : number x = true -> is_finite x = true.
Proof. intros [H _]%andb_true_iff. done. Qed.

Lemma sub_between x y lo hi :
  number x = true -> number y = true -> number lo = true -> number hi = true ->
  fval lo <= fval x - fval y <= fval hi -> between (fval lo) (SFsub prec emax x y) (fval hi).
Proof.
  intros Hx Hy Hlo Hhi H. rewrite sub_opp by by apply number_is_finite.
  apply add_between; [done|by rewrite number_opp|done|done|]. rewrite fval_opp. lia.
Qed.

Lemma mul_exponent mx ex my ey sx sy :
  number (S754_finite sx mx ex) = true -> number (S754_finite sy my ey) = true ->
  ex + ey <= fexp (Zpos (digits2_pos (mx * my)) + (ex + ey)).
Proof.
  intros Hx Hy. apply number_mantissa in Hx as (X1 & _ & X2 & X3), Hy as (Y1 & _ & Y2 & Y3).
  pose proof (fexp_ge (Zpos (digits2_pos (mx * my)) + (ex + ey))) as (G1 & G2 & _).
  assert (Hd : 2 ^ (prec - 1) <= Zpos (mx * my) -> prec <= Zpos (digits2_pos (mx * my))).
  { intros H. pose proof (digits_bounds (mx * my)) as [_ D].
    destruct (Z.le_gt_cases prec (Zpos (digits2_pos (mx * my)))); [done|].
    assert (2 ^ Zpos (digits2_pos (mx * my)) <= 2 ^ (prec - 1)) by (apply Z.pow_le_mono_r; lia). lia. }
  rewrite Pos2Z.inj_mul in Hd.
  destruct (Z.eq_dec ex emin) as [->|]; [|specialize (X3 ltac:(lia)); specialize (Hd ltac:(nia)); lia].
  destruct (Z.eq_dec ey emin) as [->|]; [|specialize (Y3 ltac:(lia)); specialize (Hd ltac:(nia)); lia].
  unfold SpecFloat.emin in *. lia.
Qed.

Lemma mul_between x y lo hi :
  number x = true -> number y = true -> number lo = true -> number hi = true ->
  fval lo * pw 0 <= fval x * fval y <= fval hi * pw 0 -> between (fval lo) (SFmul prec emax x y) (fval hi).
Proof.
  intros Hx Hy Hlo Hhi H. pose proof emin_scale.
  assert (Hp0 : 0 < pw 0) by (apply pw_pos; unfold scale; lia).
  assert (Hz : ∀ s, fval lo * pw 0 <= 0 <= fval hi * pw 0 -> between (fval lo) (S754_zero s) (fval hi)).
  { intros s Hb. split; [done|]. cbn [fval]. nia. }
  destruct x as [sx|sx| |sx mx ex], y as [sy|sy| |sy my ey]; try done; cbn [SFmul];
    try (apply Hz; cbn [fval] in H; lia).
  pose proof (number_scale _ _ _ Hx). pose proof (number_scale _ _ _ Hy).
  apply round_aux_between; [by eapply mul_exponent|unfold scale in *; lia|done|done|].
  assert (Hc : cond_Zopp (xorb sx sy) (Zpos (mx * my) * pw (ex + ey)) * pw 0
               = cond_Zopp sx (Zpos mx * pw ex) * cond_Zopp sy (Zpos my * pw ey)).
  { assert (Hpp : pw (ex + ey) * pw 0 = pw ex * pw ey).
    { unfold pw. rewrite <- !Z.pow_add_r by (unfold scale, SpecFloat.emin in *; lia). f_equal. lia. }
    rewrite Pos2Z.inj_mul. destruct sx, sy; cbn [xorb cond_Zopp];
      rewrite ?Z.mul_opp_l, ?Z.mul_opp_r, ?Z.opp_involutive, <- ?Z.mul_assoc, Hpp; ring. }
  cbn [fval] in H. nia.
Qed.

(** [x * y] lies between 0 and [x] when [0 <= y <= 1]. *)
Lemma mul_unit_between x y :
  number x = true -> number y = true -> 0 <= fval y <= pw 0 ->
  between (Z.min 0 (fval x)) (SFmul prec emax x y) (Z.max 0 (fval x)).
Proof.
  intros Hx Hy H. destruct (Z.le_ge_cases 0 (fval x)).
  - rewrite Z.min_l, Z.max_r by lia. apply (mul_between x y (S754_zero false) x); [done..|]. cbn [fval]. nia.
  - rewrite Z.min_r, Z.max_l by lia. apply (mul_between x y x (S754_zero false)); [done..|]. cbn [fval]. nia.
Qed.

(** ** Comparison is comparison of the values *)

Lemma magnitude_lt s s' mx ex my ey :
  number (S754_finite s mx ex) = true -> number (S754_finite s' my ey) = true -> ex < ey ->
  Zpos mx * pw ex < Zpos my * pw ey.
Proof.
  intros (X1 & _ & X2 & _)%number_mantissa (_ & _ & _ & Y)%number_mantissa Hlt.
  pose proof emin_scale. specialize (Y ltac:(lia)).
  assert (Hx : 0 < pw ex) by (apply pw_pos; unfold scale, SpecFloat.emin in *; lia).
  assert (Hy : 0 < pw ey) by (apply pw_pos; unfold scale, SpecFloat.emin in *; lia).
  apply Z.lt_le_trans with (2 ^ prec * pw ex); [nia|].
  apply Z.le_trans with (2 ^ (prec - 1) * pw ey); [|nia].
  rewrite <- !pw_add by (unfold scale, SpecFloat.emin in *; lia). apply pw_mono. lia.
Qed.

Lemma magnitude_compare s s' mx ex my ey :
  number (S754_finite s mx ex) = true -> number (S754_finite s' my ey) = true ->
  (match Z.compare ex ey with Lt => Lt | Gt => Gt | Eq => Pos.compare_cont Eq mx my end)
  = Z.compare (Zpos mx * pw ex) (Zpos my * pw ey).
Proof.
  intros Hx Hy. destruct (Z.compare_spec ex ey) as [->|Hlt|Hgt].
  - rewrite <- (Zmult_compare_compat_r _ _ (pw ey)); [done|]. apply Z.lt_gt, pw_pos. apply number_scale in Hx.
    pose proof emin_scale. unfold scale, SpecFloat.emin in *. lia.
  - symmetry. apply Z.compare_lt_iff. by eapply magnitude_lt.
  - symmetry. apply Z.compare_gt_iff. by eapply magnitude_lt.
Qed.

Lemma compare_fval x y :
  number x = true -> number y = true -> SFcompare x y = Some (Z.compare (fval x) (fval y)).
Proof.
  intros Hx Hy.
  assert (Hp : ∀ s m e, number (S754_finite s m e) = true -> 0 < Zpos m * pw e).
  { intros s m e H%number_scale. pose proof emin_scale.
    assert (0 < pw e) by (apply pw_pos; unfold scale, SpecFloat.emin in *; lia). lia. }
  destruct x as [sx|sx| |sx mx ex], y as [sy|sy| |sy my ey]; try done; cbn [SFcompare fval].
  - f_equal. specialize (Hp _ _ _ Hy). destruct sy; cbn [cond_Zopp]; symmetry;
      [apply Z.compare_gt_iff|apply Z.compare_lt_iff]; lia.
  - f_equal. specialize (Hp _ _ _ Hx). destruct sx; cbn [cond_Zopp]; symmetry;
      [apply Z.compare_lt_iff|apply Z.compare_gt_iff]; lia.
  - f_equal. pose proof (Hp _ _ _ Hx). pose proof (Hp _ _ _ Hy).
    pose proof (magnitude_compare _ _ _ _ _ _ Hx Hy) as Hc. destruct sx, sy; cbn [cond_Zopp].
    + rewrite Z.compare_opp, (Z.compare_antisym (Zpos mx * pw ex)), <- Hc. by destruct (ex ?= ey).
    + symmetry. apply Z.compare_lt_iff. lia.
    + symmetry. apply Z.compare_gt_iff. lia.
    + exact Hc.
Qed.

Lemma fle_fval x y : number x = true -> number y = true -> fle x y = true <-> fval x <= fval y.
Proof.
  intros Hx Hy. unfold fle, SFleb. rewrite (compare_fval _ _ Hx Hy). destruct (Z.compare_spec (fval x) (fval y)); naive_solver lia.
Qed.

(** ** The rounding error on a grid

    All multiples of [2^e] below [2^(prec + e)] are representable, so rounding
    moves a smaller number by less than [2^e]. *)

Lemma grid z e :
  Z.abs z < 2 ^ prec -> emin + prec <= e -> e <= emax - prec -> ∃ x, number x = true ∧ fval x = z * pw e.
Proof.
  intros Hz He1 He2. pose proof emin_scale. destruct (Z.eq_dec z 0) as [->|Hne]; [by exists (S754_zero false)|].
  assert (Hm : ∃ s m, z = cond_Zopp s (Zpos m) ∧ Zpos m < 2 ^ prec).
  { destruct z as [|m|m]; [done|exists false, m|exists true, m]; cbn [cond_Zopp]; lia. }
  destruct Hm as (s & m & -> & Hm). clear Hz Hne.
  assert (HD : Zpos (digits2_pos m) <= prec) by (apply digits2_pos_le; lia).
  destruct (Z.eq_dec (Zpos (digits2_pos m)) prec) as [Hd|Hd].
  - exists (S754_finite s m e). split; [apply number_finite; unfold SpecFloat.fexp; lia|].
    cbn [fval]. destruct s; cbn [cond_Zopp]; lia.
  - set (k := Z.to_pos (prec - Zpos (digits2_pos m))).
    assert (Hk : Zpos k = prec - Zpos (digits2_pos m)) by (apply Z2Pos.id; lia).
    exists (S754_finite s (Pos.iter xO m k) (e - Zpos k)). split.
    + apply number_finite. rewrite digits2_iter_xO. unfold SpecFloat.fexp. lia.
    + cbn [fval]. rewrite iter_xO.
      assert (Hp : pw e = 2 ^ Zpos k * pw (e - Zpos k)).
      { rewrite <- pw_add by (unfold scale, SpecFloat.emin in *; lia). f_equal. lia. }
      rewrite Hp. destruct s; cbn [cond_Zopp]; lia.
Qed.

(** The grid points around a value. *)
Lemma grid_around v e :
  Z.abs v < (2 ^ prec - 1) * pw e -> emin + prec <= e -> e <= emax - prec ->
  ∃ lo hi, number lo = true ∧ number hi = true ∧ v - pw e <= fval lo <= v ∧ v <= fval hi <= v + pw e.
Proof.
  intros Hv He1 He2. pose proof emin_scale.
  assert (Hp : 0 < pw e) by (apply pw_pos; unfold scale, SpecFloat.emin in *; lia).
  pose proof (Z.div_mod v (pw e)). pose proof (Z.mod_pos_bound v (pw e)).
  assert (Hq : - 2 ^ prec < v / pw e ∧ v / pw e + 1 < 2 ^ prec) by nia.
  destruct (grid (v / pw e) e) as (lo & Lo1 & Lo2); [lia|done|done|].
  destruct (grid (v / pw e + 1) e) as (hi & Hi1 & Hi2); [lia|done|done|].
  exists lo, hi. rewrite Lo2, Hi2. split_and!; try done; nia.
Qed.

Lemma add_near x y e :
  number x = true -> number y = true -> emin + prec <= e -> e <= emax - prec ->
  Z.abs (fval x + fval y) < (2 ^ prec - 1) * pw e ->
  between (fval x + fval y - pw e) (SFadd prec emax x y) (fval x + fval y + pw e).
Proof.
  intros Hx Hy He1 He2 Hv. destruct (grid_around _ e Hv He1 He2) as (lo & hi & Hlo & Hhi & H1 & H2).
  destruct (add_between x y lo hi Hx Hy Hlo Hhi) as [Hn Hb]; [lia|]. split; [exact Hn|lia].
Qed.

Lemma sub_near x y e :
  number x = true -> number y = true -> emin + prec <= e -> e <= emax - prec ->
  Z.abs (fval x - fval y) < (2 ^ prec - 1) * pw e ->
  between (fval x - fval y - pw e) (SFsub prec emax x y) (fval x - fval y + pw e).
Proof.
  intros Hx Hy He1 He2 Hv. destruct (grid_around _ e Hv He1 He2) as (lo & hi & Hlo & Hhi & H1 & H2).
  destruct (sub_between x y lo hi Hx Hy Hlo Hhi) as [Hn Hb]; [lia|]. split; [exact Hn|lia].
Qed.

(** The product is scaled once, so it is compared with the exact one times
    [pw 0]. *)
Lemma mul_near x y e :
  number x = true -> number y = true -> emin + prec <= e -> e <= emax - prec ->
  Z.abs (fval x * fval y) + pw 0 < (2 ^ prec - 1) * pw e * pw 0 ->
  number (SFmul prec emax x y) = true ∧
  fval x * fval y - 2 * pw e * pw 0 <= fval (SFmul prec emax x y) * pw 0 <= fval x * fval y + 2 * pw e * pw 0.
Proof.
  intros Hx Hy He1 He2 Hv. pose proof emin_scale.
  assert (Hp : 1 <= pw e) by (pose proof (pw_pos e); unfold scale, SpecFloat.emin in *; lia).
  assert (Hp0 : 0 < pw 0) by (apply pw_pos; unfold scale; lia).
  set (v := fval x * fval y) in *.
  pose proof (Z.div_mod v (pw 0)). pose proof (Z.mod_pos_bound v (pw 0)). set (d := v / pw 0) in *.
  destruct (grid_around d e) as (lo & _ & Hlo & _ & L & _); [nia|done|done|].
  destruct (grid_around (d + 1) e) as (_ & hi & _ & Hhi & _ & U); [nia|done|done|].
  destruct (mul_between x y lo hi Hx Hy Hlo Hhi) as [Hn Hb]; [fold v; nia|]. split; [exact Hn|nia].
Qed.
End Format.

(** ** The two formats *)

Abbreviation ok32 := (is_number 24 128).
Abbreviation ok64 := (is_number 53 1024).

(** Widening is exact. *)
Lemma of_f32_exact x : ok32 x = true -> ok64 (F64.of_f32 x) = true ∧ fval (F64.of_f32 x) = fval x.
Proof.
  intros Hx. destruct x as [sx|sx| |s m e]; try done. cbn [F64.of_f32].
  pose proof (number_mantissa 24 128 ltac:(lia) ltac:(lia) ltac:(lia) _ _ _ Hx) as (E1 & E2 & M1 & M2). unfold emin in *.
  assert (HD : Zpos (digits2_pos m) <= 24) by by apply digits2_pos_le; [lia|].
  set (k := Z.to_pos (53 - Zpos (digits2_pos m))).
  assert (Hk : Zpos k = 53 - Zpos (digits2_pos m)) by (apply Z2Pos.id; lia).
  set (z := S754_finite s (Pos.iter xO m k) (e - Zpos k)).
  assert (Hz : ok64 z = true).
  { apply number_finite. rewrite digits2_iter_xO. unfold fexp, emin. lia. }
  assert (Hv : fval z = cond_Zopp s (Zpos m * pw e)).
  { cbn [fval z]. rewrite iter_xO. f_equal. replace e with (e - Zpos k + Zpos k) at 2 by lia.
    rewrite (pw_add _ (Zpos k)) by (unfold scale; lia). lia. }
  destruct (binary_round_between 53 1024 ltac:(lia) ltac:(lia) ltac:(lia) s m e z z) as [H1 H2];
    [unfold scale; lia|done|done|rewrite Hv; lia|]. split; [exact H1|]. cbn [fval]. rewrite <- Hv. lia.
Qed.

(** Narrowing rounds. *)
Lemma of_f64_between x lo hi :
  ok64 x = true -> ok32 lo = true -> ok32 hi = true -> fval lo <= fval x <= fval hi ->
  between 24 128 (fval lo) (F32.of_f64 x) (fval hi).
Proof.
  intros Hx Hlo Hhi H. destruct x as [sx|sx| |s m e]; try done.
  pose proof (number_mantissa 53 1024 ltac:(lia) ltac:(lia) ltac:(lia) _ _ _ Hx) as (E1 & _). unfold emin in *.
  apply binary_round_between; [lia|lia|lia|unfold scale; lia|done|done|exact H].
Qed.

Lemma of_f64_near x e :
  ok64 x = true -> -149 + 24 <= e -> e <= 104 -> Z.abs (fval x) < (2 ^ 24 - 1) * pw e ->
  between 24 128 (fval x - pw e) (F32.of_f64 x) (fval x + pw e).
Proof.
  intros Hx He1 He2 Hv. destruct (grid_around 24 128 ltac:(lia) ltac:(lia) ltac:(lia) (fval x) e Hv)
    as (lo & hi & Hlo & Hhi & H1 & H2); [unfold emin; lia|lia|].
  destruct (of_f64_between x lo hi Hx Hlo Hhi) as [Hn Hb]; [lia|]. split; [exact Hn|lia].
Qed.

(** The conversion of an integer that is bounded by representable numbers. *)
Lemma of_Z32_between z lo hi :
  ok32 lo = true -> ok32 hi = true -> fval lo <= z * pw 0 <= fval hi ->
  between 24 128 (fval lo) (F32.of_Z z) (fval hi).
Proof. intros. apply binary_normalize_between; [lia|lia|lia|unfold scale; lia|done..]. Qed.

(** ** Derived bounds *)

Lemma fle32 x y : ok32 x = true -> ok32 y = true -> fle x y = true <-> fval x <= fval y.
Proof. intros Hx Hy. by apply (fle_fval 24 128). Qed.

Lemma fle64 x y : ok64 x = true -> ok64 y = true -> fle x y = true <-> fval x <= fval y.
Proof. intros Hx Hy. by apply (fle_fval 53 1024). Qed.

Lemma flt64 x y : ok64 x = true -> ok64 y = true -> flt x y = true <-> fval x < fval y.
Proof.
  intros Hx Hy. unfold flt, SFltb. rewrite (compare_fval 53 1024) by (lia || done).
  destruct (Z.compare_spec (fval x) (fval y)); naive_solver lia.
Qed.

Lemma SFmul_comm prec emax x y : SFmul prec emax x y = SFmul prec emax y x.
Proof.
  destruct x as [sx|sx| |sx mx ex], y as [sy|sy| |sy my ey]; cbn [SFmul]; try done;
    rewrite (xorb_comm sx sy); [done..|]. by rewrite (Pos.mul_comm mx my), (Z.add_comm ex ey).
Qed.

Lemma between_number {prec emax lo x hi} : between prec emax lo x hi -> is_number prec emax x = true.
Proof. by intros [H _]. Qed.

Lemma fval_one_64 : fval (F64.of_Z 1) = pw 0.
Proof. vm_compute. reflexivity. Qed.

(** ** Angles *)

(** Two units of 2^-21, about 9.5e-7 rad. *)
Definition tolerance : Z := 2 * pw (-21).

(** An angle of at most 4 rad. *)
Definition angle_ok (q : float32) : bool := ok32 q && fle (F32.of_Z (-4)) q && fle q (F32.of_Z 4).

Lemma unit_pw : pw 0 = 2 ^ 21 * pw (-21).
Proof. apply (pw_add (-21) 21); unfold scale; lia. Qed.

Lemma angle_spec q : angle_ok q = true -> ok32 q = true ∧ Z.abs (fval q) <= 4 * pw 0.
Proof.
  intros [[Hq H1]%andb_true_iff H2]%andb_true_iff. rewrite fle32 in H1, H2 by done.
  assert (E1 : fval (F32.of_Z 4) = 4 * pw 0) by (vm_compute; reflexivity).
  assert (E2 : fval (F32.of_Z (-4)) = - (4 * pw 0)) by (vm_compute; reflexivity).
  split; [done|]. lia.
Qed.

Lemma pw_21_pos : 0 < pw (-21).
Proof. apply pw_pos. unfold scale. lia. Qed.
