(* ===== verification/Division.v ===== *)
(** * Rounded division.

    Extends [Rounding] to quotients: when the exact quotient by a positive number
    lies between two representable numbers, so does the rounded one. *)

From S2P Require Import Prelude Floats Rounding.

Local Open Scope Z_scope.

(** The sticky location of a quotient as two more bits of its mantissa. *)
Definition more_bits (q : positive) (l : location) : positive :=
  match l with
  | loc_Exact => q~0~0
  | loc_Inexact Lt => q~0~1
  | loc_Inexact Eq => q~1~0
  | loc_Inexact Gt => q~1~1
  end.

Lemma shr_more_bits q l :
  shr_1 (shr_1 {| shr_m := Zpos (more_bits q l); shr_r := false; shr_s := false |}) = shr_record_of_loc (Zpos q) l.
Proof. by destruct l as [|[]]. Qed.

Lemma digits_more_bits q l : digits2_pos (more_bits q l) = Pos.succ (Pos.succ (digits2_pos q)).
Proof. by destruct l as [|[]]. Qed.

Section Format.
Context (prec emax : Z) (Hprec : 1 < prec) (Hemax : prec < emax) (Hsmall : emax + prec <= 1100).

#[local] Abbreviation fexp := (fexp prec emax).
#[local] Abbreviation emin := (emin prec emax).
#[local] Abbreviation number := (is_number prec emax).

(** Rounding with a location is rounding the longer mantissa exactly. *)
Lemma shr_fexp_more_bits q e l :
  e <= fexp (Zpos (digits2_pos q) + e) ->
  shr_fexp prec emax (Zpos q) e l = shr_fexp prec emax (Zpos (more_bits q l)) (e - 2) loc_Exact.
Proof.
  intros He. unfold shr_fexp. cbn [Zdigits2 shr_record_of_loc]. rewrite digits_more_bits.
  replace (Zpos (Pos.succ (Pos.succ (digits2_pos q))) + (e - 2)) with (Zpos (digits2_pos q) + e) by lia.
  set (n := fexp (Zpos (digits2_pos q) + e) - e). assert (Hn : 0 <= n) by (subst n; lia).
  replace (fexp (Zpos (digits2_pos q) + e) - (e - 2)) with (n + 2) by (subst n; lia). clearbody n.
  destruct n as [|n|n]; [change (0 + 2) with 2|change (Zpos n + 2) with (Zpos (n + 2))|lia]; unfold shr; f_equal; try lia.
  - exact (eq_sym (shr_more_bits q l)).
  - rewrite !iter_pos_iter, Pos.iter_add. f_equal. exact (eq_sym (shr_more_bits q l)).
Qed.

Lemma round_more_bits s q e l :
  e <= fexp (Zpos (digits2_pos q) + e) ->
  binary_round_aux prec emax s (Zpos q) e l = binary_round_aux prec emax s (Zpos (more_bits q l)) (e - 2) loc_Exact.
Proof. intros He. unfold binary_round_aux. by rewrite (shr_fexp_more_bits q e l He). Qed.

(** No representable number lies strictly between two neighbours at an exponent
    that keeps all the digits. *)
Lemma no_number_between q e z :
  e <= fexp (Zpos (digits2_pos q) + e) -> - scale <= e -> number z = true ->
  fval z <= Zpos q * pw e ∨ (Zpos q + 1) * pw e <= fval z.
Proof.
  intros He Hs Hz. assert (Hp : 0 < pw e) by by apply pw_pos.
  destruct z as [s|s| |s m ez]; [left; cbn [fval]; nia|discriminate Hz|discriminate Hz|].
  pose proof (number_mantissa prec emax Hprec Hemax Hsmall _ _ _ Hz) as (M1 & M2 & M3 & M4).
  pose proof (emin_scale prec emax Hsmall).
  assert (Hpz : 0 < pw ez) by (apply pw_pos; unfold scale, SpecFloat.emin in *; lia).
  destruct s; cbn [fval cond_Zopp]; [left; nia|].
  destruct (Z.le_gt_cases e ez) as [L|L].
  - assert (E : pw ez = 2 ^ (ez - e) * pw e) by (rewrite <- pw_add by lia; f_equal; lia).
    rewrite E, Z.mul_assoc. set (k := Zpos m * 2 ^ (ez - e)).
    destruct (Z.le_gt_cases k (Zpos q)); [left|right]; apply Z.mul_le_mono_nonneg_r; lia.
  - left. pose proof (fexp_ge prec emax (Zpos (digits2_pos q) + e)) as (_ & _ & F).
    assert (Hd : prec <= Zpos (digits2_pos q)) by lia.
    pose proof (digits_bounds q) as [D _].
    assert (2 ^ (prec - 1) <= Zpos q) by (eapply Z.le_trans; [apply Z.pow_le_mono_r|exact D]; lia).
    assert (Hpe : pw (ez + 1) <= pw e) by (apply pw_mono; lia).
    rewrite (pw_add ez 1) in Hpe by (unfold scale, SpecFloat.emin in *; lia).
    assert (Zpos m * pw ez <= 2 ^ prec * pw ez) by (apply Z.mul_le_mono_nonneg_r; lia).
    assert (E2 : 2 ^ prec = 2 ^ (prec - 1) * 2 ^ 1) by (rewrite <- Z.pow_add_r by lia; f_equal; lia).
    rewrite E2 in *. assert (0 < 2 ^ (prec - 1)) by (apply Z.pow_pos_nonneg; lia). nia.
Qed.

Lemma more_bits_range q l : 4 * Zpos q <= Zpos (more_bits q l) <= 4 * Zpos q + 3 ∧ (l = loc_Exact -> Zpos (more_bits q l) = 4 * Zpos q).
Proof. destruct l as [|[]]; cbn [more_bits]; (split; [lia|]); by intros. Qed.

Lemma new_location_exact n k : new_location n k = loc_Exact <-> k = 0.
Proof.
  unfold new_location, new_location_even, new_location_odd.
  destruct (Z.even n), (Z.eqb_spec k 0) as [->|]; done.
Qed.

(** The value [(Y q + R) / Y] of a quotient, [q] at exponent [e], against
    representable bounds. *)
Lemma quotient_sandwich q e l Y R X lo hi :
  e <= fexp (Zpos (digits2_pos q) + e) -> - scale <= e - 2 -> 0 < Y -> 0 <= R < Y * pw e -> (l = loc_Exact <-> R = 0) ->
  X = Y * (Zpos q * pw e) + R -> number lo = true -> number hi = true -> fval lo * Y <= X <= fval hi * Y ->
  fval lo <= Zpos (more_bits q l) * pw (e - 2) <= fval hi.
Proof.
  intros He Hs HY HR Hl -> Hlo Hhi [H1 H2].
  assert (E : pw e = 4 * pw (e - 2)) by (change 4 with (2 ^ 2); rewrite <- (pw_add (e - 2) 2) by lia; f_equal; lia).
  assert (Hp : 0 < pw (e - 2)) by (by apply pw_pos).
  destruct (more_bits_range q l) as [[B1 B2] B3].
  split.
  - assert (fval lo <= Zpos q * pw e); [|rewrite E in *; nia].
    destruct (no_number_between q e lo) as [H|H]; [done|lia|done|exact H|].
    exfalso. assert ((Zpos q + 1) * pw e * Y <= fval lo * Y) by (apply Z.mul_le_mono_nonneg_r; lia). nia.
  - destruct (Z.eq_dec R 0) as [E0|E0].
    + rewrite (B3 (proj2 Hl E0)). subst R. rewrite E in *. nia.
    + destruct (no_number_between q e hi) as [H|H]; [done|lia|done| |rewrite E in *; nia].
      exfalso. assert (fval hi * Y <= Zpos q * pw e * Y) by (apply Z.mul_le_mono_nonneg_r; lia). nia.
Qed.

(** The parts of the quotient of two finite numbers. *)
Lemma div_core mx ex my ey sx sy :
  number (S754_finite sx mx ex) = true -> number (S754_finite sy my ey) = true ->
  emin + 2 <= Zpos (digits2_pos mx) + ex - (Zpos (digits2_pos my) + ey) ->
  ∃ q e l R, SFdiv_core_binary prec emax (Zpos mx) ex (Zpos my) ey = (Zpos q, e, l) ∧
    e <= fexp (Zpos (digits2_pos q) + e) ∧ - scale <= e - 2 ∧ 0 <= R < Zpos my * pw ey * pw e ∧
    (l = loc_Exact <-> R = 0) ∧ Zpos mx * pw ex * pw 0 = Zpos my * pw ey * (Zpos q * pw e) + R.
Proof.
  intros Hx Hy HD. set (D := Zpos (digits2_pos mx) + ex - (Zpos (digits2_pos my) + ey)) in *.
  pose proof (number_mantissa prec emax Hprec Hemax Hsmall _ _ _ Hx) as (X1 & X2 & _).
  pose proof (number_mantissa prec emax Hprec Hemax Hsmall _ _ _ Hy) as (Y1 & Y2 & _).
  unfold SFdiv_core_binary. cbn [Zdigits2]. fold D. set (e := Z.min (fexp D) (ex - ey)).
  assert (He : e <= D - 2 ∧ e <= fexp D ∧ e <= ex - ey ∧ - scale <= e - 2 ∧ - scale <= ex ∧ - scale <= ey).
  { subst e. unfold SpecFloat.fexp, SpecFloat.emin, scale in *. lia. }
  destruct He as (E1 & E2 & E3 & E4 & E5 & E6). clearbody e.
  set (s := ex - ey - e). assert (Hs : 0 <= s) by (subst s; lia).
  assert (Hm : match s with 0 => Zpos mx | Zpos _ => Z.shiftl (Zpos mx) s | Zneg _ => 0 end = Zpos mx * 2 ^ s).
  { rewrite <- Z.shiftl_mul_pow2 by done. clearbody s. destruct s; [by rewrite Z.shiftl_0_r|done|lia]. }
  rewrite Hm. pose proof (Z.div_mod (Zpos mx * 2 ^ s) (Zpos my) ltac:(lia)) as Hdm.
  pose proof (Z.mod_pos_bound (Zpos mx * 2 ^ s) (Zpos my) ltac:(lia)) as Hmb.
  assert (Hq : 2 ^ (D - 1 - e) <= Zpos mx * 2 ^ s / Zpos my).
  { apply Z.div_le_lower_bound; [lia|]. pose proof (digits_bounds mx) as [L _]. pose proof (digits_bounds my) as [_ U].
    apply Z.le_trans with (2 ^ Zpos (digits2_pos my) * 2 ^ (D - 1 - e)); [apply Z.mul_le_mono_nonneg_r; [by apply Z.pow_nonneg|lia]|].
    apply Z.le_trans with (2 ^ (Zpos (digits2_pos mx) - 1) * 2 ^ s); [|apply Z.mul_le_mono_nonneg_r; [by apply Z.pow_nonneg|lia]].
    rewrite <- !Z.pow_add_r by lia. apply Z.pow_le_mono_r; subst D s; lia. }
  unfold Z.div, Z.modulo in *. destruct (Z.div_eucl (Zpos mx * 2 ^ s) (Zpos my)) as [q r].
  assert (0 < 2 ^ (D - 1 - e)) by (apply Z.pow_pos_nonneg; lia).
  destruct q as [|q|q]; [lia| |lia].
  assert (Hpy : 0 < pw ey) by by apply pw_pos. assert (Hpe : 0 < pw e) by (apply pw_pos; lia).
  assert (Ep : pw ex * pw 0 = 2 ^ s * pw ey * pw e).
  { unfold pw, scale in *. rewrite <- !Z.pow_add_r by (subst s; lia). f_equal. subst s. lia. }
  exists q, e, (new_location (Zpos my) r), (r * pw ey * pw e). split_and!; try done.
  - assert (Hd : D - e <= Zpos (digits2_pos q)).
    { destruct (Z.le_gt_cases (D - e) (Zpos (digits2_pos q))); [done|]. pose proof (digits_bounds q) as [_ U].
      assert (2 ^ Zpos (digits2_pos q) <= 2 ^ (D - 1 - e)) by (apply Z.pow_le_mono_r; lia). lia. }
    unfold SpecFloat.fexp in *. lia.
  - nia.
  - rewrite <- Z.mul_assoc. rewrite <- Z.mul_assoc. apply Z.mul_lt_mono_pos_r; [nia|lia].
  - rewrite new_location_exact. split; [intros ->; ring|]. nia.
  - rewrite <- Z.mul_assoc, Ep, !Z.mul_assoc, Hdm. ring.
Qed.

Lemma quotient_digits m ex n ey dm dn :
  m < 2 ^ dm -> 2 ^ (dn - 1) <= n -> 0 < dm -> 0 < dn -> - scale <= ex -> - scale <= ey ->
  n * pw ey * pw (emin + 3) <= m * pw ex * pw 0 -> emin + 2 <= dm + ex - (dn + ey).
Proof.
  intros Hm Hn Hdm Hdn Hex Hey H. destruct (Z.le_gt_cases (emin + 2) (dm + ex - (dn + ey))) as [L|L]; [done|]. exfalso.
  pose proof (emin_scale prec emax Hsmall).
  assert (He3 : - scale <= emin + 3) by (unfold scale, SpecFloat.emin in *; lia).
  assert (P1 : 0 < pw ex * pw 0) by (apply Z.mul_pos_pos; apply pw_pos; [done|unfold scale; lia]).
  assert (P2 : 0 < pw ey * pw (emin + 3)) by (apply Z.mul_pos_pos; by apply pw_pos).
  assert (A : 2 ^ (dn - 1) * (pw ey * pw (emin + 3)) <= n * pw ey * pw (emin + 3))
    by (rewrite <- Z.mul_assoc; apply Z.mul_le_mono_nonneg_r; lia).
  assert (B : m * pw ex * pw 0 < 2 ^ dm * (pw ex * pw 0))
    by (rewrite <- Z.mul_assoc; apply Z.mul_lt_mono_pos_r; lia).
  assert (C : 2 ^ dm * (pw ex * pw 0) <= 2 ^ (dn - 1) * (pw ey * pw (emin + 3))); [|lia].
  unfold pw. unfold scale in *. rewrite <- !Z.pow_add_r by lia. apply Z.pow_le_mono_r; lia.
Qed.

(** The quotient by a positive number, unless it is so small that digits are
    lost. *)
Lemma div_between x y lo hi :
  number x = true -> number y = true -> 0 < fval y -> number lo = true -> number hi = true ->
  fval x = 0 ∨ fval y * pw (emin + 3) <= Z.abs (fval x) * pw 0 ->
  fval lo * fval y <= fval x * pw 0 <= fval hi * fval y ->
  between prec emax (fval lo) (SFdiv prec emax x y) (fval hi).
Proof.
  intros Hx Hy HY Hlo Hhi Hbig H. pose proof (emin_scale prec emax Hsmall) as Hes.
  destruct y as [sy|sy| |sy my ey]; [cbn [fval] in HY; lia|discriminate Hy|discriminate Hy|].
  assert (Hey : - scale <= ey).
  { pose proof (number_mantissa prec emax Hprec Hemax Hsmall _ _ _ Hy) as (Y1 & _). unfold scale, SpecFloat.emin in *. lia. }
  assert (Hpy : 0 < pw ey) by by apply pw_pos.
  destruct sy; cbn [fval cond_Zopp] in HY; [nia|]. cbn [fval cond_Zopp] in H, Hbig.
  destruct x as [sx|sx| |sx mx ex]; [|discriminate Hx|discriminate Hx|]; cbn [SFdiv].
  { split; [done|]. cbn [fval] in *. nia. }
  pose proof (number_mantissa prec emax Hprec Hemax Hsmall _ _ _ Hx) as (X1 & _).
  assert (Hex : - scale <= ex) by (unfold scale, SpecFloat.emin in *; lia).
  assert (Hpx : 0 < pw ex) by by apply pw_pos.
  assert (HX : Z.abs (fval (S754_finite sx mx ex)) = Zpos mx * pw ex) by (cbn [fval]; destruct sx; cbn [cond_Zopp]; nia).
  assert (HD : emin + 2 <= Zpos (digits2_pos mx) + ex - (Zpos (digits2_pos my) + ey)).
  { destruct Hbig as [E0|Hbig]; [rewrite E0 in HX; lia|]. rewrite HX in Hbig.
    by apply (quotient_digits (Zpos mx) ex (Zpos my) ey); [apply digits_bounds|apply digits_bounds|..]. }
  destruct (div_core mx ex my ey sx false Hx Hy HD) as (q & e & l & R & E & He & Hs & HR & Hl & HXR).
  rewrite E, xorb_false_r, round_more_bits by exact He.
  apply round_aux_between; [done|done|done| |done|done|done|].
  { rewrite digits_more_bits. replace (Zpos (Pos.succ (Pos.succ (digits2_pos q))) + (e - 2)) with (Zpos (digits2_pos q) + e) by lia. lia. }
  destruct sx; cbn [fval cond_Zopp] in H |- *.
  - pose proof (quotient_sandwich q e l _ R _ (SFopp hi) (SFopp lo) He Hs HY HR Hl HXR) as Hsw.
    rewrite !number_opp, !fval_opp in Hsw. specialize (Hsw Hhi Hlo). lia.
  - by apply (quotient_sandwich q e l _ R _ lo hi He Hs HY HR Hl HXR).
Qed.
End Format.

(** The conversion of an integer to [double]. *)
Lemma of_Z64_between z lo hi :
  ok64 lo = true -> ok64 hi = true -> fval lo <= z * pw 0 <= fval hi ->
  between 53 1024 (fval lo) (F64.of_Z z) (fval hi).
Proof. intros. apply binary_normalize_between; [lia|lia|lia|unfold scale; lia|done..]. Qed.
