(* ===== verification/Crc.v ===== *)
(** * Checksums of the low-level protocol.

    Models [crc16_core] and [crc32_core] of
    [src/include/unitree/dds_wrapper/common/crc.h] ([crc32_core] is repeated
    verbatim in the go2 control interface and in the state machine's
    [conversion.hpp]).  [crc32_core] is related to its specification, the
    remainder of the message polynomial modulo the generator over GF(2), and
    [crc16_core]'s table to the bitwise reflected division.  Both are shown to
    detect every corruption confined to one word (one byte). *)

From S2P Require Import Prelude.

Local Open Scope Z_scope.

(** ** crc32_core *)

Module Crc32.

Definition dwPolynomial : Z := 0x04c11db7.

(** The body of the inner loop: [CRC32] is shifted, reduced, and the data bit
    under [xbit] is folded in. *)
Definition bit_step (data xbit crc : Z) : Z :=
  let crc :=
    if negb (Z.land crc 0x80000000 =? 0)
    then Z.lxor (u32 (Z.shiftl crc 1)) dwPolynomial
    else u32 (Z.shiftl crc 1) in
  if negb (Z.land data xbit =? 0) then Z.lxor crc dwPolynomial else crc.

(** [for (bits = 0; bits < 32; bits++)], [xbit] moving right each turn. *)
Fixpoint bit_loop (bits : nat) (data xbit crc : Z) : Z :=
  match bits with
  | O => crc
  | S bits => bit_loop bits data (Z.shiftr xbit 1) (bit_step data xbit crc)
  end.

(** The outer loop over [ptr[0 .. len)], from the register value [crc]. *)
Fixpoint word_loop (ptr : list Z) (crc : Z) : Z :=
  match ptr with
  | [] => crc
  | data :: ptr => word_loop ptr (bit_loop 32 data 0x80000000 crc)
  end.

(** [uint32_t crc32_core(uint32_t *ptr, uint32_t len)], [ptr] being the [len]
    words the pointer addresses. *)
Definition crc32_core (ptr : list Z) : Z := word_loop ptr 0xFFFFFFFF.

End Crc32.

(** ** crc16_core *)

Module Crc16.

Definition wCRCTable : list Z :=
  [
   0x0000; 0xC0C1; 0xC181; 0x0140; 0xC301; 0x03C0; 0x0280; 0xC241;
   0xC601; 0x06C0; 0x0780; 0xC741; 0x0500; 0xC5C1; 0xC481; 0x0440;
   0xCC01; 0x0CC0; 0x0D80; 0xCD41; 0x0F00; 0xCFC1; 0xCE81; 0x0E40;
   0x0A00; 0xCAC1; 0xCB81; 0x0B40; 0xC901; 0x09C0; 0x0880; 0xC841;
   0xD801; 0x18C0; 0x1980; 0xD941; 0x1B00; 0xDBC1; 0xDA81; 0x1A40;
   0x1E00; 0xDEC1; 0xDF81; 0x1F40; 0xDD01; 0x1DC0; 0x1C80; 0xDC41;
   0x1400; 0xD4C1; 0xD581; 0x1540; 0xD701; 0x17C0; 0x1680; 0xD641;
   0xD201; 0x12C0; 0x1380; 0xD341; 0x1100; 0xD1C1; 0xD081; 0x1040;
   0xF001; 0x30C0; 0x3180; 0xF141; 0x3300; 0xF3C1; 0xF281; 0x3240;
   0x3600; 0xF6C1; 0xF781; 0x3740; 0xF501; 0x35C0; 0x3480; 0xF441;
   0x3C00; 0xFCC1; 0xFD81; 0x3D40; 0xFF01; 0x3FC0; 0x3E80; 0xFE41;
   0xFA01; 0x3AC0; 0x3B80; 0xFB41; 0x3900; 0xF9C1; 0xF881; 0x3840;
   0x2800; 0xE8C1; 0xE981; 0x2940; 0xEB01; 0x2BC0; 0x2A80; 0xEA41;
   0xEE01; 0x2EC0; 0x2F80; 0xEF41; 0x2D00; 0xEDC1; 0xEC81; 0x2C40;
   0xE401; 0x24C0; 0x2580; 0xE541; 0x2700; 0xE7C1; 0xE681; 0x2640;
   0x2200; 0xE2C1; 0xE381; 0x2340; 0xE101; 0x21C0; 0x2080; 0xE041;
   0xA001; 0x60C0; 0x6180; 0xA141; 0x6300; 0xA3C1; 0xA281; 0x6240;
   0x6600; 0xA6C1; 0xA781; 0x6740; 0xA501; 0x65C0; 0x6480; 0xA441;
   0x6C00; 0xACC1; 0xAD81; 0x6D40; 0xAF01; 0x6FC0; 0x6E80; 0xAE41;
   0xAA01; 0x6AC0; 0x6B80; 0xAB41; 0x6900; 0xA9C1; 0xA881; 0x6840;
   0x7800; 0xB8C1; 0xB981; 0x7940; 0xBB01; 0x7BC0; 0x7A80; 0xBA41;
   0xBE01; 0x7EC0; 0x7F80; 0xBF41; 0x7D00; 0xBDC1; 0xBC81; 0x7C40;
   0xB401; 0x74C0; 0x7580; 0xB541; 0x7700; 0xB7C1; 0xB681; 0x7640;
   0x7200; 0xB2C1; 0xB381; 0x7340; 0xB101; 0x71C0; 0x7080; 0xB041;
   0x5000; 0x90C1; 0x9181; 0x5140; 0x9301; 0x53C0; 0x5280; 0x9241;
   0x9601; 0x56C0; 0x5780; 0x9741; 0x5500; 0x95C1; 0x9481; 0x5440;
   0x9C01; 0x5CC0; 0x5D80; 0x9D41; 0x5F00; 0x9FC1; 0x9E81; 0x5E40;
   0x5A00; 0x9AC1; 0x9B81; 0x5B40; 0x9901; 0x59C0; 0x5880; 0x9841;
   0x8801; 0x48C0; 0x4980; 0x8941; 0x4B00; 0x8BC1; 0x8A81; 0x4A40;
   0x4E00; 0x8EC1; 0x8F81; 0x4F40; 0x8D01; 0x4DC0; 0x4C80; 0x8C41;
   0x4400; 0x84C1; 0x8581; 0x4540; 0x8701; 0x47C0; 0x4680; 0x8641;
   0x8201; 0x42C0; 0x4380; 0x8341; 0x4100; 0x81C1; 0x8081; 0x4040 ].

(** [nTemp = *nData++ ^ wCRCWord] truncates to [uint8_t]; the index is
    therefore always inside the table. *)
Definition byte_step (wCRCWord nData : Z) : Z :=
  let nTemp := u8 (Z.lxor nData wCRCWord) in
  Z.lxor (Z.shiftr wCRCWord 8) (wCRCTable !!! Z.to_nat nTemp).

Definition crc16_core (nData : bytes) : Z := foldl byte_step 0xFFFF nData.

End Crc16.


(** * The specification of [crc32_core]: polynomial division over GF(2)

    A polynomial over GF(2) is the integer whose bits are its coefficients;
    addition is [Z.lxor] and multiplication by [x] is a left shift. *)

Module Poly.
(** The generator x^32 + x^26 + ... + 1, and the product of a quotient, given
    by its coefficients from the highest degree down, with it. *)
Definition G : Z := 2 ^ 32 + Crc32.dwPolynomial.

Definition horner (acc : Z) (b : bool) : Z := Z.lxor (Z.shiftl acc 1) (if b then G else 0).
Definition mulG (q : list bool) : Z := foldl horner 0 q.

(** The message as one polynomial: its words concatenated, first word highest. *)
Definition message (ptr : list Z) : Z :=
  foldl (fun acc w => Z.lxor (Z.shiftl acc 32) w) 0 ptr.

(** [r] is the remainder of [p] modulo the generator. *)
Definition remainder (p r : Z) : Prop := in_u 32 r ∧ ∃ q, p = Z.lxor (mulG q) r.

Lemma mulG_snoc q b : mulG (q ++ [b]) = horner (mulG q) b.
Proof. unfold mulG. by rewrite foldl_app. Qed.

Lemma mulG_pad n q : mulG (replicate n false ++ q) = mulG q.
Proof.
  unfold mulG. rewrite foldl_app. f_equal.
  induction n as [| n IH]; [done |]. cbn. exact IH.
Qed.

Lemma mulG_xor p q :
  length p = length q -> Z.lxor (mulG p) (mulG q) = mulG (zip_with xorb p q).
Proof.
  revert q; induction p as [| b p IH] using rev_ind; intros q Hl.
  - symmetry in Hl. apply nil_length_inv in Hl as ->. done.
  - destruct q as [| c q _] using rev_ind; [rewrite length_app in Hl; simpl in Hl; lia |].
    rewrite !length_app in Hl. simpl in Hl.
    rewrite zip_with_app by lia. cbn [zip_with]. rewrite !mulG_snoc, <- IH by lia.
    unfold horner. destruct b, c; cbn [xorb]; xor_solve.
Qed.

(** A product with the generator that fits in the register is zero. *)
Lemma mulG_degree q :
  mulG q = 0 ∨ ∃ i, 32 <= i ∧ Z.testbit (mulG q) i = true ∧
                     ∀ j, i < j -> Z.testbit (mulG q) j = false.
Proof.
  induction q as [| b q IH] using rev_ind; [by left |]. rewrite mulG_snoc. unfold horner.
  assert (HG : ∀ j, 33 <= j -> Z.testbit G j = false).
  { intros j Hj. apply (in_u_testbit_high 33); [split; vm_compute; congruence | lia]. }
  destruct IH as [-> | (i & Hi & Ht & Hh)].
  - destruct b; [right | by left]. exists 32. split; [lia |]. split; [done |].
    intros j Hj. rewrite Z.shiftl_0_l, Z.lxor_0_l. apply HG. lia.
  - right. exists (i + 1). split; [lia |].
    assert (E : ∀ j, 32 < j -> Z.testbit (Z.lxor (Z.shiftl (mulG q) 1) (if b then G else 0)) j
                              = Z.testbit (mulG q) (j - 1)).
    { intros j Hj. rewrite Z.lxor_spec, Z.shiftl_spec by lia.
      destruct b; rewrite ?HG, ?Z.testbit_0_l by lia; by rewrite xorb_false_r. }
    split.
    + rewrite E by lia. by replace (i + 1 - 1) with i by lia.
    + intros j Hj. rewrite E by lia. apply Hh. lia.
Qed.

Lemma mulG_small q : in_u 32 (mulG q) -> mulG q = 0.
Proof.
  intros H. destruct (mulG_degree q) as [? | (i & Hi & Ht & _)]; [done |].
  by rewrite (in_u_testbit_high 32) in Ht by (done || lia).
Qed.

(** The remainder is unique, so [remainder] determines the checksum. *)
Lemma remainder_unique p r r' : remainder p r -> remainder p r' -> r = r'.
Proof.
  intros [Hr [q Hq]] [Hr' [q' Hq']].
  set (n := length q). set (n' := length q').
  assert (E : Z.lxor r r' = mulG (zip_with xorb (replicate n' false ++ q) (replicate n false ++ q'))).
  { rewrite <- mulG_xor by (rewrite !length_app, !length_replicate; lia).
    rewrite !mulG_pad.
    assert (r = Z.lxor p (mulG q)) as -> by (rewrite Hq; xor_solve).
    assert (r' = Z.lxor p (mulG q')) as -> by (rewrite Hq'; xor_solve).
    xor_solve. }
  apply Z.lxor_eq. rewrite E. apply mulG_small. rewrite <- E. mach.
Qed.
End Poly.

(** * [crc32_core] as a linear feedback shift register *)

Module Lfsr.
Import Crc32 Poly.

(** One message bit, with the reduction written over the integers: the step
    shifts, adds the incoming bit at degree 32, and subtracts the generator when
    that leaves degree 32 set. *)
Definition lfsr (S : Z) (b : bool) : Z :=
  Z.lxor (Z.lxor (Z.shiftl S 1) (if b then 2 ^ 32 else 0))
         (if xorb (Z.testbit S 31) b then G else 0).

Definition msb_bits (n : nat) (data : Z) : list bool :=
  (fun i => Z.testbit data (Z.of_nat i)) <$> reverse (seq 0 n).

Lemma msb_bits_S n data : msb_bits (S n) data = Z.testbit data (Z.of_nat n) :: msb_bits n data.
Proof. unfold msb_bits. rewrite seq_S, reverse_snoc. done. Qed.

Lemma u32_double S :
  in_u 32 S -> u32 (Z.shiftl S 1) = Z.lxor (Z.shiftl S 1) (if Z.testbit S 31 then 2 ^ 32 else 0).
Proof.
  intros HS. unfold uwrap. apply Z.bits_inj'; intros i Hi.
  rewrite Z.lxor_spec, Z.shiftl_spec by done.
  destruct (decide (i < 32)).
  - rewrite Z.mod_pow2_bits_low, Z.shiftl_spec by lia.
    destruct (Z.testbit S 31); rewrite ?Z.pow2_bits_false, ?Z.testbit_0_l by lia;
      by rewrite xorb_false_r.
  - rewrite Z.mod_pow2_bits_high by lia. destruct (decide (i = 32)) as [-> |].
    + replace (32 - 1) with 31 by done. by destruct (Z.testbit S 31).
    + rewrite (in_u_testbit_high 32) by (done || lia).
      destruct (Z.testbit S 31); by rewrite ?Z.pow2_bits_false, ?Z.testbit_0_l by lia.
Qed.

Lemma bit_step_lfsr data k S :
  0 <= k -> in_u 32 S -> bit_step data (2 ^ k) S = lfsr S (Z.testbit data k).
Proof.
  intros Hk HS. unfold bit_step, lfsr. rewrite land_pow2_nonzero by done.
  change 0x80000000 with (2 ^ 31). rewrite land_pow2_nonzero, u32_double by done.
  unfold G. change (2 ^ 32 + dwPolynomial) with (Z.lxor (2 ^ 32) dwPolynomial).
  destruct (Z.testbit S 31), (Z.testbit data k); cbn [xorb]; xor_solve.
Qed.

Lemma lfsr_in S b : in_u 32 S -> in_u 32 (lfsr S b).
Proof.
  intros HS. pose proof (bit_step_lfsr (if b then 1 else 0) 0 S ltac:(done) HS) as E.
  replace (Z.testbit (if b then 1 else 0) 0) with b in E by by destruct b.
  rewrite <- E.
  unfold bit_step. assert (in_u 32 dwPolynomial) by (split; vm_compute; congruence).
  repeat split_if; mach.
Qed.

Lemma lfsr_linear S T b c :
  Z.lxor (lfsr S b) (lfsr T c) = lfsr (Z.lxor S T) (xorb b c).
Proof.
  unfold lfsr. rewrite Z.lxor_spec.
  destruct b, c, (Z.testbit S 31), (Z.testbit T 31); cbn [xorb]; xor_solve.
Qed.

Lemma lfsr_0 : lfsr 0 false = 0.
Proof. done. Qed.

(** The generator has an odd constant term, so the register never forgets. *)
Lemma lfsr_kernel S : lfsr S false = 0 -> S = 0.
Proof.
  unfold lfsr. rewrite xorb_false_r, Z.lxor_0_r. destruct (Z.testbit S 31).
  - intros E%(f_equal (fun z => Z.testbit z 0)).
    rewrite Z.lxor_spec, Z.shiftl_spec_low in E by lia. done.
  - rewrite Z.lxor_0_r. intros E%Z.shiftl_eq_0_iff; lia.
Qed.

Lemma lfsr_inj S T b : lfsr S b = lfsr T b -> S = T.
Proof.
  intros E. apply Z.lxor_eq, lfsr_kernel.
  rewrite <- (xorb_nilpotent b), <- lfsr_linear, E. apply Z.lxor_nilpotent.
Qed.

Definition run (S : Z) (bs : list bool) : Z := foldl lfsr S bs.

Lemma run_in S bs : in_u 32 S -> in_u 32 (run S bs).
Proof. revert S; induction bs; intros; simpl; auto using lfsr_in. Qed.

Lemma run_inj S T bs : run S bs = run T bs -> S = T.
Proof. revert S T; induction bs as [| b bs IH]; intros S T H; [done |]. eauto using lfsr_inj. Qed.

Lemma bit_loop_run n data S :
  in_u 32 S -> bit_loop n data (2 ^ (Z.of_nat n - 1)) S = run S (msb_bits n data).
Proof.
  revert S; induction n as [| n IH]; intros S HS; [done |].
  rewrite msb_bits_S. cbn [bit_loop].
  replace (Z.of_nat (Datatypes.S n) - 1) with (Z.of_nat n) by lia.
  rewrite bit_step_lfsr by (lia || done).
  replace (Z.shiftr (2 ^ Z.of_nat n) 1) with (if decide (n = 0)%nat then 0 else 2 ^ (Z.of_nat n - 1)).
  2: { case_decide; [by subst |].
       rewrite Z.shiftr_div_pow2 by lia. rewrite (pow2_half (Z.of_nat n)) by lia.
       rewrite Z.mul_comm. symmetry. apply Z.div_mul. done. }
  case_decide; [by subst |]. rewrite IH by by apply lfsr_in. done.
Qed.

(** Splitting the highest of the [n + 1] low bits of a word off, at the top of
    the register. *)
Lemma low_bits_split n d :
  (n < 32)%nat ->
  Z.shiftl (d mod 2 ^ Z.of_nat (S n)) (32 - Z.of_nat n) =
  Z.lxor (if Z.testbit d (Z.of_nat n) then 2 ^ 32 else 0)
         (Z.shiftl (d mod 2 ^ Z.of_nat n) (32 - Z.of_nat n)).
Proof.
  intros Hn. apply Z.bits_inj'; intros i Hi. rewrite Z.lxor_spec, !Z.shiftl_spec by lia.
  destruct (decide (i = 32)) as [-> | Hi32].
  - rewrite Z.mod_pow2_bits_low, (Z.mod_pow2_bits_high _ (Z.of_nat n)) by lia.
    replace (32 - (32 - Z.of_nat n)) with (Z.of_nat n) by lia.
    by destruct (Z.testbit d (Z.of_nat n)).
  - replace (Z.testbit (if Z.testbit d (Z.of_nat n) then 2 ^ 32 else 0) i) with false
      by (destruct (Z.testbit d _); by rewrite ?Z.pow2_bits_false, ?Z.testbit_0_l by lia).
    rewrite xorb_false_l. destruct (decide (i < 32 - Z.of_nat n)).
    + by rewrite !(Z.testbit_neg_r _ (i - _)) by lia.
    + destruct (decide (i < 32)); [by rewrite !Z.mod_pow2_bits_low by lia |].
      by rewrite !Z.mod_pow2_bits_high by lia.
Qed.

(** One word: shifting it in is xoring it into the register first. *)
Lemma run_absorb n d S :
  (n <= 32)%nat ->
  run S (msb_bits n d) =
  run (Z.lxor S (Z.shiftl (d mod 2 ^ Z.of_nat n) (32 - Z.of_nat n))) (replicate n false).
Proof.
  revert S; induction n as [| n IH]; intros S Hn.
  { cbn. by rewrite Z.mod_1_r, Z.shiftl_0_l, Z.lxor_0_r. }
  rewrite msb_bits_S. cbn [run foldl replicate].
  fold (run (lfsr S (Z.testbit d (Z.of_nat n))) (msb_bits n d)).
  rewrite IH by lia. unfold run at 1. f_equal.
  set (T := Z.shiftl (d mod 2 ^ Z.of_nat (Datatypes.S n)) _).
  assert (Htop : Z.testbit T 31 = Z.testbit d (Z.of_nat n)).
  { subst T. rewrite Z.shiftl_spec, Z.mod_pow2_bits_low by lia. f_equal. lia. }
  assert (Hlow : Z.shiftl T 1 = Z.lxor (if Z.testbit d (Z.of_nat n) then 2 ^ 32 else 0)
                   (Z.shiftl (d mod 2 ^ Z.of_nat n) (32 - Z.of_nat n))).
  { subst T. rewrite Z.shiftl_shiftl by lia. rewrite <- low_bits_split by lia. f_equal. lia. }
  unfold lfsr. rewrite Z.lxor_spec, Htop, Z.shiftl_lxor, Hlow.
  destruct (Z.testbit S 31), (Z.testbit d (Z.of_nat n)); cbn [xorb]; xor_solve.
Qed.
End Lfsr.

(** * Correctness of [crc32_core] *)

Module Crc32Spec.
Import Crc32 Poly Lfsr.

(** The polynomial whose remainder the register holds after [ptr]: the initial
    value followed by the message, times x^32. *)
Definition padded (ptr : list Z) : Z :=
  Z.lxor (Z.shiftl 0xFFFFFFFF (32 * Z.of_nat (length ptr))) (Z.shiftl (message ptr) 32).

Lemma word_step S d :
  in_u 32 S -> in_u 32 d ->
  bit_loop 32 d 0x80000000 S = run (Z.lxor S d) (replicate 32 false).
Proof.
  intros HS Hd. change 0x80000000 with (2 ^ (Z.of_nat 32 - 1)).
  rewrite bit_loop_run, run_absorb by (done || lia).
  change (32 - Z.of_nat 32) with 0. by rewrite Z.shiftl_0_r, Z.mod_small by done.
Qed.

Lemma word_loop_snoc ptr d S :
  word_loop (ptr ++ [d]) S = bit_loop 32 d 0x80000000 (word_loop ptr S).
Proof. revert S; induction ptr; intros; [done |]. cbn [app word_loop]. auto. Qed.

Lemma word_loop_in ptr S : Forall (in_u 32) ptr -> in_u 32 S -> in_u 32 (word_loop ptr S).
Proof.
  intros Hp. revert S; induction Hp as [| d ptr Hd _ IH]; intros S HS; [done |].
  cbn [word_loop]. apply IH. rewrite word_step by done. apply run_in. mach.
Qed.

Lemma crc32_in ptr : Forall (in_u 32) ptr -> in_u 32 (crc32_core ptr).
Proof. intros. apply word_loop_in; [done |]. split; vm_compute; congruence. Qed.

Lemma remainder_lfsr P S : remainder P S -> remainder (Z.shiftl P 1) (lfsr S false).
Proof.
  intros [HS [q ->]]. split; [by apply lfsr_in |].
  exists (q ++ [Z.testbit S 31]). rewrite mulG_snoc. unfold horner, lfsr.
  destruct (Z.testbit S 31); cbn [xorb]; xor_solve.
Qed.

Lemma remainder_run n P S :
  remainder P S -> remainder (Z.shiftl P (Z.of_nat n)) (run S (replicate n false)).
Proof.
  revert P S; induction n as [| n IH]; intros P S HP; [by rewrite Z.shiftl_0_r |].
  replace (Z.of_nat (Datatypes.S n)) with (1 + Z.of_nat n) by lia.
  rewrite <- Z.shiftl_shiftl by lia. apply IH. by apply remainder_lfsr.
Qed.

Lemma remainder_xor P S d : in_u 32 d -> remainder P S -> remainder (Z.lxor P d) (Z.lxor S d).
Proof. intros Hd [HS [q ->]]. split; [mach |]. exists q. xor_solve. Qed.

Lemma crc32_remainder_padded ptr :
  Forall (in_u 32) ptr -> remainder (padded ptr) (crc32_core ptr).
Proof.
  induction ptr as [| d ptr IH] using rev_ind; intros Hp.
  - split; [split; vm_compute; congruence |]. by exists [].
  - apply Forall_app in Hp as [Hp Hd%Forall_inv].
    unfold crc32_core in *. rewrite word_loop_snoc, word_step by (done || by apply crc32_in).
    replace (padded (ptr ++ [d])) with (Z.shiftl (Z.lxor (padded ptr) d) (Z.of_nat 32)).
    + apply remainder_run, remainder_xor; auto.
    + unfold padded, message. rewrite foldl_app, length_app. cbn [foldl length].
      replace (32 * Z.of_nat (length ptr + 1)) with (32 * Z.of_nat (length ptr) + 32) by lia.
      change (Z.of_nat 32) with 32. rewrite <- Z.shiftl_shiftl by lia. xor_solve.
Qed.

(** C6. [crc32_core] computes the CRC: its result is the remainder of the
    polynomial (initial value followed by the message words, times x^32) modulo
    the generator 0x104C11DB7 over GF(2), and it is the only 32-bit value that
    is. *)
Theorem crc32_core_remainder ptr :
  Forall (in_u 32) ptr ->
  ∀ r, r = crc32_core ptr <-> remainder (padded ptr) r.
Proof.
  intros Hp r. split; [intros -> | intros Hr].
  - by apply crc32_remainder_padded.
  - eapply remainder_unique; [exact Hr | by apply crc32_remainder_padded].
Qed.

Lemma crc32_core_remainder_witness :
  crc32_core [0x31323334; 0x35363738] = 1239663355 ∧
  remainder (padded [0x31323334; 0x35363738]) 1239663355.
Proof.
  split; [vm_compute; reflexivity |].
  apply (crc32_core_remainder [0x31323334; 0x35363738]); [| vm_compute; reflexivity].
  repeat constructor; vm_compute; congruence.
Defined.

Lemma word_loop_inj ptr S T :
  Forall (in_u 32) ptr -> in_u 32 S -> in_u 32 T ->
  word_loop ptr S = word_loop ptr T -> S = T.
Proof.
  intros Hp. revert S T; induction Hp as [| d ptr Hd _ IH]; intros S T HS HT E; [done |].
  cbn [word_loop] in E. rewrite !word_step in E by done.
  apply IH, run_inj in E; [| apply run_in; mach | apply run_in; mach].
  apply Z.lxor_eq. apply (f_equal (fun z => Z.lxor z (Z.lxor T d))) in E.
  rewrite Z.lxor_nilpotent in E. rewrite <- E. xor_solve.
Qed.

Lemma crc32_detects_word_gen pre w w' post :
  Forall (in_u 32) (pre ++ w :: w' :: post) -> w ≠ w' ->
  crc32_core (pre ++ w :: post) ≠ crc32_core (pre ++ w' :: post).
Proof.
  intros H Hne E. decompose_Forall_hyps. unfold crc32_core in E.
  assert (Hsplit : ∀ l k S, word_loop (l ++ k) S = word_loop k (word_loop l S)).
  { induction l; intros; [done |]. cbn [app word_loop]. auto. }
  rewrite !Hsplit in E. cbn [word_loop] in E.
  assert (HS : in_u 32 (word_loop pre 0xFFFFFFFF)) by by apply crc32_in.
  rewrite !word_step in E by done.
  apply word_loop_inj, run_inj in E; [| done | apply run_in; mach | apply run_in; mach].
  apply Hne. apply (f_equal (Z.lxor (word_loop pre 0xFFFFFFFF))) in E.
  by rewrite <- !Z.lxor_assoc, Z.lxor_nilpotent, !Z.lxor_0_l in E.
Qed.

(** Every corruption confined to one 32-bit word of a message changes its
    checksum, wherever the word is and whatever the rest of the message holds. *)
Lemma crc32_detects_word_error pre w w' post :
  Forall (in_u 32) (pre ++ w :: w' :: post) -> w ≠ w' ->
  crc32_core (pre ++ w :: post) ≠ crc32_core (pre ++ w' :: post).
Proof. apply crc32_detects_word_gen. Qed.

Lemma crc32_detects_word_error_witness :
  crc32_core ([1; 2] ++ 3 :: [4]) ≠ crc32_core ([1; 2] ++ 7 :: [4]).
Proof.
  apply (crc32_detects_word_error [1; 2] 3 7 [4]); [| lia].
  repeat constructor; vm_compute; congruence.
Defined.

Lemma crc32_residue_gen ptr :
  Forall (in_u 32) ptr -> crc32_core (ptr ++ [crc32_core ptr]) = 0.
Proof.
  intros Hp. pose proof (crc32_in ptr Hp) as Hc. unfold crc32_core in *.
  rewrite word_loop_snoc, word_step, Z.lxor_nilpotent by done. vm_compute. reflexivity.
Qed.

(** A message followed by its own checksum has checksum zero, which is how
    a receiver validates a frame whose last word is the CRC. *)
Lemma crc32_residue ptr :
  Forall (in_u 32) ptr -> crc32_core (ptr ++ [crc32_core ptr]) = 0.
Proof. apply crc32_residue_gen. Qed.

Lemma crc32_residue_witness : crc32_core ([0x31323334; 5] ++ [crc32_core [0x31323334; 5]]) = 0.
Proof.
  apply (crc32_residue [0x31323334; 5]). repeat constructor; vm_compute; congruence.
Defined.
End Crc32Spec.

(** * Correctness of [crc16_core] *)

Module Crc16Spec.
Import Crc16.

(** The reference: reflected division by x^16 + x^15 + x^2 + 1, one bit at a
    time, least significant bit first. *)
Definition bit16 (crc : Z) : Z :=
  if Z.testbit crc 0 then Z.lxor (Z.shiftr crc 1) 0xA001 else Z.shiftr crc 1.

Definition byte_ref (crc b : Z) : Z := Nat.iter 8 bit16 (Z.lxor crc b).

Lemma bit16_linear x y : Z.lxor (bit16 x) (bit16 y) = bit16 (Z.lxor x y).
Proof.
  unfold bit16. rewrite Z.lxor_spec, Z.shiftr_lxor.
  destruct (Z.testbit x 0), (Z.testbit y 0); cbn [xorb]; xor_solve.
Qed.

Lemma iter_bit16_linear n x y :
  Z.lxor (Nat.iter n bit16 x) (Nat.iter n bit16 y) = Nat.iter n bit16 (Z.lxor x y).
Proof. induction n; [done |]. change (Nat.iter (S n) bit16) with (fun x => bit16 (Nat.iter n bit16 x)). cbv beta. by rewrite bit16_linear, IHn. Qed.

Lemma iter_bit16_shift n x :
  Nat.iter n bit16 (Z.shiftl x (Z.of_nat n)) = x.
Proof.
  revert x; induction n as [| n IH]; intros x; [apply Z.shiftl_0_r |].
  rewrite Nat.iter_succ_r. unfold bit16 at 2.
  rewrite Z.shiftl_spec_low by lia. rewrite Z.shiftr_shiftl_l by lia.
  replace (Z.of_nat (S n) - 1) with (Z.of_nat n) by lia. apply IH.
Qed.

Lemma bit16_in x : in_u 16 x -> in_u 16 (bit16 x).
Proof.
  intros Hx. unfold bit16. assert (in_u 16 (Z.shiftr x 1)).
  { apply shiftr_in_u; [lia | lia |]. eapply in_u_mono; [| done]. lia. }
  split_if; [| done]. apply lxor_in_u; [lia | done |]. split; vm_compute; congruence.
Qed.

Lemma iter_bit16_in n x : in_u 16 x -> in_u 16 (Nat.iter n bit16 x).
Proof. induction n; intros; [done |]. cbn. apply bit16_in. auto. Qed.

Lemma bit16_kernel x : in_u 16 x -> bit16 x = 0 -> x = 0.
Proof.
  intros Hx. unfold bit16. destruct (Z.testbit x 0) eqn:Hb.
  - intros E%Z.lxor_eq. apply (f_equal (fun z => Z.testbit z 15)) in E.
    rewrite Z.shiftr_spec, (in_u_testbit_high 16) in E by (done || lia). done.
  - intros E. apply Z.bits_inj'; intros i Hi. rewrite Z.testbit_0_l.
    destruct (decide (i = 0)) as [-> |]; [done |].
    apply (f_equal (fun z => Z.testbit z (i - 1))) in E.
    rewrite Z.shiftr_spec, Z.testbit_0_l in E by lia.
    by replace (i - 1 + 1) with i in E by lia.
Qed.

Lemma iter_bit16_kernel n x : in_u 16 x -> Nat.iter n bit16 x = 0 -> x = 0.
Proof.
  induction n; intros Hx E; [done |]. apply IHn; [done |].
  apply bit16_kernel; [by apply iter_bit16_in | done].
Qed.

(** The 256 entries of the table are the reduced bytes. *)
Lemma wCRCTable_entry n :
  (n < 256)%nat -> wCRCTable !!! n = Nat.iter 8 bit16 (Z.of_nat n).
Proof.
  intros Hn.
  assert (H : Forall (fun n => wCRCTable !!! n = Nat.iter 8 bit16 (Z.of_nat n)) (seq 0 256))
    by (apply (bool_decide_unpack _); vm_compute; exact I).
  rewrite Forall_forall in H. apply H. apply elem_of_seq. lia.
Qed.

Lemma byte_step_ref crc b :
  in_u 16 crc -> in_u 8 b -> byte_step crc b = byte_ref crc b.
Proof.
  intros Hc Hb. unfold byte_step, byte_ref.
  rewrite (Z.lxor_comm b). set (x := Z.lxor crc b).
  pose proof (uwrap_in 8 x ltac:(lia)) as Hx. unfold in_u in Hx.
  rewrite wCRCTable_entry, Z2Nat.id by (apply Nat2Z.inj_lt || lia; lia).
  replace (Z.shiftr crc 8) with (Z.shiftr x 8).
  2: { subst x. rewrite Z.shiftr_lxor, (Z.shiftr_div_pow2 b) by lia.
       unfold in_u in Hb. rewrite (Z.div_small b), Z.lxor_0_r by lia. done. }
  rewrite <- (iter_bit16_shift 8 (Z.shiftr x 8)) at 1. rewrite iter_bit16_linear. f_equal.
  apply Z.bits_inj'; intros i Hi. unfold uwrap. rewrite Z.lxor_spec, Z.shiftl_spec by done.
  destruct (decide (i < 8)).
  - rewrite Z.mod_pow2_bits_low, (Z.testbit_neg_r _ (i - _)) by lia. by rewrite xorb_false_l.
  - rewrite Z.mod_pow2_bits_high, Z.shiftr_spec, xorb_false_r by lia. f_equal. lia.
Qed.

Lemma byte_ref_in crc b : in_u 16 crc -> in_u 8 b -> in_u 16 (byte_ref crc b).
Proof.
  intros Hc Hb. apply iter_bit16_in, lxor_in_u; [lia | done |].
  eapply in_u_mono; [| done]. lia.
Qed.

Lemma foldl_ref l crc :
  bytes_ok l -> in_u 16 crc -> foldl byte_step crc l = foldl byte_ref crc l ∧
                                in_u 16 (foldl byte_ref crc l).
Proof.
  intros Hl. revert crc; induction Hl as [| b l Hb _ IH]; intros crc Hc; [done |].
  cbn [foldl]. rewrite byte_step_ref by done. apply IH. by apply byte_ref_in.
Qed.

Lemma foldl_ref_inj l crc crc' :
  bytes_ok l -> in_u 16 crc -> in_u 16 crc' ->
  foldl byte_ref crc l = foldl byte_ref crc' l -> crc = crc'.
Proof.
  intros Hl. revert crc crc'; induction Hl as [| b l Hb _ IH]; intros crc crc' Hc Hc' E; [done |].
  cbn [foldl] in E. apply IH in E; try by apply byte_ref_in.
  apply Z.lxor_eq, (iter_bit16_kernel 8); [by apply lxor_in_u |].
  replace (Z.lxor crc crc') with (Z.lxor (Z.lxor crc b) (Z.lxor crc' b)) by xor_solve.
  unfold byte_ref in E. rewrite <- iter_bit16_linear, E. apply Z.lxor_nilpotent.
Qed.

(** The table-driven [crc16_core] equals the bit-serial reflected CRC-16
    (generator 0x8005, initial value 0xFFFF) on every buffer. *)
Lemma crc16_core_reference nData :
  bytes_ok nData -> crc16_core nData = foldl byte_ref 0xFFFF nData.
Proof. intros. apply foldl_ref; [done |]. split; vm_compute; congruence. Qed.

Lemma crc16_core_reference_witness :
  crc16_core [0x31; 0x32; 0x33; 0x34; 0x35; 0x36; 0x37; 0x38; 0x39] = 0x4B37 ∧
  crc16_core [0x31; 0x32; 0x33; 0x34; 0x35; 0x36; 0x37; 0x38; 0x39] =
    foldl byte_ref 0xFFFF [0x31; 0x32; 0x33; 0x34; 0x35; 0x36; 0x37; 0x38; 0x39].
Proof.
  split; [vm_compute; reflexivity |].
  apply (crc16_core_reference [0x31; 0x32; 0x33; 0x34; 0x35; 0x36; 0x37; 0x38; 0x39]).
  repeat constructor; vm_compute; congruence.
Defined.
(** Every corruption confined to one byte changes the CRC-16. *)
Lemma crc16_detects_byte_error pre b b' post :
  bytes_ok (pre ++ b :: b' :: post) -> b ≠ b' ->
  crc16_core (pre ++ b :: post) ≠ crc16_core (pre ++ b' :: post).
Proof.
  intros H Hne. unfold bytes_ok in H. decompose_Forall_hyps.
  assert (Hini : in_u 16 0xFFFF) by (split; vm_compute; congruence).
  unfold crc16_core. rewrite !foldl_app. cbn [foldl].
  destruct (foldl_ref pre 0xFFFF) as [-> Hc]; [done.. |].
  set (crc := foldl byte_ref 0xFFFF pre) in *. rewrite !byte_step_ref by done.
  rewrite (proj1 (foldl_ref post (byte_ref crc b) ltac:(done) ltac:(by apply byte_ref_in))).
  rewrite (proj1 (foldl_ref post (byte_ref crc b') ltac:(done) ltac:(by apply byte_ref_in))).
  intros E%foldl_ref_inj; try done; try by apply byte_ref_in.
  unfold byte_ref in E. apply Hne, Z.lxor_eq.
  apply (iter_bit16_kernel 8); [apply lxor_in_u; [lia | |]; (eapply in_u_mono; [| done]; lia) |].
  replace (Z.lxor b b') with (Z.lxor (Z.lxor crc b) (Z.lxor crc b')) by xor_solve.
  rewrite <- iter_bit16_linear, E. apply Z.lxor_nilpotent.
Qed.

Lemma crc16_detects_byte_error_witness :
  crc16_core ([0x10; 0x20] ++ 0x30 :: [0x40]) ≠ crc16_core ([0x10; 0x20] ++ 0x31 :: [0x40]).
Proof.
  apply (crc16_detects_byte_error [0x10; 0x20] 0x30 0x31 [0x40]); [| lia].
  repeat constructor; vm_compute; congruence.
Defined.
End Crc16Spec.
