(* ===== verification/Gamepad.v ===== *)
(** * The gamepad of the state-machine example.

    Models [src/example/state_machine/gamepad.hpp] (shared with the g1 low-level
    example) and the [Gamepad] of
    [src/example/wireless_controller/advanced_gamepad.hpp], which differs in
    where its input comes from: the raw 40-byte remote frame of [LowState_], and
    the [WirelessController_] message.  Buttons are edge detectors, sticks are
    low-pass filters with a dead zone; both run on the [float] and [double]
    arithmetic of [Floats]. *)

From S2P Require Import Prelude Floats.

Local Open Scope Z_scope.

(** ** The key word

    The 16 one-bit fields of [xKeySwitchUnion::components] share storage with
    [value]; the ABI allocates them from the least significant bit. *)
Module Keys.

Definition bit_R1 : Z := 0.
Definition bit_L1 : Z := 1.
Definition bit_start : Z := 2.
Definition bit_select : Z := 3.
Definition bit_R2 : Z := 4.
Definition bit_L2 : Z := 5.
Definition bit_F1 : Z := 6.
Definition bit_F2 : Z := 7.
Definition bit_A : Z := 8.
Definition bit_B : Z := 9.
Definition bit_X : Z := 10.
Definition bit_Y : Z := 11.
Definition bit_up : Z := 12.
Definition bit_right : Z := 13.
Definition bit_down : Z := 14.
Definition bit_left : Z := 15.

Definition all : list Z :=
  [bit_R1; bit_L1; bit_start; bit_select; bit_R2; bit_L2; bit_F1; bit_F2; bit_A; bit_B; bit_X; bit_Y; bit_up; bit_right; bit_down; bit_left].

(** [btn.components.<f>], given [btn.value]. *)
Definition comp (value bit : Z) : bool := Z.testbit value bit.
End Keys.

(** ** Buttons *)
Module Button.
Record t := mk { pressed : bool; on_press : bool; on_release : bool }.

Definition init : t := mk false false false.

(** [Button::update]. *)
Definition update (b : t) (state : bool) : t :=
  {| on_press := if state then negb (Bool.eqb state (pressed b)) else false;
     on_release := if state then false else negb (Bool.eqb state (pressed b));
     pressed := state |}.

(** The successive states of a button fed with [states]. *)
Fixpoint trace (b : t) (states : list bool) : list t :=
  match states with
  | [] => []
  | s :: states => let b' := update b s in b' :: trace b' states
  end.
End Button.

(** ** Sticks *)

(** The filter statement repeated for each axis of [Gamepad::update]:
    [v * (1 - smooth)] is a [float] product, the conditional operator yields a
    [double], and the sum is rounded back to [float]. *)
Definition smooth_axis (smooth dead_zone v key : float32) : float32 :=
  let deadened := if flt (fabs key) dead_zone then fzero else F64.of_f32 key in
  F32.of_f64
    (F64.add (F64.of_f32 (F32.mul v (F32.sub (F32.of_Z 1) smooth)))
             (F64.mul deadened (F64.of_f32 smooth))).

Definition default_smooth : float32 := lit32 3 100.
Definition default_dead_zone : float32 := lit32 1 100.

(** ** The raw remote frame *)

(** [xRockerBtnDataStruct], as laid out in [REMOTE_DATA_RX::buff]. *)
Record xRockerBtnDataStruct := {
  rk_head : bytes;
  rk_btn : Z;
  rk_lx : float32;
  rk_rx : float32;
  rk_ry : float32;
  rk_L2 : float32;
  rk_ly : float32;
  rk_idle : bytes
}.

(** The view [rx.RF_RX] of the union after [memcpy(rx.buff, ..., 40)]. *)
Definition rf_rx (buff : bytes) : xRockerBtnDataStruct :=
  {| rk_head := slice 0 2 buff;
     rk_btn := le_val (slice 2 2 buff);
     rk_lx := f32_read (slice 4 4 buff);
     rk_rx := f32_read (slice 8 4 buff);
     rk_ry := f32_read (slice 12 4 buff);
     rk_L2 := f32_read (slice 16 4 buff);
     rk_ly := f32_read (slice 20 4 buff);
     rk_idle := slice 24 16 buff |}.

(** The other view: the frame as the remote sends it. *)
Definition rf_buff (k : xRockerBtnDataStruct) : bytes :=
  rk_head k ++ le_bytes 2 (rk_btn k) ++ f32_le (rk_lx k) ++ f32_le (rk_rx k) ++
  f32_le (rk_ry k) ++ f32_le (rk_L2 k) ++ f32_le (rk_ly k) ++ rk_idle k.

(** ** Gamepad *)
Module Gamepad.
Import Keys.

Record t := {
  lx : float32; rx : float32; ry : float32; l2 : float32; ly : float32;
  smooth : float32; dead_zone : float32;
  R1 : Button.t;
  L1 : Button.t;
  start : Button.t;
  select : Button.t;
  R2 : Button.t;
  L2 : Button.t;
  F1 : Button.t;
  F2 : Button.t;
  A : Button.t;
  B : Button.t;
  X : Button.t;
  Y : Button.t;
  up : Button.t;
  right : Button.t;
  down : Button.t;
  left : Button.t
}.

(** The default member initialisers. *)
Definition init : t :=
  {| lx := fzero; rx := fzero; ry := fzero; l2 := fzero; ly := fzero;
     smooth := default_smooth; dead_zone := default_dead_zone;
     R1 := Button.init;
     L1 := Button.init;
     start := Button.init;
     select := Button.init;
     R2 := Button.init;
     L2 := Button.init;
     F1 := Button.init;
     F2 := Button.init;
     A := Button.init;
     B := Button.init;
     X := Button.init;
     Y := Button.init;
     up := Button.init;
     right := Button.init;
     down := Button.init;
     left := Button.init |}.

(** [Gamepad::update(xRockerBtnDataStruct &)]. *)
Definition update (g : t) (key_data : xRockerBtnDataStruct) : t :=
  let key := rk_btn key_data in
  let axis := smooth_axis (smooth g) (dead_zone g) in
  {| lx := axis (lx g) (rk_lx key_data);
     rx := axis (rx g) (rk_rx key_data);
     ry := axis (ry g) (rk_ry key_data);
     l2 := axis (l2 g) (rk_L2 key_data);
     ly := axis (ly g) (rk_ly key_data);
     smooth := smooth g;
     dead_zone := dead_zone g;
     R1 := Button.update (R1 g) (comp key bit_R1);
     L1 := Button.update (L1 g) (comp key bit_L1);
     start := Button.update (start g) (comp key bit_start);
     select := Button.update (select g) (comp key bit_select);
     R2 := Button.update (R2 g) (comp key bit_R2);
     L2 := Button.update (L2 g) (comp key bit_L2);
     F1 := Button.update (F1 g) (comp key bit_F1);
     F2 := Button.update (F2 g) (comp key bit_F2);
     A := Button.update (A g) (comp key bit_A);
     B := Button.update (B g) (comp key bit_B);
     X := Button.update (X g) (comp key bit_X);
     Y := Button.update (Y g) (comp key bit_Y);
     up := Button.update (up g) (comp key bit_up);
     right := Button.update (right g) (comp key bit_right);
     down := Button.update (down g) (comp key bit_down);
     left := Button.update (left g) (comp key bit_left) |}.

(** The sixteen buttons, in the order of their bits. *)
Definition buttons (g : t) : list Button.t :=
  [R1 g; L1 g; start g; select g; R2 g; L2 g; F1 g; F2 g; A g; B g; X g; Y g; up g; right g; down g; left g].
End Gamepad.

(** The gamepad of the wireless-controller example, fed by messages whose
    [keys] field is assigned to [key.value]. *)
Module WirelessGamepad.
Import Keys.

Record WirelessController_ := {
  msg_lx : float32; msg_ly : float32; msg_rx : float32; msg_ry : float32; msg_keys : Z
}.

Record t := {
  smooth : float32; dead_zone : float32;
  lx : float32; rx : float32; ry : float32; ly : float32;
  R1 : Button.t;
  L1 : Button.t;
  start : Button.t;
  select : Button.t;
  R2 : Button.t;
  L2 : Button.t;
  F1 : Button.t;
  F2 : Button.t;
  A : Button.t;
  B : Button.t;
  X : Button.t;
  Y : Button.t;
  up : Button.t;
  right : Button.t;
  down : Button.t;
  left : Button.t;
  key_value : Z
}.

(** [Gamepad::Update(WirelessController_ &)]. *)
Definition Update (g : t) (key_msg : WirelessController_) : t :=
  let axis := smooth_axis (smooth g) (dead_zone g) in
  let key := u16 (msg_keys key_msg) in
  {| smooth := smooth g;
     dead_zone := dead_zone g;
     lx := axis (lx g) (msg_lx key_msg);
     rx := axis (rx g) (msg_rx key_msg);
     ry := axis (ry g) (msg_ry key_msg);
     ly := axis (ly g) (msg_ly key_msg);
     R1 := Button.update (R1 g) (comp key bit_R1);
     L1 := Button.update (L1 g) (comp key bit_L1);
     start := Button.update (start g) (comp key bit_start);
     select := Button.update (select g) (comp key bit_select);
     R2 := Button.update (R2 g) (comp key bit_R2);
     L2 := Button.update (L2 g) (comp key bit_L2);
     F1 := Button.update (F1 g) (comp key bit_F1);
     F2 := Button.update (F2 g) (comp key bit_F2);
     A := Button.update (A g) (comp key bit_A);
     B := Button.update (B g) (comp key bit_B);
     X := Button.update (X g) (comp key bit_X);
     Y := Button.update (Y g) (comp key bit_Y);
     up := Button.update (up g) (comp key bit_up);
     right := Button.update (right g) (comp key bit_right);
     down := Button.update (down g) (comp key bit_down);
     left := Button.update (left g) (comp key bit_left);
     key_value := key |}.

(** The state of the other gamepad that corresponds to this one. *)
Definition forget (g : t) : Gamepad.t :=
  {| Gamepad.lx := lx g; Gamepad.rx := rx g; Gamepad.ry := ry g;
     Gamepad.l2 := fzero; Gamepad.ly := ly g;
     Gamepad.smooth := smooth g; Gamepad.dead_zone := dead_zone g;
     Gamepad.R1 := R1 g;
     Gamepad.L1 := L1 g;
     Gamepad.start := start g;
     Gamepad.select := select g;
     Gamepad.R2 := R2 g;
     Gamepad.L2 := L2 g;
     Gamepad.F1 := F1 g;
     Gamepad.F2 := F2 g;
     Gamepad.A := A g;
     Gamepad.B := B g;
     Gamepad.X := X g;
     Gamepad.Y := Y g;
     Gamepad.up := up g;
     Gamepad.right := right g;
     Gamepad.down := down g;
     Gamepad.left := left g |}.
End WirelessGamepad.


(** * Properties *)

(** ** Buttons are exact edge detectors *)
Module ButtonProps.
Import Button.

Definition b2z (b : bool) : Z := if b then 1 else 0.
Definition count (f : t -> bool) (l : list t) : Z := foldr (fun b n => b2z (f b) + n) 0 l.

Definition final (b : t) (states : list bool) : bool := default (pressed b) (last states).

Lemma update_pressed b s : pressed (update b s) = s.
Proof. done. Qed.

Lemma update_edges b s :
  on_press (update b s) = s && negb (pressed b) ∧
  on_release (update b s) = negb s && pressed b.
Proof. by destruct b as [[] ? ?], s. Qed.

Lemma final_cons b s states : final b (s :: states) = final (update b s) states.
Proof. unfold final. rewrite last_cons. by destruct (last states). Qed.

(** Over any sequence of samples, a button reports as many presses as
    releases up to the difference of its final and initial level, and no sample
    reports both: every rising and every falling edge is reported exactly
    once. *)
Lemma button_edges_balance b states :
  count on_press (trace b states) - count on_release (trace b states)
    = b2z (final b states) - b2z (pressed b) ∧
  Forall (fun x => on_press x && on_release x = false) (trace b states).
Proof.
  revert b; induction states as [| s states IH]; intros b.
  - cbn. split; [unfold final; simpl; lia | constructor].
  - cbn [trace count foldr]. destruct (IH (update b s)) as [E F].
    pose proof (update_edges b s) as [E1 E2].
    rewrite update_pressed in E. rewrite final_cons. split.
    + unfold count in E. rewrite E1, E2. destruct s, (pressed b); simpl in *; lia.
    + constructor; [| done]. rewrite E1, E2. by destruct s, (pressed b).
Qed.
End ButtonProps.

Module GamepadProps.
Import Keys Gamepad.

(** The 16-bit word whose bit [i] is the [i]-th flag. *)
Fixpoint word_of (flags : list bool) : Z :=
  match flags with
  | [] => 0
  | f :: flags => (if f then 1 else 0) + 2 * word_of flags
  end.

Definition pressed_word (g : t) : Z := word_of (Button.pressed <$> buttons g).
Definition press_word (g : t) : Z := word_of (Button.on_press <$> buttons g).
Definition release_word (g : t) : Z := word_of (Button.on_release <$> buttons g).

Lemma word_of_testbit flags i :
  0 <= i -> Z.testbit (word_of flags) i = default false (flags !! Z.to_nat i).
Proof.
  revert i; induction flags as [| f flags IH]; intros i Hi; [apply Z.testbit_0_l |].
  cbn [word_of]. destruct (decide (i = 0)) as [-> |].
  - rewrite Z.add_comm. destruct f; [apply Z.testbit_odd_0 |].
    rewrite Z.add_0_r. apply Z.testbit_even_0.
  - replace i with (Z.succ (i - 1)) at 1 by lia.
    replace (Z.to_nat i) with (S (Z.to_nat (i - 1))) by lia. rewrite Z.add_comm. cbn.
    destruct f; [rewrite Z.testbit_odd_succ by lia | rewrite Z.add_0_r, Z.testbit_even_succ by lia];
      apply IH; lia.
Qed.

Lemma word_of_range flags : in_u (Z.of_nat (length flags)) (word_of flags).
Proof.
  induction flags as [| f flags IH]; [done |]. cbn [word_of length].
  unfold in_u in *. rewrite Nat2Z.inj_succ, Z.pow_succ_r by lia. destruct f; lia.
Qed.

(** Words given flag by flag combine bit by bit. *)
Lemma word_of_zip (f : bool -> bool -> bool) (op : Z -> Z -> Z) l k :
  (∀ a b i, 0 <= i -> Z.testbit (op a b) i = f (Z.testbit a i) (Z.testbit b i)) ->
  f false false = false -> length l = length k ->
  word_of (zip_with f l k) = op (word_of l) (word_of k).
Proof.
  intros Hop Hf Hl. apply Z.bits_inj'; intros i Hi.
  rewrite Hop, !word_of_testbit by done. rewrite lookup_zip_with.
  destruct (l !! Z.to_nat i) eqn:E1, (k !! Z.to_nat i) eqn:E2; try done; simpl.
  - apply lookup_lt_Some in E1. apply lookup_ge_None in E2. lia.
  - apply lookup_lt_Some in E2. apply lookup_ge_None in E1. lia.
Qed.

Lemma word_of_comp key : in_u 16 key -> word_of (comp key <$> all) = key.
Proof.
  intros Hk. apply Z.bits_inj'; intros i Hi. rewrite word_of_testbit by done.
  destruct (decide (i < 16)).
  - assert (Hc : i ∈ all).
    { apply list_elem_of_In. unfold all, In, bit_R1, bit_L1, bit_start, bit_select, bit_R2, bit_L2,
        bit_F1, bit_F2, bit_A, bit_B, bit_X, bit_Y, bit_up, bit_right, bit_down, bit_left. lia. }
    assert (all !! Z.to_nat i = Some i) as E.
    { apply list_elem_of_In in Hc. unfold all in Hc. cbn in Hc.
      repeat destruct Hc as [<- | Hc]; done. }
    by rewrite list_lookup_fmap, E.
  - rewrite (in_u_testbit_high 16) by (done || lia).
    rewrite lookup_ge_None_2; [done |]. cbn. lia.
Qed.

(** One [Gamepad::update] sets the sixteen [pressed] flags to the key word,
    and raises [on_press] ([on_release]) exactly on the keys that went down (up)
    since the previous frame: as words, [key & ~old] and [old & ~key]. *)
Lemma gamepad_update_keys g k :
  in_u 16 (rk_btn k) ->
  pressed_word (update g k) = rk_btn k ∧
  press_word (update g k) = Z.ldiff (rk_btn k) (pressed_word g) ∧
  release_word (update g k) = Z.ldiff (pressed_word g) (rk_btn k).
Proof.
  intros Hk. set (key := rk_btn k) in *.
  assert (E1 : Button.pressed <$> buttons (update g k) = comp key <$> all) by done.
  assert (E2 : Button.on_press <$> buttons (update g k) =
    zip_with (fun s p => s && negb p) (comp key <$> all) (Button.pressed <$> buttons g)).
  { cbn. subst key. repeat f_equal; apply ButtonProps.update_edges. }
  assert (E3 : Button.on_release <$> buttons (update g k) =
    zip_with (fun p s => p && negb s) (Button.pressed <$> buttons g) (comp key <$> all)).
  { cbn. subst key. repeat f_equal; rewrite andb_comm; apply ButtonProps.update_edges. }
  unfold pressed_word, press_word, release_word. rewrite E1, E2, E3.
  split; [by apply word_of_comp |].
  rewrite !(word_of_zip _ Z.ldiff) by (done || (intros; apply Z.ldiff_spec)).
  by rewrite word_of_comp.
Qed.

Definition sample_frame : xRockerBtnDataStruct :=
  {| rk_head := [0x55; 0x51]; rk_btn := 0x0130; rk_lx := lit32 1 2; rk_rx := fzero; rk_ry := fzero;
     rk_L2 := fzero; rk_ly := fneg (lit32 1 1); rk_idle := replicate 16 0 |}.

Lemma gamepad_update_keys_witness :
  pressed_word (update init sample_frame) = 0x0130 ∧
  press_word (update init sample_frame) = Z.ldiff 0x0130 (pressed_word init).
Proof.
  pose proof (gamepad_update_keys init sample_frame ltac:(split; vm_compute; congruence)) as (E1 & E2 & _).
  exact (conj E1 E2).
Defined.

(** Well-formed frames: the sizes of the arrays and the ranges of the fields. *)
Definition frame_ok (k : xRockerBtnDataStruct) : Prop :=
  length (rk_head k) = 2%nat ∧ length (rk_idle k) = 16%nat ∧ in_u 16 (rk_btn k) ∧
  f32_ok (rk_lx k) = true ∧ f32_ok (rk_rx k) = true ∧ f32_ok (rk_ry k) = true ∧
  f32_ok (rk_L2 k) = true ∧ f32_ok (rk_ly k) = true.

(** The two views of [REMOTE_DATA_RX] agree: a frame written through
    [RF_RX] is read back unchanged from the 40 bytes of [buff]. *)
Lemma remote_frame_roundtrip k :
  frame_ok k -> length (rf_buff k) = 40%nat ∧ rf_rx (rf_buff k) = k.
Proof.
  intros (Hh & Hi & Hb & H1 & H2 & H3 & H4 & H5). split.
  - unfold rf_buff. autorewrite with bytes. lia.
  - destruct k as [head btn lx rx ry L2 ly idle]. unfold rf_buff, rf_rx; cbn in *.
    read_slices.
    rewrite (f32_read_le lx), (f32_read_le rx), (f32_read_le ry), (f32_read_le L2), (f32_read_le ly),
      le_val_bytes by done.
    f_equal. unfold slice. rewrite drop_0. by rewrite take_ge by lia.
Qed.

Lemma remote_frame_roundtrip_witness : rf_rx (rf_buff sample_frame) = sample_frame.
Proof.
  apply (remote_frame_roundtrip sample_frame).
  unfold frame_ok. repeat split; vm_compute; congruence.
Defined.

(** ** Sticks *)

Lemma F64_add_nan_l y : F64.add S754_nan y = S754_nan.
Proof. done. Qed.

(** A stick is not self-healing: once an axis holds NaN (one corrupt frame
    with a NaN sample is enough, since the dead-zone test is false on NaN), every
    later update leaves it NaN, whatever the stick reports. *)
Lemma axis_nan_is_permanent smooth dead_zone v keys :
  let feed := foldl (smooth_axis smooth dead_zone) in
  is_nan smooth = false ->
  smooth_axis smooth dead_zone v S754_nan = S754_nan ∧
  feed S754_nan keys = S754_nan.
Proof.
  intros feed Hs. split.
  - unfold smooth_axis. cbn [fabs SFabs flt SFltb SFcompare F64.of_f32].
    unfold F64.add, F64.mul. cbn [SFmul]. by destruct (F64.of_f32 _) as [| | |].
  - subst feed. induction keys as [| k keys IH]; [done |]. cbn [foldl].
    replace (smooth_axis smooth dead_zone S754_nan k) with S754_nan; [done |].
    unfold smooth_axis, F32.mul. cbn [SFmul F64.of_f32]. by rewrite F64_add_nan_l.
Qed.

Lemma axis_nan_is_permanent_witness :
  smooth_axis default_smooth default_dead_zone fzero S754_nan = S754_nan ∧
  foldl (smooth_axis default_smooth default_dead_zone) S754_nan [fzero; lit32 1 2] = S754_nan.
Proof.
  apply (axis_nan_is_permanent default_smooth default_dead_zone fzero [fzero; lit32 1 2]).
  vm_compute. reflexivity.
Defined.

(** Inside the dead zone the stick's position has no influence: an axis at
    rest stays exactly at zero for every sample below the threshold. *)
Lemma axis_dead_zone key :
  flt (fabs key) default_dead_zone = true ->
  smooth_axis default_smooth default_dead_zone fzero key = fzero.
Proof. intros H. unfold smooth_axis. rewrite H. vm_compute. reflexivity. Qed.

Lemma axis_dead_zone_witness :
  smooth_axis default_smooth default_dead_zone fzero (lit32 9 1000) = fzero.
Proof. apply (axis_dead_zone (lit32 9 1000)). vm_compute. reflexivity. Defined.

(** The frame with the sticks and keys of a [WirelessController_] message. *)
Definition frame_of_msg (m : WirelessGamepad.WirelessController_) : xRockerBtnDataStruct :=
  {| rk_head := [0; 0]; rk_btn := u16 (WirelessGamepad.msg_keys m);
     rk_lx := WirelessGamepad.msg_lx m; rk_rx := WirelessGamepad.msg_rx m;
     rk_ry := WirelessGamepad.msg_ry m; rk_L2 := fzero; rk_ly := WirelessGamepad.msg_ly m;
     rk_idle := replicate 16 0 |}.

(** The two gamepad classes implement the same filter: feeding a sequence
    of [WirelessController_] messages to the wireless one and the corresponding
    raw frames to the other leaves them in the same state. *)
Lemma wireless_gamepad_refines g msgs :
  WirelessGamepad.smooth g = default_smooth ->
  WirelessGamepad.dead_zone g = default_dead_zone ->
  WirelessGamepad.forget (foldl WirelessGamepad.Update g msgs) =
  foldl update (WirelessGamepad.forget g) (frame_of_msg <$> msgs).
Proof.
  revert g; induction msgs as [| m msgs IH]; intros g Hs Hd; [done |]. cbn [foldl fmap list_fmap].
  rewrite IH by done. f_equal.
  unfold WirelessGamepad.forget, WirelessGamepad.Update, update, frame_of_msg.
  cbn. rewrite Hs, Hd. by rewrite axis_dead_zone by done.
Qed.

Definition sample_wireless : WirelessGamepad.t :=
  let z := Button.init in
  WirelessGamepad.Build_t default_smooth default_dead_zone fzero fzero fzero fzero
    z z z z z z z z z z z z z z z z 0.

Lemma wireless_gamepad_refines_witness :
  let msgs := [WirelessGamepad.Build_WirelessController_ (lit32 1 2) fzero fzero fzero 0x0104] in
  WirelessGamepad.forget (foldl WirelessGamepad.Update sample_wireless msgs) =
  foldl update (WirelessGamepad.forget sample_wireless) (frame_of_msg <$> msgs).
Proof. intros msgs. apply (wireless_gamepad_refines sample_wireless msgs); reflexivity. Defined.
End GamepadProps.
