(* ===== verification/Joystick.v ===== *)
(** * The joystick of the DDS wrapper.

    Models [src/include/unitree/dds_wrapper/common/unitree_joystick.hpp]: the
    template [Button<int>], the class [Axis], and [UnitreeJoystick::extract] and
    [combine], which unpack a remote frame into buttons and axes and pack it
    again.  The triggers LT and RT are axes fed with a one-bit field. *)

From S2P Require Import Prelude Floats Gamepad.

Local Open Scope Z_scope.

(** [Button<int>]. *)
Module JButton.
Record t := mk { pressed : bool; on_pressed : bool; on_released : bool; data_ : Z }.

Definition init : t := mk false false false 0.

Definition update (b : t) (data : Z) : t :=
  let pressed := negb (data =? 0) in
  {| pressed := pressed;
     on_pressed := pressed && (data_ b =? 0);
     on_released := negb pressed && negb (data_ b =? 0);
     data_ := data |}.
End JButton.

(** [Axis]: here the filter is computed in [double] throughout, and the
    threshold test uses the unrounded value. *)
Module Axis.
Record t := mk {
  smooth : float32; deadzone : float32;
  pressed : bool; on_pressed : bool; on_released : bool;
  threshold : float32; data_ : float32
}.

Definition init : t :=
  mk (lit32 3 100) (lit32 1 100) false false false (lit32 1 2) fzero.

Definition update (a : t) (data : float32) : t :=
  let data_deadzone := if flt (fabs data) (deadzone a) then fzero else F64.of_f32 data in
  let new_data :=
    F64.add (F64.mul (F64.of_f32 (data_ a)) (F64.sub (F64.of_Z 1) (F64.of_f32 (smooth a))))
            (F64.mul data_deadzone (F64.of_f32 (smooth a))) in
  let pressed := fgt new_data (F64.of_f32 (threshold a)) in
  {| smooth := smooth a; deadzone := deadzone a;
     pressed := pressed;
     on_pressed := pressed && flt (data_ a) (threshold a);
     on_released := negb pressed && fgt (data_ a) (threshold a);
     threshold := threshold a;
     data_ := F32.of_f64 new_data |}.
End Axis.

Module UnitreeJoystick.
Import Keys.

(** A one-bit field read as an [int], and an [int] stored in a one-bit field. *)
Definition comp_int (value bit : Z) : Z := if comp value bit then 1 else 0.
Definition set_field (value bit data : Z) : Z :=
  if Z.odd data then Z.setbit value bit else Z.clearbit value bit.

Record t := {
  back : JButton.t;
  start : JButton.t;
  LS : JButton.t;
  RS : JButton.t;
  LB : JButton.t;
  RB : JButton.t;
  A : JButton.t;
  B : JButton.t;
  X : JButton.t;
  Y : JButton.t;
  up : JButton.t;
  down : JButton.t;
  left : JButton.t;
  right : JButton.t;
  F1 : JButton.t;
  F2 : JButton.t;
  lx : Axis.t;
  ly : Axis.t;
  rx : Axis.t;
  ry : Axis.t;
  LT : Axis.t;
  RT : Axis.t
}.

Definition init : t :=
  {| back := JButton.init;
     start := JButton.init;
     LS := JButton.init;
     RS := JButton.init;
     LB := JButton.init;
     RB := JButton.init;
     A := JButton.init;
     B := JButton.init;
     X := JButton.init;
     Y := JButton.init;
     up := JButton.init;
     down := JButton.init;
     left := JButton.init;
     right := JButton.init;
     F1 := JButton.init;
     F2 := JButton.init;
     lx := Axis.init;
     ly := Axis.init;
     rx := Axis.init;
     ry := Axis.init;
     LT := Axis.init;
     RT := Axis.init |}.

(** [extract]: [LS] and [RS] have no key in the frame and keep their state. *)
Definition extract (j : t) (k : xRockerBtnDataStruct) : t :=
  let key := rk_btn k in
  {| back := JButton.update (back j) (comp_int key bit_select);
     start := JButton.update (start j) (comp_int key bit_start);
     LS := LS j;
     RS := RS j;
     LB := JButton.update (LB j) (comp_int key bit_L1);
     RB := JButton.update (RB j) (comp_int key bit_R1);
     A := JButton.update (A j) (comp_int key bit_A);
     B := JButton.update (B j) (comp_int key bit_B);
     X := JButton.update (X j) (comp_int key bit_X);
     Y := JButton.update (Y j) (comp_int key bit_Y);
     up := JButton.update (up j) (comp_int key bit_up);
     down := JButton.update (down j) (comp_int key bit_down);
     left := JButton.update (left j) (comp_int key bit_left);
     right := JButton.update (right j) (comp_int key bit_right);
     F1 := JButton.update (F1 j) (comp_int key bit_F1);
     F2 := JButton.update (F2 j) (comp_int key bit_F2);
     lx := Axis.update (lx j) (rk_lx k);
     ly := Axis.update (ly j) (rk_ly k);
     rx := Axis.update (rx j) (rk_rx k);
     ry := Axis.update (ry j) (rk_ry k);
     LT := Axis.update (LT j) (F32.of_Z (comp_int key bit_L2));
     RT := Axis.update (RT j) (F32.of_Z (comp_int key bit_R2)) |}.

(** The body of [combine] on the key word: the fields are assigned one by one. *)
Definition combine_keys (j : t) (w : Z) : Z :=
  let w := set_field w bit_select (JButton.data_ (back j)) in
  let w := set_field w bit_start (JButton.data_ (start j)) in
  let w := set_field w bit_L1 (JButton.data_ (LB j)) in
  let w := set_field w bit_R1 (JButton.data_ (RB j)) in
  let w := set_field w bit_F1 (JButton.data_ (F1 j)) in
  let w := set_field w bit_F2 (JButton.data_ (F2 j)) in
  let w := set_field w bit_A (JButton.data_ (A j)) in
  let w := set_field w bit_B (JButton.data_ (B j)) in
  let w := set_field w bit_X (JButton.data_ (X j)) in
  let w := set_field w bit_Y (JButton.data_ (Y j)) in
  let w := set_field w bit_up (JButton.data_ (up j)) in
  let w := set_field w bit_down (JButton.data_ (down j)) in
  let w := set_field w bit_left (JButton.data_ (left j)) in
  let w := set_field w bit_right (JButton.data_ (right j)) in
  let w := set_field w bit_L2 (if fgt (Axis.data_ (LT j)) (lit32 1 2) then 1 else 0) in
  set_field w bit_R2 (if fgt (Axis.data_ (RT j)) (lit32 1 2) then 1 else 0).

(** [combine]: [key] is declared without an initialiser, so the fields it does
    not assign keep the indeterminate contents [junk]. *)
Definition combine (j : t) (junk : xRockerBtnDataStruct) : xRockerBtnDataStruct :=
  {| rk_head := rk_head junk;
     rk_btn := combine_keys j (rk_btn junk);
     rk_lx := Axis.data_ (lx j);
     rk_rx := Axis.data_ (rx j);
     rk_ry := Axis.data_ (ry j);
     rk_L2 := rk_L2 junk;
     rk_ly := Axis.data_ (ly j);
     rk_idle := rk_idle junk |}.
End UnitreeJoystick.


(** * Properties *)
Module JoystickProps.
Import Keys UnitreeJoystick.

(** ** Two button classes, one behaviour *)

(** The bool-valued button of [Gamepad] that a [Button<int>] stands for. *)
Definition as_button (b : JButton.t) : Button.t :=
  Button.mk (JButton.pressed b) (JButton.on_pressed b) (JButton.on_released b).

(** Every state reachable by updates satisfies this. *)
Definition jbutton_wf (b : JButton.t) : Prop :=
  JButton.pressed b = negb (JButton.data_ b =? 0).

Lemma jbutton_step b d :
  jbutton_wf b ->
  jbutton_wf (JButton.update b d) ∧
  as_button (JButton.update b d) = Button.update (as_button b) (negb (d =? 0)).
Proof.
  unfold jbutton_wf. intros Hb. split; [done |]. unfold as_button, Button.update, JButton.update. cbn.
  rewrite Hb. by destruct (d =? 0), (JButton.data_ b =? 0).
Qed.

(** The joystick's [Button<int>] and the gamepad's [Button] raise the same
    [pressed], press and release flags on every sequence of samples. *)
Lemma jbutton_refines_button b ds :
  jbutton_wf b ->
  as_button (foldl JButton.update b ds) =
  foldl Button.update (as_button b) ((fun d => negb (d =? 0)) <$> ds).
Proof.
  revert b; induction ds as [| d ds IH]; intros b Hb; [done |]. cbn [foldl fmap list_fmap].
  destruct (jbutton_step b d Hb) as [Hwf E]. by rewrite IH, E.
Qed.

Lemma jbutton_refines_button_witness :
  as_button (foldl JButton.update JButton.init [1; 1; 0]) =
  foldl Button.update (as_button JButton.init) ((fun d => negb (d =? 0)) <$> [1; 1; 0]).
Proof. apply (jbutton_refines_button JButton.init [1; 1; 0]). reflexivity. Defined.

(** ** extract and combine *)

Lemma set_field_spec w bit d i :
  0 <= bit -> 0 <= i ->
  Z.testbit (set_field w bit d) i = if bit =? i then Z.odd d else Z.testbit w i.
Proof.
  intros Hb Hi. unfold set_field. destruct (Z.odd d).
  - rewrite Z.setbit_eqb by done. by destruct (bit =? i).
  - rewrite Z.clearbit_eqb. destruct (bit =? i); [by rewrite andb_false_r | by rewrite andb_true_r].
Qed.

Lemma odd_comp_int w bit : Z.odd (comp_int w bit) = Z.testbit w bit.
Proof. unfold comp_int, comp. by destruct (Z.testbit w bit). Qed.

(** [combine] after [extract] reproduces the key word on the fourteen keys
    that are buttons, whatever the previous joystick state and whatever the
    uninitialised result object held; only L2 and R2, which pass through the
    low-pass axes, may differ. *)
Lemma extract_combine_keys j k junk bit :
  bit ∈ all -> bit ≠ bit_L2 -> bit ≠ bit_R2 ->
  Z.testbit (rk_btn (combine (extract j k) junk)) bit = Z.testbit (rk_btn k) bit.
Proof.
  intros Hin H1 H2. cbn [combine rk_btn]. unfold combine_keys.
  assert (0 <= bit) by (apply list_elem_of_In in Hin; cbn in Hin; intuition (subst; done)).
  rewrite !set_field_spec by done. cbn [extract back start LB RB F1 F2 A B X Y up down left right
    JButton.data_ JButton.update]. rewrite !odd_comp_int.
  apply list_elem_of_In in Hin. unfold all in Hin.
  repeat (destruct Hin as [<- | Hin]; [first [done | congruence] |]). destruct Hin.
Qed.

Lemma extract_combine_keys_witness :
  Z.testbit (rk_btn (combine (extract init GamepadProps.sample_frame) GamepadProps.sample_frame)) bit_A
  = true.
Proof.
  rewrite (extract_combine_keys init GamepadProps.sample_frame GamepadProps.sample_frame bit_A);
    [vm_compute; reflexivity | vm_compute; do 8 right; left | vm_compute; congruence
    | vm_compute; congruence].
Defined.

(** ** Trigger latency *)

(** LT after [n] frames with the L2 key held down, from rest. *)
Definition held (n : nat) : Axis.t := Nat.iter n (fun a => Axis.update a (F32.of_Z 1)) Axis.init.

Definition held_flags (n : nat) (a : Axis.t) : bool :=
  Bool.eqb (Axis.pressed a) (23 <=? n)%nat && Bool.eqb (Axis.on_pressed a) (n =? 23)%nat &&
  Bool.eqb (fgt (Axis.data_ a) (lit32 1 2)) (23 <=? n)%nat.

(** The filter reaches a fixed point, just below one, after 452 frames. *)
Lemma held_fixpoint :
  Axis.update (held 452) (F32.of_Z 1) = held 452 ∧
  check_iter (fun a => Axis.update a (F32.of_Z 1)) held_flags 453 0 Axis.init = true.
Proof. vm_compute. split; reflexivity. Qed.

Lemma held_flags_ok n : held_flags n (held n) = true.
Proof.
  apply (check_iter_all _ held_flags 452); [exact (proj2 held_fixpoint) | exact (proj1 held_fixpoint) |].
  intros k a Hk. unfold held_flags.
  by rewrite (leb_stable 23 452 k), (eqb_stable 23 452 k) by lia.
Qed.

(** Holding the L2 key from rest, LT counts as pressed from the 23rd frame
    on and for ever after, its press edge is reported at frame 23 exactly, and
    [combine] sets the L2 key bit exactly from that frame on. *)
Lemma trigger_latency n :
  Axis.pressed (held n) = (23 <=? n)%nat ∧
  Axis.on_pressed (held n) = (n =? 23)%nat ∧
  ∀ j junk, LT j = held n -> Z.testbit (rk_btn (combine j junk)) bit_L2 = (23 <=? n)%nat.
Proof.
  pose proof (held_flags_ok n) as H. unfold held_flags in H.
  apply andb_true_iff in H as [[H1 H2]%andb_true_iff H3].
  split; [exact (eqb_prop _ _ H1) |]. split; [exact (eqb_prop _ _ H2) |].
  intros j junk Hj. cbn [combine rk_btn]. unfold combine_keys.
  rewrite !(set_field_spec _ bit_R2), (set_field_spec _ bit_L2), Hj by done.
  rewrite <- (eqb_prop _ _ H3). cbn. by destruct (fgt _ _).
Qed.
End JoystickProps.
