(* ===== verification/StateMachine.v ===== *)
(** * The three-state machine of the robot controller.

    Models [SimpleStateMachine] of [src/example/state_machine/state_machine.hpp]:
    DAMPING, STAND and CTRL, and the gain ratio [pd_ratio], a [double] ramped up
    and down while standing.  The file shows the invariant of the ratio, the
    guard of the CTRL state, and how many ramp steps that guard takes. *)

From S2P Require Import Prelude Floats.

Local Open Scope Z_scope.

Inductive STATES := DAMPING | STAND | CTRL.

#[global] Instance STATES_eq_dec : EqDecision STATES.
Proof. solve_decision. Defined.

(** The underlying values of the enumeration. *)
Definition STATES_to_Z (s : STATES) : Z :=
  match s with DAMPING => 0 | STAND => 1 | CTRL => 2 end.

Module SimpleStateMachine.

Record t := mk { state : STATES; pd_ratio : float64; delta_pd : float64 }.

(** The constructor and its default arguments. *)
Definition make (pd_ratio_init delta_pd : float64) : t := mk STAND pd_ratio_init delta_pd.
Definition init : t := make (F64.lit 1 10) (F64.lit 5 1000).

Definition Stop (m : t) : bool * t := (true, mk DAMPING fzero (delta_pd m)).

Definition Stand (m : t) : bool * t :=
  if bool_decide (state m = DAMPING) || bool_decide (state m = CTRL)
  then (true, mk STAND (pd_ratio m) (delta_pd m))
  else (false, m).

Definition Ctrl (m : t) : bool * t :=
  if bool_decide (state m = STAND) && fgt (pd_ratio m) (F64.lit 95 100)
  then (true, mk CTRL (pd_ratio m) (delta_pd m))
  else (false, m).

Definition Standing (m : t) (up : bool) : t :=
  if bool_decide (state m = STAND) then
    let r := if up then F64.add (pd_ratio m) (delta_pd m)
             else F64.sub (pd_ratio m) (delta_pd m) in
    mk (state m) (std_max fzero (std_min (F64.of_Z 1) r)) (delta_pd m)
  else m.

(** The operations as one step relation, for reasoning about their
    interleavings. *)
Inductive step : t -> t -> Prop :=
| step_stop m : step m (Stop m).2
| step_stand m : step m (Stand m).2
| step_ctrl m : step m (Ctrl m).2
| step_standing m up : step m (Standing m up).

(** The ratio is a number between zero and one. *)
Definition ratio_ok (m : t) : Prop := fin_range fzero (pd_ratio m) (F64.of_Z 1).

End SimpleStateMachine.

Module StateMachineProps.
Import SimpleStateMachine.

Lemma fzero_le_one : fle fzero (F64.of_Z 1) = true.
Proof. vm_compute. reflexivity. Qed.

Lemma Stop_ratio m : ratio_ok (Stop m).2.
Proof. split; vm_compute; reflexivity. Qed.

Lemma Standing_ratio m up : ratio_ok m -> ratio_ok (Standing m up).
Proof.
  intros H. unfold Standing. case_bool_decide; [| done].
  apply max_min_range, fzero_le_one.
Qed.

Lemma Stand_ratio m : ratio_ok m -> ratio_ok (Stand m).2.
Proof. intros. unfold Stand. by split_if. Qed.

Lemma Ctrl_ratio m : ratio_ok m -> ratio_ok (Ctrl m).2.
Proof. intros. unfold Ctrl. by split_if. Qed.

#[export] Hint Resolve Stop_ratio Standing_ratio Stand_ratio Ctrl_ratio : mach.

Lemma step_ratio m m' : step m m' -> ratio_ok m -> ratio_ok m'.
Proof. intros [] ?; eauto with mach. Qed.

(** From the constructor's default state, every interleaving of [Stop],
    [Stand], [Ctrl] and [Standing] keeps [pd_ratio] a number in [0, 1]. *)
Lemma pd_ratio_invariant m : rtc step init m -> ratio_ok m.
Proof.
  intros H. cut (∀ m0 m, rtc step m0 m -> ratio_ok m0 -> ratio_ok m).
  { intros Hi. apply (Hi _ _ H). split; vm_compute; reflexivity. }
  clear. induction 1; eauto using step_ratio.
Qed.

Lemma pd_ratio_invariant_witness : ratio_ok (Standing init true).
Proof. apply pd_ratio_invariant. apply rtc_once. exact (step_standing init true). Defined.

Lemma Ctrl_spec m :
  (Ctrl m).1 = true <-> state m = STAND ∧ fgt (pd_ratio m) (F64.lit 95 100) = true.
Proof.
  unfold Ctrl. destruct (decide (state m = STAND)) as [E | E];
    [rewrite (bool_decide_eq_true_2 _ E) | rewrite (bool_decide_eq_false_2 _ E)];
    cbn; [| intuition congruence].
  destruct (fgt _ _); cbn; intuition congruence.
Qed.

Lemma Ctrl_enters m :
  state (Ctrl m).2 = CTRL -> state m ≠ CTRL ->
  state m = STAND ∧ fgt (pd_ratio m) (F64.lit 95 100) = true.
Proof.
  intros E Hne. apply Ctrl_spec. revert E. unfold Ctrl. by split_if.
Qed.

Lemma Stand_result m : state (Stand m).2 = STAND ∧ pd_ratio (Stand m).2 = pd_ratio m.
Proof. unfold Stand. destruct (state m) eqn:E; cbn; rewrite ?E; done. Qed.

(** CTRL is only ever entered from STAND with the ratio above 0.95, and
    it is left only by an explicit [Stop] or [Stand]. *)
Lemma ctrl_entry_guard m m' :
  step m m' -> state m' = CTRL ->
  state m = CTRL ∨ (state m = STAND ∧ fgt (pd_ratio m) (F64.lit 95 100) = true).
Proof.
  intros [m0 | m0 | m0 | m0 up] E.
  - discriminate.
  - revert E. unfold Stand. destruct (bool_decide (state m0 = DAMPING) || _) eqn:Hb;
      [discriminate | by left].
  - destruct (Ctrl m0).1 eqn:Hc; [right; by apply Ctrl_spec |].
    left. revert E Hc. unfold Ctrl. by split_if.
  - left. revert E. unfold Standing. by case_bool_decide.
Qed.

Lemma ctrl_entry_guard_witness :
  let m := mk STAND (F64.of_Z 1) (F64.lit 5 1000) in
  state m = CTRL ∨ (state m = STAND ∧ fgt (pd_ratio m) (F64.lit 95 100) = true).
Proof.
  intros m. apply (ctrl_entry_guard m (Ctrl m).2); [exact (step_ctrl m) |].
  vm_compute. reflexivity.
Defined.

(** A reachable machine in DAMPING has no stiffness left to ramp down. *)
Definition damping_zero (m : t) : Prop := state m = DAMPING -> pd_ratio m = fzero.

Lemma step_damping_zero m m' : step m m' -> damping_zero m -> damping_zero m'.
Proof.
  unfold damping_zero. intros [m0 | m0 | m0 | m0 up] Hm E.
  - done.
  - revert E. unfold Stand. split_if; [discriminate | exact Hm].
  - revert E. unfold Ctrl. split_if; [discriminate | exact Hm].
  - revert E. unfold Standing. case_bool_decide; [cbn; congruence | exact Hm].
Qed.

Lemma reachable_damping_zero m : rtc step init m -> damping_zero m.
Proof.
  intros H. cut (∀ m0, rtc step m0 m -> damping_zero m0 -> damping_zero m).
  { intros Hi. by apply (Hi _ H). }
  clear. induction 1; eauto using step_damping_zero.
Qed.

(** ** How long the ramp takes *)

(** Standing up again after a [Stop], with the ramp key held for [n] steps. *)
Definition ramp_start : t := (Stand (Stop init).2).2.
Definition ramp_step (m : t) : t := Standing m true.
Definition ramp (n : nat) : t := Nat.iter n ramp_step ramp_start.

Definition ramp_test (n : nat) (m : t) : bool := Bool.eqb (Ctrl m).1 (190 <=? n)%nat.

(** The ramp saturates after 200 steps. *)
Lemma ramp_fixpoint : ramp_step (Nat.iter 200 ramp_step ramp_start) = Nat.iter 200 ramp_step ramp_start.
Proof. vm_compute. reflexivity. Qed.

Lemma ramp_checked : check_iter ramp_step ramp_test 201 0 ramp_start = true.
Proof. vm_compute. reflexivity. Qed.

Lemma ramp_test_ok n : ramp_test n (ramp n) = true.
Proof.
  apply (check_iter_all _ _ _ _ ramp_checked ramp_fixpoint).
  intros k m Hk. unfold ramp_test. by rewrite (leb_stable 190 200 k) by lia.
Qed.

(** After a [Stop], holding the ramp key, [Ctrl] is refused for the first
    189 standing steps and accepted after any larger number of them: the ramp
    always reaches the guard, and never before it should. *)
Lemma ramp_reaches_ctrl n : (Ctrl (ramp n)).1 = (190 <=? n)%nat.
Proof. apply eqb_prop. exact (ramp_test_ok n). Qed.
End StateMachineProps.
