(* ===== verification/LowCmd.v ===== *)
(** * Low-level commands and their wire images.

    Models the command structures of [src/example/state_machine/comm.h] (the
    packed [UNITREE_LEGGED_SDK::LowCmd]) and of the DDS type [LowCmd_], the
    conversion between them in [conversion.hpp], and the memory images over
    which [crc32_core] runs: the checksum is computed on the bytes of the C++
    object itself, so field order, widths and padding matter. *)

From S2P Require Import Prelude Floats Crc.
Import Crc32.

Local Open Scope Z_scope.

(** ** The DDS types *)

(** [unitree_go::msg::dds_::MotorCmd_]. *)
Record MotorCmd_ := {
  mode : Z; q : float32; dq : float32; tau : float32; kp : float32; kd : float32;
  reserve : list Z
}.

(** [unitree_go::msg::dds_::BmsCmd_]. *)
Record BmsCmd_ := { bms_off : Z; bms_reserve : bytes }.

(** [unitree_go::msg::dds_::LowCmd_]. *)
Record LowCmd_ := {
  head : bytes; level_flag : Z; frame_reserve : Z; sn : list Z; version : list Z;
  bandwidth : Z; motor_cmd : list MotorCmd_; bms_cmd : BmsCmd_; wireless_remote : bytes;
  led : bytes; fan : bytes; gpio : Z; lc_reserve : Z; crc : Z
}.

Definition MotorCmd_default : MotorCmd_ :=
  {| mode := 0; q := fzero; dq := fzero; tau := fzero; kp := fzero; kd := fzero;
     reserve := [0; 0; 0] |}.

Definition LowCmd_default : LowCmd_ :=
  {| head := [0; 0]; level_flag := 0; frame_reserve := 0; sn := [0; 0]; version := [0; 0];
     bandwidth := 0; motor_cmd := replicate 20 MotorCmd_default;
     bms_cmd := {| bms_off := 0; bms_reserve := [0; 0; 0] |};
     wireless_remote := replicate 40 0; led := replicate 12 0; fan := [0; 0]; gpio := 0;
     lc_reserve := 0; crc := 0 |}.

Definition set_motors (c : LowCmd_) (ms : list MotorCmd_) : LowCmd_ :=
  {| head := head c; level_flag := level_flag c; frame_reserve := frame_reserve c; sn := sn c;
     version := version c; bandwidth := bandwidth c; motor_cmd := ms; bms_cmd := bms_cmd c;
     wireless_remote := wireless_remote c; led := led c; fan := fan c; gpio := gpio c;
     lc_reserve := lc_reserve c; crc := crc c |}.

Definition set_crc (c : LowCmd_) (v : Z) : LowCmd_ :=
  {| head := head c; level_flag := level_flag c; frame_reserve := frame_reserve c; sn := sn c;
     version := version c; bandwidth := bandwidth c; motor_cmd := motor_cmd c; bms_cmd := bms_cmd c;
     wireless_remote := wireless_remote c; led := led c; fan := fan c; gpio := gpio c;
     lc_reserve := lc_reserve c; crc := v |}.

(** ** The packed SDK types *)
Module Raw.
(** [UNITREE_LEGGED_SDK::MotorCmd], under [#pragma pack(1)]. *)
Record MotorCmd := {
  mode : Z; q : float32; dq : float32; tau : float32; Kp : float32; Kd : float32;
  reserve : list Z
}.

Record BmsCmd := { off : Z; bms_reserve : bytes }.

Record LowCmd := {
  head : bytes; levelFlag : Z; frameReserve : Z; SN : list Z; version : list Z;
  bandWidth : Z; motorCmd : list MotorCmd; bms : BmsCmd; wirelessRemote : bytes;
  led : bytes; fan : bytes; gpio : Z; lc_reserve : Z; crc : Z
}.

Definition set_crc (r : LowCmd) (v : Z) : LowCmd :=
  {| head := head r; levelFlag := levelFlag r; frameReserve := frameReserve r; SN := SN r;
     version := version r; bandWidth := bandWidth r; motorCmd := motorCmd r; bms := bms r;
     wirelessRemote := wirelessRemote r; led := led r; fan := fan r; gpio := gpio r;
     lc_reserve := lc_reserve r; crc := v |}.

Definition set_reserve (r : LowCmd) (v : Z) : LowCmd :=
  {| head := head r; levelFlag := levelFlag r; frameReserve := frameReserve r; SN := SN r;
     version := version r; bandWidth := bandWidth r; motorCmd := motorCmd r; bms := bms r;
     wirelessRemote := wirelessRemote r; led := led r; fan := fan r; gpio := gpio r;
     lc_reserve := v; crc := crc r |}.

Definition motor_image (m : MotorCmd) : bytes :=
  [mode m] ++ f32_le (q m) ++ f32_le (dq m) ++ f32_le (tau m) ++ f32_le (Kp m) ++ f32_le (Kd m) ++
  concat (le_bytes 4 <$> reserve m).

(** The bytes of a packed [LowCmd], up to its last two members. *)
Definition image_body (r : LowCmd) : bytes :=
  head r ++ [levelFlag r] ++ [frameReserve r] ++ concat (le_bytes 4 <$> SN r) ++
  concat (le_bytes 4 <$> version r) ++ le_bytes 2 (bandWidth r) ++
  concat (motor_image <$> motorCmd r) ++ ([off (bms r)] ++ bms_reserve (bms r)) ++
  wirelessRemote r ++ led r ++ fan r ++ [gpio r].

Definition image (r : LowCmd) : bytes :=
  image_body r ++ le_bytes 4 (lc_reserve r) ++ le_bytes 4 (crc r).
End Raw.

(** ** Memory as words *)

(** The [uint32_t] words a pointer to the buffer addresses, on a little-endian
    machine; trailing bytes that do not fill a word are not reached. *)
Fixpoint words (l : bytes) : list Z :=
  match l with
  | a :: b :: c :: d :: l => le_val [a; b; c; d] :: words l
  | _ => []
  end.

(** [crc32_core(p, (sizeof(obj) >> 2) - 1)], [p] pointing to [obj] read as words. *)
Definition crc_of_object (image : bytes) : Z :=
  crc32_core (take (Nat.pred (Nat.div (length image) 4)) (words image)).

(** ** conversion.hpp *)

(** The loop of [motorCmd2Dds]. *)
Definition motorCmd2Dds (raw : list Raw.MotorCmd) : list MotorCmd_ :=
  (fun r => {| mode := Raw.mode r; q := Raw.q r; dq := Raw.dq r; tau := Raw.tau r;
               kp := Raw.Kp r; kd := Raw.Kd r; reserve := Raw.reserve r |}) <$> take 20 raw.

Definition bmsCmd2Dds (raw : Raw.BmsCmd) : BmsCmd_ :=
  {| bms_off := Raw.off raw; bms_reserve := Raw.bms_reserve raw |}.

(** [lowCmd2Dds] updates [raw.crc] in place and fills every field of [dds]. *)
Definition lowCmd2Dds (raw : Raw.LowCmd) : Raw.LowCmd * LowCmd_ :=
  let raw' := Raw.set_crc raw (crc_of_object (Raw.image raw)) in
  (raw',
   {| head := Raw.head raw; level_flag := Raw.levelFlag raw; frame_reserve := Raw.frameReserve raw;
      sn := Raw.SN raw; version := Raw.version raw; bandwidth := Raw.bandWidth raw;
      motor_cmd := motorCmd2Dds (Raw.motorCmd raw); bms_cmd := bmsCmd2Dds (Raw.bms raw);
      wireless_remote := Raw.wirelessRemote raw; led := Raw.led raw; fan := Raw.fan raw;
      gpio := Raw.gpio raw; lc_reserve := Raw.lc_reserve raw; crc := Raw.crc raw' |}).

(** ** The image of the DDS object

    The class has no virtual members and natural alignment: three bytes of
    padding follow [mode], two follow [bandwidth] and one follows [gpio].
    Padding bytes are unspecified, so they are a parameter of the image, over
    which the theorems quantify; one choice stands for all the motors of an
    object, and the checksum is read back over the bytes it was computed on. *)
Record Padding := { pad_mode : bytes; pad_bandwidth : bytes; pad_gpio : bytes }.

Definition padding_ok (p : Padding) : Prop :=
  length (pad_mode p) = 3%nat ∧ length (pad_bandwidth p) = 2%nat ∧ length (pad_gpio p) = 1%nat ∧
  bytes_ok (pad_mode p) ∧ bytes_ok (pad_bandwidth p) ∧ bytes_ok (pad_gpio p).

Definition motor_image (p : Padding) (m : MotorCmd_) : bytes :=
  [mode m] ++ pad_mode p ++ f32_le (q m) ++ f32_le (dq m) ++ f32_le (tau m) ++ f32_le (kp m) ++
  f32_le (kd m) ++ concat (le_bytes 4 <$> reserve m).

Definition image_body (p : Padding) (c : LowCmd_) : bytes :=
  head c ++ [level_flag c] ++ [frame_reserve c] ++ concat (le_bytes 4 <$> sn c) ++
  concat (le_bytes 4 <$> version c) ++ le_bytes 2 (bandwidth c) ++ pad_bandwidth p ++
  concat (motor_image p <$> motor_cmd c) ++ ([bms_off (bms_cmd c)] ++ bms_reserve (bms_cmd c)) ++
  wireless_remote c ++ led c ++ fan c ++ [gpio c] ++ pad_gpio p ++ le_bytes 4 (lc_reserve c).

Definition image (p : Padding) (c : LowCmd_) : bytes := image_body p c ++ le_bytes 4 (crc c).

(** [low_cmd.crc() = crc32_core(p, (sizeof(LowCmd_) >> 2) - 1)], [p] pointing to
    [low_cmd]. *)
Definition seal (p : Padding) (c : LowCmd_) : LowCmd_ := set_crc c (crc_of_object (image p c)).

(** * Properties *)
Module LowCmdProps.

(** Array sizes and field ranges, which the C++ types guarantee. *)
Definition motor_ok (m : MotorCmd_) : Prop :=
  in_u 8 (mode m) ∧ length (reserve m) = 3%nat ∧ Forall (in_u 32) (reserve m).

Definition cmd_ok (c : LowCmd_) : Prop :=
  length (head c) = 2%nat ∧ length (sn c) = 2%nat ∧ length (version c) = 2%nat ∧
  length (motor_cmd c) = 20%nat ∧ length (bms_reserve (bms_cmd c)) = 3%nat ∧
  length (wireless_remote c) = 40%nat ∧ length (led c) = 12%nat ∧ length (fan c) = 2%nat ∧
  bytes_ok (head c) ∧ in_u 8 (level_flag c) ∧ in_u 8 (frame_reserve c) ∧ in_u 8 (gpio c) ∧
  in_u 8 (bms_off (bms_cmd c)) ∧ bytes_ok (bms_reserve (bms_cmd c)) ∧
  bytes_ok (wireless_remote c) ∧ bytes_ok (led c) ∧ bytes_ok (fan c) ∧
  Forall motor_ok (motor_cmd c).

#[global] Instance motor_ok_dec m : Decision (motor_ok m).
Proof. unfold motor_ok. apply _. Defined.

#[global] Instance cmd_ok_dec c : Decision (cmd_ok c).
Proof. unfold cmd_ok. apply _. Defined.

#[global] Instance padding_ok_dec p : Decision (padding_ok p).
Proof. unfold padding_ok. apply _. Defined.

Lemma length_concat_const {A B} (f : A -> list B) k l :
  Forall (fun a => length (f a) = k) l -> length (concat (f <$> l)) = (k * length l)%nat.
Proof.
  induction 1 as [| a l Ha _ IH]; cbn; [lia |]. rewrite length_app, Ha, IH. lia.
Qed.

Lemma concat_ok (l : list bytes) : Forall bytes_ok l -> bytes_ok (concat l).
Proof. induction 1; cbn; [constructor |]. by apply Forall_app. Qed.

Lemma concat_words_ok l : bytes_ok (concat (le_bytes 4 <$> l)).
Proof. apply concat_ok, Forall_fmap, Forall_true. intros. apply le_bytes_ok. Qed.

Lemma length_words_bytes l : length (concat (le_bytes 4 <$> l)) = (4 * length l)%nat.
Proof. apply length_concat_const, Forall_true. intros. apply length_le_bytes. Qed.

#[local] Hint Rewrite @length_concat_const length_words_bytes : bytes.

Lemma f32_le_ok x : bytes_ok (f32_le x).
Proof. apply le_bytes_ok. Qed.

(** [bytes_solve] splits a [bytes_ok] of a concatenation of fields. *)
Ltac bytes_solve :=
  unfold bytes_ok in *;
  repeat first
    [ done | apply le_bytes_ok | apply f32_le_ok | apply concat_words_ok
    | apply Forall_app; split | apply Forall_cons; split | apply Forall_nil_2 ].

Lemma motor_image_ok p m :
  padding_ok p -> motor_ok m -> length (motor_image p m) = 36%nat ∧ bytes_ok (motor_image p m).
Proof.
  intros (Hp & _ & _ & Bp & _ & _) (Hm & Hr & _). split.
  - unfold motor_image. rewrite !length_app, !length_f32_le, length_words_bytes, Hp, Hr. done.
  - unfold motor_image. bytes_solve.
Qed.

Lemma image_body_ok p c :
  padding_ok p -> cmd_ok c -> length (image_body p c) = 808%nat ∧ bytes_ok (image_body p c).
Proof.
  intros Hp Hc. pose proof Hp as (_ & P2 & P3 & _ & B2 & B3).
  destruct Hc as (L1 & L2 & L3 & L4 & L5 & L6 & L7 & L8 & B4 & B5 & B6 & B7 & B8 & B9 & B10 & B11 & B12 & HM).
  split.
  - unfold image_body. rewrite !length_app, !length_words_bytes, !length_le_bytes.
    rewrite (length_concat_const (motor_image p) 36).
    + rewrite L1, L2, L3, L4, L5, L6, L7, L8, P2, P3. done.
    + eapply Forall_impl; [exact HM |]. intros m Hm. by apply motor_image_ok.
  - unfold image_body. assert (bytes_ok (concat (motor_image p <$> motor_cmd c))).
    { apply concat_ok, Forall_fmap. eapply Forall_impl; [exact HM |].
      intros m Hm. by apply motor_image_ok. }
    bytes_solve.
Qed.

(** ** Words of a buffer *)

Lemma words_app n (l k : bytes) : length l = (4 * n)%nat -> words (l ++ k) = words l ++ words k.
Proof.
  revert l; induction n as [| n IH]; intros l Hl.
  - by apply nil_length_inv in Hl as ->.
  - do 4 (destruct l as [| ? l]; [simpl in Hl; lia |]).
    cbn [app words]. f_equal. apply IH. simpl in Hl. lia.
Qed.

Lemma length_words n (l : bytes) : length l = (4 * n)%nat -> length (words l) = n.
Proof.
  revert l; induction n as [| n IH]; intros l Hl.
  - by apply nil_length_inv in Hl as ->.
  - do 4 (destruct l as [| ? l]; [simpl in Hl; lia |]).
    cbn [words length]. f_equal. apply IH. simpl in Hl. lia.
Qed.

Lemma take_words n (l : bytes) : take n (words l) = words (take (4 * n) l).
Proof.
  revert l; induction n as [| n IH]; intros l; [by rewrite take_0 |].
  replace (4 * S n)%nat with (4 + 4 * n)%nat by lia.
  do 4 (destruct l as [| ? l]; [done |]). cbn [words Nat.add take]. f_equal. apply IH.
Qed.

Lemma words_le4 z : in_u 32 z -> words (le_bytes 4 z) = [z].
Proof.
  intros Hz. change (words (le_bytes 4 z)) with [le_val (le_bytes 4 z)].
  f_equal. by apply le_val_bytes.
Qed.

Lemma words_ok n (l : bytes) : length l = (4 * n)%nat -> bytes_ok l -> Forall (in_u 32) (words l).
Proof.
  revert l; induction n as [| n IH]; intros l Hl Hb.
  - apply nil_length_inv in Hl as ->. constructor.
  - do 4 (destruct l as [| ? l]; [simpl in Hl; lia |]). unfold bytes_ok in Hb.
    decompose_Forall_hyps. constructor; [| apply IH; [simpl in Hl; lia | done]].
    apply (le_val_range [_; _; _; _]). unfold bytes_ok. by rewrite !Forall_cons, Forall_nil.
Qed.

(** ** Sealed commands *)

(** The checksum of an object whose last word is its [crc] member covers the
    words before it, and stored there it makes the checksum of the whole zero. *)
Lemma crc_of_object_body n body v :
  length body = (4 * n)%nat -> crc_of_object (body ++ le_bytes 4 v) = crc32_core (words body).
Proof.
  intros Hl. unfold crc_of_object. rewrite length_app, Hl, length_le_bytes.
  replace (Nat.pred ((4 * n + 4) / 4)) with n
    by (replace (4 * n + 4)%nat with (S n * 4)%nat by lia; by rewrite Nat.div_mul by lia).
  rewrite take_words. by rewrite <- Hl, take_app_length.
Qed.

Lemma words_sealed n body :
  length body = (4 * n)%nat -> bytes_ok body ->
  words (body ++ le_bytes 4 (crc32_core (words body))) = words body ++ [crc32_core (words body)].
Proof.
  intros Hl Hb. rewrite (words_app n), words_le4; [done | | done]. by apply Crc32Spec.crc32_in, (words_ok n).
Qed.

Lemma residue_sealed n body :
  length body = (4 * n)%nat -> bytes_ok body ->
  crc32_core (words (body ++ le_bytes 4 (crc32_core (words body)))) = 0.
Proof.
  intros Hl Hb. rewrite (words_sealed n) by done. by apply Crc32Spec.crc32_residue_gen, (words_ok n).
Qed.

(** Here it covers exactly the 202 words before the [crc] member. *)
Lemma crc_of_image p c :
  padding_ok p -> cmd_ok c -> crc_of_object (image p c) = crc32_core (words (image_body p c)).
Proof.
  intros Hp Hc. destruct (image_body_ok p c Hp Hc) as [Hl _]. by apply (crc_of_object_body 202).
Qed.

Lemma image_body_seal p c : image_body p (seal p c) = image_body p c.
Proof. done. Qed.

Lemma crc_seal p c :
  padding_ok p -> cmd_ok c -> crc (seal p c) = crc32_core (words (image_body p c)).
Proof. intros. by apply crc_of_image. Qed.

Lemma sealed_frame p c :
  padding_ok p -> cmd_ok c ->
  length (image p (seal p c)) = 812%nat ∧
  crc32_core (words (image p (seal p c))) = 0 ∧
  seal p (seal p c) = seal p c.
Proof.
  intros Hp Hc. destruct (image_body_ok p c Hp Hc) as [Hl Hb]. split; [| split].
  - unfold image. by rewrite image_body_seal, length_app, Hl, length_le_bytes.
  - unfold image. rewrite image_body_seal, crc_seal by done. by apply (residue_sealed 202).
  - unfold seal at 1. rewrite (crc_of_image p (seal p c)) by done.
    rewrite image_body_seal, <- crc_of_image by done. by destruct c.
Qed.
(** A sealed command is a valid frame: its memory image is 812 bytes, the
    CRC taken over the whole image (checksum included) is zero, and sealing it
    again changes nothing. *)
Lemma sealed_command_valid p c :
  padding_ok p -> cmd_ok c ->
  length (image p (seal p c)) = 812%nat ∧
  crc32_core (words (image p (seal p c))) = 0 ∧
  seal p (seal p c) = seal p c.
Proof. apply sealed_frame. Qed.

Definition zero_padding : Padding :=
  {| pad_mode := [0; 0; 0]; pad_bandwidth := [0; 0]; pad_gpio := [0] |}.

Lemma zero_padding_ok : padding_ok zero_padding.
Proof. apply (bool_decide_unpack _). vm_compute. exact I. Qed.

Lemma LowCmd_default_ok : cmd_ok LowCmd_default.
Proof. apply (bool_decide_unpack _). vm_compute. exact I. Qed.

Lemma sealed_command_valid_witness :
  crc32_core (words (image zero_padding (seal zero_padding LowCmd_default))) = 0.
Proof.
  apply (sealed_command_valid zero_padding LowCmd_default);
    [exact zero_padding_ok | exact LowCmd_default_ok].
Defined.

(** ** Corrupted motor fields *)

Inductive motor_field := FQ | FDQ | FTAU | FKP | FKD.

Definition get_field (f : motor_field) (m : MotorCmd_) : float32 :=
  match f with FQ => q m | FDQ => dq m | FTAU => tau m | FKP => kp m | FKD => kd m end.

(** [with_field f m x]: the motor command [m] with field [f] replaced by [x]. *)
Definition with_field (f : motor_field) (m : MotorCmd_) (x : float32) : MotorCmd_ :=
  {| mode := mode m;
     q := match f with FQ => x | _ => q m end;
     dq := match f with FDQ => x | _ => dq m end;
     tau := match f with FTAU => x | _ => tau m end;
     kp := match f with FKP => x | _ => kp m end;
     kd := match f with FKD => x | _ => kd m end;
     reserve := reserve m |}.

(** The image of a motor command around one of its floats. *)
Lemma motor_image_field p f m :
  padding_ok p -> motor_ok m ->
  ∃ a b pre post, length pre = (4 * a)%nat ∧ length post = (4 * b)%nat ∧
    bytes_ok pre ∧ bytes_ok post ∧
    ∀ x, motor_image p (with_field f m x) = pre ++ f32_le x ++ post.
Proof.
  intros (Hp & _ & _ & Bp & _ & _) (Hm & Hr & _).
  pose (w0 := [mode m] ++ pad_mode p). pose (r := concat (le_bytes 4 <$> reserve m)).
  assert (length w0 = 4%nat ∧ length r = 12%nat ∧ bytes_ok w0 ∧ bytes_ok r) as (L0 & Lr & B0 & Br).
  { subst w0 r. rewrite length_app, Hp, length_words_bytes, Hr. repeat split; bytes_solve. }
  assert (E : ∀ m', mode m' = mode m -> reserve m' = reserve m ->
    motor_image p m' = w0 ++ f32_le (q m') ++ f32_le (dq m') ++ f32_le (tau m') ++ f32_le (kp m') ++
                       f32_le (kd m') ++ r).
  { intros m' E1 E2. unfold motor_image, w0, r. rewrite E1, E2. by rewrite <- app_assoc. }
  destruct f;
    [ exists 1%nat, 7%nat, w0, (f32_le (dq m) ++ f32_le (tau m) ++ f32_le (kp m) ++ f32_le (kd m) ++ r)
    | exists 2%nat, 6%nat, (w0 ++ f32_le (q m)), (f32_le (tau m) ++ f32_le (kp m) ++ f32_le (kd m) ++ r)
    | exists 3%nat, 5%nat, (w0 ++ f32_le (q m) ++ f32_le (dq m)), (f32_le (kp m) ++ f32_le (kd m) ++ r)
    | exists 4%nat, 4%nat, (w0 ++ f32_le (q m) ++ f32_le (dq m) ++ f32_le (tau m)), (f32_le (kd m) ++ r)
    | exists 5%nat, 3%nat, (w0 ++ f32_le (q m) ++ f32_le (dq m) ++ f32_le (tau m) ++ f32_le (kp m)), r ];
    (split; [rewrite ?length_app, ?length_f32_le, ?L0; done |
     split; [rewrite ?length_app, ?length_f32_le, ?Lr; done |
     split; [bytes_solve | split; [bytes_solve |]]]];
     intros x; rewrite E by done; cbn [with_field q dq tau kp kd]; by rewrite <- ?app_assoc).
Qed.

Lemma bits_of_f32_inj x y :
  f32_ok x = true -> f32_ok y = true -> bits_of_f32 x = bits_of_f32 y -> x = y.
Proof. intros Hx Hy E. by rewrite <- (f32_of_bits_to_bits x), E, f32_of_bits_to_bits. Qed.

(** The image of a command around the float [f] of the motor after [ms1]. *)
Lemma image_body_field p c ms1 m ms2 f :
  padding_ok p -> cmd_ok c -> motor_cmd c = ms1 ++ m :: ms2 ->
  ∃ a P Q, length P = (4 * a)%nat ∧
    ∀ x, image_body p (set_motors c (ms1 ++ with_field f m x :: ms2)) = P ++ f32_le x ++ Q.
Proof.
  intros Hp Hc Hms.
  destruct Hc as (L1 & L2 & L3 & _ & _ & _ & _ & _ & _ & _ & _ & _ & _ & _ & _ & _ & _ & HM).
  rewrite Hms in HM. apply Forall_app in HM as [HM1 [Hm _]%Forall_cons].
  destruct (motor_image_field p f m Hp Hm) as (a & b & mpre & mpost & La & _ & _ & _ & Hmi).
  set (pre := head c ++ [level_flag c] ++ [frame_reserve c] ++ concat (le_bytes 4 <$> sn c) ++
              concat (le_bytes 4 <$> version c) ++ le_bytes 2 (bandwidth c) ++ pad_bandwidth p).
  eexists (6 + 9 * length ms1 + a)%nat, (pre ++ concat (motor_image p <$> ms1) ++ mpre), _. split.
  - subst pre. rewrite !length_app, !length_words_bytes, length_le_bytes, L1, L2, L3, La.
    rewrite (proj1 (proj2 Hp)), (length_concat_const (motor_image p) 36); [cbn; lia |].
    eapply Forall_impl; [exact HM1 |]. intros m' Hm'. by apply motor_image_ok.
  - intros x. unfold image_body, set_motors. cbn [head level_flag frame_reserve sn version bandwidth
      motor_cmd bms_cmd wireless_remote led fan gpio lc_reserve].
    rewrite fmap_app, fmap_cons, concat_app, concat_cons, Hmi. subst pre.
    rewrite <- !app_assoc. reflexivity.
Qed.

Lemma cmd_ok_with_field c ms1 m ms2 f x :
  cmd_ok c -> motor_cmd c = ms1 ++ m :: ms2 ->
  cmd_ok (set_motors c (ms1 ++ with_field f m x :: ms2)).
Proof.
  intros (?&?&?&L4&?&?&?&?&?&?&?&?&?&?&?&?&?&HM) Hms. rewrite Hms in L4, HM.
  unfold cmd_ok. split_and!; try done.
  - cbn. rewrite length_app in *. done.
  - cbn. apply Forall_app in HM as [HM1 [HM2 HM3]%Forall_cons].
    apply Forall_app; split; [done |]. constructor; done.
Qed.

(** No single-field corruption goes unnoticed: changing one of the five
    floats of any one motor in a command changes the CRC the command is sealed
    with. *)
Lemma seal_detects_motor_change p c ms1 m ms2 f x y :
  padding_ok p -> cmd_ok c -> motor_cmd c = ms1 ++ m :: ms2 ->
  f32_ok x = true -> f32_ok y = true -> x ≠ y ->
  crc (seal p (set_motors c (ms1 ++ with_field f m x :: ms2))) ≠
  crc (seal p (set_motors c (ms1 ++ with_field f m y :: ms2))).
Proof.
  intros Hp Hc Hms Hx Hy Hne.
  pose proof (cmd_ok_with_field c ms1 m ms2 f) as Hok.
  rewrite !crc_seal by auto.
  destruct (image_body_field p c ms1 m ms2 f Hp Hc Hms) as (a & P & Q & LP & E).
  destruct (image_body_ok p _ Hp (Hok x Hc Hms)) as [Lx Bx]. rewrite E in Lx, Bx.
  rewrite !length_app, length_f32_le, LP in Lx.
  assert (LQ : length Q = (4 * (201 - a))%nat) by lia.
  apply Forall_app in Bx as [BP [_ BQ]%Forall_app].
  rewrite !E, !(words_app a P), !(words_app 1 (f32_le _)) by (done || apply length_f32_le).
  unfold f32_le. rewrite !words_le4 by by apply bits_of_f32_range.
  apply Crc32Spec.crc32_detects_word_gen.
  - apply Forall_app; split; [by apply (words_ok a) |].
    repeat (constructor; [by apply bits_of_f32_range |]). by apply (words_ok (201 - a)).
  - intros Hb. by apply Hne, bits_of_f32_inj.
Qed.

Lemma seal_detects_motor_change_witness :
  let c := LowCmd_default in
  let m := MotorCmd_default in
  crc (seal zero_padding (set_motors c (replicate 3 m ++ with_field FQ m (lit32 9 10) :: replicate 16 m))) ≠
  crc (seal zero_padding (set_motors c (replicate 3 m ++ with_field FQ m fzero :: replicate 16 m))).
Proof.
  intros c m. apply (seal_detects_motor_change zero_padding c (replicate 3 m) m (replicate 16 m) FQ);
    [exact zero_padding_ok | exact LowCmd_default_ok | reflexivity | vm_compute; reflexivity
    | vm_compute; reflexivity | vm_compute; congruence].
Defined.

(** ** The packed command *)

Lemma le_bytes_mod3 w l : take 3 (le_bytes 4 w ++ l) = le_bytes 3 (w mod 2 ^ 24).
Proof.
  change (take 3 (le_bytes 4 w ++ l)) with [w mod 256; (w / 256) mod 256; (w / 256 / 256) mod 256].
  change (le_bytes 3 (w mod 2 ^ 24)) with
    [w mod 2 ^ 24 mod 256; (w mod 2 ^ 24 / 256) mod 256; (w mod 2 ^ 24 / 256 / 256) mod 256].
  change (2 ^ 24) with 16777216.
  assert (w mod 16777216 mod 256 = w mod 256) as ->
    by (Z.to_euclidean_division_equations; lia).
  assert ((w mod 16777216 / 256) mod 256 = (w / 256) mod 256) as ->
    by (Z.to_euclidean_division_equations; lia).
  assert ((w mod 16777216 / 256 / 256) mod 256 = (w / 256 / 256) mod 256) as ->
    by (Z.to_euclidean_division_equations; lia).
  done.
Qed.

Definition raw_ok (r : Raw.LowCmd) : Prop :=
  length (Raw.head r) = 2%nat ∧ length (Raw.SN r) = 2%nat ∧ length (Raw.version r) = 2%nat ∧
  length (Raw.motorCmd r) = 20%nat ∧ Forall (fun m => length (Raw.reserve m) = 3%nat) (Raw.motorCmd r) ∧
  length (Raw.bms_reserve (Raw.bms r)) = 3%nat ∧ length (Raw.wirelessRemote r) = 40%nat ∧
  length (Raw.led r) = 12%nat ∧ length (Raw.fan r) = 2%nat.

Lemma length_raw_body r : raw_ok r -> length (Raw.image_body r) = 741%nat.
Proof.
  intros (H1 & H2 & H3 & H4 & H5 & H6 & H7 & H8 & H9). unfold Raw.image_body.
  rewrite !length_app, !length_words_bytes, length_le_bytes.
  rewrite (length_concat_const Raw.motor_image 33).
  - rewrite H1, H2, H3, H4, H6, H7, H8, H9. done.
  - eapply Forall_impl; [exact H5 |]. intros m Hm. unfold Raw.motor_image.
    by rewrite !length_app, !length_f32_le, length_words_bytes, Hm.
Qed.

(** The packed [LowCmd] is 749 bytes, not a multiple of four, so the word
    count [(sizeof(raw) >> 2) - 1] of [lowCmd2Dds] stops one byte short of the
    [crc] member: commands that differ only in the most significant byte of
    [reserve] get the same CRC. *)
Lemma lowCmd2Dds_crc_gap r v v' :
  raw_ok r -> v mod 2 ^ 24 = v' mod 2 ^ 24 ->
  length (Raw.image r) = 749%nat ∧
  crc (lowCmd2Dds (Raw.set_reserve r v)).2 = crc (lowCmd2Dds (Raw.set_reserve r v')).2.
Proof.
  intros Hr Hv. pose proof (length_raw_body r Hr) as Hl. split.
  { unfold Raw.image. by rewrite !length_app, Hl, !length_le_bytes. }
  assert (E : ∀ w, crc (lowCmd2Dds (Raw.set_reserve r w)).2 =
                   crc32_core (words (Raw.image_body r ++ le_bytes 3 (w mod 2 ^ 24)))).
  { intros w. cbn [lowCmd2Dds snd crc Raw.crc Raw.set_crc]. unfold crc_of_object, Raw.image.
    change (Raw.image_body (Raw.set_reserve r w)) with (Raw.image_body r).
    cbn [Raw.set_reserve Raw.lc_reserve Raw.crc].
    rewrite !length_app, Hl, !length_le_bytes. change (Nat.pred (Nat.div (741 + (4 + 4)) 4)) with 186%nat.
    rewrite take_words, take_app_ge by (rewrite Hl; lia). rewrite Hl. do 2 f_equal.
    change (4 * 186 - 741)%nat with 3%nat. rewrite le_bytes_mod3. done. }
  by rewrite !E, Hv.
Qed.
Definition raw_zero : Raw.LowCmd :=
  let m := Raw.Build_MotorCmd 0 fzero fzero fzero fzero fzero [0; 0; 0] in
  Raw.Build_LowCmd [0xFE; 0xEF] 0xFF 0 [0; 0] [0; 0] 0 (replicate 20 m)
    (Raw.Build_BmsCmd 0 [0; 0; 0]) (replicate 40 0) (replicate 12 0) [0; 0] 0 0 0.

Lemma lowCmd2Dds_crc_gap_witness :
  length (Raw.image raw_zero) = 749%nat ∧
  crc (lowCmd2Dds (Raw.set_reserve raw_zero 5)).2 =
  crc (lowCmd2Dds (Raw.set_reserve raw_zero (5 + 2 ^ 24))).2.
Proof.
  apply (lowCmd2Dds_crc_gap raw_zero 5 (5 + 2 ^ 24)); [| vm_compute; reflexivity].
  unfold raw_ok. split_and!; try reflexivity. repeat constructor.
Defined.
End LowCmdProps.
