(* ===== verification/HgMsg.v ===== *)
(** * The messages of the humanoid robots.

    Models the classes [LowCmd_] and [LowState_] of
    [src/include/unitree/idl/hg], which the g1 and h1-2 programs exchange with
    the robot.  A command is a record, with the memory image its checksum is
    computed on.  A state message is kept as the bytes of the object it arrives
    in, which is what the checksum of the handlers is computed on as well; the
    members are read from it at their offsets.

    Alignment is natural: two bytes of padding follow [mode_machine], three
    follow every [mode] of a motor, two follow the temperature of the
    [IMUState_].  Padding is unspecified and a parameter of the image. *)

From S2P Require Import Prelude Floats Rounding Crc LowCmd.
Import Crc32.

Local Open Scope Z_scope.

Module Hg.

(** ** Commands *)

Record MotorCmd_ := {
  mode : Z; q : float32; dq : float32; tau : float32; kp : float32; kd : float32; reserve : Z
}.

Record LowCmd_ := {
  mode_pr : Z; mode_machine : Z; motor_cmd : list MotorCmd_; lc_reserve : list Z; crc : Z
}.

Definition MotorCmd_default : MotorCmd_ :=
  {| mode := 0; q := fzero; dq := fzero; tau := fzero; kp := fzero; kd := fzero; reserve := 0 |}.

Definition LowCmd_default : LowCmd_ :=
  {| mode_pr := 0; mode_machine := 0; motor_cmd := replicate 35 MotorCmd_default;
     lc_reserve := [0; 0; 0; 0]; crc := 0 |}.

Definition set_crc (c : LowCmd_) (v : Z) : LowCmd_ :=
  {| mode_pr := mode_pr c; mode_machine := mode_machine c; motor_cmd := motor_cmd c;
     lc_reserve := lc_reserve c; crc := v |}.

Record Padding := { pad_head : bytes; pad_mode : bytes }.

Definition padding_ok (p : Padding) : Prop :=
  length (pad_head p) = 2%nat ∧ length (pad_mode p) = 3%nat ∧ bytes_ok (pad_head p) ∧ bytes_ok (pad_mode p).

#[global] Instance padding_ok_dec p : Decision (padding_ok p).
Proof. unfold padding_ok. apply _. Defined.

Definition motor_image (p : Padding) (m : MotorCmd_) : bytes :=
  [mode m] ++ pad_mode p ++ f32_le (q m) ++ f32_le (dq m) ++ f32_le (tau m) ++ f32_le (kp m) ++
  f32_le (kd m) ++ le_bytes 4 (reserve m).

Definition image_body (p : Padding) (c : LowCmd_) : bytes :=
  [mode_pr c] ++ [mode_machine c] ++ pad_head p ++ concat (motor_image p <$> motor_cmd c) ++
  concat (le_bytes 4 <$> lc_reserve c).

Definition image (p : Padding) (c : LowCmd_) : bytes := image_body p c ++ le_bytes 4 (crc c).

(** [cmd.crc() = Crc32Core(p, (sizeof(cmd) >> 2) - 1)], [p] pointing to [cmd]. *)
Definition seal (p : Padding) (c : LowCmd_) : LowCmd_ := set_crc c (crc_of_object (image p c)).

(** Array sizes and field ranges, which the C++ types guarantee. *)
Definition cmd_ok (c : LowCmd_) : Prop :=
  in_u 8 (mode_pr c) ∧ in_u 8 (mode_machine c) ∧ length (motor_cmd c) = 35%nat ∧
  Forall (fun m => in_u 8 (mode m)) (motor_cmd c) ∧ length (lc_reserve c) = 4%nat.

#[global] Instance cmd_ok_dec c : Decision (cmd_ok c).
Proof. unfold cmd_ok. apply _. Defined.

(** ** State messages *)

(** [sizeof(LowState_)]. *)
Definition LowState_size : nat := 2092.

(** The object: its bytes. *)
Abbreviation LowState_ := bytes.

Definition LowState_default : LowState_ := replicate LowState_size 0.

(** [mode_machine()]. *)
Definition state_mode_machine (m : LowState_) : Z := le_val (slice 9 1 m).

Definition floats (off n : nat) (m : LowState_) : list float32 :=
  (fun i => f32_read (slice (off + 4 * i) 4 m)) <$> seq 0 n.

(** [imu_state().gyroscope()] and [imu_state().rpy()]. *)
Definition gyroscope (m : LowState_) : list float32 := floats 32 3 m.
Definition rpy (m : LowState_) : list float32 := floats 56 3 m.

(** [motor_state()[i].q()] and [motor_state()[i].dq()]; a [MotorState_] takes
    56 bytes, the array starts at byte 72. *)
Definition motor_q (i : nat) (m : LowState_) : float32 := f32_read (slice (72 + 56 * i + 4) 4 m).
Definition motor_dq (i : nat) (m : LowState_) : float32 := f32_read (slice (72 + 56 * i + 8) 4 m).

(** [wireless_remote()]. *)
Definition wireless_remote (m : LowState_) : bytes := slice 2032 40 m.

(** [crc()], and the test the handlers make of it. *)
Definition state_crc (m : LowState_) : Z := le_val (slice 2088 4 m).
Definition crc_matches (m : LowState_) : bool := state_crc m =? crc_of_object m.

Definition state_ok (m : LowState_) : Prop := length m = LowState_size ∧ bytes_ok m.

(** * Properties *)

Lemma hg_motor_image_ok p m :
  padding_ok p -> in_u 8 (mode m) -> length (motor_image p m) = 28%nat ∧ bytes_ok (motor_image p m).
Proof.
  intros (_ & Hp & _ & Bp) Hm. split.
  - unfold motor_image. by rewrite !length_app, !length_f32_le, length_le_bytes, Hp.
  - unfold motor_image. LowCmdProps.bytes_solve.
Qed.

Lemma hg_image_body_ok p c :
  padding_ok p -> cmd_ok c -> length (image_body p c) = 1000%nat ∧ bytes_ok (image_body p c).
Proof.
  intros Hp (H1 & H2 & H3 & HM & H4). pose proof Hp as (P1 & P2 & B1 & B2).
  assert (HM' : Forall (fun m => length (motor_image p m) = 28%nat ∧ bytes_ok (motor_image p m)) (motor_cmd c)).
  { eapply Forall_impl; [exact HM|]. intros m Hm. by apply hg_motor_image_ok. }
  split.
  - unfold image_body. rewrite !length_app, LowCmdProps.length_words_bytes, H4, P1.
    rewrite (LowCmdProps.length_concat_const (motor_image p) 28), H3; [done|].
    eapply Forall_impl; [exact HM'|]. by intros m [? _].
  - unfold image_body. assert (bytes_ok (concat (motor_image p <$> motor_cmd c))).
    { apply LowCmdProps.concat_ok, Forall_fmap. eapply Forall_impl; [exact HM'|]. by intros m [_ ?]. }
    LowCmdProps.bytes_solve.
Qed.

(** A sealed command is 1004 bytes and its checksum is right. *)
Lemma sealed_image p c :
  padding_ok p -> cmd_ok c ->
  length (image p (seal p c)) = 1004%nat ∧ crc32_core (words (image p (seal p c))) = 0.
Proof.
  intros Hp Hc. destruct (hg_image_body_ok p c Hp Hc) as [Hl Hb]. unfold image at 1 2.
  change (image_body p (seal p c)) with (image_body p c). split.
  - by rewrite length_app, Hl, length_le_bytes.
  - assert (crc (seal p c) = crc32_core (words (image_body p c))) as ->
      by by apply (LowCmdProps.crc_of_object_body 250).
    by apply (LowCmdProps.residue_sealed 250).
Qed.

(** ** Corrupted state messages *)

Lemma state_split (m : LowState_) :
  length m = LowState_size -> m = take 2088 m ++ slice 2088 4 m.
Proof.
  intros Hl. unfold slice. rewrite (take_ge (drop 2088 m)), take_drop; [done|].
  rewrite length_drop, Hl. done.
Qed.

Lemma crc_of_state m : state_ok m -> crc_of_object m = crc32_core (words (take 2088 m)).
Proof.
  intros [Hl Hb]. rewrite (state_split m Hl) at 1.
  assert (Hs : slice 2088 4 m = le_bytes 4 (le_val (slice 2088 4 m))).
  { assert (L : length (slice 2088 4 m) = 4%nat) by (apply length_slice; rewrite Hl; done).
    pose proof (le_bytes_val (slice 2088 4 m)) as E. rewrite L in E. symmetry.
    apply E, Forall_take, Forall_drop, Hb. }
  rewrite Hs. apply (LowCmdProps.crc_of_object_body 522). rewrite length_take, Hl. done.
Qed.

(** A message in which one aligned 32-bit word before the checksum was changed
    fails the test. *)
Lemma corrupted_word (pre w w' post : bytes) a :
  length pre = (4 * a)%nat -> (a < 522)%nat -> length w = 4%nat -> length w' = 4%nat ->
  state_ok (pre ++ w ++ post) -> bytes_ok w' -> w ≠ w' ->
  crc_matches (pre ++ w ++ post) = true -> crc_matches (pre ++ w' ++ post) = false.
Proof.
  intros Hpre Ha Hw Hw' [Hl Hb] Bw' Hne [=E%Z.eqb_eq].
  apply Forall_app in Hb as [Bpre [Bw Bpost]%Forall_app].
  rewrite !length_app, Hpre, Hw in Hl. unfold LowState_size in Hl.
  assert (Hok : ∀ v, length v = 4%nat -> bytes_ok v -> state_ok (pre ++ v ++ post)).
  { intros v Hv Bv. split; [rewrite !length_app, Hpre, Hv; unfold LowState_size; lia|].
    unfold bytes_ok. rewrite !Forall_app. done. }
  assert (Hsc : ∀ v, length v = 4%nat ->
    state_crc (pre ++ v ++ post) = le_val (slice (2088 - 4 * a - 4) 4 post)).
  { intros v Hv. unfold state_crc. rewrite !slice_skip by lia. f_equal. f_equal. lia. }
  assert (Hbody : ∀ v, length v = 4%nat -> bytes_ok v ->
    crc_of_object (pre ++ v ++ post) = crc32_core (words pre ++ le_val v :: words (take (2084 - 4 * a) post))).
  { intros v Hv Bv. rewrite crc_of_state by by apply Hok.
    rewrite take_app_ge, take_app_ge by lia. rewrite Hpre, Hv.
    replace (2088 - 4 * a - 4)%nat with (2084 - 4 * a)%nat by lia.
    rewrite (LowCmdProps.words_app a), (LowCmdProps.words_app 1) by done.
    do 4 (destruct v as [|? v]; [done|]). by destruct v. }
  unfold crc_matches. apply Z.eqb_neq. rewrite Hsc, Hbody by done. rewrite Hsc, Hbody in E by done. rewrite E.
  assert (Hv : ∀ v, length v = 4%nat -> bytes_ok v -> in_u 32 (le_val v)).
  { intros v Hv Bv. pose proof (le_val_range v Bv) as Hr. by rewrite Hv in Hr. }
  apply Crc32Spec.crc32_detects_word_gen.
  - apply Forall_app; split; [by apply (LowCmdProps.words_ok a)|].
    constructor; [by apply Hv|]. constructor; [by apply Hv|].
    apply (LowCmdProps.words_ok (521 - a)); [rewrite length_take; lia|by apply Forall_take].
  - intros Hval. apply Hne. rewrite <- (le_bytes_val w), <- (le_bytes_val w') by done. by rewrite Hw, Hw', Hval.
Qed.

(** ** Angles read from a message *)

Lemma f32_of_bits_valid z : f32_ok (f32_of_bits z) = true.
Proof.
  unfold f32_of_bits, f32_ok. set (ex := (z / 2 ^ 23) mod 256). set (m := z mod 2 ^ 23).
  assert (0 <= ex < 256) by (apply Z.mod_pos_bound; lia).
  assert (0 <= m < 2 ^ 23) by (apply Z.mod_pos_bound; lia).
  clearbody ex m. destruct (Z.eqb_spec ex 255); [by destruct (m =? 0)|].
  destruct (Z.eqb_spec ex 0); [destruct m as [|p|p]; [done| |done]|
    destruct (m + 2 ^ 23) as [|p|p] eqn:E; [done| |done]];
    cbn; unfold bounded, canonical_mantissa; apply andb_true_iff; rewrite Z.eqb_eq, Z.leb_le.
  - pose proof (digits2_pos_le p 23). unfold fexp, emin. lia.
  - rewrite (digits_unique p 24) by lia. unfold fexp, emin. lia.
Qed.

Lemma motor_q_valid i m : f32_ok (motor_q i m) = true.
Proof. apply f32_of_bits_valid. Qed.
End Hg.
