(* ===== verification/RobotInterface.v ===== *)
(** * The robot interface and the user controller of the state-machine example.

    Models [src/example/state_machine/robot_interface.hpp] (joint targets and
    gains, the projected gravity vector, and [SetCommand], which turns them into
    a sealed [LowCmd_]) and [user_controller.hpp] with its configuration
    [cfg.hpp].  The class [UserController] is the interface of the template
    parameter [USER_CTRL]: what the controller loop relies on, and what
    [ExampleUserController] is shown to provide. *)

From S2P Require Import Prelude Floats LowCmd Gamepad.

Local Open Scope Z_scope.

(** The members of [LowState_] the example reads. *)
Record LowState_ := {
  st_quaternion : list float32; st_rpy : list float32; st_gyroscope : list float32;
  st_motor : list (float32 * float32 * float32);  (* q, dq, tau_est of the 20 motors *)
  st_wireless_remote : bytes
}.

Definition PosStopF : float32 := lit32 2146000000 1.
Definition VelStopF : float32 := lit32 16000 1.

Module RobotInterface.

Record t := {
  jpos : list float32; jvel : list float32; tau : list float32;
  quat : list float32; rpy : list float32; gyro : list float32;
  projected_gravity : list float32;
  jpos_des : list float32; jvel_des : list float32;
  kp : list float32; kd : list float32; tau_ff : list float32;
  low_cmd : LowCmd_
}.

(** [InitLowCmd]: the loop writes all twenty motors, the head, the level flag
    and [gpio]; everything else keeps the default of [LowCmd_]. *)
Definition InitLowCmd (c : LowCmd_) : LowCmd_ :=
  let servo (m : MotorCmd_) : MotorCmd_ :=
    {| mode := 1; q := PosStopF; dq := VelStopF; LowCmd.tau := fzero; LowCmd.kp := fzero;
       LowCmd.kd := fzero; reserve := reserve m |} in
  {| head := [0xFE; 0xEF]; level_flag := 0xFF; frame_reserve := frame_reserve c; sn := sn c;
     version := version c; bandwidth := bandwidth c; motor_cmd := servo <$> motor_cmd c;
     bms_cmd := bms_cmd c; wireless_remote := wireless_remote c; led := led c; fan := fan c;
     gpio := 0; lc_reserve := lc_reserve c; crc := crc c |}.

(** The constructors: the measured quantities are left uninitialised ([junk]). *)
Definition make (junk : t) : t :=
  {| jpos := jpos junk; jvel := jvel junk; tau := tau junk; quat := quat junk; rpy := rpy junk;
     gyro := gyro junk;
     projected_gravity := [fzero; fzero; F32.of_Z (-1)];
     jpos_des := replicate 12 fzero; jvel_des := replicate 12 fzero; kp := replicate 12 fzero;
     kd := replicate 12 fzero; tau_ff := replicate 12 fzero;
     low_cmd := InitLowCmd LowCmd_default |}.

(** [UpdateProjectedGravity], in single precision, in source order. *)
Definition project_gravity (quat : list float32) : list float32 :=
  let w := quat !!! 0%nat in
  let x := fneg (quat !!! 1%nat) in
  let y := fneg (quat !!! 2%nat) in
  let z := fneg (quat !!! 3%nat) in
  let x2 := F32.mul x x in
  let y2 := F32.mul y y in
  let z2 := F32.mul z z in
  let w2 := F32.mul w w in
  let xz := F32.mul x z in
  let yz := F32.mul y z in
  let wx := F32.mul w x in
  let wy := F32.mul w y in
  [ F32.mul (F32.of_Z (-2)) (F32.add xz wy);
    F32.mul (F32.of_Z (-2)) (F32.sub yz wx);
    fneg (F32.add (F32.sub (F32.sub w2 x2) y2) z2) ].

Definition GetState (r : t) (s : LowState_) : t :=
  {| jpos := (fun m => m.1.1) <$> take 12 (st_motor s);
     jvel := (fun m => m.1.2) <$> take 12 (st_motor s);
     tau := (fun m => m.2) <$> take 12 (st_motor s);
     quat := st_quaternion s; rpy := st_rpy s; gyro := st_gyroscope s;
     projected_gravity := project_gravity (st_quaternion s);
     jpos_des := jpos_des r; jvel_des := jvel_des r; kp := kp r; kd := kd r; tau_ff := tau_ff r;
     low_cmd := low_cmd r |}.

(** The assignments of the targets and gains, used by the callbacks. *)
Definition set_targets (r : t) (jpos_des' jvel_des' kp' kd' tau_ff' : list float32) : t :=
  {| jpos := jpos r; jvel := jvel r; tau := tau r; quat := quat r; rpy := rpy r; gyro := gyro r;
     projected_gravity := projected_gravity r;
     jpos_des := jpos_des'; jvel_des := jvel_des'; kp := kp'; kd := kd'; tau_ff := tau_ff';
     low_cmd := low_cmd r |}.

(** The body of the loop of [SetCommand], for motor [i]. *)
Definition set_motor (r : t) (i : nat) (m : MotorCmd_) : MotorCmd_ :=
  {| mode := mode m; q := jpos_des r !!! i; dq := jvel_des r !!! i; LowCmd.kp := kp r !!! i;
     LowCmd.kd := kd r !!! i; LowCmd.tau := tau_ff r !!! i; reserve := reserve m |}.

Definition write_motors (r : t) (ms : list MotorCmd_) : list MotorCmd_ :=
  imap (fun i m => if (i <? 12)%nat then set_motor r i m else m) ms.

(** [SetCommand(cmd)]: updates [low_cmd], seals it, and assigns it to [cmd]. *)
Definition SetCommand (pad : Padding) (r : t) : t * LowCmd_ :=
  let c := seal pad (set_motors (low_cmd r) (write_motors r (motor_cmd (low_cmd r)))) in
  ({| jpos := jpos r; jvel := jvel r; tau := tau r; quat := quat r; rpy := rpy r; gyro := gyro r;
      projected_gravity := projected_gravity r; jpos_des := jpos_des r; jvel_des := jvel_des r;
      kp := kp r; kd := kd r; tau_ff := tau_ff r; low_cmd := c |}, c).

End RobotInterface.

(** ** User controllers *)

(** What [RobotController<USER_CTRL>] uses of its parameter: the operations of
    [BasicUserController], and that running them does not touch the
    configuration loaded by [LoadParam]. *)
Class UserController (C : Type) := {
  uc_dt : C -> float32;
  uc_kp : C -> float32;
  uc_kd : C -> float32;
  uc_init_pos : C -> list float32;
  uc_jpos_des : C -> list float32;
  uc_GetInput : C -> RobotInterface.t -> Gamepad.t -> C;
  uc_Reset : C -> RobotInterface.t -> Gamepad.t -> C;
  uc_Calculate : C -> C;
  uc_GetLog : C -> list float32;
  (** The configured part: time step, gains and initial pose. *)
  uc_config (c : C) : float32 * float32 * float32 * list float32 :=
    (uc_dt c, uc_kp c, uc_kd c, uc_init_pos c);
  uc_GetInput_config c r g : uc_config (uc_GetInput c r g) = uc_config c;
  uc_Reset_config c r g : uc_config (uc_Reset c r g) = uc_config c;
  uc_Calculate_config c : uc_config (uc_Calculate c) = uc_config c
}.

(** [ExampleCfg]: the values [fromJson] reads. *)
Record ExampleCfg := { cfg_kp : float32; cfg_kd : float32; cfg_dt : float32; cfg_init_pos : list float32 }.

Module ExampleUserController.

Record t := {
  dt : float32; kp : float32; kd : float32;
  init_pos : list float32; jpos_des : list float32;
  cfg : ExampleCfg;
  cmd : list float32; jpos_processed : list float32; jvel_processed : list float32
}.

(** [LoadParam], given the parsed configuration; [cfg.init_pos.at(i)] throws
    when the vector has fewer than twelve elements. *)
Definition LoadParam (c : t) (parsed : ExampleCfg) : option t :=
  pos ← mapM (fun i => cfg_init_pos parsed !! i) (seq 0 12);
  Some {| dt := cfg_dt parsed; kp := cfg_kp parsed; kd := cfg_kd parsed; init_pos := pos;
          jpos_des := jpos_des c; cfg := parsed; cmd := cmd c;
          jpos_processed := jpos_processed c; jvel_processed := jvel_processed c |}.

Definition GetInput (c : t) (r : RobotInterface.t) (g : Gamepad.t) : t :=
  {| dt := dt c; kp := kp c; kd := kd c; init_pos := init_pos c; jpos_des := jpos_des c; cfg := cfg c;
     cmd := [Gamepad.ly g; fneg (Gamepad.lx g); fneg (Gamepad.rx g)];
     jpos_processed := zip_with F32.sub (RobotInterface.jpos r) (init_pos c);
     jvel_processed :=
       (fun v => F32.of_f64 (F64.div (F64.of_f32 v) (F64.of_Z 2))) <$> RobotInterface.jvel r |}.

Definition Calculate (c : t) : t :=
  {| dt := dt c; kp := kp c; kd := kd c; init_pos := init_pos c; jpos_des := init_pos c; cfg := cfg c;
     cmd := cmd c; jpos_processed := jpos_processed c; jvel_processed := jvel_processed c |}.

Definition Reset (c : t) (r : RobotInterface.t) (g : Gamepad.t) : t := Calculate (GetInput c r g).

Definition GetLog (c : t) : list float32 :=
  cmd c ++ jpos_processed c ++ jvel_processed c ++ jpos_des c.

#[global] Instance controller : UserController t.
Proof.
  refine {| uc_dt := dt; uc_kp := kp; uc_kd := kd; uc_init_pos := init_pos; uc_jpos_des := jpos_des;
            uc_GetInput := GetInput; uc_Reset := Reset; uc_Calculate := Calculate;
            uc_GetLog := GetLog |}; done.
Defined.

End ExampleUserController.
