(* ===== verification/RobotController.v ===== *)
(** * The control loop of the state-machine example.

    Models [RobotController<USER_CTRL>] of
    [src/example/state_machine/robot_controller.hpp] for any user controller
    satisfying the interface [UserController].  The three activities of the
    program (the DDS callback [LowStateMessageHandler], the recurrent thread
    [ControlStep] and the recurrent thread [LowCmdwriteHandler]) are the steps
    of a transition relation, interleaved at handler granularity; the theorems
    hold for every interleaving. *)

From S2P Require Import Prelude Floats Gamepad StateMachine LowCmd RobotInterface.
Import SimpleStateMachine.

Local Open Scope Z_scope.

(** What [ControlStep] prints every hundred steps. *)
Record Performance := {
  pf_mean : float32; pf_max : float32; pf_min : float32; pf_state : Z
}.

Record t (C : Type) := {
  cmd : LowCmd_;
  low_state : LowState_;
  gamepad : Gamepad.t;
  rx : bytes;
  state_machine : SimpleStateMachine.t;
  ctrl : C;
  robot_interface : RobotInterface.t;
  log_open : bool;
  log_file : list (list float32);
  compute_time : list float32;
  reports : list Performance;
  published : list LowCmd_
}.

Arguments cmd {C} _.
Arguments low_state {C} _.
Arguments gamepad {C} _.
Arguments rx {C} _.
Arguments state_machine {C} _.
Arguments ctrl {C} _.
Arguments robot_interface {C} _.
Arguments log_open {C} _.
Arguments log_file {C} _.
Arguments compute_time {C} _.
Arguments reports {C} _.
Arguments published {C} _.
Arguments Build_t {C} _ _ _ _ _ _ _ _ _ _ _ _.

Section Controller.
Context {C : Type} `{UserController C} (pad : Padding).

Definition with_ri (s : t C) (r : RobotInterface.t) : t C :=
  Build_t (cmd s) (low_state s) (gamepad s) (rx s) (state_machine s) (ctrl s) r
    (log_open s) (log_file s) (compute_time s) (reports s) (published s).

Definition with_sm (s : t C) (m : SimpleStateMachine.t) : t C :=
  Build_t (cmd s) (low_state s) (gamepad s) (rx s) m (ctrl s) (robot_interface s)
    (log_open s) (log_file s) (compute_time s) (reports s) (published s).

Definition with_ctrl (s : t C) (c : C) : t C :=
  Build_t (cmd s) (low_state s) (gamepad s) (rx s) (state_machine s) c (robot_interface s)
    (log_open s) (log_file s) (compute_time s) (reports s) (published s).

(** [LowStateMessageHandler]. *)
Definition LowStateMessageHandler (s : t C) (message : LowState_) : t C :=
  Build_t (cmd s) message (gamepad s) (rx s) (state_machine s) (ctrl s)
    (RobotInterface.GetState (robot_interface s) message)
    (log_open s) (log_file s) (compute_time s) (reports s) (published s).

(** [InteprateGamePad]. *)
Definition InteprateGamePad (s : t C) : t C :=
  let buff := take 40 (st_wireless_remote (low_state s)) in
  Build_t (cmd s) (low_state s) (Gamepad.update (gamepad s) (rf_rx buff)) buff (state_machine s)
    (ctrl s) (robot_interface s) (log_open s) (log_file s) (compute_time s) (reports s) (published s).

(** [LowCmdwriteHandler]: [lowcmd_publisher->Write(cmd)]. *)
Definition LowCmdwriteHandler (s : t C) : t C :=
  Build_t (cmd s) (low_state s) (gamepad s) (rx s) (state_machine s) (ctrl s) (robot_interface s)
    (log_open s) (log_file s) (compute_time s) (reports s) (published s ++ [cmd s]).

(** [fill] of a twelve-element array with a [double] product of gains. *)
Definition gain (g : float32) (ratio : float64) : float32 :=
  F32.of_f64 (F64.mul (F64.of_f32 g) ratio).

Definition StandCallback (s : t C) : t C :=
  let c := ctrl s in
  let ratio := pd_ratio (state_machine s) in
  with_ri s (RobotInterface.set_targets (robot_interface s) (uc_init_pos c) (replicate 12 fzero)
               (replicate 12 (gain (uc_kp c) ratio)) (replicate 12 (gain (uc_kd c) ratio))
               (replicate 12 fzero)).

Definition CtrlCallback (s : t C) : t C :=
  let c := uc_Reset (ctrl s) (robot_interface s) (gamepad s) in
  with_ri (with_ctrl s c)
    (RobotInterface.set_targets (robot_interface s) (uc_init_pos c) (replicate 12 fzero)
       (replicate 12 (uc_kp c)) (replicate 12 (uc_kd c)) (replicate 12 fzero)).

(** [Damping(float kd = 2.0)]. *)
Definition Damping (s : t C) : t C :=
  with_ri s (RobotInterface.set_targets (robot_interface s) (uc_init_pos (ctrl s))
               (replicate 12 fzero) (replicate 12 fzero) (replicate 12 (lit32 2 1))
               (replicate 12 fzero)).

Definition UserControlStep (s : t C) (send : bool) : t C :=
  let c := uc_Calculate (uc_GetInput (ctrl s) (robot_interface s) (gamepad s)) in
  let s := with_ctrl s c in
  if send then
    let r := robot_interface s in
    with_ri s (RobotInterface.set_targets r (uc_jpos_des c) (RobotInterface.jvel_des r)
                 (RobotInterface.kp r) (RobotInterface.kd r) (RobotInterface.tau_ff r))
  else s.

(** [Standing(float kp = 40.0, float kd = 1.0)] of the controller. *)
Definition Standing (s : t C) : t C :=
  let m := state_machine s in
  let m := if Button.pressed (Gamepad.R2 (gamepad s)) then SimpleStateMachine.Standing m true else m in
  let m := if Button.pressed (Gamepad.R1 (gamepad s)) then SimpleStateMachine.Standing m false else m in
  let s := UserControlStep (with_sm s m) false in
  let r := robot_interface s in
  with_ri s (RobotInterface.set_targets r (RobotInterface.jpos_des r) (RobotInterface.jvel_des r)
               (replicate 12 (gain (lit32 40 1) (pd_ratio m))) (replicate 12 (gain (lit32 1 1) (pd_ratio m)))
               (RobotInterface.tau_ff r)).

Definition CheckTermination (s : t C) : bool :=
  fgt (RobotInterface.projected_gravity (robot_interface s) !!! 2%nat) fzero.

(** [UpdateStateMachine]: the three guards are tested in this order, each
    seeing the effect of the previous one. *)
Definition UpdateStateMachine (s : t C) : t C :=
  let s :=
    if Button.on_press (Gamepad.R2 (gamepad s)) then
      let '(ok, m) := Stand (state_machine s) in
      if ok then StandCallback (with_sm s m) else with_sm s m
    else s in
  let s :=
    if Button.on_press (Gamepad.A (gamepad s)) then
      let '(ok, m) := Ctrl (state_machine s) in
      if ok then CtrlCallback (with_sm s m) else with_sm s m
    else s in
  if Button.pressed (Gamepad.L2 (gamepad s)) && Button.pressed (Gamepad.B (gamepad s))
  then with_sm s (Stop (state_machine s)).2
  else s.

(** The mode selection of [ControlStep]: three successive tests of the state. *)
Definition run_mode (s : t C) : t C :=
  let s := if bool_decide (state (state_machine s) = STAND) then Standing s else s in
  let s := if bool_decide (state (state_machine s) = DAMPING) then Damping s else s in
  if bool_decide (state (state_machine s) = CTRL) then
    let s := UserControlStep s true in
    if CheckTermination s then with_sm s (Stop (state_machine s)).2 else s
  else s.

(** [WriteLog]. *)
Definition WriteLog (s : t C) : t C :=
  if log_open s then
    Build_t (cmd s) (low_state s) (gamepad s) (rx s) (state_machine s) (ctrl s) (robot_interface s)
      (log_open s) (log_file s ++ [uc_GetLog (ctrl s)]) (compute_time s) (reports s) (published s)
  else s.

(** [*std::max_element] and [*std::min_element]: the first extremal element. *)
Definition max_element (l : list float32) : float32 :=
  match l with [] => fzero | x :: l => foldl (fun b y => if flt b y then y else b) x l end.
Definition min_element (l : list float32) : float32 :=
  match l with [] => fzero | x :: l => foldl (fun b y => if flt y b then y else b) x l end.

(** The statistics block at the end of [ControlStep]. *)
Definition report_performance (s : t C) : t C :=
  if (length (compute_time s) =? 100)%nat then
    let sum := foldl F32.add fzero (compute_time s) in
    let p := {| pf_mean := F32.div sum (F32.of_Z 100); pf_max := max_element (compute_time s);
                pf_min := min_element (compute_time s);
                pf_state := STATES_to_Z (state (state_machine s)) |} in
    Build_t (cmd s) (low_state s) (gamepad s) (rx s) (state_machine s) (ctrl s) (robot_interface s)
      (log_open s) (log_file s) [] (reports s ++ [p]) (published s)
  else s.

(** The second half of [ControlStep]: the command is written, the measured
    [duration] (in microseconds) recorded, the log line appended. *)
Definition finish_step (s : t C) (duration : Z) : t C :=
  let rc := RobotInterface.SetCommand pad (robot_interface s) in
  let ms := F32.of_f64 (F64.div (F64.of_Z duration) (F64.of_Z 1000)) in
  report_performance (WriteLog
    (Build_t rc.2 (low_state s) (gamepad s) (rx s) (state_machine s) (ctrl s) rc.1
       (log_open s) (log_file s) (compute_time s ++ [ms]) (reports s) (published s))).

(** [ControlStep]. *)
Definition ControlStep (s : t C) (duration : Z) : t C :=
  finish_step (run_mode (UpdateStateMachine (InteprateGamePad s))) duration.

(** The polling loop of [StartControl]: one element of [polls] per iteration,
    with the message (if any) that arrived during the sleep.  [None] means the
    loop is still waiting after the given polls. *)
Fixpoint StartControl (s : t C) (polls : list (option LowState_)) : option (t C) :=
  match polls with
  | [] => None
  | p :: polls =>
      let s := match p with Some m => LowStateMessageHandler s m | None => s end in
      let s := InteprateGamePad s in
      if Button.on_press (Gamepad.R2 (gamepad s)) then Some (Damping s) else StartControl s polls
  end.

(** [ctrl_dt_micro_sec = static_cast<uint64_t>(ctrl.dt * 1000000)]. *)
Definition ctrl_dt_micro_sec (c : C) : option Z :=
  ftrunc (F32.mul (uc_dt c) (F32.of_Z 1000000)).

(** The running program. *)
Inductive step : t C -> t C -> Prop :=
| step_message s m : step s (LowStateMessageHandler s m)
| step_control s d : step s (ControlStep s d)
| step_write s : step s (LowCmdwriteHandler s).

End Controller.

(** * Properties *)

Lemma fzero_not_ready : fgt fzero (F64.lit 95 100) = false.
Proof. vm_compute. reflexivity. Qed.

Lemma initial_ratio_ok : ratio_ok SimpleStateMachine.init.
Proof. split; vm_compute; reflexivity. Qed.

Lemma initial_cmd_ok : LowCmdProps.cmd_ok (RobotInterface.InitLowCmd LowCmd_default).
Proof. apply (bool_decide_unpack _). vm_compute. exact I. Qed.

#[local] Opaque lit32 F64.lit F64.of_Z F32.of_Z F64.add F64.sub F64.mul F32.of_f64 F64.of_f32 flt fle fgt.

Section Props.
Context {C : Type} `{UserController C} (pad : Padding).
Implicit Types s : t C.

(** ** The state machine inside the loop *)

(** The part of [UpdateStateMachine] and [run_mode] that concerns the machine
    alone, as a function of the gamepad and of the termination test. *)
Definition machine_update (g : Gamepad.t) (m : SimpleStateMachine.t) : SimpleStateMachine.t :=
  let m := if Button.on_press (Gamepad.R2 g) then (Stand m).2 else m in
  let m := if Button.on_press (Gamepad.A g) then (Ctrl m).2 else m in
  if Button.pressed (Gamepad.L2 g) && Button.pressed (Gamepad.B g) then (Stop m).2 else m.

Definition machine_run (g : Gamepad.t) (fallen : bool) (m : SimpleStateMachine.t) :
    SimpleStateMachine.t :=
  match state m with
  | STAND =>
      let m := if Button.pressed (Gamepad.R2 g) then SimpleStateMachine.Standing m true else m in
      if Button.pressed (Gamepad.R1 g) then SimpleStateMachine.Standing m false else m
  | DAMPING => m
  | CTRL => if fallen then (Stop m).2 else m
  end.

(** What the machine update leaves alone. *)
Definition same_frame s s' : Prop :=
  gamepad s' = gamepad s ∧ low_state s' = low_state s ∧ cmd s' = cmd s ∧
  uc_config (ctrl s') = uc_config (ctrl s) ∧
  RobotInterface.low_cmd (robot_interface s') = RobotInterface.low_cmd (robot_interface s) ∧
  RobotInterface.projected_gravity (robot_interface s') =
    RobotInterface.projected_gravity (robot_interface s) ∧
  log_open s' = log_open s ∧ log_file s' = log_file s ∧ compute_time s' = compute_time s ∧
  reports s' = reports s ∧ published s' = published s.

Lemma same_frame_refl s : same_frame s s.
Proof. unfold same_frame. by split_and!. Qed.

Lemma same_frame_trans s1 s2 s3 : same_frame s1 s2 -> same_frame s2 s3 -> same_frame s1 s3.
Proof. unfold same_frame. intros. split_and!; destruct_and!; congruence. Qed.

Lemma UpdateStateMachine_spec s :
  state_machine (UpdateStateMachine s) = machine_update (gamepad s) (state_machine s) ∧
  same_frame s (UpdateStateMachine s).
Proof.
  unfold UpdateStateMachine, machine_update.
  set (s1 := if Button.on_press (Gamepad.R2 (gamepad s)) then _ else s).
  assert (H1 : state_machine s1 =
      (if Button.on_press (Gamepad.R2 (gamepad s)) then (Stand (state_machine s)).2 else state_machine s)
      ∧ same_frame s s1).
  { subst s1. destruct (Button.on_press (Gamepad.R2 (gamepad s))); [| split; [done | apply same_frame_refl]].
    destruct (Stand (state_machine s)) as [[] m]; (split; [done |]; unfold same_frame; by split_and!). }
  destruct H1 as [E1 F1]. pose proof F1 as (G1 & _). rewrite <- E1, <- G1.
  set (s2 := if Button.on_press (Gamepad.A (gamepad s1)) then _ else s1).
  assert (H2 : state_machine s2 =
      (if Button.on_press (Gamepad.A (gamepad s1)) then (Ctrl (state_machine s1)).2 else state_machine s1)
      ∧ same_frame s1 s2).
  { subst s2. destruct (Button.on_press (Gamepad.A (gamepad s1))); [| split; [done | apply same_frame_refl]].
    destruct (Ctrl (state_machine s1)) as [[] m]; (split; [done |]; unfold same_frame; split_and!; try done).
    apply uc_Reset_config. }
  destruct H2 as [E2 F2]. pose proof F2 as (G2 & _). rewrite <- E2, <- G2.
  destruct (_ && _); (split; [done |]); exact (same_frame_trans _ _ _ F1 F2).
Qed.

Lemma UserControlStep_frame s send :
  state_machine (UserControlStep s send) = state_machine s ∧ same_frame s (UserControlStep s send).
Proof.
  unfold UserControlStep. destruct send; (split; [done |]); unfold same_frame; split_and!; try done;
    cbn; by rewrite uc_Calculate_config, uc_GetInput_config.
Qed.

Lemma run_mode_spec s :
  state_machine (run_mode s) = machine_run (gamepad s) (CheckTermination s) (state_machine s) ∧
  same_frame s (run_mode s).
Proof.
  unfold run_mode, machine_run. destruct (state (state_machine s)) eqn:E.
  - rewrite (bool_decide_eq_false_2 (DAMPING = STAND)) by done. rewrite E.
    rewrite (bool_decide_eq_true_2 (DAMPING = DAMPING)) by done. cbn. rewrite E.
    rewrite (bool_decide_eq_false_2 (DAMPING = CTRL)) by done.
    split; [done |]. unfold same_frame. by split_and!.
  - rewrite (bool_decide_eq_true_2 (STAND = STAND)) by done.
    set (s1 := Standing s).
    assert (Es : state_machine s1 =
      (let m := if Button.pressed (Gamepad.R2 (gamepad s))
                then SimpleStateMachine.Standing (state_machine s) true else state_machine s in
       if Button.pressed (Gamepad.R1 (gamepad s)) then SimpleStateMachine.Standing m false else m)) by done.
    assert (Hst : state (state_machine s1) = STAND).
    { rewrite Es. cbn zeta. unfold SimpleStateMachine.Standing.
      repeat first [rewrite E | case_bool_decide | split_if]; simpl; congruence. }
    rewrite Hst, (bool_decide_eq_false_2 (STAND = DAMPING)) by done.
    rewrite Hst, (bool_decide_eq_false_2 (STAND = CTRL)) by done.
    split; [done |]. unfold same_frame. split_and!; try done.
    cbn. by rewrite uc_Calculate_config, uc_GetInput_config.
  - rewrite (bool_decide_eq_false_2 (CTRL = STAND)), E by done.
    rewrite (bool_decide_eq_false_2 (CTRL = DAMPING)), E by done.
    rewrite (bool_decide_eq_true_2 (CTRL = CTRL)) by done.
    destruct (UserControlStep_frame s true) as [E1 F1].
    replace (CheckTermination (UserControlStep s true)) with (CheckTermination s).
    2: { unfold CheckTermination. by destruct F1 as (_ & _ & _ & _ & _ & -> & _). }
    destruct (CheckTermination s); [| exact (conj E1 F1)].
    split; [| exact F1]. cbn [with_sm state_machine]. by rewrite E1.
Qed.

(** The state of the controller just before the command is written. *)
Definition before_command s : t C := run_mode (UpdateStateMachine (InteprateGamePad s)).

Lemma finish_step_spec s d :
  let rc := RobotInterface.SetCommand pad (robot_interface s) in
  let s' := finish_step pad s d in
  state_machine s' = state_machine s ∧ cmd s' = rc.2 ∧ robot_interface s' = rc.1 ∧
  published s' = published s ∧ gamepad s' = gamepad s ∧ ctrl s' = ctrl s ∧
  low_state s' = low_state s.
Proof.
  unfold finish_step, report_performance, WriteLog. cbn [log_open].
  destruct (log_open s); destruct (length _ =? 100)%nat; split_and!; reflexivity.
Qed.

Lemma ControlStep_unfold s d : ControlStep pad s d = finish_step pad (before_command s) d.
Proof. unfold ControlStep, before_command. reflexivity. Qed.

Lemma before_command_machine s :
  let g := gamepad (InteprateGamePad s) in
  state_machine (before_command s) =
  machine_run g (CheckTermination s) (machine_update g (state_machine s)).
Proof.
  intros g. unfold before_command.
  destruct (run_mode_spec (UpdateStateMachine (InteprateGamePad s))) as [-> _].
  destruct (UpdateStateMachine_spec (InteprateGamePad s)) as [-> (-> & _ & _ & _ & _ & P & _)].
  unfold CheckTermination. rewrite P. reflexivity.
Qed.

Lemma before_command_frame s : same_frame (InteprateGamePad s) (before_command s).
Proof.
  eapply same_frame_trans; [apply UpdateStateMachine_spec | apply run_mode_spec].
Qed.

Lemma rtc_guard (b : bool) f m :
  (∀ m, SimpleStateMachine.step m (f m)) -> rtc SimpleStateMachine.step m (if b then f m else m).
Proof. intros Hf. destruct b; [by apply rtc_once | done]. Qed.

Lemma machine_update_rtc g m : rtc SimpleStateMachine.step m (machine_update g m).
Proof.
  unfold machine_update.
  etrans; [eapply (rtc_guard _ (fun m => (Stand m).2)), step_stand |].
  etrans; [eapply (rtc_guard _ (fun m => (Ctrl m).2)), step_ctrl |].
  eapply (rtc_guard _ (fun m => (Stop m).2)), step_stop.
Qed.

Lemma machine_run_rtc g fallen m : rtc SimpleStateMachine.step m (machine_run g fallen m).
Proof.
  unfold machine_run. destruct (state m); [done | |].
  - etrans; [eapply (rtc_guard _ (fun m => SimpleStateMachine.Standing m true)); intros; apply step_standing |].
    eapply (rtc_guard _ (fun m => SimpleStateMachine.Standing m false)). intros. apply step_standing.
  - eapply (rtc_guard _ (fun m => (Stop m).2)), step_stop.
Qed.

(** C4. [ControlStep] drives the state machine exactly by the abstract
    transition: the guards are evaluated on the freshly decoded gamepad, in
    source order, and the fall test is applied to the gravity vector of the
    step.  In particular every control step is a sequence of the operations of
    [SimpleStateMachine]. *)
Theorem control_step_refines_machine s d :
  let g := gamepad (InteprateGamePad s) in
  let m := machine_run g (CheckTermination s) (machine_update g (state_machine s)) in
  state_machine (ControlStep pad s d) = m ∧ rtc SimpleStateMachine.step (state_machine s) m.
Proof.
  intros g m. rewrite ControlStep_unfold. destruct (finish_step_spec (before_command s) d) as [-> _].
  split; [apply before_command_machine |].
  etrans; [apply machine_update_rtc | apply machine_run_rtc].
Qed.

(** ** Emergency stop *)

(** The key word of the frame the next control step will decode. *)
Definition frame_keys s : Z := le_val (slice 2 2 (take 40 (st_wireless_remote (low_state s)))).

Lemma decoded_pressed s :
  let g := gamepad (InteprateGamePad s) in
  Button.pressed (Gamepad.L2 g) = Z.testbit (frame_keys s) Keys.bit_L2 ∧
  Button.pressed (Gamepad.B g) = Z.testbit (frame_keys s) Keys.bit_B ∧
  Button.on_press (Gamepad.R2 g) =
    Z.testbit (frame_keys s) Keys.bit_R2 && negb (Button.pressed (Gamepad.R2 (gamepad s))).
Proof.
  split; [reflexivity |]. split; [reflexivity |]. apply ButtonProps.update_edges.
Qed.

(** Motor [i] is commanded to damp: no stiffness, no feed-forward torque. *)
Definition damped (pose : list float32) (i : nat) (m : MotorCmd_) : Prop :=
  q m = pose !!! i ∧ dq m = fzero ∧ kp m = fzero ∧ kd m = lit32 2 1 ∧ tau m = fzero.

Definition all_damped (pose : list float32) (c : LowCmd_) : Prop :=
  ∀ i m, (i < 12)%nat -> motor_cmd c !! i = Some m -> damped pose i m.

Lemma SetCommand_motor r i m :
  (i < 12)%nat -> motor_cmd (RobotInterface.SetCommand pad r).2 !! i = Some m ->
  ∃ m0, m = RobotInterface.set_motor r i m0.
Proof.
  intros Hi Hm. cbn [RobotInterface.SetCommand snd seal set_crc set_motors motor_cmd] in Hm.
  unfold RobotInterface.write_motors in Hm. rewrite list_lookup_imap in Hm.
  apply fmap_Some in Hm as (m0 & _ & ->). exists m0. by rewrite (proj2 (Nat.ltb_lt i 12) Hi).
Qed.

Lemma lookup_total_replicate_lt {A} `{!Inhabited A} n i (x : A) :
  (i < n)%nat -> replicate n x !!! i = x.
Proof. intros. by rewrite lookup_total_replicate_2. Qed.

Lemma run_mode_damping s : state (state_machine s) = DAMPING -> run_mode s = Damping s.
Proof.
  intros E. unfold run_mode. rewrite E, (bool_decide_eq_false_2 (DAMPING = STAND)), E by done.
  rewrite (bool_decide_eq_true_2 (DAMPING = DAMPING)) by done.
  cbn [Damping with_ri state_machine]. by rewrite E, bool_decide_eq_false_2 by done.
Qed.

(** A step whose machine ends up in DAMPING before the mode is selected sends
    a damping command. *)
Lemma damping_command s d :
  state (machine_update (gamepad (InteprateGamePad s)) (state_machine s)) = DAMPING ->
  state (state_machine (ControlStep pad s d)) = DAMPING ∧
  all_damped (uc_init_pos (ctrl s)) (cmd (ControlStep pad s d)).
Proof.
  intros E. rewrite ControlStep_unfold.
  destruct (finish_step_spec (before_command s) d) as (-> & -> & _). unfold before_command.
  destruct (UpdateStateMachine_spec (InteprateGamePad s)) as [Em (_ & _ & _ & Ec & _)].
  set (s1 := UpdateStateMachine (InteprateGamePad s)) in *.
  rewrite run_mode_damping by by rewrite Em. split; [cbn; by rewrite Em |].
  intros i m Hi Hm. destruct (SetCommand_motor _ i m Hi Hm) as [m0 ->].
  unfold damped. cbn [RobotInterface.set_motor q dq kp kd tau Damping with_ri robot_interface
    RobotInterface.set_targets RobotInterface.jpos_des RobotInterface.jvel_des RobotInterface.kp
    RobotInterface.kd RobotInterface.tau_ff].
  rewrite !lookup_total_replicate_lt by done.
  unfold uc_config in Ec. split_and!; try done. injection Ec as _ _ _ ->. done.
Qed.

(** C1. Emergency stop: whatever the controller is doing, a control step that
    decodes a frame with L2 and B held ends in DAMPING with the gain ratio
    reset to zero, and the command it writes damps all twelve leg motors (zero
    stiffness and torque, damping gain 2). *)
Theorem emergency_stop s d :
  Z.testbit (frame_keys s) Keys.bit_L2 = true -> Z.testbit (frame_keys s) Keys.bit_B = true ->
  let s' := ControlStep pad s d in
  state (state_machine s') = DAMPING ∧ pd_ratio (state_machine s') = fzero ∧
  all_damped (uc_init_pos (ctrl s)) (cmd s').
Proof.
  intros H1 H2 s'. subst s'. destruct (decoded_pressed s) as (E1 & E2 & _). cbv zeta in E1, E2.
  assert (Hm : ∃ m, machine_update (gamepad (InteprateGamePad s)) (state_machine s) = (Stop m).2).
  { unfold machine_update. rewrite E1, E2, H1, H2. by eexists. }
  destruct Hm as [m Hm].
  destruct (damping_command s d) as [E Hd]; [by rewrite Hm |]. split; [done |]. split; [| done].
  rewrite ControlStep_unfold. destruct (finish_step_spec (before_command s) d) as (-> & _).
  by rewrite before_command_machine, Hm.
Qed.

(** ** Falls *)

(** C3. Fall protection: a control step that runs in CTRL while the projected
    gravity points up (the robot is upside down) ends in DAMPING; and once in
    DAMPING, a step whose frame does not newly press R2 stays there and damps
    all leg motors. *)
Theorem fall_protection s d :
  (state (machine_update (gamepad (InteprateGamePad s)) (state_machine s)) = CTRL ->
   CheckTermination s = true ->
   state (state_machine (ControlStep pad s d)) = DAMPING) ∧
  (state (state_machine s) = DAMPING ->
   Button.on_press (Gamepad.R2 (gamepad (InteprateGamePad s))) = false ->
   state (state_machine (ControlStep pad s d)) = DAMPING ∧
   all_damped (uc_init_pos (ctrl s)) (cmd (ControlStep pad s d))).
Proof.
  split.
  - intros E Hf. rewrite ControlStep_unfold.
    destruct (finish_step_spec (before_command s) d) as (-> & _).
    rewrite before_command_machine, Hf. unfold machine_run. by rewrite E.
  - intros E Hr. apply damping_command. unfold machine_update. rewrite Hr. cbv zeta.
    assert (E1 : (Ctrl (state_machine s)).2 = state_machine s).
    { unfold Ctrl. by rewrite bool_decide_eq_false_2 by congruence. }
    rewrite E1. destruct (Button.pressed _ && _); [reflexivity |]. destruct (Button.on_press (Gamepad.A _)); exact E.
Qed.

Lemma machine_request_ctrl (r2 a : bool) (m : SimpleStateMachine.t) :
  StateMachineProps.damping_zero m ->
  state (let m := if r2 then (Stand m).2 else m in if a then (Ctrl m).2 else m) = CTRL ->
  state m = CTRL ∨
  state m = STAND ∧ fgt (pd_ratio m) (F64.lit 95 100) = true ∧ a = true.
Proof.
  intros Hz E. destruct (decide (state m = CTRL)) as [| Hne]; [by left | right].
  set (m1 := if r2 then (Stand m).2 else m) in E.
  assert (Hm1 : state m1 ≠ CTRL ∧ pd_ratio m1 = pd_ratio m).
  { subst m1. destruct r2; [| done].
    destruct (StateMachineProps.Stand_result m) as [-> ->]. by split. }
  destruct Hm1 as [Hn1 Hp]. cbv zeta in E. destruct a; [| contradiction].
  destruct (StateMachineProps.Ctrl_enters m1 E Hn1) as [_ Hg]. rewrite Hp in Hg.
  split_and!; try done. destruct (state m) eqn:Em; [| done | done].
  by rewrite (Hz Em), fzero_not_ready in Hg.
Qed.

(** C5. The user's controller only gets control when it should: if a control
    step ends in CTRL, then either the machine was in CTRL already, or it was
    in STAND with the ratio above 0.95 and this frame newly pressed A; and the
    frame did not hold the emergency-stop keys. *)
Theorem ctrl_only_on_request s d :
  rtc SimpleStateMachine.step SimpleStateMachine.init (state_machine s) ->
  state (state_machine (ControlStep pad s d)) = CTRL ->
  let g := gamepad (InteprateGamePad s) in
  (state (state_machine s) = CTRL ∨
   state (state_machine s) = STAND ∧ fgt (pd_ratio (state_machine s)) (F64.lit 95 100) = true ∧
   Button.on_press (Gamepad.A g) = true) ∧
  Button.pressed (Gamepad.L2 g) && Button.pressed (Gamepad.B g) = false ∧
  CheckTermination s = false.
Proof.
  intros Hz%StateMachineProps.reachable_damping_zero.
  rewrite ControlStep_unfold. destruct (finish_step_spec (before_command s) d) as (-> & _).
  rewrite before_command_machine. cbv zeta. generalize (gamepad (InteprateGamePad s)). intros g.
  revert Hz. generalize (state_machine s). intros m Hz E.
  assert (E1 : state (machine_update g m) = CTRL ∧ CheckTermination s = false).
  { revert E. unfold machine_run. destruct (state (machine_update g m)) eqn:Es; [congruence | |].
    - unfold SimpleStateMachine.Standing. repeat split_if; simpl; congruence.
    - destruct (CheckTermination s); [discriminate | done]. }
  destruct E1 as [E1 ->]. unfold machine_update in E1. revert E1.
  destruct (Button.pressed (Gamepad.L2 g) && _); [discriminate |]. intros E1. split_and!; try done.
  exact (machine_request_ctrl _ _ m Hz E1).
Qed.

(** ** What reaches the robot *)

(** Every motor is in servo mode and the eight motors the example does not
    drive hold their stop values. *)
Definition servo (c : LowCmd_) : Prop :=
  ∀ i m, motor_cmd c !! i = Some m ->
    mode m = 1 ∧
    ((12 <= i)%nat -> q m = PosStopF ∧ dq m = VelStopF ∧ kp m = fzero ∧ kd m = fzero ∧ tau m = fzero).

(** A frame the robot accepts: valid checksum, twenty motors, [servo]. *)
Definition valid_frame (c : LowCmd_) : Prop :=
  Crc.Crc32.crc32_core (words (image pad c)) = 0 ∧ length (motor_cmd c) = 20%nat ∧ servo c.

Lemma initial_servo : servo (RobotInterface.InitLowCmd LowCmd_default).
Proof.
  intros i m Hm. cbn [RobotInterface.InitLowCmd motor_cmd] in Hm.
  rewrite list_lookup_fmap in Hm. apply fmap_Some in Hm as (m0 & _ & ->). done.
Qed.

Definition inv s : Prop :=
  StateMachineProps.damping_zero (state_machine s) ∧ ratio_ok (state_machine s) ∧
  LowCmdProps.cmd_ok (RobotInterface.low_cmd (robot_interface s)) ∧
  servo (RobotInterface.low_cmd (robot_interface s)) ∧
  (cmd s = LowCmd_default ∨ valid_frame (cmd s)) ∧
  Forall (fun c => c = LowCmd_default ∨ valid_frame c) (published s).

Lemma write_motors_lookup r ms i m' :
  RobotInterface.write_motors r ms !! i = Some m' ->
  ∃ m, ms !! i = Some m ∧ mode m' = mode m ∧ reserve m' = reserve m ∧ ((12 <= i)%nat -> m' = m).
Proof.
  unfold RobotInterface.write_motors. rewrite list_lookup_imap.
  intros (m & Hm & ->)%fmap_Some. exists m. split; [done |].
  destruct (Nat.ltb_spec i 12); split_and!; (done || lia).
Qed.

Lemma SetCommand_low_cmd r :
  padding_ok pad -> LowCmdProps.cmd_ok (RobotInterface.low_cmd r) -> servo (RobotInterface.low_cmd r) ->
  let c := (RobotInterface.SetCommand pad r).2 in
  LowCmdProps.cmd_ok c ∧ servo c ∧ valid_frame c.
Proof.
  intros Hp Hc Hs c.
  assert (Hc' : LowCmdProps.cmd_ok
    (set_motors (RobotInterface.low_cmd r) (RobotInterface.write_motors r (motor_cmd (RobotInterface.low_cmd r))))).
  { destruct Hc as (?&?&?&L4&?&?&?&?&?&?&?&?&?&?&?&?&?&HM).
    unfold LowCmdProps.cmd_ok. split_and!; try done.
    - cbn. unfold RobotInterface.write_motors. by rewrite length_imap.
    - cbn. apply Forall_lookup. intros i m' (m & Hm & E1 & E2 & _)%write_motors_lookup.
      rewrite Forall_lookup in HM. destruct (HM i m Hm) as (A1 & A2 & A3).
      unfold LowCmdProps.motor_ok. by rewrite E1, E2. }
  assert (Hs' : servo c).
  { intros i m' (m & Hm & E1 & E2 & E3)%write_motors_lookup. destruct (Hs i m Hm) as [Hmode Hpark].
    split; [by rewrite E1 |]. intros Hi. rewrite (E3 Hi). auto. }
  split; [exact Hc' |]. split; [done |].
  pose proof (LowCmdProps.sealed_frame pad _ Hp Hc') as (_ & Hcrc & _).
  split; [exact Hcrc |]. split; [| done]. by destruct Hc' as (_ & _ & _ & L & _).
Qed.

Lemma SetCommand_same r :
  RobotInterface.low_cmd (RobotInterface.SetCommand pad r).1 = (RobotInterface.SetCommand pad r).2.
Proof. done. Qed.

Lemma machine_step_inv m m' :
  rtc SimpleStateMachine.step m m' ->
  StateMachineProps.damping_zero m ∧ ratio_ok m -> StateMachineProps.damping_zero m' ∧ ratio_ok m'.
Proof.
  induction 1; [done |]. intros [? ?].
  eauto using StateMachineProps.step_damping_zero, StateMachineProps.step_ratio.
Qed.

Lemma step_inv s s' : padding_ok pad -> step pad s s' -> inv s -> inv s'.
Proof.
  intros Hp Hstep (I1 & I2 & I3 & I4 & I5 & I6). destruct Hstep as [s m | s d | s].
  - unfold inv. by split_and!.
  - rewrite ControlStep_unfold.
    destruct (finish_step_spec (before_command s) d) as (E1 & E2 & E3 & E4 & _).
    destruct (before_command_frame s) as (_ & _ & _ & _ & F1 & _ & _ & _ & _ & _ & F2).
    assert (Hm : rtc SimpleStateMachine.step (state_machine s) (state_machine (before_command s))).
    { rewrite before_command_machine. etrans; [apply machine_update_rtc | apply machine_run_rtc]. }
    destruct (machine_step_inv _ _ Hm (conj I1 I2)) as [J1 J2].
    destruct (SetCommand_low_cmd (robot_interface (before_command s))) as (J3 & J4 & J5);
      [done | by rewrite F1 | by rewrite F1 |].
    unfold inv. rewrite E1, E2, E3, E4, F2, SetCommand_same. split_and!; auto.
  - unfold inv. split_and!; try done. cbn. apply Forall_app. split; [done |]. by constructor.
Qed.

(** The program after construction and [LoadParam]; the measured quantities of
    the robot interface and the logging state are arbitrary. *)
Definition boot (c : C) (junk : RobotInterface.t) (ls : LowState_) (log : bool) : t C :=
  {| cmd := LowCmd_default; low_state := ls; gamepad := Gamepad.init; rx := replicate 40 0;
     state_machine := SimpleStateMachine.init; ctrl := c;
     robot_interface := RobotInterface.make junk; log_open := log; log_file := [];
     compute_time := []; reports := []; published := [] |}.

Lemma boot_inv c junk ls log : inv (boot c junk ls log).
Proof.
  unfold inv, boot. cbn [state_machine robot_interface cmd published].
  split_and!; [discriminate | | | | by left | constructor].
  - exact initial_ratio_ok.
  - exact initial_cmd_ok.
  - exact initial_servo.
Qed.

(** C2. Whatever the order in which state messages arrive, control steps run
    and commands are written, every command that is ever published is either
    the all-zero default object (written before the first control step) or a
    frame with a valid CRC in which all twenty motors are in servo mode and the
    eight undriven ones hold their stop values. *)
Theorem published_frames_valid c junk ls log s :
  padding_ok pad -> rtc (step pad) (boot c junk ls log) s ->
  Forall (fun f => f = LowCmd_default ∨ valid_frame f) (published s).
Proof.
  intros Hp Hs. cut (inv s); [by intros (_ & _ & _ & _ & _ & ?) |].
  pose proof (boot_inv c junk ls log) as H0. clear - Hp Hs H0.
  induction Hs; eauto using step_inv.
Qed.
End Props.

(** * Concrete runs, with the example user controller *)
Module Runs.

Definition example_ctrl : ExampleUserController.t :=
  let pose := concat (replicate 4 [fzero; lit32 9 10; fneg (lit32 18 10)]) in
  {| ExampleUserController.dt := lit32 1 100; ExampleUserController.kp := lit32 40 1;
     ExampleUserController.kd := lit32 1 1; ExampleUserController.init_pos := pose;
     ExampleUserController.jpos_des := pose;
     ExampleUserController.cfg := {| cfg_kp := lit32 40 1; cfg_kd := lit32 1 1; cfg_dt := lit32 1 100;
                                     cfg_init_pos := pose |};
     ExampleUserController.cmd := replicate 3 fzero;
     ExampleUserController.jpos_processed := replicate 12 fzero;
     ExampleUserController.jvel_processed := replicate 12 fzero |}.

(** A state message with the key word [keys]; [up] is the attitude: upright, or
    rolled over by half a turn. *)
Definition example_state (keys : Z) (up : bool) : LowState_ :=
  {| st_quaternion := if up then [F32.of_Z 1; fzero; fzero; fzero] else [fzero; F32.of_Z 1; fzero; fzero];
     st_rpy := replicate 3 fzero; st_gyroscope := replicate 3 fzero;
     st_motor := replicate 20 (fzero, fzero, fzero);
     st_wireless_remote := [0x55; 0x51] ++ le_bytes 2 keys ++ replicate 36 0 |}.

Definition example_boot (keys : Z) (up : bool) : t ExampleUserController.t :=
  let ls := example_state keys up in
  let z := replicate 12 fzero in
  let junk := RobotInterface.Build_t z z z (st_quaternion ls) (st_rpy ls) (st_gyroscope ls) z z z z z z
                LowCmd_default in
  LowStateMessageHandler (boot example_ctrl junk ls true) ls.

(** The machine after the ramp, with CTRL entered. *)
Definition ctrl_machine : SimpleStateMachine.t :=
  (Ctrl (Nat.iter 200 (fun m => SimpleStateMachine.Standing m true) SimpleStateMachine.init)).2.

Lemma iter_standing_rtc n m :
  rtc SimpleStateMachine.step m (Nat.iter n (fun m => SimpleStateMachine.Standing m true) m).
Proof.
  induction n as [| n IH]; [done |]. eapply rtc_r; [exact IH |]. apply step_standing.
Qed.

Lemma ctrl_machine_reachable : rtc SimpleStateMachine.step SimpleStateMachine.init ctrl_machine.
Proof. eapply rtc_r; [apply (iter_standing_rtc 200) |]. apply step_ctrl. Qed.

Definition in_ctrl (keys : Z) (up : bool) : t ExampleUserController.t :=
  with_sm (example_boot keys up) ctrl_machine.

Definition pad0 : Padding := LowCmdProps.zero_padding.

Lemma emergency_stop_witness :
  let s' := ControlStep pad0 (in_ctrl 0x0220 true) 150 in
  state (state_machine s') = DAMPING ∧ pd_ratio (state_machine s') = fzero ∧
  all_damped (uc_init_pos (ctrl (in_ctrl 0x0220 true))) (cmd s').
Proof. apply (emergency_stop pad0 (in_ctrl 0x0220 true) 150); vm_compute; reflexivity. Defined.

Lemma fall_protection_witness :
  state (state_machine (ControlStep pad0 (in_ctrl 0 false) 150)) = DAMPING.
Proof. apply (proj1 (fall_protection pad0 (in_ctrl 0 false) 150)); vm_compute; reflexivity. Defined.

Lemma ctrl_only_on_request_witness :
  state (state_machine (in_ctrl 0 true)) = CTRL ∨
  state (state_machine (in_ctrl 0 true)) = STAND ∧
  fgt (pd_ratio (state_machine (in_ctrl 0 true))) (F64.lit 95 100) = true ∧
  Button.on_press (Gamepad.A (gamepad (InteprateGamePad (in_ctrl 0 true)))) = true.
Proof.
  apply (ctrl_only_on_request pad0 (in_ctrl 0 true) 150);
    [exact ctrl_machine_reachable | vm_compute; reflexivity].
Defined.

Lemma published_frames_valid_witness :
  let b := boot example_ctrl (robot_interface (example_boot 0 true)) (example_state 0 true) true in
  Forall (fun f => f = LowCmd_default ∨ valid_frame pad0 f)
    (published (LowCmdwriteHandler (ControlStep pad0 b 100))).
Proof.
  intros b. apply (published_frames_valid pad0 example_ctrl (robot_interface (example_boot 0 true))
    (example_state 0 true) true); [exact LowCmdProps.zero_padding_ok |].
  eapply rtc_l; [exact (step_control pad0 b 100) |]. apply rtc_once. exact (step_write pad0 _).
Defined.
End Runs.
