(* ===== verification/Udp.v ===== *)
(** * The UDP side of the TypeGo sensor services.

    The services [typego_high_state_service.cpp], [typego_livox_service.cpp]
    and [typego_livox_full_service.cpp] of [src/example/go2] share one design: a
    detached thread ([WaitForNextClient]) stores the address of the latest peer
    in globals, and the sensor callbacks send to that address
    ([sendtoClient]).  The high-state service guards the address with a mutex,
    the livox services do not; the model has the two threads interleaved with
    the address copied byte by byte, and the guard as a parameter.  The file
    also models [InitUDPServer], and the throttling and serialising callback of
    the high-state service. *)

From S2P Require Import Prelude Floats.

Local Open Scope Z_scope.

(** ** InitUDPServer

    The outcome of the system calls is an input. *)
Inductive InitResult := SocketFailed | BindFailed | Listening.

(** [socket], [bind] give the return values of the calls.  The descriptor is
    closed exactly when binding fails; the receiver thread starts otherwise. *)
Definition InitUDPServer (socket bind : Z) : InitResult * (* closed *) list Z * (* thread started *) bool :=
  if socket <? 0 then (SocketFailed, [], false)
  else if bind <? 0 then (BindFailed, [socket], false)
  else (Listening, [], true).

(** ** The shared address *)

(** A [sockaddr_in] object, as bytes. *)
Abbreviation sockaddr := (list Z) (only parsing).
Definition sockaddr_size : nat := 16.
#[global] Arguments sockaddr_size : simpl never.

Inductive log_line := FirstClient | SwitchedClient.

(** Where the receiver thread is. *)
Inductive rcv_pc :=
| R_recv                              (** blocked in [recvfrom] *)
| R_lock (a : sockaddr) (len : Z)     (** before [lock_guard] *)
| R_copy (a : sockaddr) (len : Z) (k : nat)  (** [k] bytes of [memcpy] done *)
| R_len (len : Z)                     (** before [client_addr_len = ...] *)
| R_unlock                            (** before the guard is released *)
| R_exchange.                         (** before [client_ready.exchange(true)] *)

(** Where a sending callback is. *)
Inductive snd_pc :=
| S_idle
| S_lock (data : bytes)
| S_send (data : bytes)
| S_unlock.

Inductive holder := Nobody | Receiver | Sender.

Record net := {
  client_ready : bool;
  client_addr : sockaddr;
  client_addr_len : Z;
  mutex : holder;
  rcv : rcv_pc;
  snd : snd_pc;
  received : list sockaddr;              (** peers heard from so far *)
  sent : list (bytes * sockaddr * Z);    (** datagrams handed to [sendto] *)
  console : list log_line
}.

Definition net_init : net :=
  {| client_ready := false; client_addr := replicate sockaddr_size 0;
     client_addr_len := Z.of_nat sockaddr_size; mutex := Nobody; rcv := R_recv; snd := S_idle;
     received := []; sent := []; console := [] |}.

(** [dst] with its first [k] bytes overwritten by those of [src]. *)
Definition partial_copy (k : nat) (src dst : list Z) : list Z := take k src ++ drop k dst.

Section Net.
(** Whether accesses to the address are guarded by [client_mutex]. *)
Context (guarded : bool).

(** One action of one of the two threads. *)
Inductive net_step : net -> net -> Prop :=
| net_recv_none n :     (* recvfrom returned n <= 0 *)
    rcv n = R_recv -> net_step n n
| net_recv n a len :
    rcv n = R_recv -> length a = sockaddr_size ->
    net_step n {| client_ready := client_ready n; client_addr := client_addr n;
      client_addr_len := client_addr_len n; mutex := mutex n; rcv := R_lock a len; snd := snd n;
      received := received n ++ [a]; sent := sent n; console := console n |}
| net_rcv_lock n a len :
    rcv n = R_lock a len -> (guarded = true -> mutex n = Nobody) ->
    net_step n {| client_ready := client_ready n; client_addr := client_addr n;
      client_addr_len := client_addr_len n; mutex := if guarded then Receiver else mutex n;
      rcv := R_copy a len 0; snd := snd n;
      received := received n; sent := sent n; console := console n |}
| net_copy n a len k :
    rcv n = R_copy a len k -> (k < sockaddr_size)%nat ->
    net_step n {| client_ready := client_ready n;
      client_addr := partial_copy (S k) a (client_addr n);
      client_addr_len := client_addr_len n; mutex := mutex n; rcv := R_copy a len (S k); snd := snd n;
      received := received n; sent := sent n; console := console n |}
| net_copied n a len :
    rcv n = R_copy a len sockaddr_size ->
    net_step n {| client_ready := client_ready n; client_addr := client_addr n;
      client_addr_len := client_addr_len n; mutex := mutex n; rcv := R_len len; snd := snd n;
      received := received n; sent := sent n; console := console n |}
| net_len n len :
    rcv n = R_len len ->
    net_step n {| client_ready := client_ready n; client_addr := client_addr n;
      client_addr_len := len; mutex := mutex n; rcv := R_unlock; snd := snd n;
      received := received n; sent := sent n; console := console n |}
| net_rcv_unlock n :
    rcv n = R_unlock ->
    net_step n {| client_ready := client_ready n; client_addr := client_addr n;
      client_addr_len := client_addr_len n; mutex := if guarded then Nobody else mutex n;
      rcv := R_exchange; snd := snd n;
      received := received n; sent := sent n; console := console n |}
| net_exchange n :
    rcv n = R_exchange ->
    net_step n {| client_ready := true; client_addr := client_addr n;
      client_addr_len := client_addr_len n; mutex := mutex n; rcv := R_recv; snd := snd n;
      received := received n; sent := sent n;
      console := console n ++ [if client_ready n then SwitchedClient else FirstClient] |}
| net_send_skip n :     (* sendtoClient with client_ready false *)
    snd n = S_idle -> client_ready n = false -> net_step n n
| net_send_start n data :
    snd n = S_idle -> client_ready n = true ->
    net_step n {| client_ready := client_ready n; client_addr := client_addr n;
      client_addr_len := client_addr_len n; mutex := mutex n; rcv := rcv n; snd := S_lock data;
      received := received n; sent := sent n; console := console n |}
| net_snd_lock n data :
    snd n = S_lock data -> (guarded = true -> mutex n = Nobody) ->
    net_step n {| client_ready := client_ready n; client_addr := client_addr n;
      client_addr_len := client_addr_len n; mutex := if guarded then Sender else mutex n;
      rcv := rcv n; snd := S_send data;
      received := received n; sent := sent n; console := console n |}
| net_sendto n data :
    snd n = S_send data ->
    net_step n {| client_ready := client_ready n; client_addr := client_addr n;
      client_addr_len := client_addr_len n; mutex := mutex n; rcv := rcv n; snd := S_unlock;
      received := received n;
      sent := sent n ++ [(data, client_addr n, client_addr_len n)]; console := console n |}
| net_snd_unlock n :
    snd n = S_unlock ->
    net_step n {| client_ready := client_ready n; client_addr := client_addr n;
      client_addr_len := client_addr_len n; mutex := if guarded then Nobody else mutex n;
      rcv := rcv n; snd := S_idle;
      received := received n; sent := sent n; console := console n |}.
End Net.

(** The high-state service takes [client_mutex]; the two LiDAR services have no
    mutex. *)
Definition high_state_step : net -> net -> Prop := net_step true.
Definition livox_step : net -> net -> Prop := net_step false.


(** ** Properties of the shared address *)
Module NetProps.

(** Which thread the program counters say is inside the guarded region. *)
Definition rcv_inside (p : rcv_pc) : bool :=
  match p with R_copy _ _ _ | R_len _ | R_unlock => true | _ => false end.
Definition snd_inside (p : snd_pc) : bool :=
  match p with S_send _ | S_unlock => true | _ => false end.

(** Outside the receiver's critical region the address is that of a peer, once
    there is one; [R_len] and [R_unlock] already have it complete. *)
Definition addr_ok (n : net) : Prop :=
  match rcv n with
  | R_copy a _ k => (k <= sockaddr_size)%nat ∧ length a = sockaddr_size ∧ a ∈ received n ∧
                    take k (client_addr n) = take k a ∧ length (client_addr n) = sockaddr_size
  | R_lock a _ => length a = sockaddr_size ∧ a ∈ received n ∧ length (client_addr n) = sockaddr_size ∧
                  (client_ready n = true -> client_addr n ∈ received n)
  | R_recv => length (client_addr n) = sockaddr_size ∧ (client_ready n = true -> client_addr n ∈ received n)
  | _ => length (client_addr n) = sockaddr_size ∧ client_addr n ∈ received n
  end.

Definition net_inv (n : net) : Prop :=
  (mutex n = Receiver <-> rcv_inside (rcv n) = true) ∧
  (mutex n = Sender <-> snd_inside (snd n) = true) ∧
  addr_ok n ∧
  (snd n ≠ S_idle -> client_ready n = true) ∧
  Forall (fun d => d.1.2 ∈ received n) (sent n).

Lemma elem_snoc {A} (x y : A) l : x ∈ l -> x ∈ l ++ [y].
Proof. intros. apply elem_of_app. by left. Qed.

Lemma Forall_received_snoc a l (s : list (bytes * sockaddr * Z)) :
  Forall (fun d => d.1.2 ∈ l) s -> Forall (fun d => d.1.2 ∈ l ++ [a]) s.
Proof. intros H. eapply Forall_impl; [exact H |]. intros. by apply elem_snoc. Qed.

Lemma partial_copy_take k a b :
  (k <= length a)%nat -> length a = length b ->
  take k (partial_copy k a b) = take k a ∧ length (partial_copy k a b) = length b.
Proof.
  intros Hk Hl. unfold partial_copy. split.
  - rewrite take_app_length' by (rewrite length_take; lia). done.
  - rewrite length_app, length_take, length_drop. lia.
Qed.

(** The guarded program preserves the invariant. *)
Lemma net_step_inv n n' : net_step true n n' -> net_inv n -> net_inv n'.
Proof.
  intros Hs (HR & HS & HA & HC & HF). unfold net_inv, addr_ok in *.
  destruct Hs as [n E|n a len E L|n a len E G|n a len k E K|n a len E|n len E|n E|n E|n E G|n data E G|n data E G|n data E|n E];
    cbn; rewrite ?E in *; cbn in *; split_hyps; try specialize (G eq_refl).
  - by split_and!.
  - split_and!; eauto using elem_snoc, Forall_received_snoc. apply elem_of_app. right. by left.
  - split_and!; try done; try lia; intuition congruence.
  - destruct (partial_copy_take (S k) a (client_addr n)) as [T1 T2]; [lia | congruence |].
    split_and!; try done; try lia; congruence.
  - split_and!; try done. rewrite !take_ge in * by lia. congruence.
  - by split_and!.
  - assert (snd_inside (snd n) = false).
    { destruct (snd_inside (snd n)) eqn:Es; [| done].
      assert (mutex n = Sender) by tauto. assert (mutex n = Receiver) by tauto. congruence. }
    split_and!; try done; intuition congruence.
  - split_and!; done.
  - by split_and!.
  - split_and!; try done; intuition congruence.
  - split_and!; try done; try (intros _; apply HC; discriminate).
    rewrite <- HR, G. intuition congruence.
  - split_and!; try done; try (intros _; apply HC; discriminate).
    apply Forall_app. split; [done |]. constructor; [| constructor]. cbn.
    assert (Hm : mutex n = Sender) by tauto.
    specialize (HC ltac:(discriminate)).
    destruct (rcv n) eqn:Er; cbn in *; intuition congruence.
  - split_and!; try done; intuition congruence.
Qed.

Lemma net_reachable_inv n : rtc (net_step true) net_init n -> net_inv n.
Proof.
  intros H. cut (∀ m, rtc (net_step true) m n -> net_inv m -> net_inv n).
  { intros Hi. apply (Hi _ H). unfold net_inv, addr_ok. cbn. split_and!; try done; constructor. }
  clear. induction 1; eauto using net_step_inv.
Qed.

(** C20. In the high-state service, whose mutex guards the address, every
    datagram ever sent goes to the complete address of a peer that was heard
    from, in every interleaving of the receiver thread and the callbacks. *)
Theorem guarded_sends_to_known_peer n :
  rtc high_state_step net_init n -> Forall (fun d => d.1.2 ∈ received n) (sent n).
Proof. intros H. apply (net_reachable_inv n H). Qed.

(** ** Concrete runs *)

Definition with_rcv (n : net) (p : rcv_pc) (addr : sockaddr) : net :=
  {| client_ready := client_ready n; client_addr := addr; client_addr_len := client_addr_len n;
     mutex := mutex n; rcv := p; snd := snd n; received := received n; sent := sent n;
     console := console n |}.

Lemma partial_copy_again k a b :
  (k <= length a)%nat -> (k <= length b)%nat -> partial_copy (S k) a (partial_copy k a b) = partial_copy (S k) a b.
Proof.
  intros. unfold partial_copy. f_equal. rewrite drop_app_ge by (rewrite length_take; lia).
  rewrite length_take, Nat.min_l, drop_drop by lia. f_equal. lia.
Qed.

Lemma copy_run guarded n a len k :
  rcv n = R_copy a len 0 -> length a = sockaddr_size -> length (client_addr n) = sockaddr_size ->
  (k <= sockaddr_size)%nat ->
  rtc (net_step guarded) n (with_rcv n (R_copy a len k) (partial_copy k a (client_addr n))).
Proof.
  intros E La Lc. induction k as [| k IH]; intros Hk.
  - replace (with_rcv n _ _) with n; [done |]. destruct n. cbn in *. subst.
    unfold partial_copy, with_rcv. cbn. by rewrite take_0, drop_0.
  - eapply rtc_r; [apply IH; lia |].
    eapply eq_rect; [eapply net_copy; [reflexivity | lia] |].
    cbn. by rewrite partial_copy_again by lia.
Qed.

(** One peer's address, then half of another's. *)
Definition peer_a : sockaddr := replicate sockaddr_size 1.
Definition peer_b : sockaddr := replicate sockaddr_size 2.

Ltac net_go c := eapply rtc_l; [eapply c; first [reflexivity | discriminate | (vm_compute; lia)] | cbn].

(** A guarded run that serves one peer and sends it one datagram. *)
Lemma guarded_sends_to_known_peer_witness :
  ∃ n, sent n = [([7], peer_a, 16)] ∧ Forall (fun d => d.1.2 ∈ received n) (sent n).
Proof.
  eexists. split; [| apply guarded_sends_to_known_peer; unfold high_state_step].
  2: { net_go (net_recv true net_init peer_a 16). net_go net_rcv_lock.
       etrans; [eapply (copy_run _ _ _ _ sockaddr_size); reflexivity |]. cbn.
       net_go net_copied. net_go net_len. net_go net_rcv_unlock. net_go net_exchange.
       net_go (fun n => net_send_start true n [7]). net_go net_snd_lock. net_go net_sendto.
       apply rtc_refl. }
  vm_compute. reflexivity.
Defined.

(** In the livox services, which do not guard the address, a reachable
    interleaving sends a datagram to an address that belongs to no peer: half of
    it is the new client's and half the previous one's.  The comment claims the
    update is atomic. *)
Lemma unguarded_sends_torn_address :
  ∃ n data addr len, rtc livox_step net_init n ∧ (data, addr, len) ∈ sent n ∧ addr ∉ received n.
Proof.
  eexists _, [0], (partial_copy 8 peer_b peer_a), 16. unfold livox_step. split; [| split].
  - net_go (net_recv false net_init peer_a 16).
    net_go net_rcv_lock.
    etrans; [eapply (copy_run _ _ _ _ sockaddr_size); reflexivity |]. cbn.
    net_go net_copied. net_go net_len. net_go net_rcv_unlock. net_go net_exchange.
    net_go (fun n => net_recv false n peer_b 16). net_go net_rcv_lock.
    etrans; [eapply (copy_run _ _ _ _ 8); first [reflexivity | (vm_compute; lia)] |]. cbn.
    net_go (fun n => net_send_start false n [0]). net_go net_snd_lock. net_go net_sendto.
    apply rtc_refl.
  - cbn. vm_compute. left.
  - vm_compute. intros H. apply list_elem_of_In in H. cbn in H. intuition congruence.
Qed.
End NetProps.

(** * The high-state callback *)
Module HighState.

(** The members of [SportModeState_] that are forwarded. *)
Record SportModeState_ := {
  position : list float32; quaternion : list float32;
  accelerometer : list float32; gyroscope : list float32
}.

(** [float data[13]], filled in source order. *)
Definition payload (hs : SportModeState_) : list float32 :=
  [ position hs !!! 0%nat; position hs !!! 1%nat; position hs !!! 2%nat;
    quaternion hs !!! 0%nat; quaternion hs !!! 1%nat; quaternion hs !!! 2%nat; quaternion hs !!! 3%nat;
    accelerometer hs !!! 0%nat; accelerometer hs !!! 1%nat; accelerometer hs !!! 2%nat;
    gyroscope hs !!! 0%nat; gyroscope hs !!! 1%nat; gyroscope hs !!! 2%nat ].

(** [_HighStateHandler] at steady-clock time [now] (nanoseconds).  The static
    [last_send_time] is initialised to the current time by the first call;
    [now] is read again after that, later or at the same instant, so the two
    readings of the first call are [t0] and [now].  [Some] is the buffer passed
    to [sendtoClient]. *)
Definition _HighStateHandler (last_send_time : option Z) (t0 now : Z) (hs : SportModeState_) :
    option Z * option bytes :=
  let last := default t0 last_send_time in
  if Z.quot (now - last) 1000000 <? 20 then (Some last, None)
  else (Some now, Some (concat (f32_le <$> payload hs))).

(** The callback fed with messages at non-decreasing times; returns the times
    at which it sent, with what. *)
Fixpoint run (last : option Z) (msgs : list (Z * SportModeState_)) : list (Z * bytes) :=
  match msgs with
  | [] => []
  | (now, hs) :: msgs =>
      let '(last', out) := _HighStateHandler last now now hs in
      match out with
      | Some b => (now, b) :: run last' msgs
      | None => run last' msgs
      end
  end.

(** What a client reads from a datagram. *)
Definition decode (b : bytes) : list float32 :=
  (fun i => f32_read (slice (4 * i) 4 b)) <$> seq 0 13.

Definition gap : Z := 20000000.

Lemma throttled now last : last <= now -> (Z.quot (now - last) 1000000 <? 20) = (now - last <? gap).
Proof.
  intros H. rewrite Z.quot_div_nonneg by lia. unfold gap.
  destruct (Z.ltb_spec (now - last) 20000000); [apply Z.ltb_lt | apply Z.ltb_ge];
    Z.to_euclidean_division_equations; lia.
Qed.

(** Times never go back. *)
Fixpoint monotone (last : Z) (ts : list Z) : Prop :=
  match ts with [] => True | t :: ts => last <= t ∧ monotone t ts end.

(** The send times of a run are at least 20 ms after the last send and 20 ms
    apart. *)
Lemma run_spaced last msgs ts :
  monotone ts msgs.*1 -> last <= ts ->
  match run (Some last) msgs with
  | [] => True
  | (t, _) :: _ => last + gap <= t
  end ∧
  (∀ i x y, run (Some last) msgs !! i = Some x -> run (Some last) msgs !! S i = Some y ->
            x.1 + gap <= y.1).
Proof.
  revert last ts; induction msgs as [| [now hs] msgs IH]; intros last ts Hm Hl; [by split |].
  cbn [fmap list_fmap fst monotone] in Hm. destruct Hm as [Hn Hm].
  cbn [run]. unfold _HighStateHandler. cbn [default from_option id]. rewrite throttled by lia.
  destruct (Z.ltb_spec (now - last) gap).
  - apply (IH last now); [done | lia].
  - destruct (IH now now Hm ltac:(lia)) as [H1 H2]. split; [change (last + gap <= now); lia |].
    intros [| i] x y Hx Hy; [| exact (H2 i x y Hx Hy)].
    cbn in Hx. injection Hx as <-. cbn [fst].
    change (run (Some now) msgs !! 0%nat = Some y) in Hy.
    destruct (run (Some now) msgs) as [| [t b] r]; [done |]. cbn in Hy. by injection Hy as <-.
Qed.

(** The high-state service never sends two datagrams less than 20 ms
    apart, whatever the message rate, and never sends the first message it
    receives (the first call only starts the clock). *)
Lemma throttle_spacing msgs t0 :
  monotone t0 msgs.*1 ->
  (∀ i x y, run None msgs !! i = Some x -> run None msgs !! S i = Some y -> x.1 + gap <= y.1) ∧
  (∀ now hs rest, msgs = (now, hs) :: rest -> run None msgs = run (Some now) rest).
Proof.
  intros Hm.
  assert (E : ∀ now hs rest, msgs = (now, hs) :: rest -> run None msgs = run (Some now) rest).
  { intros now hs rest ->. cbn [run]. unfold _HighStateHandler. cbn [default from_option id].
    by rewrite Z.sub_diag. }
  split; [| done]. destruct msgs as [| [now hs] rest]; [done |].
  rewrite (E now hs rest eq_refl). cbn in Hm. destruct Hm as [_ Hm].
  apply (run_spaced now rest now Hm). lia.
Qed.

(** A client recovers the thirteen values from the 52-byte datagram. *)
Lemma payload_roundtrip hs t0 now b :
  (_HighStateHandler None t0 now hs).2 = Some b ->
  Forall (fun x => f32_ok x = true) (payload hs) ->
  length b = 52%nat ∧ decode b = payload hs.
Proof.
  intros E Hp. assert (Hb : b = concat (f32_le <$> payload hs)).
  { revert E. unfold _HighStateHandler. generalize (concat (f32_le <$> payload hs)). intros B.
    destruct (_ <? 20); [discriminate |]. intros E. by injection E as <-. }
  rewrite Hb. split.
  - rewrite (length_concat_fixed _ 4) by apply length_f32_le. reflexivity.
  - apply (read_concat f32_le f32_read 4); [apply length_f32_le |].
    eapply Forall_impl; [exact Hp |]. apply f32_read_le.
Qed.

Definition sample : SportModeState_ :=
  {| position := [lit32 1 2; lit32 (-1) 4; lit32 3 10]; quaternion := [lit32 1 1; fzero; fzero; fzero];
     accelerometer := [fzero; fzero; lit32 981 100]; gyroscope := replicate 3 fzero |}.

Lemma throttle_spacing_witness :
  let msgs := [(0, sample); (25000000, sample); (30000000, sample); (46000000, sample)] in
  (∀ i x y, run None msgs !! i = Some x -> run None msgs !! S i = Some y -> x.1 + gap <= y.1) ∧
  (run None msgs).*1 = [25000000; 46000000].
Proof.
  intros msgs. split; [| vm_compute; reflexivity].
  apply (throttle_spacing msgs 0). cbn. lia.
Defined.

Lemma payload_roundtrip_witness :
  decode (concat (f32_le <$> payload sample)) = payload sample.
Proof.
  apply (payload_roundtrip sample 0 25000000); [vm_compute; reflexivity |].
  repeat constructor; vm_compute; reflexivity.
Defined.
End HighState.
