(* ===== verification/Livox.v ===== *)
(** * Point-cloud forwarding.

    Models the LiDAR callback of [src/example/go2/typego_livox_service.cpp]
    (height-filtered points in 512-byte datagrams), down to the writes into the
    packet buffer, which fail when they leave it; the buffers, points and
    packets are shared with [LivoxFull].  The Livox SDK is not part of the repository: its
    enumeration values are parameters, and a packet is what the callbacks read
    of [LivoxLidarEthernetPacket]. *)

From S2P Require Import Prelude Floats.

Local Open Scope Z_scope.

(** ** Packet buffers *)

(** [memcpy(&buf[off], bs, n)]; [None] is a write outside the buffer. *)
Definition blit (off : nat) (bs buf : bytes) : option bytes :=
  if (off + length bs <=? length buf)%nat
  then Some (take off buf ++ bs ++ drop (off + length bs) buf)
  else None.

(** The arguments of a callback. *)
Record EthernetPacket (A : Type) := {
  data_type : Z; dot_num : Z; timestamp : bytes; dots : list A
}.
Arguments data_type {A} _.
Arguments dot_num {A} _.
Arguments timestamp {A} _.
Arguments dots {A} _.

(** The points [pts[0]] to [pts[dot_num - 1]] that a callback reads; [None] when
    the packet holds fewer. *)
Definition read_dots {A} (d : EthernetPacket A) : option (list A) :=
  if (Z.to_nat (dot_num d) <=? length (dots d))%nat
  then Some (take (Z.to_nat (dot_num d)) (dots d)) else None.

(** [LivoxLidarCartesianHighRawPoint]: 32-bit coordinates, in millimetres. *)
Record RawPoint := { px : Z; py : Z; pz : Z }.

(** [(int16_t)(p.x)], for the three coordinates. *)
Definition narrow (p : RawPoint) : RawPoint := {| px := i16 (px p); py := i16 (py p); pz := i16 (pz p) |}.

(** An [int16_t] in memory. *)
Definition i16_bytes (v : Z) : bytes := le_bytes 2 (u16 v).

Definition point_bytes (p : RawPoint) : bytes := i16_bytes (px p) ++ i16_bytes (py p) ++ i16_bytes (pz p).

(** ** typego_livox_service.cpp *)
Module Filtered.

Definition MAX_UDP_PAYLOAD : nat := 512.

(** The local variables of the callback, and what was passed to [sendtoClient]. *)
Record locals := { seq_id : Z; packet : bytes; offset : nat; out : list bytes }.

(** The flush inside the loop: send, next sequence number, start afresh. *)
Definition flush (l : locals) : option locals :=
  let seq := u16 (seq_id l + 1) in
  packet' ← blit 0 (le_bytes 2 seq) (packet l);
  Some {| seq_id := seq; packet := packet'; offset := 2; out := out l ++ [take (offset l) (packet l)] |}.

(** One iteration of the loop over the points. *)
Definition point_step (l : locals) (p : RawPoint) : option locals :=
  let p := narrow p in
  if (-80 <? pz p) && (pz p <? 80) then
    l ← (if (MAX_UDP_PAYLOAD <? offset l + 6)%nat then flush l else Some l);
    b1 ← blit (offset l) (i16_bytes (px p)) (packet l);
    b2 ← blit (offset l + 2) (i16_bytes (py p)) b1;
    b3 ← blit (offset l + 4) (i16_bytes (pz p)) b2;
    Some {| seq_id := seq_id l; packet := b3; offset := offset l + 6; out := out l |}
  else Some l.

Fixpoint point_loop (l : locals) (pts : list RawPoint) : option locals :=
  match pts with
  | [] => Some l
  | p :: pts => l ← point_step l p; point_loop l pts
  end.

Section Callback.
Context (kLivoxLidarCartesianCoordinateHighData : Z).

(** [PointCloudCallback], from the thread-local [seq_id]; [junk] is the
    uninitialised packet array.  The result is the new [seq_id] and the
    datagrams; [None] is an access outside an array. *)
Definition PointCloudCallback (seq : Z) (junk : bytes) (data : option (EthernetPacket RawPoint)) :
    option (Z * list bytes) :=
  match data with
  | None => Some (seq, [])
  | Some d =>
      if negb (data_type d =? kLivoxLidarCartesianCoordinateHighData) then Some (seq, [])
      else
        packet0 ← blit 0 (le_bytes 2 seq) junk;
        pts ← read_dots d;
        l ← point_loop {| seq_id := seq; packet := packet0; offset := 2; out := [] |} pts;
        if (2 <? offset l)%nat
        then Some (u16 (seq_id l + 1), out l ++ [take (offset l) (packet l)])
        else Some (seq_id l, out l)
  end.
End Callback.

(** *** The specification: groups of at most 85 points *)

(** The points that pass the filter, as they are transmitted: the coordinates
    are cut to 16 bits first, and the height is tested after that. *)
Definition kept (pts : list RawPoint) : list RawPoint :=
  filter (fun p => -80 < pz p < 80) (narrow <$> pts).

(** The grouping the code performs, [cur] being the current group. *)
Fixpoint groups (cur pts : list RawPoint) : list (list RawPoint) :=
  match pts with
  | [] => if (length cur =? 0)%nat then [] else [cur]
  | p :: pts =>
      if (length cur =? 85)%nat then cur :: groups [p] pts else groups (cur ++ [p]) pts
  end.

(** The datagram of a group: sequence number, then the points. *)
Definition datagram (seq : Z) (g : list RawPoint) : bytes :=
  le_bytes 2 seq ++ concat (point_bytes <$> g).

Fixpoint datagrams (seq : Z) (gs : list (list RawPoint)) : list bytes :=
  match gs with
  | [] => []
  | g :: gs => datagram seq g :: datagrams (u16 (seq + 1)) gs
  end.

(** What a client reads: the sequence number and the points of a datagram. *)
Definition decode_point (b : bytes) : RawPoint :=
  {| px := i16 (le_val (slice 0 2 b)); py := i16 (le_val (slice 2 2 b)); pz := i16 (le_val (slice 4 2 b)) |}.

Definition decode (b : bytes) : Z * list RawPoint :=
  (le_val (slice 0 2 b),
   (fun i => decode_point (slice (6 * i) 6 (drop 2 b))) <$> seq 0 (Nat.div (length b - 2) 6)).
End Filtered.

(** ** Shared lemmas on buffers *)

Lemma length_i16_bytes v : length (i16_bytes v) = 2%nat.
Proof. apply length_le_bytes. Qed.

Lemma length_point_bytes p : length (point_bytes p) = 6%nat.
Proof. unfold point_bytes. by rewrite !length_app, !length_i16_bytes. Qed.

#[export] Hint Rewrite length_i16_bytes length_point_bytes : bytes.
#[global] Arguments i16_bytes : simpl never.
#[global] Arguments point_bytes : simpl never.

(** A write just after the meaningful prefix [pre] extends it. *)
Lemma blit_extend off bs buf pre :
  off = length pre -> take off buf = pre -> (off + length bs <= length buf)%nat ->
  ∃ buf', blit off bs buf = Some buf' ∧ length buf' = length buf ∧
          take (off + length bs) buf' = pre ++ bs.
Proof.
  intros Hoff Ht Hl. unfold blit. rewrite (proj2 (Nat.leb_le _ _) Hl).
  eexists. split; [done |]. split.
  - rewrite !length_app, length_take, length_drop. lia.
  - rewrite Ht, app_assoc. rewrite take_app_length'; [done |]. rewrite length_app. lia.
Qed.

Lemma decode_i16 v : in_s 16 v -> i16 (le_val (i16_bytes v)) = v.
Proof.
  intros. unfold i16_bytes. rewrite le_val_bytes by (apply uwrap_in; lia).
  by apply swrap_of_pattern.
Qed.

Lemma narrow_in p : in_s 16 (px (narrow p)) ∧ in_s 16 (py (narrow p)) ∧ in_s 16 (pz (narrow p)).
Proof. split_and!; apply swrap_in; lia. Qed.

Lemma decode_point_bytes p :
  in_s 16 (px p) ∧ in_s 16 (py p) ∧ in_s 16 (pz p) -> Filtered.decode_point (point_bytes p) = p.
Proof.
  intros (H1 & H2 & H3). destruct p as [x y z]. unfold Filtered.decode_point, point_bytes. cbn [px py pz] in *.
  read_slices. rewrite <- (app_nil_r (i16_bytes z)). read_slices. by rewrite !decode_i16.
Qed.

(** ** Correctness of the filtered service *)
Module FilteredProps.
Import Filtered.

(** The locals hold the open group [cur], to be sent with number [seq]. *)
Definition holds (l : locals) (seq : Z) (cur : list RawPoint) : Prop :=
  seq_id l = seq ∧ length (packet l) = MAX_UDP_PAYLOAD ∧ offset l = (2 + 6 * length cur)%nat ∧
  (length cur <= 85)%nat ∧ take (offset l) (packet l) = datagram seq cur.

Lemma length_datagram seq g : length (datagram seq g) = (2 + 6 * length g)%nat.
Proof.
  unfold datagram. rewrite length_app, length_le_bytes, (length_concat_fixed _ 6); [done |].
  apply length_point_bytes.
Qed.

Lemma datagram_snoc seq g p : datagram seq (g ++ [p]) = datagram seq g ++ point_bytes p.
Proof. unfold datagram. rewrite fmap_app, concat_app. cbn. by rewrite app_nil_r, app_assoc. Qed.

Lemma fresh_packet seq buf :
  length buf = MAX_UDP_PAYLOAD ->
  ∃ buf', blit 0 (le_bytes 2 seq) buf = Some buf' ∧ length buf' = MAX_UDP_PAYLOAD ∧
          take 2 buf' = datagram seq [].
Proof.
  intros Hl. destruct (blit_extend 0 (le_bytes 2 seq) buf []) as (buf' & E & L & T);
    [done | apply take_0 | rewrite length_le_bytes, Hl; unfold MAX_UDP_PAYLOAD; lia |].
  exists buf'. split_and!; [done | congruence |]. rewrite length_le_bytes in T. cbn [Nat.add app] in T. rewrite T.
  unfold datagram. by rewrite app_nil_r.
Qed.

(** Writing a point into a group that has room. *)
Lemma write_point l seq cur p :
  holds l seq cur -> (length cur < 85)%nat ->
  ∃ b1 b2 b3, blit (offset l) (i16_bytes (px p)) (packet l) = Some b1 ∧
    blit (offset l + 2) (i16_bytes (py p)) b1 = Some b2 ∧
    blit (offset l + 4) (i16_bytes (pz p)) b2 = Some b3 ∧
    length b3 = MAX_UDP_PAYLOAD ∧ take (offset l + 6) b3 = datagram seq (cur ++ [p]).
Proof.
  intros (_ & Hl & Ho & _ & Ht) Hr. unfold MAX_UDP_PAYLOAD in *.
  pose proof (length_datagram seq cur) as Ld. rewrite <- Ho in Ld.
  destruct (blit_extend (offset l) (i16_bytes (px p)) (packet l) (datagram seq cur)) as (b1 & E1 & L1 & T1);
    [done | done | rewrite length_i16_bytes; lia |]. rewrite length_i16_bytes in T1.
  destruct (blit_extend (offset l + 2) (i16_bytes (py p)) b1 (datagram seq cur ++ i16_bytes (px p)))
    as (b2 & E2 & L2 & T2);
    [rewrite length_app, length_i16_bytes; lia | done | rewrite length_i16_bytes; lia |].
  rewrite length_i16_bytes, <- Nat.add_assoc in T2.
  destruct (blit_extend (offset l + 4) (i16_bytes (pz p)) b2
     ((datagram seq cur ++ i16_bytes (px p)) ++ i16_bytes (py p))) as (b3 & E3 & L3 & T3);
    [rewrite !length_app, !length_i16_bytes; lia | done | rewrite length_i16_bytes; lia |].
  rewrite length_i16_bytes, <- Nat.add_assoc in T3.
  exists b1, b2, b3. split_and!; try done; [lia |].
  cbn [Nat.add] in T3. rewrite T3, datagram_snoc. unfold point_bytes. by rewrite <- !app_assoc.
Qed.

(** One iteration advances the grouping by one point. *)
Lemma point_step_spec l seq cur p :
  holds l seq cur ->
  (-80 < pz (narrow p) < 80 ->
   if (length cur =? 85)%nat
   then ∃ l', point_step l p = Some l' ∧ holds l' (u16 (seq + 1)) [narrow p] ∧
              out l' = out l ++ [datagram seq cur]
   else ∃ l', point_step l p = Some l' ∧ holds l' seq (cur ++ [narrow p]) ∧ out l' = out l) ∧
  (¬ (-80 < pz (narrow p) < 80) -> point_step l p = Some l).
Proof.
  intros H. unfold point_step. set (p' := narrow p). split.
  - intros Hz. rewrite (proj2 (Z.ltb_lt _ _) (proj1 Hz)), (proj2 (Z.ltb_lt _ _) (proj2 Hz)). cbn [andb].
    pose proof H as (Hs & Hl & Ho & Hc & Ht).
    destruct (Nat.eqb_spec (length cur) 85) as [E85 | E85].
    + replace (MAX_UDP_PAYLOAD <? offset l + 6)%nat with true
        by (symmetry; apply Nat.ltb_lt; unfold MAX_UDP_PAYLOAD; lia).
      unfold flush. rewrite Hs. destruct (fresh_packet (u16 (seq + 1)) (packet l) Hl) as (b & Eb & Lb & Tb).
      rewrite Eb. cbn [mbind option_bind].
      set (l1 := {| seq_id := u16 (seq + 1); packet := b; offset := 2;
                    out := out l ++ [take (offset l) (packet l)] |}).
      assert (H1 : holds l1 (u16 (seq + 1)) []) by (unfold holds; cbn; split_and!; (done || lia)).
      destruct (write_point l1 _ [] p' H1) as (b1 & b2 & b3 & E1 & E2 & E3 & L3 & T3); [cbn; lia |].
      rewrite E1. cbn [mbind option_bind]. rewrite E2. cbn [mbind option_bind]. rewrite E3. cbn [mbind option_bind].
      eexists. split; [done |]. split; [| cbn; by rewrite Ht].
      unfold holds. cbn. split_and!; (done || lia).
    + replace (MAX_UDP_PAYLOAD <? offset l + 6)%nat with false
        by (symmetry; apply Nat.ltb_ge; unfold MAX_UDP_PAYLOAD; lia). cbn [mbind option_bind].
      destruct (write_point l seq cur p' H) as (b1 & b2 & b3 & E1 & E2 & E3 & L3 & T3); [lia |].
      rewrite E1. cbn [mbind option_bind]. rewrite E2. cbn [mbind option_bind]. rewrite E3. cbn [mbind option_bind].
      eexists. split; [done |]. split; [| done].
      unfold holds. cbn [seq_id packet offset]. rewrite length_app. cbn [length].
      split_and!; (done || lia).
  - intros Hz. destruct (Z.ltb_spec (-80) (pz p')), (Z.ltb_spec (pz p') 80); cbn; try done. lia.
Qed.

(** What remains to be sent from an open group. *)
Definition tail (seq : Z) (cur : list RawPoint) : list bytes :=
  if (length cur =? 0)%nat then [] else [datagram seq cur].

Definition open_count (cur : list RawPoint) : Z := if (length cur =? 0)%nat then 0 else 1.

Lemma u16_add_idemp a b : u16 (u16 a + b) = u16 (a + b).
Proof. unfold uwrap. by rewrite Z.add_mod_idemp_l by lia. Qed.

Lemma point_loop_spec pts l seq cur :
  in_u 16 seq -> holds l seq cur ->
  ∃ l' seq' cur', point_loop l pts = Some l' ∧ in_u 16 seq' ∧ holds l' seq' cur' ∧
    out l' ++ tail seq' cur' = out l ++ datagrams seq (groups cur (kept pts)) ∧
    u16 (seq' + open_count cur') = u16 (seq + Z.of_nat (length (groups cur (kept pts)))).
Proof.
  revert l seq cur; induction pts as [| p pts IH]; intros l seq cur Hu H.
  - exists l, seq, cur. cbn [point_loop kept fmap list_fmap]. cbn.
    unfold tail, open_count. destruct (length cur =? 0)%nat; cbn; split_and!; done.
  - cbn [point_loop]. destruct (point_step_spec l seq cur p H) as [Hk Hd].
    unfold kept. cbn [fmap list_fmap]. fold (kept pts).
    destruct (decide (-80 < pz (narrow p) < 80)) as [Hz | Hz].
    + rewrite filter_cons_True by done. fold (kept pts). specialize (Hk Hz). cbn [groups].
      destruct (length cur =? 85)%nat.
      * destruct Hk as (l1 & E1 & H1 & O1). rewrite E1. cbn [mbind option_bind].
        destruct (IH l1 _ _ (uwrap_in 16 _ ltac:(lia)) H1) as (l' & seq' & cur' & E & Hu' & H' & O & S').
        exists l', seq', cur'. split_and!; try done.
        -- rewrite O, O1, <- app_assoc. done.
        -- rewrite S', u16_add_idemp. f_equal. cbn [length]. lia.
      * destruct Hk as (l1 & E1 & H1 & O1). rewrite E1. cbn [mbind option_bind].
        destruct (IH l1 _ _ Hu H1) as (l' & seq' & cur' & E & Hu' & H' & O & S').
        exists l', seq', cur'. split_and!; try done. by rewrite O, O1.
    + rewrite filter_cons_False by done. fold (kept pts). rewrite (Hd Hz). cbn [mbind option_bind].
      by apply IH.
Qed.

(** The grouping keeps every point in order, in groups of 1 to 85 points, all
    but the last of them full. *)
Lemma groups_concat pts cur : concat (groups cur pts) = cur ++ pts.
Proof.
  revert cur; induction pts as [| p pts IH]; intros cur; cbn [groups].
  - destruct cur; cbn; by rewrite ?app_nil_r.
  - destruct (length cur =? 85)%nat.
    + cbn [concat]. by rewrite IH.
    + by rewrite IH, <- app_assoc.
Qed.

Lemma groups_sizes pts cur :
  (length cur <= 85)%nat -> Forall (fun g => (1 <= length g <= 85)%nat) (groups cur pts).
Proof.
  revert cur; induction pts as [| p pts IH]; intros cur Hc; cbn [groups].
  - destruct cur as [| q cur]; cbn [length Nat.eqb]; [apply Forall_nil_2 |].
    apply Forall_singleton. cbn [length] in *. lia.
  - destruct (Nat.eqb_spec (length cur) 85).
    + constructor; [lia | apply IH; cbn; lia].
    + apply IH. rewrite length_app. cbn. lia.
Qed.

Lemma groups_full pts cur :
  Forall (fun g => length g = 85%nat) (removelast (groups cur pts)).
Proof.
  revert cur; induction pts as [| p pts IH]; intros cur; cbn [groups].
  - destruct cur; cbn; apply Forall_nil_2.
  - destruct (Nat.eqb_spec (length cur) 85) as [E |]; [| apply IH].
    cbn [removelast]. destruct (groups [p] pts) eqn:G; [apply Forall_nil_2 |].
    constructor; [done |]. rewrite <- G. apply IH.
Qed.

Lemma kept_in pts :
  Forall (fun p => in_s 16 (px p) ∧ in_s 16 (py p) ∧ in_s 16 (pz p)) (kept pts).
Proof.
  apply Forall_forall. intros p Hp. unfold kept in Hp. apply list_elem_of_filter in Hp as [_ Hp].
  apply list_elem_of_fmap in Hp as (q & -> & _). apply narrow_in.
Qed.

Lemma decode_datagram seq g :
  in_u 16 seq -> Forall (fun p => in_s 16 (px p) ∧ in_s 16 (py p) ∧ in_s 16 (pz p)) g ->
  decode (datagram seq g) = (seq, g).
Proof.
  intros Hs Hg. unfold decode. rewrite length_datagram.
  replace ((2 + 6 * length g - 2) / 6)%nat with (length g)
    by (rewrite Nat.add_comm, Nat.add_sub, Nat.mul_comm; symmetry; by apply Nat.div_mul).
  unfold datagram. rewrite drop_app_length' by by rewrite length_le_bytes.
  rewrite slice_all by by rewrite length_le_bytes. rewrite le_val_bytes by done. f_equal.
  apply (read_concat point_bytes decode_point); [apply length_point_bytes |].
  eapply Forall_impl; [exact Hg |]. intros p. apply decode_point_bytes.
Qed.

(** The sequence numbers [seq], [seq + 1], ... in 16 bits. *)
Definition numbers (seq : Z) (n : nat) : list Z := (fun i => u16 (seq + Z.of_nat i)) <$> List.seq 0 n.

Lemma numbers_S seq n : in_u 16 seq -> numbers seq (S n) = seq :: numbers (u16 (seq + 1)) n.
Proof.
  intros H. unfold numbers. rewrite <- cons_seq, fmap_cons. f_equal.
  - rewrite Z.add_0_r. by apply uwrap_id.
  - rewrite <- fmap_S_seq, <- list_fmap_compose. apply list_fmap_ext. intros i x _. cbn [compose].
    rewrite u16_add_idemp. f_equal. lia.
Qed.

Lemma decode_datagrams gs seq :
  in_u 16 seq ->
  Forall (Forall (fun p => in_s 16 (px p) ∧ in_s 16 (py p) ∧ in_s 16 (pz p))) gs ->
  decode <$> datagrams seq gs = zip (numbers seq (length gs)) gs.
Proof.
  revert seq; induction gs as [| g gs IH]; intros seq Hs Hg; [done |].
  inversion_clear Hg. cbn [datagrams length]. rewrite numbers_S by done. cbn [fmap list_fmap zip zip_with].
  rewrite decode_datagram by done. f_equal. apply IH; [apply uwrap_in; lia | done].
Qed.

Lemma datagram_lengths gs seq :
  length <$> datagrams seq gs = (fun g => (2 + 6 * length g)%nat) <$> gs.
Proof.
  revert seq; induction gs as [| g gs IH]; intros seq; [done |].
  cbn [datagrams fmap list_fmap]. rewrite length_datagram. f_equal. apply IH.
Qed.

(** What the callback sends, and the sequence number it leaves. *)
Lemma callback_sends K seq junk d pts :
  length junk = MAX_UDP_PAYLOAD -> in_u 16 seq -> data_type d = K -> read_dots d = Some pts ->
  PointCloudCallback K seq junk (Some d) =
    Some (u16 (seq + Z.of_nat (length (groups [] (kept pts)))), datagrams seq (groups [] (kept pts))).
Proof.
  intros Hj Hs Hk Hd. unfold PointCloudCallback. rewrite Hk, Z.eqb_refl. cbn [negb].
  destruct (fresh_packet seq junk Hj) as (b & Eb & Lb & Tb). rewrite Eb, Hd. cbn [mbind option_bind].
  set (l0 := {| seq_id := seq; packet := b; offset := 2; out := [] |}).
  assert (H0 : holds l0 seq []) by (unfold holds; cbn; split_and!; (done || lia)).
  destruct (point_loop_spec pts l0 seq [] Hs H0) as (l' & seq' & cur' & E & Hu & H' & O & S').
  rewrite E. cbn [mbind option_bind]. destruct H' as (Hs' & _ & Ho & _ & Ht).
  rewrite Hs', Ht, Ho. unfold tail, open_count in *. cbn [out l0 app] in O.
  destruct cur' as [| q cur']; cbn [length Nat.eqb] in *.
  - cbn. rewrite app_nil_r in O. rewrite O, <- S', Z.add_0_r, uwrap_id; done.
  - replace (2 <? 2 + 6 * S (length cur'))%nat with true by (symmetry; apply Nat.ltb_lt; lia).
    rewrite O, <- S'. done.
Qed.

Lemma Forall_lengths (P : nat -> Prop) (l : list bytes) : Forall P (length <$> l) -> Forall (fun b => P (length b)) l.
Proof. by rewrite Forall_fmap. Qed.

(** The filter in terms of the points received. *)
Lemma kept_filter pts : kept pts = narrow <$> filter (fun p => -80 < i16 (pz p) < 80) pts.
Proof.
  unfold kept. induction pts as [| p pts IH]; [done |]. cbn [fmap list_fmap].
  destruct (decide (-80 < i16 (pz p) < 80)).
  - rewrite !filter_cons_True by done. cbn [fmap list_fmap]. f_equal. exact IH.
  - rewrite !filter_cons_False by done. exact IH.
Qed.

(** Where the heights fit 16 bits the cut does not change the test. *)
Lemma kept_in_band pts :
  Forall (fun p => in_s 16 (pz p)) pts -> kept pts = narrow <$> filter (fun p => -80 < pz p < 80) pts.
Proof.
  intros Hz. rewrite kept_filter. f_equal.
  induction Hz as [| p pts Hp Hz IH]; [done |]. rewrite !filter_cons, IH, (swrap_id 16 (pz p)) by (lia || done).
  done.
Qed.

(** C8. For a Cartesian high-resolution packet the filtered service never writes
    outside its 512-byte array, and what it sends, decoded by a client, is
    exactly the points whose height, cut to 16 bits, lies strictly between -80
    and 80 mm, in order and with all coordinates cut to 16 bits.  When every
    height of the packet fits 16 bits (within about 32 m), these are exactly the
    points within the height band; a height beyond that can alias into it
    ([band_test_aliases]).  The datagrams carry consecutive 16-bit sequence
    numbers, each holds between 1 and 85 points, all but the last are full, and
    the stored sequence number advances by the number of datagrams. *)
Theorem filtered_forwarding K seq junk d pts :
  length junk = MAX_UDP_PAYLOAD -> in_u 16 seq -> data_type d = K -> read_dots d = Some pts ->
  ∃ sent, PointCloudCallback K seq junk (Some d) = Some (u16 (seq + Z.of_nat (length sent)), sent) ∧
    concat (snd <$> (decode <$> sent)) = narrow <$> filter (fun p => -80 < i16 (pz p) < 80) pts ∧
    (Forall (fun p => in_s 16 (pz p)) pts ->
       concat (snd <$> (decode <$> sent)) = narrow <$> filter (fun p => -80 < pz p < 80) pts) ∧
    fst <$> (decode <$> sent) = numbers seq (length sent) ∧
    Forall (fun b => 8 <= length b <= MAX_UDP_PAYLOAD)%nat sent ∧
    Forall (fun b => length b = MAX_UDP_PAYLOAD) (removelast sent).
Proof.
  intros Hj Hs Hk Hd. set (gs := groups [] (kept pts)).
  assert (Hc : concat gs = kept pts) by apply groups_concat.
  assert (Hi : Forall (Forall (fun p => in_s 16 (px p) ∧ in_s 16 (py p) ∧ in_s 16 (pz p))) gs)
    by (apply Forall_concat; rewrite Hc; apply kept_in).
  assert (Hl : length (datagrams seq gs) = length gs)
    by (rewrite <- (length_fmap length), datagram_lengths; apply length_fmap).
  assert (Hn : length (numbers seq (length gs)) = length gs)
    by (unfold numbers; by rewrite length_fmap, length_seq).
  exists (datagrams seq gs). rewrite Hl, (decode_datagrams gs seq Hs Hi). split_and!.
  - by apply callback_sends.
  - rewrite snd_zip by lia. by rewrite Hc, kept_filter.
  - intros Hz. rewrite snd_zip by lia. by rewrite Hc, kept_in_band.
  - by rewrite fst_zip by lia.
  - apply (Forall_lengths (fun n => 8 <= n <= MAX_UDP_PAYLOAD)%nat). rewrite datagram_lengths, Forall_fmap.
    eapply Forall_impl; [apply groups_sizes; cbn; lia |]. intros g. unfold MAX_UDP_PAYLOAD. cbn. lia.
  - apply (Forall_lengths (fun n => n = MAX_UDP_PAYLOAD)).
    rewrite <- removelast_fmap, datagram_lengths, removelast_fmap, Forall_fmap.
    eapply Forall_impl; [apply groups_full |]. intros g. unfold MAX_UDP_PAYLOAD. cbn. lia.
Qed.

(** A packet with three points, two of them in the band. *)
Definition sample_packet : EthernetPacket RawPoint :=
  {| data_type := 1; dot_num := 3; timestamp := [];
     dots := [{| px := 1000; py := -2000; pz := 79 |}; {| px := 5; py := 6; pz := 80 |};
              {| px := -1; py := 0; pz := -79 |}] |}.

Lemma filtered_forwarding_witness :
  PointCloudCallback 1 65535 (replicate 512 170) (Some sample_packet) =
    Some (0, [[255; 255; 232; 3; 48; 248; 79; 0; 255; 255; 0; 0; 177; 255]]) ∧
  ∃ sent, PointCloudCallback 1 65535 (replicate 512 170) (Some sample_packet) =
            Some (u16 (65535 + Z.of_nat (length sent)), sent) ∧
    concat (snd <$> (decode <$> sent)) = narrow <$> filter (fun p => -80 < pz p < 80) (dots sample_packet) ∧
    fst <$> (decode <$> sent) = numbers 65535 (length sent) ∧
    Forall (fun b => 8 <= length b <= MAX_UDP_PAYLOAD)%nat sent ∧
    Forall (fun b => length b = MAX_UDP_PAYLOAD) (removelast sent).
Proof.
  split; [by vm_compute |].
  destruct (filtered_forwarding 1 65535 (replicate 512 170) sample_packet (dots sample_packet))
    as (sent & E & _ & Hband & Hrest); [done | by vm_compute | done | done |].
  exists sent. split; [exact E |]. split; [| exact Hrest].
  apply Hband. repeat constructor; by vm_compute.
Defined.

(** The band is tested after the coordinates are cut to 16 bits, so a point
    65.536 m above the sensor is forwarded as one at its height. *)
Lemma band_test_aliases : kept [{| px := 0; py := 0; pz := 65536 |}] = [{| px := 0; py := 0; pz := 0 |}].
Proof. by vm_compute. Qed.
End FilteredProps.
