(* ===== verification/LivoxFull.v ===== *)
(** * Full point-cloud and IMU forwarding.

    Models [src/example/go2/typego_livox_full_service.cpp]: the point-cloud and
    IMU callbacks, which cut a LiDAR packet into MTU-sized datagrams with an
    18-byte header, the once-a-second statistics, the error counter of
    [sendtoClient], and the scan of the key-value records of an information
    response.  The two callbacks share their sending loop, which is written once
    over the class of samples.

    The structs of the Livox SDK are not part of the repository: their size and
    the way their bytes are read are parameters (class [SdkStruct]), and the
    payload of a packet is the bytes from [data->data] on, which the callbacks
    cast to an array of the struct they expect. *)

From S2P Require Import Prelude Floats Livox.

Local Open Scope Z_scope.

(** ** Wire format *)

(** [PointCloudPacketHeader] and [ImuPacketHeader], which have one layout;
    [count] is [point_count] or [imu_count]. *)
Record PacketHeader := {
  sequence_id : Z; timestamp_sec : Z; timestamp_nsec : Z; handle : Z;
  dev_type : Z; hdr_data_type : Z; count : Z
}.

(** The fields of the packed header in order, in network byte order. *)
Definition header_fields (h : PacketHeader) : list bytes :=
  [be_bytes 2 (sequence_id h); be_bytes 4 (timestamp_sec h); be_bytes 4 (timestamp_nsec h);
   be_bytes 4 (handle h); [u8 (dev_type h)]; [u8 (hdr_data_type h)]; be_bytes 2 (count h)].

Definition MAX_UDP_PAYLOAD : nat := 1472.
Definition HEADER_SIZE : nat := 18.

(** A sample type: the size of its packed image and the fields of the image. *)
Class Sample (A : Type) := {
  sample_size : nat;
  sample_fields : A -> list bytes
}.

(** [OptimizedPoint], from a raw point: three [int16_t]. *)
#[export] Instance OptimizedPoint : Sample RawPoint := {
  sample_size := 6;
  sample_fields p := [i16_bytes (i16 (px p)); i16_bytes (i16 (py p)); i16_bytes (i16 (pz p))]
}.

(** [LivoxLidarImuRawPoint]; a [float] that is only copied is its bit pattern. *)
Record ImuRawPoint := { gyro_x : Z; gyro_y : Z; gyro_z : Z; acc_x : Z; acc_y : Z; acc_z : Z }.

(** [ImuData]: six floats, accelerations first. *)
#[export] Instance ImuData : Sample ImuRawPoint := {
  sample_size := 24;
  sample_fields p :=
    [le_bytes 4 (acc_x p); le_bytes 4 (acc_y p); le_bytes 4 (acc_z p);
     le_bytes 4 (gyro_x p); le_bytes 4 (gyro_y p); le_bytes 4 (gyro_z p)]
}.

(** A struct of the Livox SDK in memory: its size, and the fields the callbacks
    use of an object with the given bytes. *)
Class SdkStruct (A : Type) := {
  sizeof : nat;
  load : bytes -> A;
  sizeof_pos : (0 < sizeof)%nat
}.

(** [data->data] cast to an array of [A]: the objects that lie within the payload.  An
    index behind it is an access outside the payload. *)
Definition cast {A} `{SdkStruct A} (payload : bytes) : list A :=
  (fun i => load (slice (sizeof * i) sizeof payload)) <$> seq 0 (Nat.div (length payload) sizeof).

(** Stores to consecutive fields of a packed struct, from [off] on. *)
Fixpoint store_fields (off : nat) (fs : list bytes) (buf : bytes) : option bytes :=
  match fs with
  | [] => Some buf
  | f :: fs => buf ← blit off f buf; store_fields (off + length f) fs buf
  end.

(** ** The sending loop *)
Section Send.
Context {A : Type} {sample : Sample A}.

(** [(MAX_UDP_PAYLOAD - HEADER_SIZE) / sizeof(sample)]. *)
Definition MAX_PER_PACKET : nat := Nat.div (MAX_UDP_PAYLOAD - HEADER_SIZE) sample_size.

(** The inner loop, for the indices [i], ..., [i + n - 1] of the packet. *)
Fixpoint pack_loop (src : list A) (offset : Z) (n i : nat) (packet : bytes) : option bytes :=
  match n with
  | O => Some packet
  | S n =>
      s ← src !! Z.to_nat (u32 (offset + Z.of_nat i));
      packet ← store_fields (HEADER_SIZE + sample_size * i) (sample_fields s) packet;
      pack_loop src offset n (S i) packet
  end.

(** The [while (remaining > 0)] loop; [mk_header] gives the header but for the
    sequence number and the count.  [None] is an access outside an array, or
    not enough fuel. *)
Fixpoint send_loop (mk_header : Z -> Z -> PacketHeader) (src : list A)
    (fuel : nat) (seq_id remaining offset : Z) (packet : bytes) : option (Z * list bytes) :=
  if remaining =? 0 then Some (seq_id, [])
  else match fuel with
  | O => None
  | S fuel =>
      let n := if Z.of_nat MAX_PER_PACKET <? remaining then Z.of_nat MAX_PER_PACKET else remaining in
      let seq_id := u16 (seq_id + 1) in
      packet ← store_fields 0 (header_fields (mk_header seq_id (u16 n))) packet;
      packet ← pack_loop src offset (Z.to_nat n) 0 packet;
      let packet_size := (HEADER_SIZE + Z.to_nat n * sample_size)%nat in
      '(seq_id', out) ← send_loop mk_header src fuel seq_id (u32 (remaining - n)) (u32 (offset + n)) packet;
      Some (seq_id', take packet_size packet :: out)
  end.
End Send.

(** The [uint64_t] time stamp, in nanoseconds, split by the callbacks. *)
Definition ts_sec (timestamp : bytes) : Z := u32 (le_val timestamp / 1000000000).
Definition ts_nsec (timestamp : bytes) : Z := u32 (le_val timestamp mod 1000000000).

Definition make_header (handle dev_type : Z) {A} (d : EthernetPacket A) (seq_id n : Z) : PacketHeader :=
  {| sequence_id := seq_id; timestamp_sec := ts_sec (timestamp d); timestamp_nsec := ts_nsec (timestamp d);
     handle := handle; dev_type := dev_type; hdr_data_type := data_type d; count := n |}.

(** ** The callbacks *)

(** The file's counters: [pointcloud_callback_count] and [last_log_time], the
    latter in nanoseconds of the steady clock. *)
Record stats := { callback_count : Z; last_log_time : Z }.

(** The statistics part: [now] is the clock, [cas] whether
    [compare_exchange_weak] succeeds.  The result carries the number printed. *)
Definition log_stats (now : Z) (cas : bool) (s : stats) : stats * option Z :=
  let n := u64 (callback_count s + 1) in
  let elapsed := Z.quot (now - last_log_time s) 1000000 in
  if (1000 <=? elapsed) && cas
  then ({| callback_count := 0; last_log_time := now |}, Some n)
  else ({| callback_count := n; last_log_time := last_log_time s |}, None).

Section Callbacks.
Context (kLivoxLidarCartesianCoordinateHighData kLivoxLidarCartesianCoordinateLowData : Z).
Context {LivoxLidarCartesianHighRawPoint : SdkStruct RawPoint} {LivoxLidarImuRawPoint : SdkStruct ImuRawPoint}.

(** [PointCloudCallback] after the statistics, from the thread-local [seq_id];
    [junk] is the uninitialised packet array, [ready] is [client_ready].  The
    payload is read as high-resolution points for both data types. *)
Definition PointCloudCallback (ready : bool) (seq_id : Z) (junk : bytes) (handle dev_type : Z)
    (data : option (EthernetPacket Z)) : option (Z * list bytes) :=
  match data with
  | None => Some (seq_id, [])
  | Some d =>
      if negb ready then Some (seq_id, [])
      else if negb (data_type d =? kLivoxLidarCartesianCoordinateHighData) &&
              negb (data_type d =? kLivoxLidarCartesianCoordinateLowData) then Some (seq_id, [])
      else send_loop (make_header handle dev_type d) (cast (A := RawPoint) (dots d))
             (Z.to_nat (dot_num d)) seq_id (dot_num d) 0 junk
  end.

(** [ImuDataCallback], from the thread-local [imu_seq_id]. *)
Definition ImuDataCallback (ready : bool) (imu_seq_id : Z) (junk : bytes) (handle dev_type : Z)
    (data : option (EthernetPacket Z)) : option (Z * list bytes) :=
  match data with
  | None => Some (imu_seq_id, [])
  | Some d =>
      if negb ready then Some (imu_seq_id, [])
      else send_loop (make_header handle dev_type d) (cast (A := ImuRawPoint) (dots d))
             (Z.to_nat (dot_num d)) imu_seq_id (dot_num d) 0 junk
  end.
End Callbacks.

(** ** sendtoClient *)

Inductive send_outcome := SendOk | SendWouldBlock | SendFailed.

(** From the [static int error_count]: whether [sendto] is called, the new
    count, and the count printed, if it is. *)
Definition sendtoClient (ready : bool) (r : send_outcome) (error_count : Z) : bool * Z * option Z :=
  if ready then
    match r with
    | SendFailed =>
        let e := i32 (error_count + 1) in
        (true, e, if Z.rem e 1000 =? 0 then Some e else None)
    | _ => (true, error_count, None)
    end
  else (false, error_count, None).

(** ** QueryInternalInfoCallback *)
Section Query.
Context (kLivoxLidarStatusSuccess kKeyLidarPointDataHostIpCfg kKeyLidarImuHostIpCfg : Z).

(** An address record: IP, host port, LiDAR port. *)
Record HostCfg := { ipaddr : bytes; host_port : Z; lidar_port : Z }.

Definition no_cfg : HostCfg := {| ipaddr := [0; 0; 0; 0]; host_port := 0; lidar_port := 0 |}.

(** A read of [n] bytes at [off]; [None] outside the response. *)
Definition peek (data : bytes) (off n : nat) : option bytes :=
  if (off + n <=? length data)%nat then Some (slice off n data) else None.

(** The three copies out of [kv->value]. *)
Definition read_cfg (data : bytes) (off : nat) : option HostCfg :=
  ip ← peek data (off + 4) 4;
  hp ← peek data (off + 8) 2;
  lp ← peek data (off + 10) 2;
  Some {| ipaddr := ip; host_port := le_val hp; lidar_port := le_val lp |}.

(** The loop body and the loop over [param_num] records, from offset [off]. *)
Definition kv_step (data : bytes) (st : Z * HostCfg * HostCfg) : option (Z * HostCfg * HostCfg) :=
  let '(off, point, imu) := st in
  let o := Z.to_nat off in
  k ← peek data o 2;
  '(point, imu) ←
    (if le_val k =? kKeyLidarPointDataHostIpCfg then c ← read_cfg data o; Some (c, imu)
     else if le_val k =? kKeyLidarImuHostIpCfg then c ← read_cfg data o; Some (point, c)
     else Some (point, imu));
  len ← peek data (o + 2) 2;
  Some (u16 (u16 (off + 4) + le_val len), point, imu).

(** [for (uint8_t i = ...; i < param_num; ++i)], with fuel. *)
Fixpoint kv_loop (fuel : nat) (data : bytes) (param_num i : Z) (st : Z * HostCfg * HostCfg) :
    option (Z * HostCfg * HostCfg) :=
  if i <? param_num then
    match fuel with
    | O => None
    | S fuel => st ← kv_step data st; kv_loop fuel data param_num (u8 (i + 1)) st
    end
  else Some st.

(** The callback; the inner option is what is printed. *)
Definition QueryInternalInfoCallback (status : Z) (response : option (Z * bytes)) :
    option (option (HostCfg * HostCfg)) :=
  if negb (status =? kLivoxLidarStatusSuccess) then Some None
  else match response with
  | None => Some None
  | Some (param_num, data) =>
      '(_, point, imu) ← kv_loop 256 data param_num 0 (0, no_cfg, no_cfg);
      Some (Some (point, imu))
  end.
End Query.

(** ** What a client decodes *)

(** A sample type whose packed image has the announced size and can be read
    back; [sample_image] is what survives the conversion to the wire. *)
Class SampleCodec (A : Type) {sample : Sample A} := {
  sample_ok : A -> Prop;
  sample_image : A -> A;
  sample_decode : bytes -> A;
  sample_size_range : (0 < sample_size <= MAX_UDP_PAYLOAD - HEADER_SIZE)%nat;
  sample_fields_size a : length (concat (sample_fields a)) = sample_size;
  sample_decode_fields a : sample_ok a -> sample_decode (concat (sample_fields a)) = sample_image a
}.

Section Decode.
Context {A : Type} `{SampleCodec A}.

Definition decode_header (b : bytes) : PacketHeader :=
  {| sequence_id := be_val (slice 0 2 b); timestamp_sec := be_val (slice 2 4 b);
     timestamp_nsec := be_val (slice 6 4 b); handle := be_val (slice 10 4 b);
     dev_type := be_val (slice 14 1 b); hdr_data_type := be_val (slice 15 1 b);
     count := be_val (slice 16 2 b) |}.

(** The header, then as many samples as it announces. *)
Definition decode_packet (b : bytes) : PacketHeader * list A :=
  let h := decode_header b in
  (h, (fun i => sample_decode (slice (sample_size * i) sample_size (drop HEADER_SIZE b)))
        <$> seq 0 (Z.to_nat (count h))).
End Decode.

(** ** Correctness of the sending loop *)

#[export] Instance OptimizedPoint_codec : SampleCodec RawPoint.
Proof.
  refine {| sample_ok _ := True; sample_image := narrow; sample_decode := Filtered.decode_point |}.
  - cbn. unfold MAX_UDP_PAYLOAD, HEADER_SIZE. lia.
  - intros p. cbn [sample_fields OptimizedPoint concat]. by rewrite !length_app, !length_i16_bytes.
  - intros p _. cbn [sample_fields OptimizedPoint concat]. rewrite app_nil_r.
    exact (decode_point_bytes (narrow p) (narrow_in p)).
Defined.

Definition decode_imu (b : bytes) : ImuRawPoint :=
  {| acc_x := le_val (slice 0 4 b); acc_y := le_val (slice 4 4 b); acc_z := le_val (slice 8 4 b);
     gyro_x := le_val (slice 12 4 b); gyro_y := le_val (slice 16 4 b); gyro_z := le_val (slice 20 4 b) |}.

Definition imu_ok (p : ImuRawPoint) : Prop :=
  in_u 32 (acc_x p) ∧ in_u 32 (acc_y p) ∧ in_u 32 (acc_z p) ∧
  in_u 32 (gyro_x p) ∧ in_u 32 (gyro_y p) ∧ in_u 32 (gyro_z p).

#[export] Instance ImuData_codec : SampleCodec ImuRawPoint.
Proof.
  refine {| sample_ok := imu_ok; sample_image p := p; sample_decode := decode_imu |}.
  - cbn. unfold MAX_UDP_PAYLOAD, HEADER_SIZE. lia.
  - intros p. cbn [sample_fields ImuData concat]. by rewrite !length_app, !length_le_bytes.
  - intros [] (? & ? & ? & ? & ? & ?). cbn [sample_fields ImuData concat acc_x acc_y acc_z gyro_x gyro_y gyro_z] in *.
    unfold decode_imu. read_slices. by rewrite !le_val_bytes by done.
Defined.

Lemma length_header_fields h : length (concat (header_fields h)) = HEADER_SIZE.
Proof. cbn [header_fields concat]. by rewrite !length_app, !length_be_bytes. Qed.

(** Consecutive stores extend the meaningful prefix of the buffer. *)
Lemma store_fields_extend fs off buf pre :
  off = length pre -> take off buf = pre -> (off + length (concat fs) <= length buf)%nat ->
  ∃ buf', store_fields off fs buf = Some buf' ∧ length buf' = length buf ∧
          take (off + length (concat fs)) buf' = pre ++ concat fs.
Proof.
  revert off buf pre; induction fs as [| f fs IH]; intros off buf pre Ho Ht Hl; cbn [store_fields concat] in *.
  - exists buf. cbn [length]. rewrite Nat.add_0_r, app_nil_r. done.
  - rewrite length_app in Hl. destruct (blit_extend off f buf pre) as (b & E & L & T); [done | done | lia |].
    rewrite E. cbn [mbind option_bind].
    destruct (IH (off + length f)%nat b (pre ++ f)) as (b' & E' & L' & T');
      [rewrite length_app; lia | done | lia |].
    exists b'. rewrite E', length_app, Nat.add_assoc, T', <- app_assoc. split_and!; [done | lia | done].
Qed.

Section Loop.
Context {A : Type} `{SampleCodec A}.

Definition sample_bytes (a : A) : bytes := concat (sample_fields a).

(** The datagram of a header and its samples. *)
Definition packet_of (h : PacketHeader) (g : list A) : bytes :=
  concat (header_fields h) ++ concat (sample_bytes <$> g).

Lemma length_packet_of h g : length (packet_of h g) = (HEADER_SIZE + sample_size * length g)%nat.
Proof.
  unfold packet_of. rewrite length_app, length_header_fields, (length_concat_fixed _ sample_size); [done |].
  apply sample_fields_size.
Qed.

(** The inner loop appends the images of the samples it reads. *)
Lemma pack_loop_spec (src : list A) offset g i packet pre :
  (∀ j x, g !! j = Some x -> src !! Z.to_nat (u32 (offset + Z.of_nat (i + j))) = Some x) ->
  length pre = (HEADER_SIZE + sample_size * i)%nat -> take (HEADER_SIZE + sample_size * i) packet = pre ->
  (HEADER_SIZE + sample_size * (i + length g) <= length packet)%nat ->
  ∃ packet', pack_loop src offset (length g) i packet = Some packet' ∧ length packet' = length packet ∧
    take (HEADER_SIZE + sample_size * (i + length g)) packet' = pre ++ concat (sample_bytes <$> g).
Proof.
  revert i packet pre; induction g as [| a g IH]; intros i packet pre Hsrc Hp Ht Hl; cbn [length pack_loop] in *.
  - exists packet. rewrite Nat.add_0_r. cbn. by rewrite app_nil_r.
  - pose proof (Hsrc 0%nat a eq_refl) as E0. rewrite Nat.add_0_r in E0. rewrite E0. cbn [mbind option_bind].
    destruct (store_fields_extend (sample_fields a) (HEADER_SIZE + sample_size * i) packet pre)
      as (b & E & L & T); [done | done | rewrite sample_fields_size; lia |].
    rewrite E. cbn [mbind option_bind]. rewrite sample_fields_size in T.
    replace (HEADER_SIZE + sample_size * i + sample_size)%nat with (HEADER_SIZE + sample_size * S i)%nat in T by lia.
    destruct (IH (S i) b (pre ++ sample_bytes a)) as (b' & E' & L' & T').
    + intros j x Hj. replace (S i + j)%nat with (i + S j)%nat by lia. by apply Hsrc.
    + rewrite length_app, Hp. unfold sample_bytes. rewrite sample_fields_size. lia.
    + done.
    + lia.
    + exists b'. split_and!; [done | lia |].
      replace (i + S (length g))%nat with (S i + length g)%nat by lia.
      rewrite T', <- app_assoc. done.
Qed.

(** One packet, built over whatever the buffer holds. *)
Lemma build_packet (src : list A) offset g h packet :
  (∀ j x, g !! j = Some x -> src !! Z.to_nat (u32 (offset + Z.of_nat j)) = Some x) ->
  (length g <= MAX_PER_PACKET)%nat -> length packet = MAX_UDP_PAYLOAD ->
  ∃ p1 p2, store_fields 0 (header_fields h) packet = Some p1 ∧
    pack_loop src offset (length g) 0 p1 = Some p2 ∧ length p2 = MAX_UDP_PAYLOAD ∧
    take (HEADER_SIZE + length g * sample_size) p2 = packet_of h g.
Proof.
  intros Hsrc Hg Hl. pose proof sample_size_range as Hs.
  assert (Hm : (length g * sample_size <= MAX_UDP_PAYLOAD - HEADER_SIZE)%nat).
  { etransitivity; [apply Nat.mul_le_mono_r, Hg |]. unfold MAX_PER_PACKET.
    rewrite Nat.mul_comm. apply Nat.Div0.mul_div_le. }
  unfold MAX_UDP_PAYLOAD, HEADER_SIZE in *.
  destruct (store_fields_extend (header_fields h) 0 packet []) as (p1 & E1 & L1 & T1);
    [done | apply take_0 | rewrite length_header_fields; unfold HEADER_SIZE; lia |].
  rewrite length_header_fields in T1. cbn [Nat.add app] in T1.
  destruct (pack_loop_spec src offset g 0 p1 (concat (header_fields h))) as (p2 & E2 & L2 & T2);
    [done | rewrite length_header_fields; lia | by rewrite Nat.mul_0_r, Nat.add_0_r | unfold HEADER_SIZE; lia |].
  exists p1, p2. split_and!; [done | done | lia |].
  rewrite Nat.mul_comm. exact T2.
Qed.

(** The datagrams of consecutive groups, the last number sent being [seq]. *)
Fixpoint packets (mk : Z -> Z -> PacketHeader) (seq : Z) (gs : list (list A)) : list bytes :=
  match gs with
  | [] => []
  | g :: gs => packet_of (mk (u16 (seq + 1)) (Z.of_nat (length g))) g :: packets mk (u16 (seq + 1)) gs
  end.

Lemma MAX_PER_PACKET_range : (0 < MAX_PER_PACKET <= 1454)%nat.
Proof.
  pose proof sample_size_range as Hs. unfold MAX_PER_PACKET, MAX_UDP_PAYLOAD, HEADER_SIZE in *.
  split; [apply Nat.div_str_pos; lia |]. apply Nat.Div0.div_le_upper_bound. nia.
Qed.

(** With as much fuel as there are samples the loop ends, and sends the samples
    in groups of [MAX_PER_PACKET]. *)
Lemma send_loop_spec mk (src : list A) fuel seq rest offset packet :
  in_u 16 seq -> 0 <= offset -> offset + Z.of_nat (length rest) < 2 ^ 32 ->
  (∀ j x, rest !! j = Some x -> src !! (Z.to_nat offset + j)%nat = Some x) ->
  (length rest <= fuel)%nat -> length packet = MAX_UDP_PAYLOAD ->
  send_loop mk src fuel seq (Z.of_nat (length rest)) offset packet =
    Some (u16 (seq + Z.of_nat (length (chunks_fuel fuel MAX_PER_PACKET rest))),
          packets mk seq (chunks_fuel fuel MAX_PER_PACKET rest)).
Proof.
  pose proof MAX_PER_PACKET_range as HM.
  revert seq rest offset packet. induction fuel as [| fuel IH]; intros seq rest offset packet Hs Ho Hb Hsrc Hf Hl.
  - destruct rest; cbn [length] in *; [| lia]. cbn. by rewrite Z.add_0_r, uwrap_id.
  - destruct rest as [| a rest']; [change (Some (seq, []) = Some (u16 (seq + 0), @nil bytes)); by rewrite Z.add_0_r, uwrap_id by done |].
    set (rest := a :: rest') in *. assert (Hn : (0 < length rest)%nat) by (cbn; lia).
    cbn [send_loop]. rewrite (proj2 (Z.eqb_neq _ 0)) by lia.
    set (g := take MAX_PER_PACKET rest).
    assert (Hg : length g = Nat.min MAX_PER_PACKET (length rest)) by (unfold g; rewrite length_take; lia).
    replace (if Z.of_nat MAX_PER_PACKET <? Z.of_nat (length rest) then Z.of_nat MAX_PER_PACKET
             else Z.of_nat (length rest)) with (Z.of_nat (length g))
      by (destruct (Z.ltb_spec (Z.of_nat MAX_PER_PACKET) (Z.of_nat (length rest))); lia).
    rewrite (uwrap_id 16 (Z.of_nat (length g))), Nat2Z.id by (unfold in_u; lia).
    destruct (build_packet src offset g (mk (u16 (seq + 1)) (Z.of_nat (length g))) packet)
      as (p1 & p2 & E1 & E2 & L2 & T2); [| lia | done |].
    { intros j x Hj. assert (Hj' := Hj). unfold g in Hj'. apply lookup_take_Some in Hj' as [Hj' _].
      pose proof (lookup_lt_Some _ _ _ Hj'). rewrite uwrap_id by (unfold in_u; lia).
      replace (Z.to_nat (offset + Z.of_nat j)) with (Z.to_nat offset + j)%nat by lia. by apply Hsrc. }
    rewrite E1. cbn [mbind option_bind]. rewrite E2. cbn [mbind option_bind]. rewrite T2.
    assert (Hd : length (drop MAX_PER_PACKET rest) = (length rest - length g)%nat)
      by (rewrite length_drop; lia).
    rewrite (uwrap_id 32), (uwrap_id 32) by (unfold in_u; lia).
    replace (Z.of_nat (length rest) - Z.of_nat (length g)) with (Z.of_nat (length (drop MAX_PER_PACKET rest)))
      by (rewrite Hd; lia).
    rewrite IH; [| apply uwrap_in; lia | lia | lia | | lia | done].
    + cbn [chunks_fuel rest packets length]. fold rest. fold g. cbn [mbind option_bind].
      f_equal. f_equal. rewrite FilteredProps.u16_add_idemp. f_equal. lia.
    + intros j x Hj. rewrite lookup_drop in Hj.
      destruct (decide (length rest <= MAX_PER_PACKET)%nat) as [Hle |].
      { apply lookup_lt_Some in Hj. lia. }
      replace (Z.to_nat (offset + Z.of_nat (length g)) + j)%nat
        with (Z.to_nat offset + (MAX_PER_PACKET + j))%nat by lia. by apply Hsrc.
Qed.

(** A loop that ends has found every sample it was to send in the array. *)
Lemma pack_loop_reads (src : list A) offset n i packet packet' :
  pack_loop src offset n i packet = Some packet' -> (0 < n)%nat -> 0 <= offset ->
  offset + Z.of_nat (i + n) <= 2 ^ 32 -> (Z.to_nat offset + i + n <= length src)%nat.
Proof.
  revert i packet; induction n as [| n IH]; intros i packet E Hn Ho Hb; [lia |]. cbn [pack_loop] in E.
  apply bind_Some in E as (x & Ex & E). apply bind_Some in E as (packet1 & _ & E).
  rewrite uwrap_id in Ex by (unfold in_u; lia). apply lookup_lt_Some in Ex.
  destruct (decide (n = 0%nat)) as [-> | Hz]; [lia |]. apply IH in E; lia.
Qed.

Lemma send_loop_reads mk (src : list A) fuel seq remaining offset packet r :
  send_loop mk src fuel seq remaining offset packet = Some r -> 0 < remaining -> 0 <= offset ->
  offset + remaining < 2 ^ 32 -> offset + remaining <= Z.of_nat (length src).
Proof.
  pose proof MAX_PER_PACKET_range as HM.
  revert seq remaining offset packet r; induction fuel as [| fuel IH]; intros seq remaining offset packet r E Hr Ho Hb;
    cbn [send_loop] in E; rewrite (proj2 (Z.eqb_neq _ 0)) in E by lia; [done |].
  set (n := if Z.of_nat MAX_PER_PACKET <? remaining then Z.of_nat MAX_PER_PACKET else remaining) in E.
  assert (Hn : 0 < n <= remaining)
    by (unfold n; destruct (Z.ltb_spec (Z.of_nat MAX_PER_PACKET) remaining); lia).
  apply bind_Some in E as (p1 & _ & E). apply bind_Some in E as (p2 & E2 & E).
  apply bind_Some in E as ([seq' out] & E3 & _).
  apply pack_loop_reads in E2; [| lia | lia | lia].
  rewrite (uwrap_id 32 (remaining - n)), (uwrap_id 32 (offset + n)) in E3 by (unfold in_u; lia).
  destruct (decide (remaining = n)) as [Heq | Hne]; [lia |]. apply IH in E3; lia.
Qed.

Definition header_ok (h : PacketHeader) : Prop :=
  in_u 16 (sequence_id h) ∧ in_u 32 (timestamp_sec h) ∧ in_u 32 (timestamp_nsec h) ∧ in_u 32 (handle h) ∧
  in_u 8 (dev_type h) ∧ in_u 8 (hdr_data_type h) ∧ in_u 16 (count h).

Lemma decode_header_fields h k : header_ok h -> decode_header (concat (header_fields h) ++ k) = h.
Proof.
  destruct h. intros (? & ? & ? & ? & ? & ? & ?).
  cbn [header_fields concat sequence_id timestamp_sec timestamp_nsec handle dev_type hdr_data_type count] in *.
  change [u8 ?z] with (be_bytes 1 z). unfold decode_header. rewrite <- !app_assoc. read_slices.
  by rewrite !be_val_bytes by done.
Qed.

Lemma decode_packet_of h (g : list A) :
  header_ok h -> count h = Z.of_nat (length g) -> Forall sample_ok g ->
  decode_packet (packet_of h g) = (h, sample_image <$> g).
Proof.
  intros Hh Hc Hg. unfold decode_packet, packet_of. rewrite decode_header_fields by done. f_equal.
  rewrite Hc, Nat2Z.id, drop_app_length' by by rewrite length_header_fields.
  apply list_eq. intros i. rewrite !list_lookup_fmap. destruct (g !! i) as [x |] eqn:E.
  - rewrite lookup_seq_lt by by eapply lookup_lt_Some. cbn [fmap option_fmap option_map Nat.add].
    rewrite (slice_concat sample_bytes sample_size g i x); [| apply sample_fields_size | done].
    f_equal. apply sample_decode_fields. rewrite Forall_lookup in Hg. by eapply Hg.
  - rewrite lookup_seq_ge; [done |]. by apply lookup_ge_None.
Qed.

(** What it means that the samples [src] were forwarded: what was sent decodes
    to their images in order, under headers with consecutive numbers after
    [seq] and true counts; no datagram exceeds the payload limit, and all but
    the last are as full as it allows. *)
Definition forwarded (mk : Z -> Z -> PacketHeader) (seq : Z) (src : list A) (r : option (Z * list bytes)) : Prop :=
  ∃ sent, r = Some (u16 (seq + Z.of_nat (length sent)), sent) ∧
    concat (snd <$> (decode_packet <$> sent)) = sample_image <$> src ∧
    fst <$> (decode_packet <$> sent) =
      zip_with mk (FilteredProps.numbers (u16 (seq + 1)) (length sent))
        ((fun b => Z.of_nat (length (snd (decode_packet b)))) <$> sent) ∧
    Forall (fun b => HEADER_SIZE + sample_size <= length b <= MAX_UDP_PAYLOAD)%nat sent ∧
    Forall (fun b => length (snd (decode_packet b)) = MAX_PER_PACKET) (removelast sent).

Section Decoded.
Context (mk : Z -> Z -> PacketHeader).
Hypothesis mk_ok : ∀ s n, in_u 16 s -> in_u 16 n -> header_ok (mk s n) ∧ count (mk s n) = n.

Lemma decode_packets seq gs :
  Forall (Forall sample_ok) gs -> Forall (fun g : list A => (length g <= MAX_PER_PACKET)%nat) gs ->
  fst <$> (decode_packet <$> packets mk seq gs) =
    zip_with mk (FilteredProps.numbers (u16 (seq + 1)) (length gs)) ((Z.of_nat ∘ length) <$> gs) ∧
  snd <$> (decode_packet <$> packets mk seq gs) = fmap sample_image <$> gs.
Proof.
  pose proof MAX_PER_PACKET_range as HM.
  revert seq; induction gs as [| g gs IH]; intros seq Hok Hl; [done |].
  inversion_clear Hok; inversion_clear Hl. cbn [packets length fmap list_fmap].
  destruct (mk_ok (u16 (seq + 1)) (Z.of_nat (length g))) as [Hh Hc];
    [apply uwrap_in; lia | unfold in_u; lia |].
  rewrite FilteredProps.numbers_S by (apply uwrap_in; lia). cbn [zip_with].
  rewrite decode_packet_of by done. cbn [fst snd].
  destruct (IH (u16 (seq + 1))) as [E1 E2]; [done | done |]. split; f_equal; [exact E1 | exact E2].
Qed.

Lemma length_packets seq gs : length (packets mk seq gs) = length gs.
Proof. revert seq; induction gs as [| g gs IH]; intros; cbn; [done | by rewrite IH]. Qed.

Lemma packets_lengths seq gs :
  length <$> packets mk seq gs = (fun g : list A => (HEADER_SIZE + sample_size * length g)%nat) <$> gs.
Proof.
  revert seq; induction gs as [| g gs IH]; intros; cbn [packets fmap list_fmap]; [done |].
  rewrite length_packet_of. f_equal. apply IH.
Qed.

(** The sample counts a client sees. *)
Lemma decoded_counts seq gs :
  Forall (Forall sample_ok) gs -> Forall (fun g : list A => (length g <= MAX_PER_PACKET)%nat) gs ->
  (fun b => length (snd (decode_packet b))) <$> packets mk seq gs = length <$> gs.
Proof.
  intros Hok Hl. destruct (decode_packets seq gs Hok Hl) as [_ E].
  apply (f_equal (fmap length)) in E. rewrite <- !list_fmap_compose in E.
  etransitivity; [exact E |]. apply list_fmap_ext. intros i g _. apply length_fmap.
Qed.

(** The loop forwards the samples. *)
Lemma send_loop_forwards seq (src pts : list A) junk :
  in_u 16 seq -> Z.of_nat (length pts) < 2 ^ 32 -> (∃ tl, src = pts ++ tl) ->
  Forall sample_ok pts -> length junk = MAX_UDP_PAYLOAD ->
  forwarded mk seq pts (send_loop mk src (length pts) seq (Z.of_nat (length pts)) 0 junk).
Proof.
  intros Hs Hb [tl ->] Hok Hj. pose proof MAX_PER_PACKET_range as HM.
  set (gs := chunks_fuel (length pts) MAX_PER_PACKET pts).
  assert (Hc : concat gs = pts) by (apply chunks_fuel_concat; lia).
  assert (Hok' : Forall (Forall sample_ok) gs) by (apply Forall_concat; by rewrite Hc).
  assert (Hlen : Forall (fun g => (length g <= MAX_PER_PACKET)%nat) gs) by apply chunks_fuel_length.
  assert (Hne : Forall (fun g => (1 <= length g)%nat) gs) by (apply chunks_fuel_nonempty; lia).
  pose proof (decoded_counts seq gs Hok' Hlen) as Hcnt.
  destruct (decode_packets seq gs Hok' Hlen) as [Ef Es].
  exists (packets mk seq gs). rewrite length_packets. split_and!.
  - apply send_loop_spec; [done | lia | lia | | lia | done].
    intros j x Hj'. cbn. by apply lookup_app_l_Some.
  - rewrite Es. transitivity (sample_image <$> concat gs); [symmetry; apply concat_map | by rewrite Hc].
  - rewrite Ef. f_equal. rewrite list_fmap_compose, <- Hcnt, <- list_fmap_compose. done.
  - apply FilteredProps.Forall_lengths with (P := fun n => (HEADER_SIZE + sample_size <= n <= MAX_UDP_PAYLOAD)%nat).
    rewrite packets_lengths, Forall_fmap. apply Forall_forall. intros g Hg.
    rewrite Forall_forall in Hlen, Hne. specialize (Hlen g Hg). specialize (Hne g Hg). cbn [compose].
    assert (sample_size * MAX_PER_PACKET <= MAX_UDP_PAYLOAD - HEADER_SIZE)%nat by apply Nat.Div0.mul_div_le.
    pose proof sample_size_range. nia.
  - assert (Hfull : Forall (fun n => n = MAX_PER_PACKET) (length <$> removelast gs))
      by (rewrite Forall_fmap; apply chunks_fuel_full).
    rewrite <- removelast_fmap, <- Hcnt, removelast_fmap, Forall_fmap in Hfull. exact Hfull.
Qed.
End Decoded.
End Loop.

(** ** Theorems on the callbacks *)

Lemma make_header_ok {A} (d : EthernetPacket A) h dev s n :
  in_u 32 h -> in_u 8 dev -> in_u 8 (data_type d) -> in_u 16 s -> in_u 16 n ->
  header_ok (make_header h dev d s n) ∧ count (make_header h dev d s n) = n.
Proof.
  intros. unfold header_ok, make_header. cbn [sequence_id timestamp_sec timestamp_nsec handle dev_type hdr_data_type count].
  split_and!; try done; apply uwrap_in; lia.
Qed.

(** The time stamp survives until 2106, when its seconds exceed 32 bits. *)
Lemma timestamp_split ts :
  bytes_ok ts -> le_val ts < 2 ^ 32 * 1000000000 -> ts_sec ts * 1000000000 + ts_nsec ts = le_val ts.
Proof.
  intros Hb Ht. pose proof (proj1 (le_val_range ts Hb)). unfold ts_sec, ts_nsec.
  pose proof (Z.mod_pos_bound (le_val ts) 1000000000 ltac:(lia)).
  pose proof (Z.div_mod (le_val ts) 1000000000 ltac:(lia)).
  assert (le_val ts / 1000000000 < 2 ^ 32) by (apply Z.div_lt_upper_bound; lia).
  assert (0 <= le_val ts / 1000000000) by (apply Z.div_pos; lia).
  rewrite !uwrap_id by (unfold in_u; lia). lia.
Qed.

(** *** Samples in the payload *)
Section Stores.
Context {A : Type} {struct : SdkStruct A}.

(** The payload holds the objects [pts] one after the other, and possibly more
    bytes behind them. *)
Definition stores (payload : bytes) (pts : list A) : Prop :=
  ∃ images rest, payload = concat images ++ rest ∧
    Forall2 (fun image p => length image = sizeof ∧ load image = p) images pts.

Lemma length_cast payload : length (cast (A := A) payload) = Nat.div (length payload) sizeof.
Proof. unfold cast. by rewrite length_fmap, length_seq. Qed.

Lemma cast_cons image payload :
  length image = sizeof -> cast (image ++ payload) = load image :: cast (A := A) payload.
Proof.
  intros Hi. pose proof sizeof_pos. unfold cast. rewrite length_app, Hi.
  pose proof (Nat.div_add_l 1 sizeof (length payload) ltac:(lia)) as Ed. rewrite Nat.mul_1_l in Ed. rewrite Ed.
  change (1 + length payload / sizeof)%nat with (S (length payload / sizeof)).
  rewrite <- cons_seq, fmap_cons. f_equal.
  - rewrite Nat.mul_0_r. by rewrite slice_all.
  - rewrite <- fmap_S_seq, <- list_fmap_compose. apply list_fmap_ext. intros i x _. cbn [compose].
    rewrite slice_skip by lia. do 2 f_equal. lia.
Qed.

(** The array of the cast starts with the objects that are stored. *)
Lemma cast_stores payload pts : stores payload pts -> ∃ tl, cast payload = pts ++ tl.
Proof.
  intros (images & rest & -> & Hi). exists (cast rest).
  induction Hi as [| image p images pts [Hl Hp] _ IH]; [done |].
  cbn [concat app]. rewrite <- app_assoc, cast_cons by done. by rewrite Hp, IH.
Qed.
End Stores.

(** [LivoxLidarCartesianLowRawPoint]: 16-bit coordinates. *)
Record LowRawPoint := { low_x : Z; low_y : Z; low_z : Z }.

(** The point-cloud callback on a packet of either data type. *)
Section Points.
Context {hi : SdkStruct RawPoint}.
Context (K_hi K_lo seq h dev : Z) (junk : bytes) (d : EthernetPacket Z).
Context (Hj : length junk = MAX_UDP_PAYLOAD) (Hs : in_u 16 seq) (Hh : in_u 32 h) (Hdev : in_u 8 dev).
Context (Ht : data_type d = K_hi ∨ data_type d = K_lo) (Hn : in_u 32 (dot_num d)).

Lemma PointCloudCallback_accepts :
  PointCloudCallback K_hi K_lo true seq junk h dev (Some d) =
  send_loop (make_header h dev d) (cast (A := RawPoint) (dots d)) (Z.to_nat (dot_num d)) seq (dot_num d) 0 junk.
Proof.
  unfold PointCloudCallback. cbn [negb].
  by replace (negb (data_type d =? K_hi) && negb (data_type d =? K_lo)) with false
    by (destruct Ht as [-> | ->]; by rewrite Z.eqb_refl, ?andb_false_r).
Qed.

Lemma point_packet_forwarded pts :
  in_u 8 (data_type d) -> dot_num d = Z.of_nat (length pts) -> stores (dots d) pts ->
  forwarded (make_header h dev d) seq pts (PointCloudCallback K_hi K_lo true seq junk h dev (Some d)).
Proof.
  intros Ht8 E Hst. rewrite PointCloudCallback_accepts, E, Nat2Z.id. apply send_loop_forwards; try done.
  - intros; by apply make_header_ok.
  - rewrite <- E. apply Hn.
  - by apply cast_stores.
  - apply Forall_forall. done.
Qed.

(** A payload too short for [dot_num] high-resolution points is left. *)
Lemma short_payload_fails :
  0 < dot_num d -> Z.of_nat (length (dots d)) < Z.of_nat (sizeof (A := RawPoint)) * dot_num d ->
  PointCloudCallback K_hi K_lo true seq junk h dev (Some d) = None.
Proof.
  intros Hpos Hlen. rewrite PointCloudCallback_accepts.
  destruct (send_loop _ _ _ _ _ _ _) as [r |] eqn:E; [exfalso | done].
  apply send_loop_reads in E; [| done | lia | apply Hn]. rewrite length_cast in E.
  pose proof (Nat.Div0.mul_div_le (length (dots d)) (sizeof (A := RawPoint))). pose proof (sizeof_pos (A := RawPoint)). nia.
Qed.
End Points.

(** C7. While a client is known, the two callbacks of the full service terminate
    and behave as follows.  A high-resolution point packet whose payload stores
    [dot_num] points, and an IMU packet whose payload stores [dot_num] samples,
    are forwarded whole, without an access outside the 1472-byte array or the
    payload: decoded by a client, the datagrams give all the points (cut to 16
    bits) or IMU samples in order, under headers that carry consecutive 16-bit
    numbers, the LiDAR's time stamp, handle and types, and the true sample
    count; no datagram exceeds the MTU payload, all but the last are full.  A
    low-resolution packet is accepted too, but its bytes are read as
    high-resolution points: what is forwarded is the high-resolution points that
    the payload and the memory behind it happen to store; and when the payload is
    just its [dot_num] low-resolution points, which are smaller, the callback
    reads outside it. *)
Theorem full_forwarding {hi : SdkStruct RawPoint} {lo : SdkStruct LowRawPoint} {im : SdkStruct ImuRawPoint}
    K_hi K_lo seq junk h dev :
  length junk = MAX_UDP_PAYLOAD -> in_u 16 seq -> in_u 32 h -> in_u 8 dev -> in_u 8 K_hi -> in_u 8 K_lo ->
  (∀ d (pts : list RawPoint), data_type d = K_hi -> in_u 32 (dot_num d) ->
     dot_num d = Z.of_nat (length pts) -> stores (dots d) pts ->
     forwarded (make_header h dev d) seq pts
       (PointCloudCallback K_hi K_lo true seq junk h dev (Some d))) ∧
  (∀ d (pts : list ImuRawPoint), in_u 8 (data_type d) -> in_u 32 (dot_num d) ->
     dot_num d = Z.of_nat (length pts) -> stores (dots d) pts -> Forall imu_ok pts ->
     forwarded (make_header h dev d) seq pts (ImuDataCallback true seq junk h dev (Some d))) ∧
  (∀ d (lows : list LowRawPoint), data_type d = K_lo -> in_u 32 (dot_num d) ->
     dot_num d = Z.of_nat (length lows) -> stores (dots d) lows ->
     (∀ pts : list RawPoint, length pts = length lows -> stores (dots d) pts ->
        forwarded (make_header h dev d) seq pts
          (PointCloudCallback K_hi K_lo true seq junk h dev (Some d))) ∧
     (lows ≠ [] -> (sizeof (A := LowRawPoint) < sizeof (A := RawPoint))%nat ->
      length (dots d) = (sizeof (A := LowRawPoint) * length lows)%nat ->
        PointCloudCallback K_hi K_lo true seq junk h dev (Some d) = None)).
Proof.
  intros Hj Hs Hh Hd Hhi Hlo. split_and!.
  - intros d pts Ht Hn E Hst. apply point_packet_forwarded; auto. by rewrite Ht.
  - intros d pts Ht8 Hn E Hst Hok. unfold ImuDataCallback. cbn [negb]. rewrite E, Nat2Z.id.
    apply send_loop_forwards; try done; [intros; by apply make_header_ok | rewrite <- E; apply Hn | by apply cast_stores].
  - intros d lows Ht Hn E Hst. split.
    + intros pts El Hst'. apply point_packet_forwarded; auto; [by rewrite Ht | by rewrite El].
    + intros Hne Hsz Hlen. destruct lows; [done |]. cbn [length] in *. apply short_payload_fails; auto; nia.
Qed.

(** *** The documented layouts of the SDK, for the concrete packets below *)
Definition i32_at (off : nat) (b : bytes) : Z := i32 (le_val (slice off 4 b)).
Definition i16_at (off : nat) (b : bytes) : Z := i16 (le_val (slice off 2 b)).

(** Three [int32_t], reflectivity and tag. *)
Definition high_struct : SdkStruct RawPoint :=
  {| sizeof := 14; load b := {| px := i32_at 0 b; py := i32_at 4 b; pz := i32_at 8 b |};
     sizeof_pos := Nat.lt_0_succ 13 |}.

(** Three [int16_t], reflectivity and tag. *)
Definition low_struct : SdkStruct LowRawPoint :=
  {| sizeof := 8; load b := {| low_x := i16_at 0 b; low_y := i16_at 2 b; low_z := i16_at 4 b |};
     sizeof_pos := Nat.lt_0_succ 7 |}.

(** Six floats, angular velocities first. *)
Definition imu_struct : SdkStruct ImuRawPoint :=
  {| sizeof := 24;
     load b := {| gyro_x := le_val (slice 0 4 b); gyro_y := le_val (slice 4 4 b); gyro_z := le_val (slice 8 4 b);
                  acc_x := le_val (slice 12 4 b); acc_y := le_val (slice 16 4 b); acc_z := le_val (slice 20 4 b) |};
     sizeof_pos := Nat.lt_0_succ 23 |}.

Definition high_image (p : RawPoint) : bytes :=
  le_bytes 4 (u32 (px p)) ++ le_bytes 4 (u32 (py p)) ++ le_bytes 4 (u32 (pz p)) ++ [50; 0].

Definition sample_points : EthernetPacket Z :=
  {| data_type := 1; dot_num := 3; timestamp := le_bytes 8 1700000000123456789;
     dots := concat (high_image <$> dots FilteredProps.sample_packet) |}.

Definition imu_sample : ImuRawPoint :=
  {| gyro_x := 1; gyro_y := 2; gyro_z := 3; acc_x := 1065353216; acc_y := 5; acc_z := 6 |}.

Definition imu_image (p : ImuRawPoint) : bytes :=
  concat (le_bytes 4 <$> [gyro_x p; gyro_y p; gyro_z p; acc_x p; acc_y p; acc_z p]).

Definition sample_imu : EthernetPacket Z :=
  {| data_type := 0; dot_num := 1; timestamp := le_bytes 8 1700000000123456789; dots := imu_image imu_sample |}.

Definition low_image (p : LowRawPoint) : bytes :=
  i16_bytes (low_x p) ++ i16_bytes (low_y p) ++ i16_bytes (low_z p) ++ [50; 0].

Definition low_points : list LowRawPoint :=
  [{| low_x := 100; low_y := 200; low_z := 300 |}; {| low_x := 400; low_y := 500; low_z := 600 |}].

(** A packet of two low-resolution points, and [rest] behind it. *)
Definition sample_low (rest : bytes) : EthernetPacket Z :=
  {| data_type := 2; dot_num := 2; timestamp := le_bytes 8 0; dots := concat (low_image <$> low_points) ++ rest |}.

(** Its two points reach the client as two others, made of the bytes of several. *)
Lemma low_points_misread :
  fst <$> PointCloudCallback (LivoxLidarCartesianHighRawPoint := high_struct) 1 2 true 0 (replicate 1472 170) 7 9
    (Some (sample_low (replicate 12 0))) = Some 1 ∧
  (snd ∘ decode_packet (A := RawPoint) <$>
    default [] (snd <$> PointCloudCallback (LivoxLidarCartesianHighRawPoint := high_struct) 1 2 true 0
                  (replicate 1472 170) 7 9 (Some (sample_low (replicate 12 0))))) =
  [[{| px := 100; py := 300; pz := 400 |}; {| px := 50; py := 0; pz := 0 |}]].
Proof. by vm_compute. Qed.

Lemma full_forwarding_witness :
  forwarded (make_header 7 9 sample_points) 65535 (dots FilteredProps.sample_packet)
    (PointCloudCallback (LivoxLidarCartesianHighRawPoint := high_struct) 1 2 true 65535 (replicate 1472 170) 7 9
       (Some sample_points)) ∧
  forwarded (make_header 7 9 sample_imu) 65535 [imu_sample]
    (ImuDataCallback (LivoxLidarImuRawPoint := imu_struct) true 65535 (replicate 1472 170) 7 9 (Some sample_imu)) ∧
  PointCloudCallback (LivoxLidarCartesianHighRawPoint := high_struct) 1 2 true 65535 (replicate 1472 170) 7 9
    (Some (sample_low [])) = None ∧
  ImuDataCallback (LivoxLidarImuRawPoint := imu_struct) true 65535 (replicate 1472 170) 7 9 (Some sample_imu) =
    Some (0, [[0; 0; 101; 83; 241; 0; 7; 91; 205; 21; 0; 0; 0; 7; 9; 0; 0; 1;
               0; 0; 128; 63; 5; 0; 0; 0; 6; 0; 0; 0; 1; 0; 0; 0; 2; 0; 0; 0; 3; 0; 0; 0]]).
Proof.
  destruct (full_forwarding (hi := high_struct) (lo := low_struct) (im := imu_struct)
              1 2 65535 (replicate 1472 170) 7 9) as (Hp & Hi & Hl);
    [done | by vm_compute | by vm_compute | by vm_compute | by vm_compute | by vm_compute |].
  split_and!.
  - apply Hp; [done | by vm_compute | done |].
    exists (high_image <$> dots FilteredProps.sample_packet), []. split; [by vm_compute |].
    repeat constructor; by vm_compute.
  - apply Hi; [by vm_compute | by vm_compute | done | | apply Forall_singleton; unfold imu_ok; split_and!; by vm_compute].
    exists [imu_image imu_sample], []. split; [by vm_compute |]. repeat constructor; by vm_compute.
  - destruct (Hl (sample_low []) low_points) as [_ Hnone]; [done | by vm_compute | done | |].
    + exists (low_image <$> low_points), []. split; [by vm_compute |]. repeat constructor; by vm_compute.
    + apply Hnone; [done | apply Nat.ltb_lt; by vm_compute | by vm_compute].
  - by vm_compute.
Defined.

(** ** The key-value records of an information response *)
Module Query.
Section Query.
Context (ok kPoint kImu : Z).

(** A record: key and value; its image in the response. *)
Definition kv_bytes (kv : Z * bytes) : bytes :=
  le_bytes 2 (fst kv) ++ le_bytes 2 (Z.of_nat (length (snd kv))) ++ snd kv.

Definition cfg_of (v : bytes) : HostCfg :=
  {| ipaddr := slice 0 4 v; host_port := le_val (slice 4 2 v); lidar_port := le_val (slice 6 2 v) |}.

(** The specification: the last record of each key. *)
Definition scan (acc : HostCfg * HostCfg) (kv : Z * bytes) : HostCfg * HostCfg :=
  if fst kv =? kPoint then (cfg_of (snd kv), acc.2)
  else if fst kv =? kImu then (acc.1, cfg_of (snd kv)) else acc.

(** A well-formed record: an address record has at least eight bytes. *)
Definition kv_ok (kv : Z * bytes) : Prop :=
  in_u 16 (fst kv) ∧ Z.of_nat (length (snd kv)) < 65536 ∧
  (fst kv = kPoint ∨ fst kv = kImu -> (8 <= length (snd kv))%nat).

Lemma length_kv_bytes kv : length (kv_bytes kv) = (4 + length (snd kv))%nat.
Proof. unfold kv_bytes. by rewrite !length_app, !length_le_bytes. Qed.

(** A read inside the record that follows [pre]. *)
Lemma peek_at pre b rest i n :
  (i + n <= length b)%nat -> peek (pre ++ b ++ rest) (length pre + i) n = Some (slice i n b).
Proof.
  intros Hl. unfold peek. rewrite (proj2 (Nat.leb_le _ _)) by (rewrite !length_app; lia). f_equal.
  rewrite slice_skip by lia. replace (length pre + i - length pre)%nat with i by lia.
  unfold slice. rewrite drop_app_le by lia. rewrite take_app_le; [done |]. rewrite length_drop. lia.
Qed.

Lemma slice_value n i kv : slice (4 + i) n (kv_bytes kv) = slice i n (snd kv).
Proof.
  unfold kv_bytes. rewrite !slice_skip by (rewrite ?length_le_bytes; lia). rewrite !length_le_bytes.
  by replace (4 + i - 2 - 2)%nat with i by lia.
Qed.

Lemma read_cfg_at pre kv rest :
  (8 <= length (snd kv))%nat ->
  read_cfg (pre ++ kv_bytes kv ++ rest) (length pre) = Some (cfg_of (snd kv)).
Proof.
  intros Hl. unfold read_cfg.
  rewrite (peek_at pre _ rest 4 4), (peek_at pre _ rest 8 2), (peek_at pre _ rest 10 2)
    by (rewrite length_kv_bytes; lia).
  cbn [mbind option_bind]. unfold cfg_of.
  pose proof (slice_value 4 0 kv) as E0. pose proof (slice_value 2 4 kv) as E4. pose proof (slice_value 2 6 kv) as E6.
  cbn [Nat.add] in E0, E4, E6. by rewrite E0, E4, E6.
Qed.

(** One iteration consumes one record. *)
Lemma kv_step_spec pre kv rest point imu :
  kv_ok kv -> Z.of_nat (length pre + length (kv_bytes kv)) < 65536 ->
  kv_step kPoint kImu (pre ++ kv_bytes kv ++ rest) (Z.of_nat (length pre), point, imu) =
    Some (Z.of_nat (length (pre ++ kv_bytes kv)), (scan (point, imu) kv).1, (scan (point, imu) kv).2).
Proof.
  intros (Hk & Hv & H8) Hlen. unfold kv_step. rewrite Nat2Z.id.
  pose proof (length_kv_bytes kv) as Lkv.
  pose proof (peek_at pre (kv_bytes kv) rest 0 2 ltac:(lia)) as Pk. rewrite Nat.add_0_r in Pk. rewrite Pk.
  rewrite (peek_at pre (kv_bytes kv) rest 2 2) by lia. cbn [mbind option_bind].
  assert (S0 : le_val (slice 0 2 (kv_bytes kv)) = fst kv).
  { unfold kv_bytes. rewrite slice_all by by rewrite length_le_bytes. by apply le_val_bytes. }
  assert (S2 : le_val (slice 2 2 (kv_bytes kv)) = Z.of_nat (length (snd kv))).
  { unfold kv_bytes. rewrite slice_skip by (rewrite length_le_bytes; lia). rewrite length_le_bytes.
    rewrite slice_all by by rewrite length_le_bytes. apply le_val_bytes. unfold in_u. lia. }
  rewrite S0. unfold scan.
  assert (Ho : u16 (u16 (Z.of_nat (length pre) + 4) + le_val (slice 2 2 (kv_bytes kv))) =
               Z.of_nat (length (pre ++ kv_bytes kv))).
  { rewrite S2, FilteredProps.u16_add_idemp, length_app, Lkv, uwrap_id; [lia | unfold in_u; lia]. }
  destruct (Z.eqb_spec (fst kv) kPoint); [| destruct (Z.eqb_spec (fst kv) kImu)].
  - rewrite read_cfg_at by auto. cbn [mbind option_bind]. by rewrite Ho.
  - rewrite read_cfg_at by auto. cbn [mbind option_bind]. by rewrite Ho.
  - cbn [mbind option_bind]. by rewrite Ho.
Qed.

Lemma kv_loop_spec kvs pre rest fuel i n point imu :
  Forall kv_ok kvs -> Z.of_nat (length pre + length (concat (kv_bytes <$> kvs))) < 65536 ->
  n = i + Z.of_nat (length kvs) -> 0 <= i -> n < 256 -> (length kvs < fuel)%nat ->
  ∃ off, kv_loop kPoint kImu fuel (pre ++ concat (kv_bytes <$> kvs) ++ rest) n i
           (Z.of_nat (length pre), point, imu) =
    Some (off, (foldl scan (point, imu) kvs).1, (foldl scan (point, imu) kvs).2).
Proof.
  revert pre fuel i point imu; induction kvs as [| kv kvs IH]; intros pre fuel i point imu Hok Hl Hn Hi Hn' Hf;
    cbn [length fmap list_fmap concat foldl] in *.
  - destruct fuel; cbn [kv_loop]; rewrite (proj2 (Z.ltb_ge _ _)) by lia; by eexists.
  - inversion_clear Hok. rewrite length_app in Hl. destruct fuel as [| fuel]; [lia |]. cbn [kv_loop].
    rewrite (proj2 (Z.ltb_lt _ _)) by lia. rewrite <- (app_assoc (kv_bytes kv)).
    rewrite kv_step_spec by (done || lia). cbn [mbind option_bind].
    rewrite (uwrap_id 8) by (unfold in_u; lia). rewrite app_assoc.
    destruct (IH (pre ++ kv_bytes kv) fuel (i + 1) (scan (point, imu) kv).1 (scan (point, imu) kv).2)
      as (off & E); [done | rewrite length_app; lia | lia | lia | lia | lia |].
    exists off. rewrite E. by rewrite <- surjective_pairing.
Qed.

(** On a response made of at most 255 well-formed records, of less than 64 KiB
    in all, the query callback terminates, reads only bytes of the response and
    reports, for the point-cloud and for the IMU key, the address and ports of
    the last record with that key, or zeros when there is none. *)
Lemma query_reports_last_records kvs rest :
  Forall kv_ok kvs -> (length kvs <= 255)%nat -> Z.of_nat (length (concat (kv_bytes <$> kvs))) < 65536 ->
  QueryInternalInfoCallback ok kPoint kImu ok
    (Some (Z.of_nat (length kvs), concat (kv_bytes <$> kvs) ++ rest)) =
  Some (Some (foldl scan (no_cfg, no_cfg) kvs)).
Proof.
  intros Hok Hn Hl. unfold QueryInternalInfoCallback. rewrite Z.eqb_refl. cbn [negb].
  destruct (kv_loop_spec kvs [] rest 256 0 (Z.of_nat (length kvs)) no_cfg no_cfg) as (off & E);
    [done | done | done | lia | lia | lia |].
  cbn [app length] in E. change (Z.of_nat 0) with 0 in E. rewrite E. cbn [mbind option_bind].
  by rewrite <- surjective_pairing.
Qed.
End Query.

Lemma query_reports_last_records_witness :
  QueryInternalInfoCallback 0 5 6 0
    (Some (2, concat (kv_bytes <$> [(9, [1]); (6, [192; 168; 1; 2; 10; 0; 20; 0])]) ++ [77])) =
  Some (Some (no_cfg, {| ipaddr := [192; 168; 1; 2]; host_port := 10; lidar_port := 20 |})).
Proof.
  pose proof (query_reports_last_records 0 5 6 [(9, [1]); (6, [192; 168; 1; 2; 10; 0; 20; 0])] [77]) as H.
  etransitivity; [apply H | by vm_compute].
  - apply Forall_cons. split; [| apply Forall_singleton]; unfold kv_ok; cbn [fst snd length].
    + split_and!; [by vm_compute | done | intros [? | ?]; done].
    + split_and!; [by vm_compute | done | intros _; lia].
  - cbn. lia.
  - by vm_compute.
Defined.
End Query.

(** ** The statistics lose no call *)

(** A sequence of calls, with the clock and the outcome of the exchange of each;
    the second component is the sum of the printed numbers. *)
Definition count_step (st : stats * Z) (call : Z * bool) : stats * Z :=
  let '(s, printed) := log_stats (fst call) (snd call) (fst st) in
  (s, snd st + default 0 printed).

(** Every call is in the current count or in a printed number. *)
Lemma stats_conserved calls s total :
  0 <= callback_count s -> callback_count s + Z.of_nat (length calls) < 2 ^ 64 ->
  let '(s', total') := foldl count_step (s, total) calls in
  callback_count s' + total' = callback_count s + total + Z.of_nat (length calls).
Proof.
  revert s total; induction calls as [| [now cas] calls IH]; intros s total H0 Hb; cbn [foldl length] in *; [lia |].
  unfold count_step at 2. cbn [fst snd]. unfold log_stats. rewrite uwrap_id by (unfold in_u; lia).
  destruct ((1000 <=? Z.quot (now - last_log_time s) 1000000) && cas).
  - specialize (IH {| callback_count := 0; last_log_time := now |} (total + (callback_count s + 1))).
    cbn [callback_count default from_option id] in *. destruct (foldl count_step _ calls). lia.
  - specialize (IH {| callback_count := callback_count s + 1; last_log_time := last_log_time s |} (total + 0)).
    cbn [callback_count default from_option id] in *. destruct (foldl count_step _ calls). lia.
Qed.
