(* ===== verification/ControlInterface.v ===== *)
(** * The HTTP control interface of the Go2.

    Models [src/example/go2/typego_control_interface.cpp]: the PID controller,
    the [Go2RemoteControl] object and its rotate and move loops, and the dispatch
    of [/control] and [/state] requests.

    Other threads (the state subscriber and the handlers of other requests, other
    rotations and moves included) act on the shared object before and after a
    loop's test of the cancellation flag: an iteration consumes a [tick], which
    lists those actions and gives the clock.  The rest of an iteration, which
    reads the state, updates the controllers and sends one velocity, is one step;
    the data races of the code within it are left out.  The sport client belongs to
    the SDK library: what is sent to it is recorded, its return codes are inputs.
    [sin] and [cos] are parameters. *)

From stdpp Require Export strings pretty.
From S2P Require Import Prelude Floats.

Local Open Scope Z_scope.

(** ** PID *)
Module PID.

Record t := {
  kp : float32; ki : float32; kd : float32; rate : float32; dt : float32;
  last_error : float32; integral : float32; tau : float32;
  filtered_derivative : float32; i_limit : float32; o_limit : float32
}.

(** [init]; [1.0f / (2.0f * M_PI * cutoff_freq)] is computed in double. *)
Definition init (kp ki kd rate cutoff_freq i_limit o_limit : float32) : t :=
  {| kp := kp; ki := ki; kd := kd; rate := rate; dt := F32.div (F32.of_Z 1) rate;
     last_error := fzero; integral := fzero;
     tau := if fgt cutoff_freq fzero
            then F32.of_f64 (F64.div (F64.of_Z 1)
                   (F64.mul (F64.mul (F64.of_Z 2) F64.M_PI) (F64.of_f32 cutoff_freq)))
            else fzero;
     filtered_derivative := fzero; i_limit := i_limit; o_limit := o_limit |}.

(** The derivative filter, the integral and the output of [update]. *)
Definition derivative (p : t) (error : float32) : float32 :=
  let raw_derivative := F32.mul (F32.sub error (last_error p)) (rate p) in
  if fgt (tau p) fzero then
    let alpha := F32.div (dt p) (F32.add (tau p) (dt p)) in
    F32.add (F32.mul (filtered_derivative p) (F32.sub (F32.of_Z 1) alpha)) (F32.mul raw_derivative alpha)
  else raw_derivative.

Definition new_integral (p : t) (error : float32) : float32 :=
  let i := F32.add (integral p) (F32.mul error (dt p)) in
  if fgt (i_limit p) fzero then std_clamp i (fneg (i_limit p)) (i_limit p) else i.

(** The output before the output limit. *)
Definition raw_output (p : t) (error : float32) : float32 :=
  F32.add (F32.add (F32.mul (kp p) error) (F32.mul (kd p) (derivative p error)))
          (F32.mul (ki p) (new_integral p error)).

Definition update (p : t) (error : float32) : float32 * t :=
  let output := raw_output p error in
  let output := if fgt (o_limit p) fzero then std_clamp output (fneg (o_limit p)) (o_limit p) else output in
  (output,
   {| kp := kp p; ki := ki p; kd := kd p; rate := rate p; dt := dt p;
      last_error := error; integral := new_integral p error; tau := tau p;
      filtered_derivative := derivative p error; i_limit := i_limit p; o_limit := o_limit p |}).

Definition reset (p : t) : t :=
  {| kp := kp p; ki := ki p; kd := kd p; rate := rate p; dt := dt p;
     last_error := fzero; integral := fzero; tau := tau p;
     filtered_derivative := fzero; i_limit := i_limit p; o_limit := o_limit p |}.
End PID.

(** ** Go2RemoteControl: data *)

Inductive ExecutionStatus := SUCCESS | TIMEOUT | ERROR.

Definition ExecutionResult : Type := ExecutionStatus * string.

(** The requests of the sport client that are used. *)
Inductive SportCmd :=
| StopMove | Hello | StandDown | RecoveryStand | BalanceStand | Stretch
| Euler (roll pitch yaw : float32)
| Move (vx vy vyaw : float32).

(** What is read of the state message. *)
Record HighState := { position : float32 * float32 * float32; rpy : float32 * float32 * float32 }.

Definition yaw_of (s : HighState) : float64 := F64.of_f32 (rpy s).2.
Definition x_of (s : HighState) : float64 := F64.of_f32 (position s).1.1.
Definition y_of (s : HighState) : float64 := F64.of_f32 (position s).1.2.

(** The object; [sent] is what the sport client was asked so far. *)
Record rc := {
  cancel_flag : bool; high_state : HighState;
  pid_yaw : PID.t; pid_x : PID.t; pid_y : PID.t;
  sent : list SportCmd
}.

Definition pid_yaw_init : PID.t :=
  PID.init (F32.of_Z 10) fzero fzero (F32.of_Z 100) (F32.of_Z 10) (lit32 5 10) (F32.of_Z 2).
Definition pid_xy_init : PID.t :=
  PID.init (F32.of_Z 2) fzero fzero (F32.of_Z 100) (F32.of_Z 10) (lit32 5 10) (F32.of_Z 1).
Definition control_error_yaw : float64 := F64.lit 1 100.
Definition control_error : float64 := F64.lit 5 100.

Definition zero_state : HighState :=
  {| position := (fzero, fzero, fzero); rpy := (fzero, fzero, fzero) |}.

Definition rc_init : rc :=
  {| cancel_flag := false; high_state := zero_state; pid_yaw := pid_yaw_init;
     pid_x := pid_xy_init; pid_y := pid_xy_init; sent := [] |}.

Definition set_cancel (b : bool) (r : rc) : rc :=
  {| cancel_flag := b; high_state := high_state r; pid_yaw := pid_yaw r; pid_x := pid_x r;
     pid_y := pid_y r; sent := sent r |}.

Definition set_pids (yaw x y : PID.t) (r : rc) : rc :=
  {| cancel_flag := cancel_flag r; high_state := high_state r; pid_yaw := yaw; pid_x := x; pid_y := y;
     sent := sent r |}.

Definition send (c : SportCmd) (r : rc) : rc :=
  {| cancel_flag := cancel_flag r; high_state := high_state r; pid_yaw := pid_yaw r; pid_x := pid_x r;
     pid_y := pid_y r; sent := sent r ++ [c] |}.

(** ** The simple commands *)

(** The pattern of the commands: one request, an error unless it returns 0. *)
Definition request (c : SportCmd) (ret : Z) (message : string) (r : rc) : rc * ExecutionResult :=
  (send c r, if negb (ret =? 0) then (ERROR, message) else (SUCCESS, ""%string)).

Definition cancel (r : rc) : rc := set_cancel true r.
Definition stop (ret : Z) : rc -> rc * ExecutionResult :=
  request StopMove ret "Failed to send stop command.".
Definition _HighStateHandler (message : HighState) (r : rc) : rc :=
  {| cancel_flag := cancel_flag r; high_state := message; pid_yaw := pid_yaw r; pid_x := pid_x r;
     pid_y := pid_y r; sent := sent r |}.
Definition hello (ret : Z) : rc -> rc * ExecutionResult :=
  request Hello ret "Failed to send hello command.".
Definition stand_down (ret : Z) : rc -> rc * ExecutionResult :=
  request StandDown ret "Failed to send stand down command.".
Definition stand_up (ret : Z) : rc -> rc * ExecutionResult :=
  request RecoveryStand ret "Failed recovery.".
Definition balanced_stand (ret : Z) : rc -> rc * ExecutionResult :=
  request BalanceStand ret "Failed to send balanced stand command.".
Definition euler (roll pitch yaw : float32) (ret : Z) : rc -> rc * ExecutionResult :=
  request (Euler roll pitch yaw) ret "Failed to send Euler command.".
Definition stretch (ret : Z) : rc -> rc * ExecutionResult :=
  request Stretch ret "Failed to send stretch command.".
Definition nav (vx vy vyaw : float64) (ret : Z) : rc -> rc * ExecutionResult :=
  request (Move (F32.of_f64 vx) (F32.of_f64 vy) (F32.of_f64 vyaw)) ret
    ("Move failed with error code: " +:+ pretty ret).

(** ** The bodies of the control loops *)

(** What one iteration does: leave the loop with a result, or continue. *)
Inductive outcome (L : Type) := Return (res : ExecutionResult) (r : rc) | Continue (l : L) (r : rc).
Arguments Return {L} _ _.
Arguments Continue {L} _ _.

(** The wrap-around handling of a yaw difference. *)
Definition wrap_yaw (yaw_diff : float64) : float64 :=
  let two_pi := F64.mul (F64.of_Z 2) F64.M_PI in
  if fgt yaw_diff F64.M_PI then F64.sub yaw_diff two_pi
  else if flt yaw_diff (fneg F64.M_PI) then F64.add yaw_diff two_pi
  else yaw_diff.

(** The body of the loop of [rotate]; the loop variables are [prev_yaw] and
    [accumulated_angle].  The yaw velocity is a [float] that passes unchanged
    through a [double] variable. *)
Definition rotate_iteration (delta_rad : float64) (l : float64 * float64) (r : rc) : outcome (float64 * float64) :=
  let '(prev_yaw, accumulated_angle) := l in
  let yaw_current := yaw_of (high_state r) in
  let yaw_diff := wrap_yaw (F64.sub yaw_current prev_yaw) in
  let accumulated_angle := F64.add accumulated_angle yaw_diff in
  let remaining_angle := F64.sub delta_rad accumulated_angle in
  if flt (fabs remaining_angle) control_error_yaw then Return (SUCCESS, ""%string) r
  else
    let '(vyaw, pid) := PID.update (pid_yaw r) (F32.of_f64 remaining_angle) in
    Continue (yaw_current, accumulated_angle)
      (send (Move fzero fzero vyaw) (set_pids pid (pid_x r) (pid_y r) r)).

Section Trig.
Context (cos sin : float64 -> float64).

(** The body of the loop of [move], which has no loop variables. *)
Definition move_iteration (target_x target_y yaw_target : float64) (_ : unit) (r : rc) : outcome unit :=
  let s := high_state r in
  let current_yaw := yaw_of s in
  let remaining_x := F64.sub target_x (x_of s) in
  let remaining_y := F64.sub target_y (y_of s) in
  if flt (fabs remaining_x) control_error && flt (fabs remaining_y) control_error
  then Return (SUCCESS, ""%string) r
  else
    let '(vx, pidx) := PID.update (pid_x r) (F32.of_f64 remaining_x) in
    let '(vy, pidy) := PID.update (pid_y r) (F32.of_f64 remaining_y) in
    let vx := F64.of_f32 vx in
    let vy := F64.of_f32 vy in
    let v_body_x := F64.add (F64.mul vx (cos current_yaw)) (F64.mul vy (sin current_yaw)) in
    let v_body_y := F64.add (F64.mul (fneg vx) (sin current_yaw)) (F64.mul vy (cos current_yaw)) in
    let '(vyaw, pidyaw) := PID.update (pid_yaw r) (F32.of_f64 (F64.sub yaw_target current_yaw)) in
    Continue tt
      (send (Move (F32.of_f64 v_body_x) (F32.of_f64 v_body_y) vyaw)
         (set_pids pidyaw pidx pidy r)).

(** ** Other threads *)

(** What another thread may do to the object: the subscriber's callback, the
    requests that send one command, and the steps of another rotation or move.
    These are its start, which clears the cancellation flag; the rest of one of
    its iterations, with whatever values its local variables have; and the zero
    velocity it sends when it finds the flag set. *)
Inductive action :=
| DoCancel
| DoHighState (s : HighState)
| DoStop (ret : Z) | DoHello (ret : Z) | DoStandDown (ret : Z) | DoStandUp (ret : Z)
| DoBalancedStand (ret : Z) | DoStretch (ret : Z)
| DoEuler (roll pitch yaw : float32) (ret : Z)
| DoNav (vx vy vyaw : float64) (ret : Z)
| DoStart
| DoRotateTurn (delta_rad : float64) (l : float64 * float64)
| DoMoveTurn (target_x target_y yaw_target : float64)
| DoLoopStop.

(** The object after an iteration. *)
Definition after {L} (o : outcome L) : rc := match o with Return _ r | Continue _ r => r end.

Definition act (a : action) (r : rc) : rc :=
  match a with
  | DoCancel => cancel r
  | DoHighState s => _HighStateHandler s r
  | DoStop ret => (stop ret r).1
  | DoHello ret => (hello ret r).1
  | DoStandDown ret => (stand_down ret r).1
  | DoStandUp ret => (stand_up ret r).1
  | DoBalancedStand ret => (balanced_stand ret r).1
  | DoStretch ret => (stretch ret r).1
  | DoEuler roll pitch yaw ret => (euler roll pitch yaw ret r).1
  | DoNav vx vy vyaw ret => (nav vx vy vyaw ret r).1
  | DoStart => set_cancel false r
  | DoRotateTurn delta_rad l => after (rotate_iteration delta_rad l r)
  | DoMoveTurn target_x target_y yaw_target => after (move_iteration target_x target_y yaw_target tt r)
  | DoLoopStop => send (Move fzero fzero fzero) r
  end.

(** The actions before an iteration's test of [cancel_flag], those between the
    test and the rest of the iteration, and the clock (in nanoseconds) that the
    iteration reads. *)
Record tick := { others : list action; meanwhile : list action; clock : Z }.

Definition interfere (os : list action) (r : rc) : rc := foldl (fun r a => act a r) r os.

(** ** The control loops *)

(** [now + std::chrono::duration<double>(timeout)], in double nanoseconds. *)
Definition end_time (now : Z) (timeout : float64) : float64 :=
  F64.add (F64.of_Z now) (F64.mul timeout (F64.of_Z 1000000000)).

Definition before (now : Z) (end_ : float64) : bool := flt (F64.of_Z now) end_.

(** The [while (now < end_time)] loop over the ticks; [None] when the ticks run
    out before the loop is left. *)
Fixpoint control_loop {L : Type} (iteration : L -> rc -> outcome L) (cancelled timed_out : ExecutionResult)
    (end_ : float64) (now : Z) (ticks : list tick) (l : L) (r : rc) : option (rc * ExecutionResult) :=
  if before now end_ then
    match ticks with
    | [] => None
    | t :: ticks =>
        let r := interfere (others t) r in
        if cancel_flag r then Some (send (Move fzero fzero fzero) r, cancelled)
        else match iteration l (interfere (meanwhile t) r) with
        | Return res r => Some (r, res)
        | Continue l r => control_loop iteration cancelled timed_out end_ (clock t) ticks l r
        end
    end
  else Some (r, timed_out).

(** [rotate]; [start] is the clock when it begins. *)
Definition rotate (delta_rad timeout : float64) (start : Z) (ticks : list tick) (r : rc) :
    option (rc * ExecutionResult) :=
  let r := set_cancel false r in
  let initial_yaw := yaw_of (high_state r) in
  control_loop (rotate_iteration delta_rad) (ERROR, "Rotate cancelled"%string)
    (TIMEOUT, "Rotation timed out before reaching the target angle."%string)
    (end_time start timeout) start ticks (initial_yaw, fzero) r.

(** The target of [move]. *)
Definition move_target (dx dy : float64) (body_frame : bool) (s : HighState) : float64 * float64 :=
  let yaw := yaw_of s in
  if body_frame then
    let body_dx := F64.sub (F64.mul dx (cos yaw)) (F64.mul dy (sin yaw)) in
    let body_dy := F64.add (F64.mul dx (sin yaw)) (F64.mul dy (cos yaw)) in
    (F64.add (x_of s) body_dx, F64.add (y_of s) body_dy)
  else (F64.add (x_of s) dx, F64.add (y_of s) dy).

Definition move (dx dy : float64) (body_frame : bool) (timeout : float64) (start : Z)
    (ticks : list tick) (r : rc) : option (rc * ExecutionResult) :=
  let r := set_cancel false r in
  let '(target_x, target_y) := move_target dx dy body_frame (high_state r) in
  control_loop (move_iteration target_x target_y (yaw_of (high_state r))) (ERROR, "Move cancelled"%string)
    (TIMEOUT, "Movement timed out before reaching the target position."%string)
    (end_time start timeout) start ticks tt r.

(** ** The HTTP interface *)

(** A parsed JSON object: the accessors of the values used; [None] is the
    exception they raise when the field is missing or has another type.  [ControlHttp]
    supplies them from the text of the request. *)
Record json_body := {
  field_s : string -> option string; field_d : string -> option float64; field_b : string -> option bool
}.

Inductive response :=
| Text (code : Z) (body : string)
| Status (code : Z) (status : Z) (message : string)
| State (code : Z) (s : HighState)
| Raised.    (** an exception left the handler *)

(** What the environment provides to one request: the client's return code, the
    clock, the ticks of a loop. *)
Record inputs := { ret : Z; start : Z; ticks : list tick }.

(** [static_cast<int>(result.first)]. *)
Definition status_code (s : ExecutionStatus) : Z :=
  match s with SUCCESS => 0 | TIMEOUT => 1 | ERROR => 2 end.

(** The handlers of [command_map].  The outer option is an exception, raised
    before anything is sent; the inner one a loop that has not ended. *)
Definition command_map (body : json_body) (i : inputs) (r : rc) (command : string) :
    option (option (option (rc * ExecutionResult))) :=
  if bool_decide (command = "move"%string) then Some (
    dx ← field_d body "dx"; dy ← field_d body "dy"; body_frame ← field_b body "body_frame";
    timeout ← field_d body "timeout"; Some (move dx dy body_frame timeout (start i) (ticks i) r))
  else if bool_decide (command = "rotate"%string) then Some (
    delta_rad ← field_d body "delta_rad"; timeout ← field_d body "timeout";
    Some (rotate delta_rad timeout (start i) (ticks i) r))
  else if bool_decide (command = "stand_up"%string) then Some (Some (Some (stand_up (ret i) r)))
  else if bool_decide (command = "shake_hand"%string) then Some (Some (Some (hello (ret i) r)))
  else if bool_decide (command = "stand_down"%string) then Some (Some (Some (stand_down (ret i) r)))
  else if bool_decide (command = "nav"%string) then Some (
    vx ← field_d body "vx"; vy ← field_d body "vy"; vyaw ← field_d body "vyaw";
    Some (Some (nav vx vy vyaw (ret i) r)))
  else if bool_decide (command = "euler"%string) then Some (
    roll ← field_d body "roll"; pitch ← field_d body "pitch"; yaw ← field_d body "yaw";
    Some (Some (euler (F32.of_f64 roll) (F32.of_f64 pitch) (F32.of_f64 yaw) (ret i) r)))
  else if bool_decide (command = "stop"%string) then Some (Some (Some (stop (ret i) r)))
  else if bool_decide (command = "stretch"%string) then Some (Some (Some (stretch (ret i) r)))
  else if bool_decide (command = "balanced_stand"%string) then Some (Some (Some (balanced_stand (ret i) r)))
  else None.

(** The [/control] route; [None] while a loop has not ended. *)
Definition control_route (body : option json_body) (i : inputs) (r : rc) : option (rc * response) :=
  match body with
  | None => Some (r, Text 400 "Invalid JSON")
  | Some body =>
      match field_s body "command" with
      | None => Some (r, Raised)
      | Some command =>
          match command_map body i r command with
          | None => Some (r, Text 400 "Unknown command")
          | Some None => Some (r, Raised)
          | Some (Some run) => '(r, res) ← run; Some (r, Status 200 (status_code res.1) res.2)
          end
      end
  end.

(** The [/state] and [/] routes. *)
Definition state_route (r : rc) : response := State 200 (high_state r).
Definition root_route : response := Text 200 "Go2 control interface is ready!".
End Trig.

(** ** The cancellation flag *)

(** What an action makes of the flag: a cancellation sets it, the start of a
    rotation or of a move clears it. *)
Definition flag_after (flag : bool) (a : action) : bool :=
  match a with DoCancel => true | DoStart => false | _ => flag end.

(** Whether a loop that has consumed the ticks [pre] finds the flag set at the
    test of the tick [t]: the last cancellation since it began is not followed by
    the start of another loop. *)
Definition cancel_pending (pre : list tick) (t : tick) : bool :=
  foldl flag_after false (flat_map (fun t => others t ++ meanwhile t) pre ++ others t).

Section Flag.
Context (cos sin : float64 -> float64).

Lemma rotate_iteration_flag delta l r : cancel_flag (after (rotate_iteration delta l r)) = cancel_flag r.
Proof. unfold rotate_iteration. destruct l. split_if; [done |]. by destruct (PID.update _ _). Qed.

Lemma move_iteration_flag tx ty yaw l r : cancel_flag (after (move_iteration cos sin tx ty yaw l r)) = cancel_flag r.
Proof.
  unfold move_iteration. split_if; [done |]. by repeat case_match.
Qed.

Lemma act_flag a r : cancel_flag (act cos sin a r) = flag_after (cancel_flag r) a.
Proof. destruct a; try done; [apply rotate_iteration_flag | apply move_iteration_flag]. Qed.

Lemma interfere_flag os r : cancel_flag (interfere cos sin os r) = foldl flag_after (cancel_flag r) os.
Proof. revert r; induction os as [| a os IH]; intros r; [done |]. cbn. rewrite <- act_flag. apply IH. Qed.
End Flag.

(** The flag stays as it is without an action that changes it. *)
Lemma foldl_flag_stays (b : bool) os :
  (if b then DoStart else DoCancel) ∉ os -> foldl flag_after b os = b.
Proof.
  induction os as [| a os IH]; intros Hn; [done |]. apply not_elem_of_cons in Hn as [Ha Hn]. cbn [foldl].
  replace (flag_after b a) with b by by destruct a, b. by apply IH.
Qed.

(** A cancellation is seen unless another loop starts before the test, *)
Lemma cancel_seen pre t os1 os2 :
  others t = os1 ++ DoCancel :: os2 -> DoStart ∉ os2 -> cancel_pending pre t = true.
Proof. intros E. unfold cancel_pending. rewrite E, !foldl_app. exact (foldl_flag_stays true os2). Qed.

(** and it is lost when one does. *)
Lemma cancel_lost pre t os1 os2 :
  others t = os1 ++ DoStart :: os2 -> DoCancel ∉ os2 -> cancel_pending pre t = false.
Proof. intros E. unfold cancel_pending. rewrite E, !foldl_app. exact (foldl_flag_stays false os2). Qed.

(** ** The control loops end *)
Section Loop.
Context (cos sin : float64 -> float64).
Context {L : Type} (iteration : L -> rc -> outcome L) (cancelled timed_out : ExecutionResult) (end_ : float64).
Context (iteration_flag : ∀ l r, cancel_flag (after (iteration l r)) = cancel_flag r).
Context (iteration_result : ∀ l r, match iteration l r with Return res _ => res ≠ cancelled | Continue _ _ => True end).
Context (timed_out_result : timed_out ≠ cancelled).

Abbreviation loop := (control_loop cos sin iteration cancelled timed_out end_).

(** A loop that has ended does not look at further ticks. *)
Lemma control_loop_app now pre post l r res :
  loop now pre l r = Some res -> loop now (pre ++ post) l r = Some res.
Proof.
  revert now l r; induction pre as [| t pre IH]; intros now l r; cbn [control_loop app].
  - intros H. destruct post; cbn [control_loop]; destruct (before now end_); [done | exact H | done | exact H].
  - destruct (before now end_); [| done]. destruct (cancel_flag (interfere _ _ _ r)); [done |].
    destruct (iteration l _); [done | apply IH].
Qed.

(** A loop that is still running after [pre] runs on from some state, with the
    flag as the actions so far have left it. *)
Lemma control_loop_resume now pre l r :
  loop now pre l r = None ->
  ∃ now' l' r', before now' end_ = true ∧
    cancel_flag r' = foldl flag_after (cancel_flag r) (flat_map (fun t => others t ++ meanwhile t) pre) ∧
    ∀ post, loop now (pre ++ post) l r = loop now' post l' r'.
Proof.
  revert now l r; induction pre as [| t pre IH]; intros now l r; cbn [control_loop app flat_map].
  - destruct (before now end_) eqn:E; [| done]. intros _. by exists now, l, r.
  - destruct (before now end_); [| done]. destruct (cancel_flag (interfere _ _ (others t) r)) eqn:Ec; [done |].
    pose proof (iteration_flag l (interfere cos sin (meanwhile t) (interfere cos sin (others t) r))) as Hi.
    destruct (iteration l _) as [| l1 r1]; [done |]. intros H. destruct (IH _ _ _ H) as (now' & l' & r' & Hb & Hf & E).
    exists now', l', r'. split_and!; [done | | done].
    rewrite !foldl_app, <- (interfere_flag cos sin), <- (interfere_flag cos sin), <- Hi. exact Hf.
Qed.

(** A loop that is still running returns the cancellation at the next test, after
    a zero velocity, exactly when a cancellation is pending. *)
Lemma control_loop_cancel now pre t post l r :
  cancel_flag r = false -> loop now pre l r = None ->
  if cancel_pending pre t
  then ∃ r', loop now (pre ++ t :: post) l r = Some (r', cancelled) ∧ last (sent r') = Some (Move fzero fzero fzero)
  else ∀ r', loop now (pre ++ [t]) l r ≠ Some (r', cancelled).
Proof.
  intros Hr Hp. destruct (control_loop_resume now pre l r Hp) as (now' & l' & r' & Hb & Hf & E).
  assert (Hc : cancel_flag (interfere cos sin (others t) r') = cancel_pending pre t)
    by (unfold cancel_pending; by rewrite interfere_flag, Hf, Hr, foldl_app).
  rewrite !E. cbn [control_loop]. rewrite Hb, Hc. destruct (cancel_pending pre t).
  - eexists. split; [done |]. cbn. apply last_snoc.
  - intros r2. set (r1 := interfere cos sin (meanwhile t) _). pose proof (iteration_result l' r1) as Hres.
    destruct (iteration l' r1); [congruence |]. destruct (before (clock t) end_); congruence.
Qed.

(** The loop is left at the latest after the first iteration that reads a clock
    past the deadline. *)
Lemma control_loop_deadline now pre t post l r :
  before (clock t) end_ = false ->
  ∃ res, loop now (pre ++ [t]) l r = Some res ∧ loop now (pre ++ t :: post) l r = Some res.
Proof.
  intros Hd. cut (∃ res, loop now (pre ++ [t]) l r = Some res).
  { intros [res E]. exists res. split; [done |].
    replace (pre ++ t :: post) with ((pre ++ [t]) ++ post) by by rewrite <- app_assoc.
    by apply control_loop_app. }
  destruct (loop now pre l r) as [res |] eqn:Ep; [exists res; by apply control_loop_app |].
  destruct (control_loop_resume now pre l r Ep) as (now' & l' & r' & Hb & _ & E). rewrite E.
  cbn [control_loop]. rewrite Hb. destruct (cancel_flag _); [by eexists |].
  destruct (iteration _ _); [by eexists |]. rewrite Hd. by eexists.
Qed.
End Loop.

(** No iteration of the two loops returns a cancellation. *)
Lemma rotate_iteration_result delta l r :
  match rotate_iteration delta l r with Return res _ => res = (SUCCESS, ""%string) | Continue _ _ => True end.
Proof. unfold rotate_iteration. destruct l. split_if; [done |]. by destruct (PID.update _ _). Qed.

Lemma move_iteration_result cos sin tx ty yaw l r :
  match move_iteration cos sin tx ty yaw l r with Return res _ => res = (SUCCESS, ""%string) | Continue _ _ => True end.
Proof.
  unfold move_iteration. split_if; [done |]. by repeat case_match.
Qed.

(** ** Velocity limits *)

(** A PID output with a positive limit is within it, or NaN. *)
Lemma pid_update_limited p e :
  fgt (PID.o_limit p) fzero = true ->
  (PID.update p e).1 = S754_nan ∨
  fin_range (fneg (PID.o_limit p)) (PID.update p e).1 (PID.o_limit p).
Proof.
  intros Hl. unfold PID.update. cbn [fst]. rewrite Hl.
  destruct (PID.raw_output p e) as [b | b | | b m x] eqn:E; [right | right | left | right];
    [| | apply std_clamp_nan |]; (apply std_clamp_range; [done |]);
    (destruct (PID.o_limit p) as [[] | [] | | [] ? ?]; try done; cbn in *; try discriminate;
      unfold fgt in *; by vm_compute).
Qed.

Lemma pid_update_keeps p e : PID.o_limit (PID.update p e).2 = PID.o_limit p.
Proof. done. Qed.

(** The velocity commands [rotate] may send: turning on the spot. *)
Definition turn_limited (c : SportCmd) : Prop :=
  match c with
  | Move vx vy vyaw =>
      vx = fzero ∧ vy = fzero ∧ (vyaw = S754_nan ∨ fin_range (F32.of_Z (-2)) vyaw (F32.of_Z 2))
  | _ => True
  end.

(** The actions of other threads that send no velocity but turns: all but a
    navigation request and another move. *)
Definition only_turns (a : action) : Prop :=
  match a with DoNav _ _ _ _ | DoMoveTurn _ _ _ => False | _ => True end.

Definition no_nav (t : tick) : Prop := Forall only_turns (others t ++ meanwhile t).

(** What the loop of [rotate] maintains. *)
Definition rotating (r : rc) : Prop := PID.o_limit (pid_yaw r) = F32.of_Z 2 ∧ Forall turn_limited (sent r).

Lemma rotating_send c r : turn_limited c -> rotating r -> rotating (send c r).
Proof. intros Hc [Hp Hs]. split; [done |]. cbn. apply Forall_app; split; [done | by apply Forall_singleton]. Qed.

Lemma rotating_iteration delta l r :
  rotating r ->
  rotating (after (rotate_iteration delta l r)).
Proof.
  intros Hr. destruct l as [prev acc]. unfold rotate_iteration.
  split_if; [done |].
  set (e := F32.of_f64 _). pose proof (pid_update_limited (pid_yaw r) e) as Hl.
  destruct Hr as [Hp Hs]. rewrite Hp in Hl. specialize (Hl eq_refl).
  pose proof (pid_update_keeps (pid_yaw r) e) as Hk. rewrite Hp in Hk.
  destruct (PID.update (pid_yaw r) e) as [v pid]. cbn [fst snd] in *.
  apply rotating_send; [done |]. by split.
Qed.

Lemma turn_limited_zero : turn_limited (Move fzero fzero fzero).
Proof. split_and!; [done | done | right]. split; by vm_compute. Qed.

Section Rotating.
Context (cos sin : float64 -> float64).

Lemma rotating_act a r : only_turns a -> rotating r -> rotating (act cos sin a r).
Proof.
  destruct a; intros Ha Hr; try done; cbn; try (by apply rotating_send);
    [by apply rotating_iteration | apply rotating_send; [apply turn_limited_zero | done]].
Qed.

Lemma rotating_interfere os r : Forall only_turns os -> rotating r -> rotating (interfere cos sin os r).
Proof.
  unfold interfere. revert r; induction os as [| a os IH]; intros r Hn Hr; [done |].
  inversion_clear Hn. cbn [foldl]. apply IH; [done |]. by apply rotating_act.
Qed.

Lemma rotating_loop delta c t_o end_ ticks now l r r' res :
  Forall no_nav ticks -> rotating r ->
  control_loop cos sin (rotate_iteration delta) c t_o end_ now ticks l r = Some (r', res) -> rotating r'.
Proof.
  revert now l r; induction ticks as [| t ticks IH]; intros now l r Hn Hr; cbn [control_loop].
  - destruct (before now end_); [done |]. by intros [= <- _].
  - inversion_clear Hn as [| ? ? Ht Hts]. apply Forall_app in Ht as [Ho Hm].
    destruct (before now end_); [| by intros [= <- _]].
    pose proof (rotating_interfere _ r Ho Hr) as Hi. destruct (cancel_flag (interfere _ _ (others t) r)).
    + intros [= <- _]. apply rotating_send; [apply turn_limited_zero | done].
    + pose proof (rotating_iteration delta l _ (rotating_interfere _ _ Hm Hi)) as Hk.
      destruct (rotate_iteration delta l _); [by intros [= <- _] | by apply IH].
Qed.
End Rotating.

(** ** Theorems *)
Module ControlProps.

(** C23. The rotate and move commands end: whatever the other threads do, other
    rotations and moves included, each returns at the latest with the first
    iteration whose clock is past the deadline, without looking further.  A
    command that is still running when it tests the cancellation flag returns the
    cancellation error, after sending a zero velocity, exactly when a
    cancellation is pending: when the last cancellation since it began is not
    followed by the start of another rotate or move, which clears the flag.  A
    cancellation followed by such a start is lost: the command does not return it
    at that test. *)
Theorem control_loops_end cos sin delta dx dy body_frame timeout start pre t post r :
  (before (clock t) (end_time start timeout) = false ->
     (∃ res, rotate cos sin delta timeout start (pre ++ [t]) r = Some res ∧
             rotate cos sin delta timeout start (pre ++ t :: post) r = Some res) ∧
     (∃ res, move cos sin dx dy body_frame timeout start (pre ++ [t]) r = Some res ∧
             move cos sin dx dy body_frame timeout start (pre ++ t :: post) r = Some res)) ∧
  (rotate cos sin delta timeout start pre r = None ->
     if cancel_pending pre t
     then ∃ r', rotate cos sin delta timeout start (pre ++ t :: post) r =
                  Some (r', (ERROR, "Rotate cancelled"%string)) ∧
                last (sent r') = Some (Move fzero fzero fzero)
     else ∀ r', rotate cos sin delta timeout start (pre ++ [t]) r ≠ Some (r', (ERROR, "Rotate cancelled"%string))) ∧
  (move cos sin dx dy body_frame timeout start pre r = None ->
     if cancel_pending pre t
     then ∃ r', move cos sin dx dy body_frame timeout start (pre ++ t :: post) r =
                  Some (r', (ERROR, "Move cancelled"%string)) ∧
                last (sent r') = Some (Move fzero fzero fzero)
     else ∀ r', move cos sin dx dy body_frame timeout start (pre ++ [t]) r ≠ Some (r', (ERROR, "Move cancelled"%string))) ∧
  (∀ os1 os2, others t = os1 ++ DoCancel :: os2 -> DoStart ∉ os2 -> cancel_pending pre t = true) ∧
  (∀ os1 os2, others t = os1 ++ DoStart :: os2 -> DoCancel ∉ os2 -> cancel_pending pre t = false).
Proof.
  unfold rotate, move. destruct (move_target _ _ _ _ _ _) as [tx ty]. split_and!.
  - intros Hd. split; apply control_loop_deadline; try done;
      [apply rotate_iteration_flag | apply move_iteration_flag].
  - intros Hp. apply control_loop_cancel; try done; [apply rotate_iteration_flag |].
    intros l r'. pose proof (rotate_iteration_result delta l r'). destruct (rotate_iteration _ _ _); [by subst | done].
  - intros Hp. apply control_loop_cancel; try done; [apply move_iteration_flag |].
    intros l r'. pose proof (move_iteration_result cos sin tx ty (yaw_of (high_state r)) l r').
    by destruct (move_iteration _ _ _ _ _ _ _); [subst | done].
  - apply cancel_seen.
  - apply cancel_lost.
Qed.

(** A one-second deadline passed by the second tick; a cancellation in the second
    tick; a cancellation and then the start of another loop. *)
Definition idle (c : Z) : tick := {| others := []; meanwhile := []; clock := c |}.
Definition cancelling (c : Z) : tick := {| others := [DoCancel]; meanwhile := []; clock := c |}.
Definition restarting (c : Z) : tick := {| others := [DoCancel; DoStart]; meanwhile := []; clock := c |}.

Lemma control_loops_end_witness :
  (∃ res, rotate id id (F64.of_Z 1) (F64.of_Z 1) 5 ([idle 6] ++ [idle 2000000000]) rc_init = Some res ∧
          rotate id id (F64.of_Z 1) (F64.of_Z 1) 5 ([idle 6] ++ [idle 2000000000]) rc_init = Some res) ∧
  (∃ r', rotate id id (F64.of_Z 1) (F64.of_Z 1) 5 ([idle 6] ++ [cancelling 7]) rc_init =
           Some (r', (ERROR, "Rotate cancelled"%string)) ∧
         last (sent r') = Some (Move fzero fzero fzero)) ∧
  (∀ r', rotate id id (F64.of_Z 1) (F64.of_Z 1) 5 ([idle 6] ++ [restarting 7]) rc_init ≠
           Some (r', (ERROR, "Rotate cancelled"%string))).
Proof.
  split_and!.
  - apply (control_loops_end id id (F64.of_Z 1) fzero fzero true (F64.of_Z 1) 5
             [idle 6] (idle 2000000000) [] rc_init). by vm_compute.
  - apply (proj1 (proj2 (control_loops_end id id (F64.of_Z 1) fzero fzero true (F64.of_Z 1) 5
             [idle 6] (cancelling 7) [] rc_init))). by vm_compute.
  - apply (proj1 (proj2 (control_loops_end id id (F64.of_Z 1) fzero fzero true (F64.of_Z 1) 5
             [idle 6] (restarting 7) [] rc_init))). by vm_compute.
Defined.

(** A rotation that is cancelled just before another request starts goes on to
    its time-out. *)
Lemma cancellation_lost :
  ∃ r', rotate id id (F64.of_Z 1) (F64.of_Z 1) 5 [idle 6; restarting 7; idle 8; idle 2000000000] rc_init =
          Some (r', (TIMEOUT, "Rotation timed out before reaching the target angle."%string)) ∧
    sent r' = replicate 4 (Move fzero fzero (F32.of_Z 2)).
Proof. eexists. split; vm_compute; reflexivity. Qed.

(** Unless a navigation request or another move interferes, a rotation sends only turns on
    the spot whose yaw rate is within 2 rad/s or NaN: from the initial
    controllers, and again after any rotation that ended so. *)
Lemma rotate_velocity_limited cos sin delta timeout start ticks r r' res :
  rotating r -> Forall no_nav ticks ->
  rotate cos sin delta timeout start ticks r = Some (r', res) -> rotating r'.
Proof. intros Hr Hn H. by apply (rotating_loop _ _ _ _ _ _ _ _ _ _ _ _ Hn) in H. Qed.

(** From the initial object, a rotation by one radian that times out. *)
Lemma rotate_velocity_limited_witness :
  ∃ r', rotate id id (F64.of_Z 1) (F64.of_Z 1) 5 [idle 6; idle 2000000000] rc_init =
          Some (r', (TIMEOUT, "Rotation timed out before reaching the target angle."%string)) ∧
        sent r' = [Move fzero fzero (F32.of_Z 2); Move fzero fzero (F32.of_Z 2)] ∧ rotating r'.
Proof.
  eexists. split; [vm_compute; reflexivity |]. split; [vm_compute; reflexivity |].
  eapply (rotate_velocity_limited id id (F64.of_Z 1) (F64.of_Z 1) 5 [idle 6; idle 2000000000] rc_init);
    [split; [done | constructor] | repeat constructor | vm_compute; reflexivity].
Defined.

(** The stop command does not cancel a running rotation: with a stop between
    the first and the second iteration, accepted by the robot, the rotation
    goes on to send full-speed turns after the stop. *)
Lemma stop_is_overridden :
  ∃ r' res, rotate id id (F64.of_Z 1) (F64.of_Z 1) 5
      [idle 6; {| others := [DoStop 0]; meanwhile := []; clock := 7 |}; idle 8; idle 2000000000] rc_init = Some (r', res) ∧
    sent r' = [Move fzero fzero (F32.of_Z 2); StopMove; Move fzero fzero (F32.of_Z 2);
               Move fzero fzero (F32.of_Z 2); Move fzero fzero (F32.of_Z 2)] ∧
    res.1 = TIMEOUT.
Proof. eexists _, _. split_and!; vm_compute; reflexivity. Qed.

(** The sport command of each request that is not a loop. *)
Definition simple_request (body : json_body) (command : string) : option SportCmd :=
  if bool_decide (command = "stand_up"%string) then Some RecoveryStand
  else if bool_decide (command = "shake_hand"%string) then Some Hello
  else if bool_decide (command = "stand_down"%string) then Some StandDown
  else if bool_decide (command = "stop"%string) then Some StopMove
  else if bool_decide (command = "stretch"%string) then Some Stretch
  else if bool_decide (command = "balanced_stand"%string) then Some BalanceStand
  else if bool_decide (command = "nav"%string) then
    vx ← field_d body "vx"; vy ← field_d body "vy"; vyaw ← field_d body "vyaw";
    Some (Move (F32.of_f64 vx) (F32.of_f64 vy) (F32.of_f64 vyaw))
  else if bool_decide (command = "euler"%string) then
    roll ← field_d body "roll"; pitch ← field_d body "pitch"; yaw ← field_d body "yaw";
    Some (Euler (F32.of_f64 roll) (F32.of_f64 pitch) (F32.of_f64 yaw))
  else None.

Definition commands : list string :=
  ["move"; "rotate"; "stand_up"; "shake_hand"; "stand_down"; "nav"; "euler"; "stop"; "stretch";
   "balanced_stand"]%string.

(** The control route: an unknown command is answered 400 and changes nothing;
    a request that is not a loop and has its fields sends exactly its one sport
    command and is answered 200, with status 0 when the client accepted it and
    status 2 otherwise. *)
Lemma control_route_dispatch cos sin body i r command :
  field_s body "command" = Some command ->
  (command ∉ commands -> control_route cos sin (Some body) i r = Some (r, Text 400 "Unknown command")) ∧
  (∀ c, simple_request body command = Some c ->
     ∃ message, control_route cos sin (Some body) i r =
       Some (send c r, Status 200 (if ret i =? 0 then 0 else 2) message) ∧
       (ret i = 0 -> message = ""%string)).
Proof.
  intros Hf. unfold control_route. rewrite Hf. split.
  - intros Hn. unfold command_map, commands in *.
    repeat (rewrite bool_decide_eq_false_2 by (intros ->; apply Hn; set_solver)). done.
  - intros c. unfold simple_request.
    repeat case_bool_decide; subst; try discriminate; unfold command_map;
      repeat (rewrite bool_decide_eq_false_2 by done); rewrite bool_decide_eq_true_2 by done;
      repeat match goal with |- context [field_d body ?f] => destruct (field_d body f) end;
      cbn [mbind option_bind];
      intros Hc; simplify_eq; unfold stand_up, hello, stand_down, stop, stretch, balanced_stand, nav, euler, request;
      (destruct (Z.eqb_spec (ret i) 0); cbn [mbind option_bind negb fst snd status_code]; eexists; (split; [done |]));
      intros; (done || lia).
Qed.

(** A stop request that the robot refuses, and an unknown command. *)
Definition body_of (command : string) : json_body :=
  {| field_s f := if bool_decide (f = "command"%string) then Some command else None;
     field_d _ := None; field_b _ := None |}.

Definition refusing : inputs := {| ret := 3104; start := 0; ticks := [] |}.

Lemma control_route_dispatch_witness :
  (∃ message, control_route (fun x => x) (fun x => x) (Some (body_of "stop")) refusing rc_init =
     Some (send StopMove rc_init, Status 200 2 message)) ∧
  control_route (fun x => x) (fun x => x) (Some (body_of "dance")) refusing rc_init =
    Some (rc_init, Text 400 "Unknown command").
Proof.
  split.
  - destruct (proj2 (control_route_dispatch (fun x => x) (fun x => x) (body_of "stop") refusing rc_init "stop"
                       eq_refl) StopMove eq_refl) as (message & E & _).
    exists message. exact E.
  - apply (control_route_dispatch (fun x => x) (fun x => x) (body_of "dance") refusing rc_init "dance" eq_refl).
    intros H. repeat (apply elem_of_cons in H as [H | H]; [discriminate |]). by apply not_elem_of_nil in H.
Defined.

(** An angle that overflows to infinity makes the controller ask the robot for a
    NaN yaw rate: the clamp lets NaN through. *)
Lemma infinite_angle_sends_nan :
  ∃ r' res, rotate id id (S754_infinity false) (F64.of_Z 1) 5 [idle 2000000000] rc_init = Some (r', res) ∧
    sent r' = [Move fzero fzero S754_nan].
Proof. eexists _, _. split; vm_compute; reflexivity. Qed.
End ControlProps.
