(* ===== verification/CrowJson.v ===== *)
(** * JSON texts of the HTTP interface.

    Models the reader and the writer of [src/include/crow/json.h] that the HTTP
    programs use: [load] with its recursive-descent parser, the accessors of
    [rvalue] ([operator[]], [s], [d], [b]) with the unescaping in place, the growth of
    a list of values, and [escape] and [dump] of [wvalue].

    A text is a [string] of bytes; the copy that is parsed ends with a zero byte, so
    reading at the end of the text gives zero.  The parser changes only bytes it has
    passed.  [std::sort] and the decimal notation of a [double] are parameters. *)

From stdpp Require Export strings pretty.
From Stdlib Require Import Ascii String.
From S2P Require Import Prelude Floats.

Local Open Scope list_scope.
Local Open Scope string_scope.

(** ** Characters *)

Definition NUL : ascii := "000".
Definition quote : ascii := "034".
Definition backslash : ascii := "092".

Definition code (c : ascii) : N := N_of_ascii c.
Definition chr (n : N) : ascii := ascii_of_N n.

(** [*data]. *)
Definition peek (s : string) : ascii := match s with String c _ => c | EmptyString => NUL end.

(** [data++], away from the end. *)
Definition advance (s : string) : string := match s with String _ r => r | EmptyString => "" end.

Definition is_digit (c : ascii) : bool := ((48 <=? code c) && (code c <=? 57))%N.

(** ** Writing *)

Definition to_hex (c : N) : ascii :=
  let c := N.land c 15 in if (c <? 10)%N then chr (48 + c) else chr (97 + c - 10).

(** A [char] above 127 is negative and left as it is. *)
Definition escape_char (c : ascii) : string :=
  if Ascii.eqb c quote then String backslash (String quote "")
  else if Ascii.eqb c backslash then String backslash (String backslash "")
  else if Ascii.eqb c "010" then String backslash "n"
  else if Ascii.eqb c "008" then String backslash "b"
  else if Ascii.eqb c "012" then String backslash "f"
  else if Ascii.eqb c "013" then String backslash "r"
  else if Ascii.eqb c "009" then String backslash "t"
  else if (code c <? 32)%N then
    String backslash ("u00" +:+ String (to_hex (code c / 16)) (String (to_hex (code c mod 16)) ""))
  else String c "".

Fixpoint escape (s : string) : string :=
  match s with EmptyString => "" | String c r => escape_char c +:+ escape r end.

(** ** Values read *)

(** [RString]: the characters between the quotes and whether any of them is escaped;
    [RNumber]: the characters of the number. *)
Inductive rvalue :=
| RNull | RFalse | RTrue
| RNumber (text : string)
| RString (raw : string) (has_escaping : bool)
| RList (l : list rvalue)
| RObject (l : list (string * rvalue)).

(** *** Unescaping *)

(** [from_hex] of a hexadecimal digit. *)
Definition from_hex (c : ascii) : N :=
  let n := code c in
  if (97 <=? n)%N then n - 97 + 10 else if (65 <=? n)%N then n - 65 + 10 else n - 48.

(** The bytes of a code; a [char] keeps eight bits. *)
Definition utf8 (n : N) : string :=
  if (2048 <=? n)%N then
    String (chr (N.lor 224 (N.shiftr n 12)))
      (String (chr (N.lor 128 (N.land (N.shiftr n 6) 63))) (String (chr (N.lor 128 (N.land n 63))) ""))
  else if (128 <=? n)%N then
    String (chr (N.lor 192 (N.shiftr n 6))) (String (chr (N.lor 128 (N.land n 63))) "")
  else String (chr n) "".

Definition hex4 (a b c d : ascii) : N :=
  (N.shiftl (from_hex a) 12 + N.shiftl (from_hex b) 8 + N.shiftl (from_hex c) 4 + from_hex d)%N.

(** The character a letter after a backslash stands for; [None] for [u]. *)
Definition simple_escape (c : ascii) : option ascii :=
  if Ascii.eqb c quote then Some quote
  else if Ascii.eqb c backslash then Some backslash
  else if Ascii.eqb c "/" then Some "/"%char
  else if Ascii.eqb c "b" then Some "008"%char
  else if Ascii.eqb c "f" then Some "012"%char
  else if Ascii.eqb c "n" then Some "010"%char
  else if Ascii.eqb c "r" then Some "013"%char
  else if Ascii.eqb c "t" then Some "009"%char
  else None.

(** What the characters of a string stand for. *)
Fixpoint unescape_text (s : string) : string :=
  match s with
  | EmptyString => ""
  | String c r =>
      if Ascii.eqb c backslash then
        match r with
        | EmptyString => ""
        | String e r' =>
            match simple_escape e with
            | Some x => String x (unescape_text r')
            | None =>
                if Ascii.eqb e "u" then
                  match r' with
                  | String h1 (String h2 (String h3 (String h4 r''))) => utf8 (hex4 h1 h2 h3 h4) +:+ unescape_text r''
                  | _ => ""
                  end
                else unescape_text r'
            end
        end
      else String c (unescape_text r)
  end.

(** [*tail++ = c] for each of some characters. *)
Fixpoint write (buf : list ascii) (tail : nat) (s : string) : list ascii * nat :=
  match s with EmptyString => (buf, tail) | String c r => write (<[tail := c]> buf) (S tail) r end.

(** The loop of [unescape], on the buffer: [head] reads, [tail] writes.  The fuel
    bounds the characters; [None]: the buffer is left, or the fuel used up. *)
Fixpoint unescape_loop (fuel : nat) (buf : list ascii) (head tail end_ : nat) : option (list ascii * nat) :=
  match fuel with
  | O => None
  | S fuel =>
      if (head =? end_)%nat then Some (buf, tail)
      else
        c ← buf !! head;
        if Ascii.eqb c backslash then
          e ← buf !! S head;
          match simple_escape e with
          | Some x => let '(buf, tail) := write buf tail (String x "") in unescape_loop fuel buf (S head + 1) tail end_
          | None =>
              if Ascii.eqb e "u" then
                h1 ← buf !! (S head + 1); h2 ← buf !! (S head + 2); h3 ← buf !! (S head + 3); h4 ← buf !! (S head + 4);
                let '(buf, tail) := write buf tail (utf8 (hex4 h1 h2 h3 h4)) in
                unescape_loop fuel buf (S head + 5) tail end_
              else unescape_loop fuel buf (S head + 1) tail end_
          end
        else let '(buf, tail) := write buf tail (String c "") in unescape_loop fuel buf (head + 1) tail end_
  end.

(** [unescape]: the byte before the string tells whether there is something to do. *)
Definition unescape (buf : list ascii) (start end_ : nat) : option (list ascii * nat) :=
  flag ← buf !! (start - 1)%nat;
  if Ascii.eqb flag NUL then Some (buf, end_)
  else
    '(buf, tail) ← unescape_loop (S (end_ - start)) buf start start end_;
    Some (<[(start - 1)%nat := NUL]> (<[tail := NUL]> buf), tail).

(** *** Numbers *)

(** The states [Minus], [AfterMinus], [ZeroFirst], [Digits], [DigitsAfterPoints], [E],
    [DigitsAfterE] and [Invalid] are 0 to 7; the tables are the strings of the
    source. *)
Definition on_zero : list nat := [2; 2; 7; 3; 4; 6; 6]%nat.
Definition on_digit : list nat := [3; 3; 7; 3; 4; 6; 6]%nat.
Definition on_point : list nat := [7; 7; 4; 4; 7; 7; 7]%nat.
Definition on_minus : list nat := [1; 7; 7; 7; 7; 6; 7]%nat.
Definition on_plus : list nat := [7; 7; 7; 7; 7; 6; 7]%nat.
Definition on_e : list nat := [7; 7; 7; 5; 5; 7; 7]%nat.
Definition Invalid : nat := 7.

Definition accepting (state : nat) : bool := bool_decide (state ∈ [2; 3; 4; 6]%nat).

Definition entry (table : list nat) (state : nat) : nat := default Invalid (table !! state).

(** The table of a character and whether the digits after it are skipped. *)
Definition number_char (c : ascii) : option (list nat * bool) :=
  if Ascii.eqb c "0" then Some (on_zero, false)
  else if is_digit c then Some (on_digit, true)
  else if Ascii.eqb c "." then Some (on_point, false)
  else if Ascii.eqb c "-" then Some (on_minus, false)
  else if Ascii.eqb c "+" then Some (on_plus, false)
  else if Ascii.eqb c "e" || Ascii.eqb c "E" then Some (on_e, false)
  else None.

Definition keep (c : ascii) (o : option (string * string)) : option (string * string) :=
  '(text, rest) ← o; Some (String c text, rest).

(** [decode_number]: the characters of the number and what follows.  [skip]: the
    inner loop is passing digits. *)
Fixpoint decode_number (state : nat) (skip : bool) (s : string) : option (string * string) :=
  match s with
  | EmptyString => if accepting state then Some ("", s) else None
  | String c r =>
      if skip && is_digit c then keep c (decode_number state true r)
      else if (state =? Invalid)%nat then None
      else match number_char c with
           | Some (table, skip) => keep c (decode_number (entry table state) skip r)
           | None => if accepting state then Some ("", s) else None
           end
  end.

(** *** The parser *)

Definition is_ws (c : ascii) : bool :=
  Ascii.eqb c " " || Ascii.eqb c "009" || Ascii.eqb c "013" || Ascii.eqb c "010".

Fixpoint ws_skip (s : string) : string :=
  match s with String c r => if is_ws c then ws_skip r else s | EmptyString => s end.

Definition consume (c : ascii) (s : string) : option string :=
  match s with String c' r => if Ascii.eqb c' c then Some r else None | EmptyString => None end.

(** [check]. *)
Definition is_hex (c : ascii) : bool :=
  let n := code c in
  ((48 <=? n) && (n <=? 57) || (97 <=? n) && (n <=? 102) || (65 <=? n) && (n <=? 70))%N.

(** The loop of [decode_string]: the characters up to the closing quote, whether any
    is escaped, and what follows the quote. *)
Fixpoint scan_string (s : string) (has_escaping : bool) : option (string * bool * string) :=
  match s with
  | EmptyString => None
  | String c r =>
      if Ascii.eqb c quote then Some ("", has_escaping, r)
      else if Ascii.eqb c backslash then
        match r with
        | EmptyString => None
        | String e r' =>
            if Ascii.eqb e "u" then
              match r' with
              | String h1 (String h2 (String h3 (String h4 r''))) =>
                  if is_hex h1 && is_hex h2 && is_hex h3 && is_hex h4 then
                    '(raw, esc, rest) ← scan_string r'' true;
                    Some (String c (String e (String h1 (String h2 (String h3 (String h4 raw))))), esc, rest)
                  else None
              | _ => None
              end
            else match simple_escape e with
                 | Some _ => '(raw, esc, rest) ← scan_string r' true; Some (String c (String e raw), esc, rest)
                 | None => None
                 end
        end
      else if Ascii.eqb c NUL then None
      else '(raw, esc, rest) ← scan_string r has_escaping; Some (String c raw, esc, rest)
  end.

Definition decode_string (s : string) : option (string * bool * string) :=
  s ← consume quote s; scan_string s false.

(** [s()] of a string value. *)
Definition string_of (raw : string) (has_escaping : bool) : string :=
  if has_escaping then unescape_text raw else raw.

Definition max_depth : N := 10000.

(** A value and what follows it, an error, or a parser that has not finished. *)
Inductive parsed (A : Type) := Done (a : A) (rest : string) | Bad | OutOfFuel.
Arguments Done {A} a rest. Arguments Bad {A}. Arguments OutOfFuel {A}.

Fixpoint starts (word s : string) : option string :=
  match word, s with
  | EmptyString, _ => Some s
  | String a word, String b s => if Ascii.eqb a b then starts word s else None
  | String _ _, EmptyString => None
  end.

Definition of_option {A} (o : option (A * string)) : parsed A :=
  match o with Some (a, rest) => Done a rest | None => Bad end.

Definition literal (word : string) (v : rvalue) (s : string) : parsed rvalue :=
  match starts word s with Some rest => Done v rest | None => Bad end.

(** [decode_list] and [decode_object] up to the first element; the loops over the
    elements, [acc] holding those read so far. *)
Fixpoint decode_value (fuel : nat) (depth : N) (s : string) : parsed rvalue :=
  match fuel with
  | O => OutOfFuel
  | S fuel =>
      let c := peek s in
      if Ascii.eqb c "[" then
        if (max_depth <? depth + 1)%N then Bad
        else
          let s := ws_skip (advance s) in
          if Ascii.eqb (peek s) "]" then Done (RList []) (advance s)
          else list_loop fuel (depth + 1)%N s []
      else if Ascii.eqb c "{" then
        if (max_depth <? depth + 1)%N then Bad
        else
          let s := ws_skip (advance s) in
          if Ascii.eqb (peek s) "}" then Done (RObject []) (advance s)
          else object_loop fuel (depth + 1)%N s []
      else if Ascii.eqb c quote then
        match decode_string s with Some (raw, esc, rest) => Done (RString raw esc) rest | None => Bad end
      else if Ascii.eqb c "t" then literal "true" RTrue s
      else if Ascii.eqb c "f" then literal "false" RFalse s
      else if Ascii.eqb c "n" then literal "null" RNull s
      else of_option ('(text, rest) ← decode_number 0 false s; Some (RNumber text, rest))
  end
with list_loop (fuel : nat) (depth : N) (s : string) (acc : list rvalue) : parsed rvalue :=
  match fuel with
  | O => OutOfFuel
  | S fuel =>
      match decode_value fuel (depth + 1)%N s with
      | Done v s =>
          let s := ws_skip s in
          let acc := (acc ++ [v])%list in
          match consume "]" s with
          | Some s => Done (RList acc) s
          | None => match consume "," s with Some s => list_loop fuel depth (ws_skip s) acc | None => Bad end
          end
      | Bad => Bad
      | OutOfFuel => OutOfFuel
      end
  end
with object_loop (fuel : nat) (depth : N) (s : string) (acc : list (string * rvalue)) : parsed rvalue :=
  match fuel with
  | O => OutOfFuel
  | S fuel =>
      match decode_string s with
      | None => Bad
      | Some (raw, esc, s) =>
          match consume ":" (ws_skip s) with
          | None => Bad
          | Some s =>
              let key := string_of raw esc in
              match decode_value fuel (depth + 1)%N (ws_skip s) with
              | Done v s =>
                  let s := ws_skip s in
                  let acc := (acc ++ [(key, v)])%list in
                  match consume "}" s with
                  | Some s => Done (RObject acc) s
                  | None => match consume "," s with Some s => object_loop fuel depth (ws_skip s) acc | None => Bad end
                  end
              | Bad => Bad
              | OutOfFuel => OutOfFuel
              end
          end
      end
  end.

(** [parse], with what ends it. *)
Definition parse (fuel : nat) (s : string) : parsed rvalue :=
  match decode_value fuel 0 (ws_skip s) with
  | Done v s => let s := ws_skip s in if Ascii.eqb (peek s) NUL then Done v s else Bad
  | r => r
  end.

(** [load]: [None] is a value with the error bit.  Two units of fuel per character
    are enough. *)
Definition load (str : string) : option rvalue :=
  match parse (2 * String.length str + 2) str with Done v _ => Some v | _ => None end.

(** *** Accessors *)

(** [lexical_cast<double>] of the characters of a number: a stream reads them; an
    exponent without digits is a failure, which stores zero, and too large a value
    stores the largest number. *)
Record decimal := { negative : bool; mantissa : N; exponent : Z }.

(** Leading digits: their value after those that gave [acc], their number, and what
    follows. *)
Fixpoint read_digits (s : string) (acc : N) (n : nat) : N * nat * string :=
  match s with
  | String c r => if is_digit c then read_digits r (10 * acc + (code c - 48))%N (S n) else (acc, n, s)
  | EmptyString => (acc, n, s)
  end.

Definition read_exponent (s : string) : option Z :=
  match s with
  | EmptyString => Some 0%Z
  | String _ r =>
      let '(neg, r) := match r with
                       | String c r' => if Ascii.eqb c "-" then (true, r') else if Ascii.eqb c "+" then (false, r') else (false, r)
                       | EmptyString => (false, r)
                       end in
      let '(e, n, _) := read_digits r 0 0 in
      if (n =? 0)%nat then None else Some (if neg then - Z.of_N e else Z.of_N e)%Z
  end.

Definition read_decimal (s : string) : option decimal :=
  let '(neg, s) := match s with String c r => if Ascii.eqb c "-" then (true, r) else (false, s) | EmptyString => (false, s) end in
  let '(whole, _, s) := read_digits s 0 0 in
  let '(m, k, s) := match s with
                    | String c r => if Ascii.eqb c "." then read_digits r whole 0 else (whole, 0%nat, s)
                    | EmptyString => (whole, 0%nat, s)
                    end in
  e ← read_exponent s; Some {| negative := neg; mantissa := m; exponent := (e - Z.of_nat k)%Z |}.

Definition double_max : float64 := S754_finite false 9007199254740991 971.

Definition to_double (d : decimal) : float64 :=
  match mantissa d with
  | N0 => S754_zero (negative d)
  | Npos m =>
      let x :=
        match exponent d with
        | Zneg e => SFdiv 53 1024 (S754_finite (negative d) m 0) (S754_finite false (Pos.pow 10 e) 0)
        | e => binary_normalize 53 1024 (cond_Zopp (negative d) (Zpos m * 10 ^ e)) 0 (negative d)
        end in
      match x with
      | S754_infinity b => if b then fneg double_max else double_max
      | _ => x
      end
  end.

Definition lexical_cast_double (text : string) : float64 :=
  match read_decimal text with Some d => to_double d | None => fzero end.

(** The accessors throw for another type. *)
Definition as_d (v : rvalue) : option float64 :=
  match v with RNumber text => Some (lexical_cast_double text) | _ => None end.

Definition as_b (v : rvalue) : option bool :=
  match v with RTrue => Some true | RFalse => Some false | _ => None end.

Definition as_s (v : rvalue) : option string :=
  match v with RString raw esc => Some (string_of raw esc) | _ => None end.

(** Keys are compared as arrays of [char], which is signed. *)
Definition schar (c : ascii) : Z := if (code c <? 128)%N then Z.of_N (code c) else (Z.of_N (code c) - 256)%Z.

Fixpoint key_lt (a b : string) : bool :=
  match a, b with
  | _, EmptyString => false
  | EmptyString, String _ _ => true
  | String x a, String y b => (schar x <? schar y)%Z || ((schar x =? schar y)%Z && key_lt a b)
  end.

(** [lower_bound] of a sorted list. *)
Fixpoint lower_bound (l : list (string * rvalue)) (key : string) : list (string * rvalue) :=
  match l with
  | (k, v) :: l' => if key_lt k key then lower_bound l' key else l
  | [] => []
  end.

Section Object.
Context (sort : list (string * rvalue) -> list (string * rvalue)).

(** [operator[]] with a key: [None] is an exception. *)
Definition at_key (v : rvalue) (key : string) : option rvalue :=
  match v with
  | RObject l =>
      match lower_bound (sort l) key with
      | (k, x) :: _ => if String.eqb k key then Some x else None
      | [] => None
      end
  | _ => None
  end.
End Object.

(** [emplace_back]: [capacity] is the length of the array of [l_].  [None]: the array
    is written outside its bounds. *)
Record room := { capacity : Z; lsize : Z; lremain : Z }.

Definition emplace_back (r : room) : option room :=
  let r :=
    if (lremain r =? 0)%Z then
      let new_size := i32 (u32 (lsize r + lsize r)) in
      let new_size := if (60000 <? u32 (new_size - lsize r))%Z then i32 (u32 (lsize r + 60000)) else new_size in
      let new_size := if (new_size <? 4)%Z then 4%Z else new_size in
      {| capacity := new_size; lsize := lsize r; lremain := u16 (new_size - lsize r) |}
    else r in
  if (lsize r <? capacity r)%Z
  then Some {| capacity := capacity r; lsize := u32 (lsize r + 1); lremain := u16 (lremain r - 1) |}
  else None.

(** ** Values written *)

(** A number is an integer of 64 bits, a [float] or a [double]; the members of an object
    are in the order of its hash table. *)
Inductive wvalue :=
| WNull | WFalse | WTrue
| WSigned (n : Z) | WUnsigned (n : Z)
| WFloat (x : float64) | WDouble (x : float64)
| WString (s : string)
| WList (l : list wvalue)
| WObject (l : list (string * wvalue)).

Definition dump_string (str : string) : string := String quote (escape str +:+ String quote "").

(** *** Floating-point numbers *)

(** [%f]: six decimals, rounded to even. *)
Definition round_half_even (num den : Z) : Z :=
  let q := (num / den)%Z in
  let r := (num mod den)%Z in
  if (2 * r <? den)%Z then q else if (den <? 2 * r)%Z then (q + 1)%Z else if Z.even q then q else (q + 1)%Z.

Fixpoint zeros (n : nat) : string := match n with O => "" | S n => String "0" (zeros n) end.

Definition six_digits (n : Z) : string :=
  let d := pretty n in (zeros (6 - String.length d) +:+ d)%string.

(** A number in millionths. *)
Definition micro (m : positive) (e : Z) : Z :=
  match e with Zneg e => round_half_even (Zpos m * 10 ^ 6) (2 ^ Zpos e) | _ => (Zpos m * 2 ^ e * 10 ^ 6)%Z end.

(** Up to the 127 characters [outbuf] has room for. *)
Definition print_f (x : float64) : string :=
  match x with
  | S754_finite s m e =>
      let n := micro m e in
      let text := (pretty (n / 10 ^ 6)%Z +:+ String "." (six_digits (n mod 10 ^ 6)%Z)) in
      String.substring 0 127 (if s then String "-" text else text)
  | S754_zero s => if s then "-0.000000" else "0.000000"
  | _ => ""
  end.

(** The loop that looks for trailing zeros: [pos] counts characters, [first] is
    [pos_first_trailing_0]. *)
Inductive f_state := start_ | decp | zero_.

Fixpoint trailing_zeros (s : string) (state : f_state) (pos : nat) (first : option nat) : option nat :=
  match s with
  | EmptyString => first
  | String ch r =>
      match state with
      | start_ =>
          if Ascii.eqb ch "." then
            match r with
            | String fch r' => if Ascii.eqb fch "0" then trailing_zeros r' decp (pos + 2) first else trailing_zeros r decp (pos + 1) first
            | EmptyString => trailing_zeros r decp (pos + 1) first
            end
          else trailing_zeros r start_ (pos + 1) first
      | decp =>
          if Ascii.eqb ch "0" then trailing_zeros r zero_ (pos + 1) (Some pos) else trailing_zeros r decp (pos + 1) first
      | zero_ =>
          if Ascii.eqb ch "0" then trailing_zeros r zero_ (pos + 1) first else trailing_zeros r decp (pos + 1) None
      end
  end.

Definition trim (outbuf : string) : string :=
  match trailing_zeros outbuf start_ 0 None with Some n => String.substring 0 n outbuf | None => outbuf end.

Definition is_number (x : float64) : bool :=
  match x with S754_nan => false | S754_infinity _ => false | _ => true end.

Section Dump.
(** [%.*g] with [DECIMAL_DIG] digits, used for [double]. *)
Context (print_g : float64 -> string).
Context (indent : Z) (separator : ascii).

Fixpoint repeat_char (n : nat) (c : ascii) : string := match n with O => "" | S n => String c (repeat_char n c) end.

Definition dump_indentation_part (indent_level : Z) : string :=
  if (0 <=? indent)%Z then String "010" (repeat_char (Z.to_nat (indent_level * indent)) separator) else "".

(** The elements, a comma before all but the first. *)
Definition joined (part : string) (first : bool) (indent_level : Z) : string :=
  (if first then "" else String "," (dump_indentation_part (indent_level + 1))) +:+ part.

Fixpoint dump_internal (v : wvalue) (indent_level : Z) : string :=
  match v with
  | WNull => "null"
  | WFalse => "false"
  | WTrue => "true"
  | WSigned n => pretty n
  | WUnsigned n => pretty n
  | WFloat x => if is_number x then trim (print_f x) else "null"
  | WDouble x => if is_number x then trim (print_g x) else "null"
  | WString s => dump_string s
  | WList l =>
      "[" +:+ dump_indentation_part (indent_level + 1) +:+
      (fix elements (l : list wvalue) (first : bool) : string :=
         match l with
         | [] => ""
         | x :: l => joined (dump_internal x (indent_level + 1)) first indent_level +:+ elements l false
         end) l true +:+
      dump_indentation_part indent_level +:+ "]"
  | WObject l =>
      "{" +:+ dump_indentation_part (indent_level + 1) +:+
      (fix members (l : list (string * wvalue)) (first : bool) : string :=
         match l with
         | [] => ""
         | (k, x) :: l =>
             joined (dump_string k +:+ ":" +:+ (if (0 <=? indent)%Z then " " else "") +:+ dump_internal x (indent_level + 1))
               first indent_level +:+ members l false
         end) l true +:+
      dump_indentation_part indent_level +:+ "}"
  end.
End Dump.

(** [dump()]: no indentation. *)
Definition dump (print_g : float64 -> string) (v : wvalue) : string := dump_internal print_g (-1) " " v 0.
