(* ===== verification/CrowJsonProps.v ===== *)
(** * Properties of the JSON reader and writer.

    A grammar of the texts [CrowJson.load] accepts, the proof that it accepts exactly
    these and always ends, and what follows: texts that [dump] writes are read back,
    the unescaping in place computes what the grammar says, and lists grow within
    their arrays. *)

From Stdlib Require Import Ascii String.
From S2P Require Import Prelude Floats CrowJson.

Local Open Scope list_scope.
Local Open Scope string_scope.

(** * The grammar *)

(** White space. *)
Fixpoint blank (s : string) : Prop :=
  match s with EmptyString => True | String c r => is_ws c = true ∧ blank r end.

(** The characters of a string, and whether any is escaped. *)
Inductive raw_string : string -> bool -> Prop :=
| raw_end : raw_string "" false
| raw_char c r b :
    c ≠ quote -> c ≠ backslash -> c ≠ NUL -> raw_string r b -> raw_string (String c r) b
| raw_simple e x r b :
    simple_escape e = Some x -> raw_string r b -> raw_string (String backslash (String e r)) true
| raw_code h1 h2 h3 h4 r b :
    is_hex h1 = true -> is_hex h2 = true -> is_hex h3 = true -> is_hex h4 = true -> raw_string r b ->
    raw_string (String backslash (String "u" (String h1 (String h2 (String h3 (String h4 r)))))) true.

(** The automaton of the numbers, one character at a time. *)
Fixpoint run (state : nat) (s : string) : option nat :=
  match s with
  | EmptyString => Some state
  | String c r => '(table, _) ← number_char c; run (entry table state) r
  end.

Definition number_text (s : string) : Prop := ∃ q, run 0 s = Some q ∧ accepting q = true.

(** Texts of values in lists [depth] deep, of the elements of a list, and of the
    members of an object. *)
Inductive value_text : N -> string -> rvalue -> Prop :=
| text_null d : value_text d "null" RNull
| text_false d : value_text d "false" RFalse
| text_true d : value_text d "true" RTrue
| text_number d s : number_text s -> value_text d s (RNumber s)
| text_string d s b : raw_string s b -> value_text d (String quote (s +:+ String quote "")) (RString s b)
| text_empty_list d w : (d + 1 <= max_depth)%N -> blank w -> value_text d ("[" +:+ w +:+ "]") (RList [])
| text_list d w s l :
    (d + 1 <= max_depth)%N -> blank w -> elements_text (d + 1) s l -> value_text d ("[" +:+ w +:+ s +:+ "]") (RList l)
| text_empty_object d w : (d + 1 <= max_depth)%N -> blank w -> value_text d ("{" +:+ w +:+ "}") (RObject [])
| text_object d w s l :
    (d + 1 <= max_depth)%N -> blank w -> members_text (d + 1) s l -> value_text d ("{" +:+ w +:+ s +:+ "}") (RObject l)
with elements_text : N -> string -> list rvalue -> Prop :=
| element_last d s v w : value_text (d + 1) s v -> blank w -> elements_text d (s +:+ w) [v]
| element_more d s v w w' s' l :
    value_text (d + 1) s v -> blank w -> blank w' -> elements_text d s' l ->
    elements_text d (s +:+ w +:+ "," +:+ w' +:+ s') (v :: l)
with members_text : N -> string -> list (string * rvalue) -> Prop :=
| member_last d k b w1 w2 s v w :
    raw_string k b -> blank w1 -> blank w2 -> value_text (d + 1) s v -> blank w ->
    members_text d (String quote (k +:+ String quote (w1 +:+ ":" +:+ w2 +:+ s +:+ w))) [(string_of k b, v)]
| member_more d k b w1 w2 s v w w' s' l :
    raw_string k b -> blank w1 -> blank w2 -> value_text (d + 1) s v -> blank w -> blank w' -> members_text d s' l ->
    members_text d (String quote (k +:+ String quote (w1 +:+ ":" +:+ w2 +:+ s +:+ w +:+ "," +:+ w' +:+ s')))
      ((string_of k b, v) :: l).

Scheme value_text_mut := Minimality for value_text Sort Prop
with elements_text_mut := Minimality for elements_text Sort Prop
with members_text_mut := Minimality for members_text Sort Prop.

Combined Scheme text_ind from value_text_mut, elements_text_mut, members_text_mut.

Module CrowJsonProps.

#[local] Arguments String.append !_ _ / : simpl nomatch.

(** ** Strings *)

Lemma append_assoc (a b c : string) : (a +:+ b) +:+ c = a +:+ (b +:+ c).
Proof. induction a as [|x a IH]; cbn; [done|]. by rewrite IH. Qed.

(** Concatenations, to the right. *)
Ltac flat := repeat progress (cbn [String.append]; rewrite ?append_assoc).

Lemma append_nil (a : string) : a +:+ "" = a.
Proof. induction a as [|x a IH]; cbn; [done|]. by rewrite IH. Qed.

Lemma append_length (a b : string) : String.length (a +:+ b) = (String.length a + String.length b)%nat.
Proof. induction a as [|x a IH]; cbn; [done|]. by rewrite IH. Qed.

Lemma ws_skip_blank w s : blank w -> is_ws (peek s) = false -> ws_skip (w +:+ s) = s.
Proof.
  induction w as [|c w IH]; cbn.
  - intros _. destruct s as [|c s]; [done|]. cbn. by intros ->.
  - intros [-> Hw]. by apply IH.
Qed.

Lemma ws_skip_split s : ∃ w, blank w ∧ s = w +:+ ws_skip s ∧ is_ws (peek (ws_skip s)) = false.
Proof.
  induction s as [|c s (w & Hw & E & Hp)]; cbn; [by exists ""|].
  destruct (is_ws c) eqn:Ec; [|by exists ""]. exists (String c w). split; [done|]. split; [|done]. cbn. by f_equal.
Qed.

Lemma consume_spec c s r : consume c s = Some r <-> s = String c r.
Proof.
  destruct s as [|c' s]; cbn; [done|]. destruct (Ascii.eqb_spec c' c) as [->|Hne]; split; congruence.
Qed.

Lemma starts_spec w s r : starts w s = Some r <-> s = w +:+ r.
Proof.
  revert s. induction w as [|a w IH]; intros s; cbn; [split; congruence|].
  destruct s as [|b s]; [done|]. destruct (Ascii.eqb_spec a b) as [->|Hne]; [|split; congruence].
  rewrite IH. split; congruence.
Qed.

Lemma eqb_self c : Ascii.eqb c c = true.
Proof. apply Ascii.eqb_refl. Qed.

Lemma simple_escape_not_u : simple_escape "u" = None.
Proof. reflexivity. Qed.

Lemma scan_complete raw b : raw_string raw b -> ∀ rest e, scan_string (raw +:+ String quote rest) e = Some (raw, e || b, rest).
Proof.
  induction 1 as [|c r b H1 H2 H3 _ IH|e x r b He _ IH|h1 h2 h3 h4 r b E1 E2 E3 E4 _ IH]; intros rest esc.
  - cbn. by rewrite orb_false_r.
  - cbn. apply Ascii.eqb_neq in H1, H2, H3. rewrite H1, H2, H3, IH. done.
  - change (scan_string (String backslash (String e (r +:+ String quote rest))) esc = Some (String backslash (String e r), esc || true, rest)).
    cbn [scan_string]. rewrite eqb_self. change (Ascii.eqb backslash quote) with false. cbn iota.
    destruct (Ascii.eqb_spec e "u") as [->|_]; [done|]. rewrite He, IH. cbn. by rewrite orb_true_r.
  - cbn. rewrite E1, E2, E3, E4. cbn. rewrite IH. cbn. by rewrite orb_true_r.
Qed.

(** Induction on the length of a text. *)
Lemma text_length_ind (P : string -> Prop) :
  (∀ s, (∀ s', (String.length s' < String.length s)%nat -> P s') -> P s) -> ∀ s, P s.
Proof.
  intros H s. remember (String.length s) as n eqn:E. revert s E. induction (lt_wf n) as [n _ IH]. intros s ->.
  apply H. intros s' Hs. by apply (IH (String.length s')).
Qed.

Lemma scan_sound s : ∀ e raw esc rest, scan_string s e = Some (raw, esc, rest) ->
  ∃ b, raw_string raw b ∧ esc = e || b ∧ s = raw +:+ String quote rest.
Proof.
  induction s as [s IH] using text_length_ind. intros e raw esc rest. destruct s as [|c r]; [done|]. cbn [scan_string].
  destruct (Ascii.eqb_spec c quote) as [->|Hq].
  { intros [= <- <- <-]. exists false. rewrite orb_false_r. split; [constructor|done]. }
  destruct (Ascii.eqb_spec c backslash) as [->|Hb].
  - destruct r as [|e' r]; [done|]. destruct (Ascii.eqb_spec e' "u") as [->|Hu].
    + destruct r as [|h1 [|h2 [|h3 [|h4 r]]]]; try done.
      destruct (is_hex h1 && is_hex h2 && is_hex h3 && is_hex h4) eqn:Hh; [|done]. rewrite !andb_true_iff in Hh.
      destruct Hh as [[[? ?] ?] ?]. destruct (scan_string r true) as [[[raw' esc'] rest']|] eqn:E; [|done]. cbn.
      intros [= <- <- <-]. apply IH in E as (b & Hr & -> & ->); [|cbn; lia]. exists true. rewrite orb_true_r.
      split; [by eapply raw_code|done].
    + destruct (simple_escape e') as [x|] eqn:Es; [|done]. destruct (scan_string r true) as [[[raw' esc'] rest']|] eqn:E; [|done]. cbn.
      intros [= <- <- <-]. apply IH in E as (b & Hr & -> & ->); [|cbn; lia]. exists true. rewrite orb_true_r.
      split; [by eapply raw_simple|done].
  - destruct (Ascii.eqb_spec c NUL) as [->|Hn]; [done|]. destruct (scan_string r e) as [[[raw' esc'] rest']|] eqn:E; [|done]. cbn.
    intros [= <- <- <-]. apply IH in E as (b & Hr & -> & ->); [|cbn; lia]. exists b. split; [by constructor|done].
Qed.

Lemma decode_string_spec s raw esc rest :
  decode_string s = Some (raw, esc, rest) <-> raw_string raw esc ∧ s = String quote (raw +:+ String quote rest).
Proof.
  unfold decode_string. split.
  - destruct (consume quote s) as [r|] eqn:E; [|done]. cbn. apply consume_spec in E as ->.
    intros (b & Hr & -> & ->)%scan_sound. done.
  - intros [Hr ->]. cbn. by rewrite (scan_complete raw esc Hr).
Qed.

(** ** Numbers *)

(** The states digits do not leave. *)
Definition stays (q : nat) : bool := bool_decide (q ∈ [3; 4; 6; 7]%nat).

Lemma digit_char c : is_digit c = true -> ∃ sk, number_char c = Some (on_zero, sk) ∨ number_char c = Some (on_digit, sk).
Proof. intros Hd. unfold number_char. destruct (Ascii.eqb c "0"); [eauto|]. rewrite Hd. eauto. Qed.

Lemma stays_digit q : stays q = true -> entry on_zero q = q ∧ entry on_digit q = q.
Proof. intros Hq. apply bool_decide_eq_true in Hq. repeat (apply elem_of_cons in Hq as [->|Hq]; [done|]). by apply not_elem_of_nil in Hq. Qed.

Lemma number_char_skip c table : number_char c = Some (table, true) -> table = on_digit.
Proof. unfold number_char. repeat case_match; congruence. Qed.

Lemma on_digit_stays q : (q <= 7)%nat -> stays (entry on_digit q) = true.
Proof. intros Hq. do 8 (destruct q as [|q]; [reflexivity|]). lia. Qed.

Definition tables : list (list nat) := [on_zero; on_digit; on_point; on_minus; on_plus; on_e].

Lemma number_char_table c table sk : number_char c = Some (table, sk) -> table ∈ tables.
Proof. unfold number_char, tables. repeat case_match; intros [= <- <-]; set_solver. Qed.

Lemma entry_range table q : table ∈ tables -> (q <= 7)%nat -> (entry table q <= 7)%nat ∧ (q = Invalid -> entry table q = Invalid).
Proof.
  intros Ht Hq. unfold tables in Ht. repeat (apply elem_of_cons in Ht as [->|Ht]; [do 8 (destruct q as [|q]; [by split; [vm_compute; lia|]|]); lia|]).
  by apply not_elem_of_nil in Ht.
Qed.

Lemma entry_invalid table : table ∈ tables -> entry table Invalid = Invalid.
Proof. intros Ht. by apply (entry_range table Invalid Ht). Qed.

Lemma run_invalid s q : run Invalid s = Some q -> q = Invalid.
Proof.
  induction s as [|c s IH]; cbn [run]; [congruence|]. destruct (number_char c) as [[table sk]|] eqn:Ec; [|done]. cbn [mbind option_bind].
  apply number_char_table in Ec. rewrite (entry_invalid table Ec). exact IH.
Qed.

Lemma number_complete t : ∀ q sk rest q',
  (q <= 7)%nat -> (sk = true -> stays q = true) -> run q t = Some q' -> accepting q' = true -> number_char (peek rest) = None ->
  decode_number q sk (t +:+ rest) = Some (t, rest).
Proof.
  induction t as [|c t IH]; intros q sk rest q' Hq Hsk Hr Ha Hn.
  - cbn in Hr. injection Hr as ->. cbn. destruct rest as [|c rest]; cbn [decode_number]; [by rewrite Ha|]. cbn in Hn.
    assert (Hd : is_digit c = false).
    { destruct (is_digit c) eqn:E; [|done]. apply digit_char in E as [? [E|E]]; congruence. }
    rewrite Hd, andb_false_r. destruct (Nat.eqb_spec q' Invalid) as [->|_]; [done|]. by rewrite Hn, Ha.
  - cbn [run] in Hr. destruct (number_char c) as [[table sk']|] eqn:Ec; [|done]. cbn [mbind option_bind] in Hr.
    pose proof (entry_range table q (number_char_table _ _ _ Ec) Hq) as [Hle _].
    change (String c t +:+ rest) with (String c (t +:+ rest)). cbn [decode_number]. destruct (sk && is_digit c) eqn:Es.
    + apply andb_true_iff in Es as [-> Hd]. specialize (Hsk eq_refl).
      assert (Eq : entry table q = q).
      { destruct (stays_digit q Hsk). apply digit_char in Hd as [? [E|E]]; rewrite E in Ec; by injection Ec as <- <-. }
      rewrite Eq in Hr. by rewrite (IH q true rest q').
    + destruct (Nat.eqb_spec q Invalid) as [->|Hne].
      { rewrite (entry_invalid table (number_char_table _ _ _ Ec)) in Hr. by apply run_invalid in Hr as ->. }
      rewrite Ec, (IH (entry table q) sk' rest q'); [done|done| |done|done|done].
      intros ->. apply number_char_skip in Ec as ->. by apply on_digit_stays.
Qed.

Lemma number_sound s : ∀ q sk t rest,
  (q <= 7)%nat -> (sk = true -> stays q = true) -> decode_number q sk s = Some (t, rest) ->
  s = t +:+ rest ∧ number_char (peek rest) = None ∧ ∃ q', run q t = Some q' ∧ accepting q' = true.
Proof.
  induction s as [|c s IH]; intros q sk t rest Hq Hsk; cbn [decode_number].
  - destruct (accepting q) eqn:Ha; [|done]. intros [= <- <-]. split; [done|]. split; [reflexivity|]. by exists q.
  - destruct (sk && is_digit c) eqn:Es.
    + apply andb_true_iff in Es as [-> Hd]. specialize (Hsk eq_refl).
      destruct (decode_number q true s) as [[t' rest']|] eqn:E; [|done]. cbn. intros [= <- <-].
      apply IH in E as (-> & Hn & q' & Hr & Ha); [|done|done]. split; [done|]. split; [done|]. exists q'. split; [|done].
      destruct (stays_digit q Hsk) as [E1 E2]. apply digit_char in Hd as [sk [E|E]]; cbn [run]; rewrite E; cbn [mbind option_bind];
        by rewrite ?E1, ?E2.
    + destruct (Nat.eqb_spec q Invalid); [done|]. destruct (number_char c) as [[table sk']|] eqn:Ec.
      * pose proof (entry_range table q (number_char_table _ _ _ Ec) Hq) as [Hle _].
        destruct (decode_number (entry table q) sk' s) as [[t' rest']|] eqn:E; [|done]. cbn. intros [= <- <-].
        apply IH in E as (-> & Hn & q' & Hr & Ha); [|done|].
        -- split; [done|]. split; [done|]. exists q'. cbn [run]. by rewrite Ec.
        -- intros ->. apply number_char_skip in Ec as ->. by apply on_digit_stays.
      * destruct (accepting q) eqn:Ha; [|done]. intros [= <- <-]. split; [done|]. split; [done|]. by exists q.
Qed.

(** ** The parser *)

(** A number ends where no character of a number follows. *)
Definition follow (v : rvalue) (rest : string) : Prop :=
  match v with RNumber _ => number_char (peek rest) = None | _ => True end.

(** The parts of [decode_value] that do not recur. *)
Definition decode_plain (s : string) : parsed rvalue :=
  let c := peek s in
  if Ascii.eqb c quote then
    match decode_string s with Some (raw, esc, rest) => Done (RString raw esc) rest | None => Bad end
  else if Ascii.eqb c "t" then literal "true" RTrue s
  else if Ascii.eqb c "f" then literal "false" RFalse s
  else if Ascii.eqb c "n" then literal "null" RNull s
  else of_option ('(text, rest) ← decode_number 0 false s; Some (RNumber text, rest)).

Definition decode_open (close : ascii) (empty : rvalue) (depth : N) (loop : N -> string -> parsed rvalue) (s : string) : parsed rvalue :=
  if (max_depth <? depth + 1)%N then Bad
  else
    let s := ws_skip (advance s) in
    if Ascii.eqb (peek s) close then Done empty (advance s) else loop (depth + 1)%N s.

Lemma decode_value_S f d s :
  decode_value (S f) d s =
  if Ascii.eqb (peek s) "[" then decode_open "]" (RList []) d (fun d s => list_loop f d s []) s
  else if Ascii.eqb (peek s) "{" then decode_open "}" (RObject []) d (fun d s => object_loop f d s []) s
  else decode_plain s.
Proof. reflexivity. Qed.

(** What comes after an element. *)
Definition after (close : ascii) (s : string) : option (bool * string) :=
  let s := ws_skip s in
  match consume close s with
  | Some s => Some (true, s)
  | None => match consume "," s with Some s => Some (false, ws_skip s) | None => None end
  end.

Lemma list_loop_S f d s acc :
  list_loop (S f) d s acc =
  match decode_value f (d + 1) s with
  | Done v s =>
      match after "]" s with
      | Some (true, s) => Done (RList (acc ++ [v])%list) s
      | Some (false, s) => list_loop f d s (acc ++ [v])%list
      | None => Bad
      end
  | Bad => Bad
  | OutOfFuel => OutOfFuel
  end.
Proof.
  cbn [list_loop]. fold decode_value list_loop. destruct (decode_value f (d + 1) s) as [v r| |]; [|done|done].
  unfold after. destruct (consume "]" (ws_skip r)); [done|]. by destruct (consume "," (ws_skip r)).
Qed.

(** A key and its colon. *)
Definition decode_key (s : string) : option (string * string) :=
  '(raw, esc, s) ← decode_string s; s ← consume ":" (ws_skip s); Some (string_of raw esc, ws_skip s).

Lemma object_loop_S f d s acc :
  object_loop (S f) d s acc =
  match decode_key s with
  | Some (key, s) =>
      match decode_value f (d + 1) s with
      | Done v s =>
          match after "}" s with
          | Some (true, s) => Done (RObject (acc ++ [(key, v)])%list) s
          | Some (false, s) => object_loop f d s (acc ++ [(key, v)])%list
          | None => Bad
          end
      | Bad => Bad
      | OutOfFuel => OutOfFuel
      end
  | None => Bad
  end.
Proof.
  cbn [object_loop]. fold decode_value object_loop. unfold decode_key. destruct (decode_string s) as [[[raw esc] r]|]; [|done]. cbn [mbind option_bind].
  destruct (consume ":" (ws_skip r)) as [r'|]; [|done]. cbn [mbind option_bind].
  destruct (decode_value f (d + 1) (ws_skip r')) as [v r''| |]; [|done|done].
  unfold after. destruct (consume "}" (ws_skip r'')); [done|]. by destruct (consume "," (ws_skip r'')).
Qed.

#[local] Opaque decode_value list_loop object_loop.

(** *** More fuel changes nothing *)

Lemma fuel_step f :
  (∀ d s, decode_value f d s ≠ OutOfFuel -> decode_value (S f) d s = decode_value f d s) ∧
  (∀ d s acc, list_loop f d s acc ≠ OutOfFuel -> list_loop (S f) d s acc = list_loop f d s acc) ∧
  (∀ d s acc, object_loop f d s acc ≠ OutOfFuel -> object_loop (S f) d s acc = object_loop f d s acc).
Proof.
  induction f as [|f (IHv & IHl & IHo)].
  { split_and!; intros; exfalso; by match goal with H : _ ≠ OutOfFuel |- _ => apply H end. }
  split_and!.
  - intros d s. rewrite (decode_value_S (S f)), (decode_value_S f). unfold decode_open. repeat case_match; try done; [apply IHl|apply IHo].
  - intros d s acc. rewrite (list_loop_S (S f)), (list_loop_S f). destruct (decode_value f (d + 1) s) as [v r| |] eqn:E.
    + rewrite IHv, E by (by rewrite E). destruct (after "]" r) as [[[] r']|]; [done|apply IHl|done].
    + rewrite IHv, E by (by rewrite E). done.
    + by intros [].
  - intros d s acc. rewrite (object_loop_S (S f)), (object_loop_S f). destruct (decode_key s) as [[k r]|]; [|done].
    destruct (decode_value f (d + 1) r) as [v r'| |] eqn:E.
    + rewrite IHv, E by (by rewrite E). destruct (after "}" r') as [[[] r'']|]; [done|apply IHo|done].
    + rewrite IHv, E by (by rewrite E). done.
    + by intros [].
Qed.

Lemma fuel_more f f' :
  (f <= f')%nat ->
  (∀ d s, decode_value f d s ≠ OutOfFuel -> decode_value f' d s = decode_value f d s) ∧
  (∀ d s acc, list_loop f d s acc ≠ OutOfFuel -> list_loop f' d s acc = list_loop f d s acc) ∧
  (∀ d s acc, object_loop f d s acc ≠ OutOfFuel -> object_loop f' d s acc = object_loop f d s acc).
Proof.
  induction 1 as [|f' _ (IHv & IHl & IHo)]; [done|]. destruct (fuel_step f') as (Sv & Sl & So).
  split_and!; intros; [rewrite <- IHv by done; apply Sv|rewrite <- IHl by done; apply Sl|rewrite <- IHo by done; apply So];
    by rewrite ?IHv, ?IHl, ?IHo.
Qed.

(** *** What is accepted is in the grammar *)

Lemma peek_spec c s : c ≠ NUL -> peek s = c -> s = String c (advance s).
Proof. destruct s as [|c' s]; cbn; intros Hn E; [by destruct Hn|by subst]. Qed.

Lemma literal_sound word v s v' rest : literal word v s = Done v' rest -> v' = v ∧ s = word +:+ rest.
Proof. unfold literal. destruct (starts word s) eqn:E; [|done]. intros [= <- <-]. split; [done|by apply starts_spec]. Qed.

Lemma number_nonempty t : number_text t -> t ≠ "".
Proof. intros (q & E & Ha) ->. cbn in E. by injection E as <-. Qed.

Lemma decode_plain_sound d s v rest :
  decode_plain s = Done v rest -> ∃ t, value_text d t v ∧ s = t +:+ rest ∧ follow v rest ∧ t ≠ "".
Proof.
  unfold decode_plain. destruct (Ascii.eqb (peek s) quote).
  { destruct (decode_string s) as [[[raw esc] r]|] eqn:E; [|done]. intros [= <- <-]. apply decode_string_spec in E as [Hr ->].
    eexists. split; [by apply text_string|]. cbn. by rewrite append_assoc. }
  destruct (Ascii.eqb (peek s) "t"); [intros [-> ->]%literal_sound; exists "true"; repeat (split; [by constructor|]); done|].
  destruct (Ascii.eqb (peek s) "f"); [intros [-> ->]%literal_sound; exists "false"; repeat (split; [by constructor|]); done|].
  destruct (Ascii.eqb (peek s) "n"); [intros [-> ->]%literal_sound; exists "null"; repeat (split; [by constructor|]); done|].
  destruct (decode_number 0 false s) as [[t r]|] eqn:E; [|done]. cbn. intros [= <- <-].
  apply number_sound in E as (-> & Hn & q & Hr & Ha); [|lia|done]. exists t.
  assert (Ht : number_text t) by by exists q. split; [by constructor|]. split; [done|]. split; [done|]. by apply number_nonempty.
Qed.

Lemma after_sound close s b r :
  after close s = Some (b, r) ->
  ∃ w, blank w ∧ if b then s = w +:+ String close r else ∃ w', blank w' ∧ s = w +:+ "," +:+ w' +:+ r ∧ is_ws (peek r) = false.
Proof.
  unfold after. destruct (ws_skip_split s) as (w & Hw & E & _). destruct (consume close (ws_skip s)) as [r'|] eqn:Ec.
  - intros [= <- <-]. apply consume_spec in Ec. rewrite Ec in E. by exists w.
  - destruct (consume "," (ws_skip s)) as [r'|] eqn:Ec'; [|done]. intros [= <- <-]. apply consume_spec in Ec'. rewrite Ec' in E.
    destruct (ws_skip_split r') as (w' & Hw' & E' & Hp). exists w. split; [done|]. exists w'. rewrite E at 1. rewrite E' at 1. done.
Qed.

Lemma decode_key_sound s k r :
  decode_key s = Some (k, r) ->
  ∃ raw b w1 w2, k = string_of raw b ∧ raw_string raw b ∧ blank w1 ∧ blank w2 ∧
    s = String quote (raw +:+ String quote (w1 +:+ ":" +:+ w2 +:+ r)).
Proof.
  unfold decode_key. destruct (decode_string s) as [[[raw b] r1]|] eqn:E; [|done]. cbn [mbind option_bind].
  apply decode_string_spec in E as [Hr ->]. destruct (ws_skip_split r1) as (w1 & Hw1 & E1 & _).
  destruct (consume ":" (ws_skip r1)) as [r2|] eqn:Ec; [|done]. cbn [mbind option_bind]. intros [= <- <-].
  apply consume_spec in Ec. rewrite Ec in E1. destruct (ws_skip_split r2) as (w2 & Hw2 & E2 & _).
  exists raw, b, w1, w2. split_and!; [done..|]. rewrite E1 at 1. rewrite E2 at 1. done.
Qed.

Lemma decode_open_sound close empty d loop s v rest :
  close ≠ NUL -> decode_open close empty d loop s = Done v rest ->
  (d + 1 <= max_depth)%N ∧ ∃ w, blank w ∧
    ((v = empty ∧ advance s = w +:+ String close rest) ∨
     ∃ s', advance s = w +:+ s' ∧ loop (d + 1)%N s' = Done v rest).
Proof.
  intros Hc. unfold decode_open. destruct (N.ltb_spec max_depth (d + 1)) as [|Hd]; [done|].
  destruct (ws_skip_split (advance s)) as (w & Hw & E & _). destruct (Ascii.eqb_spec (peek (ws_skip (advance s))) close) as [Ep|].
  - intros [= <- <-]. split; [done|]. exists w. split; [done|]. left. split; [done|].
    apply peek_spec in Ep; [|done]. by rewrite Ep in E.
  - intros El. split; [done|]. exists w. split; [done|]. right. eauto.
Qed.

Lemma decode_sound f :
  (∀ d s v rest, decode_value f d s = Done v rest ->
     ∃ t, value_text d t v ∧ s = t +:+ rest ∧ follow v rest ∧ t ≠ "") ∧
  (∀ d s acc v rest, list_loop f d s acc = Done v rest ->
     ∃ t l, elements_text d t l ∧ s = t +:+ String "]" rest ∧ v = RList (acc ++ l)%list) ∧
  (∀ d s acc v rest, object_loop f d s acc = Done v rest ->
     ∃ t l, members_text d t l ∧ s = t +:+ String "}" rest ∧ v = RObject (acc ++ l)%list).
Proof.
  induction f as [|f (IHv & IHl & IHo)]; [by split_and!|]. split_and!.
  - intros d s v rest. rewrite decode_value_S. destruct (Ascii.eqb_spec (peek s) "[") as [Ep|_].
    { apply peek_spec in Ep; [|done]. intros (Hd & w & Hw & [[-> E]|(s' & E & El)])%decode_open_sound; [| |done]; rewrite E in Ep.
      - exists ("[" +:+ w +:+ "]"). split; [by apply text_empty_list|]. rewrite Ep. cbn. by rewrite append_assoc.
      - apply IHl in El as (t & l & Ht & -> & ->). exists ("[" +:+ w +:+ t +:+ "]"). split; [by apply text_list|]. rewrite Ep. cbn.
        by rewrite !append_assoc. }
    destruct (Ascii.eqb_spec (peek s) "{") as [Ep|_]; [|apply decode_plain_sound].
    apply peek_spec in Ep; [|done]. intros (Hd & w & Hw & [[-> E]|(s' & E & El)])%decode_open_sound; [| |done]; rewrite E in Ep.
    + exists ("{" +:+ w +:+ "}"). split; [by apply text_empty_object|]. rewrite Ep. cbn. by rewrite append_assoc.
    + apply IHo in El as (t & l & Ht & -> & ->). exists ("{" +:+ w +:+ t +:+ "}"). split; [by apply text_object|]. rewrite Ep. cbn.
      by rewrite !append_assoc.
  - intros d s acc v rest. rewrite list_loop_S. destruct (decode_value f (d + 1) s) as [v1 r| |] eqn:E; [|done|done].
    apply IHv in E as (t & Ht & -> & _ & _). destruct (after "]" r) as [[b r']|] eqn:Ea; [|done].
    apply after_sound in Ea as (w & Hw & Er). destruct b.
    + intros [= <- <-]. exists (t +:+ w), [v1]. split; [by apply element_last|]. by rewrite Er, append_assoc.
    + destruct Er as (w' & Hw' & -> & _). intros (t' & l & Ht' & -> & ->)%IHl.
      exists (t +:+ w +:+ "," +:+ w' +:+ t'), (v1 :: l). split; [by apply element_more|]. rewrite !append_assoc. split; [done|].
      by rewrite <- app_assoc.
  - intros d s acc v rest. rewrite object_loop_S. destruct (decode_key s) as [[k r0]|] eqn:Ek; [|done].
    apply decode_key_sound in Ek as (raw & b0 & w1 & w2 & -> & Hraw & Hw1 & Hw2 & ->).
    destruct (decode_value f (d + 1) r0) as [v1 r| |] eqn:E; [|done|done].
    apply IHv in E as (t & Ht & -> & _ & _). destruct (after "}" r) as [[b r']|] eqn:Ea; [|done].
    apply after_sound in Ea as (w & Hw & Er). destruct b.
    + intros [= <- <-]. eexists _, _. split; [by apply (member_last d raw b0 w1 w2 t v1 w)|]. split; [|done]. rewrite Er. by flat.
    + destruct Er as (w' & Hw' & -> & _). intros (t' & l & Ht' & -> & ->)%IHo.
      eexists _, _. split; [by apply (member_more d raw b0 w1 w2 t v1 w w' t' l)|]. split; [|by rewrite <- app_assoc]. by flat.
Qed.

(** *** The parser ends *)

Lemma ws_skip_length s : (String.length (ws_skip s) <= String.length s)%nat.
Proof. destruct (ws_skip_split s) as (w & _ & E & _). rewrite E at 2. rewrite append_length. lia. Qed.

Lemma nonempty_length t : t ≠ "" -> (0 < String.length t)%nat.
Proof. destruct t; [done|]. cbn. lia. Qed.

Lemma decode_total f :
  (∀ d s, (2 * String.length s + 1 <= f)%nat -> decode_value f d s ≠ OutOfFuel) ∧
  (∀ d s acc, (2 * String.length s + 2 <= f)%nat -> list_loop f d s acc ≠ OutOfFuel) ∧
  (∀ d s acc, (2 * String.length s + 2 <= f)%nat -> object_loop f d s acc ≠ OutOfFuel).
Proof.
  induction f as [|f (IHv & IHl & IHo)]; [split_and!; intros; lia|].
  assert (Hopen : ∀ c close empty d loop s, c ≠ NUL -> peek s = c -> (2 * String.length s + 1 <= S f)%nat ->
    (∀ d s, (2 * String.length s + 2 <= f)%nat -> loop d s ≠ OutOfFuel) -> decode_open close empty d loop s ≠ OutOfFuel).
  { intros c close empty d loop s Hc Ep Hf Hl. unfold decode_open. destruct (max_depth <? d + 1)%N; [done|].
    destruct (Ascii.eqb _ close); [done|]. apply Hl. apply peek_spec in Ep; [|done]. rewrite Ep in Hf. cbn in Hf.
    pose proof (ws_skip_length (advance s)). lia. }
  split_and!.
  - intros d s Hf. rewrite decode_value_S. destruct (Ascii.eqb_spec (peek s) "[") as [Ep|_].
    { apply (Hopen "["%char); [done..|]. intros. by apply IHl. }
    destruct (Ascii.eqb_spec (peek s) "{") as [Ep|_].
    { apply (Hopen "{"%char); [done..|]. intros. by apply IHo. }
    unfold decode_plain, literal. destruct (decode_string s) as [[[??]?]|], (decode_number 0 false s) as [[??]|], (starts _ s), (starts _ s), (starts _ s);
      repeat case_match; done.
  - intros d s acc Hf. rewrite list_loop_S. pose proof (IHv (d + 1)%N s ltac:(lia)) as Hv.
    destruct (decode_value f (d + 1) s) as [v r| |] eqn:E; [|done|done].
    apply (proj1 (decode_sound f)) in E as (t & _ & -> & _ & Ht%nonempty_length). rewrite append_length in Hf.
    destruct (after "]" r) as [[[] r']|] eqn:Ea; [done| |done]. apply after_sound in Ea as (w & _ & w' & _ & -> & _).
    apply IHl. rewrite !append_length in Hf. cbn in Hf. rewrite ?append_length in Hf. lia.
  - intros d s acc Hf. rewrite object_loop_S. destruct (decode_key s) as [[k r0]|] eqn:Ek; [|done].
    apply decode_key_sound in Ek as (raw & b0 & w1 & w2 & -> & _ & _ & _ & ->).
    assert (Hr0 : (2 * String.length r0 + 4 <= f)%nat).
    { revert Hf. cbn [String.length]. rewrite append_length. cbn [String.length]. rewrite !append_length. cbn [String.length]. rewrite ?append_length. lia. }
    pose proof (IHv (d + 1)%N r0 ltac:(lia)) as Hv.
    destruct (decode_value f (d + 1) r0) as [v r| |] eqn:E; [|done|done].
    apply (proj1 (decode_sound f)) in E as (t & _ & -> & _ & Ht%nonempty_length). rewrite append_length in Hr0.
    destruct (after "}" r) as [[[] r']|] eqn:Ea; [done| |done]. apply after_sound in Ea as (w & _ & w' & _ & -> & _).
    apply IHo. rewrite !append_length in Hr0. cbn in Hr0. rewrite ?append_length in Hr0. lia.
Qed.

(** *** What is in the grammar is accepted *)

(** The first character of a value. *)
Definition opens (c : ascii) : Prop := is_ws c = false ∧ c ≠ "]"%char ∧ c ≠ "}"%char ∧ c ≠ NUL.

Lemma number_char_opens c x : number_char c = Some x -> opens c ∧ c ≠ "["%char ∧ c ≠ "{"%char ∧ c ≠ quote ∧ c ≠ "t"%char ∧ c ≠ "f"%char ∧ c ≠ "n"%char.
Proof. intros Hc. unfold opens. split_and!; [destruct (is_ws c) eqn:E; [|done]|intros ->..]; try done. 
  unfold is_ws in E. rewrite !orb_true_iff, !Ascii.eqb_eq in E. by destruct E as [[[->| ->]| ->]| ->].
Qed.

Lemma number_head t : number_text t -> ∃ c r x, t = String c r ∧ number_char c = Some x.
Proof.
  intros Ht. pose proof (number_nonempty t Ht). destruct Ht as (q & E & _). destruct t as [|c r]; [done|]. cbn in E.
  destruct (number_char c) eqn:Ec; [|done]. eauto 6.
Qed.

Lemma value_head d t v : value_text d t v -> ∃ c r, t = String c r ∧ opens c.
Proof.
  destruct 1; try (eexists _, _; split; [reflexivity|]; by unfold opens).
  destruct (number_head s H) as (c & r & x & -> & Hc). exists c, r. split; [done|]. by apply (number_char_opens c x).
Qed.

Lemma elements_head d t l : elements_text d t l -> ∃ c r, t = String c r ∧ opens c.
Proof. destruct 1 as [d s v w Hv|d s v w w' s' l Hv]; destruct (value_head _ _ _ Hv) as (c & r & -> & Hc); eexists _, _; by split. Qed.

Lemma members_head d t l : members_text d t l -> ∃ r, t = String quote r.
Proof. destruct 1; by eexists. Qed.

Lemma decode_plain_complete d t v rest :
  value_text d t v -> follow v rest -> match v with RList _ | RObject _ => False | _ => True end ->
  ∀ f, decode_value (S f) d (t +:+ rest) = Done v rest.
Proof.
  intros Ht Hf Hv f. rewrite decode_value_S. destruct Ht as [| | |d t Hn|d t b Hr| | | |]; try done.
  - destruct (number_head t Hn) as (c & r & x & -> & Hc). destruct (number_char_opens c x Hc) as (_ & H1 & H2 & H3 & H4 & H5 & H6).
    apply Ascii.eqb_neq in H1, H2, H3, H4, H5, H6. cbn [String.append peek]. rewrite H1, H2. unfold decode_plain. cbn [peek]. rewrite H3, H4, H5, H6.
    destruct Hn as (q & Hq & Ha). change (String c (r +:+ rest)) with (String c r +:+ rest).
    by rewrite (number_complete (String c r) 0 false rest q) by (done || lia).
  - cbn [String.append peek]. change (Ascii.eqb quote "[") with false. change (Ascii.eqb quote "{") with false. unfold decode_plain. cbn [peek].
    rewrite eqb_self. rewrite (proj2 (decode_string_spec _ t b rest)); [done|]. split; [done|]. by flat.
Qed.

Lemma opens_peek c r s : opens c -> is_ws (peek (String c r +:+ s)) = false.
Proof. by intros [? _]. Qed.

Lemma after_close close w rest :
  blank w -> is_ws close = false -> after close (w +:+ String close rest) = Some (true, rest).
Proof. intros Hw Hc. unfold after. rewrite ws_skip_blank by done. cbn. by rewrite eqb_self. Qed.

Lemma after_comma close w w' s :
  blank w -> blank w' -> close ≠ ","%char -> is_ws (peek s) = false -> after close (w +:+ String "," (w' +:+ s)) = Some (false, s).
Proof.
  intros Hw Hw' Hc Hs. unfold after. rewrite ws_skip_blank by done.
  cbn [consume]. destruct (Ascii.eqb_spec "," close) as [<-|_]; [done|].
  rewrite eqb_self. by rewrite ws_skip_blank.
Qed.

(** A number is followed by white space, a comma or a bracket. *)
Lemma follow_after v w c rest :
  blank w -> number_char c = None -> follow v (w +:+ String c rest).
Proof.
  intros Hw Hc. destruct v; try done. cbn. destruct w as [|x w]; [done|]. destruct Hw as [Hx _]. cbn.
  destruct (number_char x) eqn:E; [|done]. apply number_char_opens in E as [[E _] _]. congruence.
Qed.

Lemma decode_open_complete close empty d loop c w s r :
  (d + 1 <= max_depth)%N -> blank w -> is_ws (peek s) = false -> peek s ≠ close -> loop (d + 1)%N s = r ->
  decode_open close empty d loop (String c (w +:+ s)) = r.
Proof.
  intros Hd Hw Hs Hc Hl. unfold decode_open. destruct (N.ltb_spec max_depth (d + 1)); [lia|]. cbn [advance].
  rewrite ws_skip_blank by done. by rewrite (proj2 (Ascii.eqb_neq _ _) Hc).
Qed.

Lemma decode_open_empty close empty d loop c w rest :
  (d + 1 <= max_depth)%N -> blank w -> is_ws close = false ->
  decode_open close empty d loop (String c (w +:+ String close rest)) = Done empty rest.
Proof.
  intros Hd Hw Hs. unfold decode_open. destruct (N.ltb_spec max_depth (d + 1)); [lia|]. cbn [advance].
  rewrite ws_skip_blank by done. cbn. by rewrite eqb_self.
Qed.

Lemma decode_key_complete raw b w1 w2 s :
  raw_string raw b -> blank w1 -> blank w2 -> is_ws (peek s) = false ->
  decode_key (String quote (raw +:+ String quote (w1 +:+ String ":" (w2 +:+ s)))) = Some (string_of raw b, s).
Proof.
  intros Hr Hw1 Hw2 Hs. unfold decode_key.
  rewrite (proj2 (decode_string_spec _ raw b (w1 +:+ String ":" (w2 +:+ s))) (conj Hr eq_refl)). cbn [mbind option_bind].
  rewrite ws_skip_blank by done. cbn [consume]. rewrite eqb_self. cbn [mbind option_bind].
  by rewrite ws_skip_blank.
Qed.

(** Uses two results with different fuel. *)
Ltac more_fuel f f' :=
  destruct (fuel_more f (Nat.max f f') ltac:(lia)) as (?Mv & ?Ml & ?Mo);
  destruct (fuel_more f' (Nat.max f f') ltac:(lia)) as (?Mv & ?Ml & ?Mo).

Lemma decode_complete :
  (∀ d t v, value_text d t v -> ∀ rest, follow v rest -> ∃ f, decode_value f d (t +:+ rest) = Done v rest) ∧
  (∀ d t l, elements_text d t l -> ∀ acc rest, ∃ f, list_loop f d (t +:+ String "]" rest) acc = Done (RList (acc ++ l)%list) rest) ∧
  (∀ d t l, members_text d t l -> ∀ acc rest, ∃ f, object_loop f d (t +:+ String "}" rest) acc = Done (RObject (acc ++ l)%list) rest).
Proof.
  apply text_ind.
  - intros d rest Hf. exists 1%nat. by apply decode_plain_complete; [constructor|..].
  - intros d rest Hf. exists 1%nat. by apply decode_plain_complete; [constructor|..].
  - intros d rest Hf. exists 1%nat. by apply decode_plain_complete; [constructor|..].
  - intros d s Hs rest Hf. exists 1%nat. by apply decode_plain_complete; [constructor|..].
  - intros d s b Hs rest Hf. exists 1%nat. by apply decode_plain_complete; [constructor|..].
  - intros d w Hd Hw rest _. exists 1%nat. rewrite decode_value_S. flat. cbn [peek]. rewrite eqb_self. by apply decode_open_empty.
  - intros d w s l Hd Hw Hs IH rest _. destruct (IH [] rest) as [f Ef]. exists (S f). rewrite decode_value_S. flat. cbn [peek]. rewrite eqb_self.
    destruct (elements_head _ _ _ Hs) as (c & r & -> & Ho). apply decode_open_complete; [done|done|by apply Ho| |exact Ef].
    cbn. by destruct Ho as (_ & ? & _).
  - intros d w Hd Hw rest _. exists 1%nat. rewrite decode_value_S. flat. cbn [peek]. by apply decode_open_empty.
  - intros d w s l Hd Hw Hs IH rest _. destruct (IH [] rest) as [f Ef]. exists (S f). rewrite decode_value_S. flat. cbn [peek].
    destruct (members_head _ _ _ Hs) as (r & ->). by apply decode_open_complete.
  - intros d s v w Hv IH Hw acc rest. rewrite append_assoc. destruct (IH (w +:+ String "]" rest)) as [f Ef]; [by apply follow_after|].
    exists (S f). rewrite list_loop_S, Ef, after_close by done. done.
  - intros d s v w w' s' l Hv IHv Hw Hw' Hs IHs acc rest. flat.
    destruct (IHv (w +:+ String "," (w' +:+ s' +:+ String "]" rest))) as [f Ef]; [by apply follow_after|].
    destruct (IHs (acc ++ [v])%list rest) as [f' Ef']. more_fuel f f'.
    exists (S (Nat.max f f')). rewrite list_loop_S, Mv, Ef by (by rewrite Ef).
    destruct (elements_head _ _ _ Hs) as (c & r & -> & Ho).
    rewrite (after_comma "]" w w' (String c r +:+ String "]" rest)) by (done || by apply opens_peek).
    rewrite Ml0, Ef' by (by rewrite Ef'). by rewrite <- app_assoc.
  - intros d k b w1 w2 s v w Hk Hw1 Hw2 Hv IH Hw acc rest. flat. destruct (IH (w +:+ String "}" rest)) as [f Ef]; [by apply follow_after|].
    exists (S f). destruct (value_head _ _ _ Hv) as (c & r & -> & Ho). rewrite object_loop_S.
    rewrite (decode_key_complete k b w1 w2 (String c r +:+ w +:+ String "}" rest)) by (done || by apply opens_peek).
    rewrite Ef, after_close by done. done.
  - intros d k b w1 w2 s v w w' s' l Hk Hw1 Hw2 Hv IHv Hw Hw' Hs IHs acc rest. flat.
    destruct (IHv (w +:+ String "," (w' +:+ s' +:+ String "}" rest))) as [f Ef]; [by apply follow_after|].
    destruct (IHs (acc ++ [(string_of k b, v)])%list rest) as [f' Ef']. more_fuel f f'.
    exists (S (Nat.max f f')). destruct (value_head _ _ _ Hv) as (c & r & -> & Ho). rewrite object_loop_S.
    rewrite (decode_key_complete k b w1 w2 (String c r +:+ w +:+ String "," (w' +:+ s' +:+ String "}" rest))) by (done || by apply opens_peek).
    rewrite Mv, Ef by (by rewrite Ef). destruct (members_head _ _ _ Hs) as (r' & ->).
    rewrite (after_comma "}" w w' (String quote r' +:+ String "}" rest)) by done.
    rewrite Mo0, Ef' by (by rewrite Ef'). by rewrite <- app_assoc.
Qed.

Lemma parse_done s v rest f : decode_value f 0 (ws_skip s) = Done v rest ->
  parse (2 * String.length s + 2) s = if Ascii.eqb (peek (ws_skip rest)) NUL then Done v (ws_skip rest) else Bad.
Proof.
  intros E. unfold parse. pose proof (ws_skip_length s) as Hl.
  set (F := (2 * String.length s + 2)%nat). pose proof (proj1 (decode_total F) 0%N (ws_skip s) ltac:(lia)) as Ht.
  more_fuel f F. by rewrite <- (Mv0 _ _ Ht), Mv, E by (by rewrite E).
Qed.

Lemma load_accepts s v :
  load s = Some v <->
  ∃ w t w' rest, s = w +:+ t +:+ w' +:+ rest ∧ blank w ∧ value_text 0 t v ∧ blank w' ∧ peek rest = NUL.
Proof.
  unfold load. split.
  - destruct (parse _ s) as [v' r| |] eqn:E; [|done|done]. intros [= ->]. unfold parse in E.
    destruct (decode_value _ 0 (ws_skip s)) as [v' r'| |] eqn:Ed; [|done|done].
    destruct (Ascii.eqb_spec (peek (ws_skip r')) NUL) as [Ep|_]; [|done]. injection E as -> <-.
    apply (proj1 (decode_sound _)) in Ed as (t & Ht & Es & _ & _). destruct (ws_skip_split s) as (w & Hw & E1 & _).
    destruct (ws_skip_split r') as (w' & Hw' & E2 & _). exists w, t, w', (ws_skip r'). rewrite <- E2, <- Es. done.
  - intros (w & t & w' & rest & -> & Hw & Ht & Hw' & Hp).
    destruct (value_head _ _ _ Ht) as (c & r & Et & Ho). assert (Hr : is_ws (peek rest) = false) by (by rewrite Hp).
    assert (Hf : follow v (w' +:+ rest)).
    { destruct rest as [|c' rest]; [rewrite append_nil|apply follow_after; [done|]; cbn in Hp; by subst].
      destruct v; try done. destruct w' as [|x w']; [done|]. apply (follow_after (RNumber text) (String x w') NUL ""); done. }
    destruct (proj1 decode_complete _ _ _ Ht _ Hf) as [f Ef].
    assert (Ew : ws_skip (w +:+ t +:+ w' +:+ rest) = t +:+ w' +:+ rest) by (subst t; apply ws_skip_blank; [done|by apply Ho]).
    rewrite (parse_done _ v (w' +:+ rest) f) by (by rewrite Ew). rewrite ws_skip_blank by done. by rewrite Hp.
Qed.

Lemma parse_ends s : parse (2 * String.length s + 2) s ≠ OutOfFuel.
Proof.
  unfold parse. pose proof (ws_skip_length s) as Hl.
  pose proof (proj1 (decode_total (2 * String.length s + 2)) 0%N (ws_skip s) ltac:(lia)) as Ht.
  destruct (decode_value _ 0 (ws_skip s)); [|done|done]. by destruct (Ascii.eqb _ _).
Qed.

(** C25. The JSON reader.  [load] accepts a text exactly when it is, up to white space,
    a text of the grammar (nested at most 5000 deep), ended by the end of the text
    or by a zero byte, after which anything may follow; and it returns the value
    the grammar assigns to the text.  The fuel of the model is never used up. *)
Theorem load_spec s v :
  (load s = Some v <->
   ∃ w t w' rest, s = w +:+ t +:+ w' +:+ rest ∧ blank w ∧ value_text 0 t v ∧ blank w' ∧ peek rest = NUL) ∧
  parse (2 * String.length s + 2) s ≠ OutOfFuel.
Proof. split; [apply load_accepts|apply parse_ends]. Qed.

(** ** Escaping *)

Lemma unescape_plain raw b : raw_string raw b -> b = false -> unescape_text raw = raw.
Proof.
  induction 1 as [|c r b H1 H2 H3 _ IH| |]; intros Hb; [done| |done|done]. cbn. apply Ascii.eqb_neq in H2. rewrite H2. by rewrite IH.
Qed.

Lemma string_of_raw raw b : raw_string raw b -> string_of raw b = unescape_text raw.
Proof. intros H. destruct b; [done|]. cbn. by rewrite (unescape_plain raw false). Qed.

(** One case per character. *)
Lemma unescape_escape_char c r : unescape_text (escape_char c +:+ r) = String c (unescape_text r).
Proof. destruct c as [[] [] [] [] [] [] [] []]; reflexivity. Qed.

Lemma unescape_escape s : unescape_text (escape s) = s.
Proof. induction s as [|c s IH]; [done|]. cbn [escape]. by rewrite unescape_escape_char, IH. Qed.

Lemma raw_escape_char c r b : raw_string r b -> ∃ b', raw_string (escape_char c +:+ r) b'.
Proof.
  intros Hr. destruct c as [[] [] [] [] [] [] [] []];
    first [exists b; by apply (raw_char _ r b)|exists true; by eapply (raw_simple _ _ r b)|exists true; by apply (raw_code _ _ _ _ r b)].
Qed.

Lemma raw_escape s : ∃ b, raw_string (escape s) b ∧ string_of (escape s) b = s.
Proof.
  assert (H : ∃ b, raw_string (escape s) b).
  { induction s as [|c s [b IH]]; [exists false; constructor|]. cbn [escape]. by apply (raw_escape_char c _ b). }
  destruct H as [b Hb]. exists b. split; [done|]. by rewrite string_of_raw, unescape_escape.
Qed.

(** ** Integers *)

Fixpoint all_digits (s : string) : Prop := match s with EmptyString => True | String c r => is_digit c = true ∧ all_digits r end.

Lemma number_run_app a b q : run q (a +:+ b) = q' ← run q a; run q' b.
Proof.
  revert q. induction a as [|c a IH]; intros q; [done|]. cbn [String.append run].
  destruct (number_char c) as [[t sk]|]; [|done]. cbn [mbind option_bind]. apply IH.
Qed.

Lemma run_digits s q : all_digits s -> stays q = true -> run q s = Some q.
Proof.
  induction s as [|c s IH]; intros Hs Hq; [done|]. destruct Hs as [Hc Hs]. cbn [run]. destruct (stays_digit q Hq) as [E1 E2].
  apply digit_char in Hc as [sk [E|E]]; rewrite E; cbn [mbind option_bind]; rewrite ?E1, ?E2; by apply IH.
Qed.

Lemma pretty_char d :
  (d < 10)%N -> is_digit (pretty_N_char d) = true ∧ (code (pretty_N_char d) - 48 = d)%N ∧
    (d ≠ 0%N -> number_char (pretty_N_char d) = Some (on_digit, true)).
Proof.
  intros Hd. assert (d = 0 ∨ d = 1 ∨ d = 2 ∨ d = 3 ∨ d = 4 ∨ d = 5 ∨ d = 6 ∨ d = 7 ∨ d = 8 ∨ d = 9)%N as Hc by lia.
  by repeat destruct Hc as [->|Hc]; [..|subst].
Qed.

(** The digits of a positive number. *)
Record decimal_digits (x : N) (t : string) : Prop := {
  dd_digits : all_digits t;
  dd_run q : (q <= 1)%nat -> run q t = Some 3%nat;
  dd_size : (10 ^ (N.of_nat (String.length t) - 1) <= x < 10 ^ N.of_nat (String.length t))%N;
  dd_read r acc k :
    read_digits (t +:+ r) acc k = read_digits r (acc * 10 ^ N.of_nat (String.length t) + x)%N (k + String.length t)
}.

Lemma all_digits_app a b : all_digits (a +:+ b) <-> all_digits a ∧ all_digits b.
Proof. induction a as [|c a IH]; cbn [String.append all_digits]; [tauto|]. rewrite IH. tauto. Qed.

Lemma digits_single d : (0 < d < 10)%N -> decimal_digits d (String (pretty_N_char d) "").
Proof.
  intros Hd. destruct (pretty_char d) as (H1 & H2 & H3); [lia|]. split.
  - done.
  - intros q Hq. cbn [run]. rewrite H3 by lia. destruct q as [|[|]]; [done|done|lia].
  - change (1 <= d < 10)%N. lia.
  - intros r acc k. cbn [String.append read_digits String.length]. rewrite H1, H2. f_equal; [change (10 ^ N.of_nat 1)%N with 10%N; lia|lia].
Qed.

Lemma digits_more x d t :
  (0 < x)%N -> (d < 10)%N -> decimal_digits x t -> decimal_digits (10 * x + d) (t +:+ String (pretty_N_char d) "").
Proof.
  intros Hx Hd [D1 D2 D3 D4]. destruct (pretty_char d Hd) as (H1 & H2 & _).
  assert (Hl : (N.of_nat (String.length (t +:+ String (pretty_N_char d) "")) = N.of_nat (String.length t) + 1)%N)
    by (rewrite append_length; cbn [String.length]; lia).
  assert (Ht : (0 < N.of_nat (String.length t))%N) by (destruct t; [cbn in D3; lia|cbn; lia]).
  split.
  - apply all_digits_app. by split.
  - intros q Hq. rewrite number_run_app, D2 by done. cbn [mbind option_bind]. by apply run_digits.
  - rewrite Hl. rewrite N.add_sub, N.pow_add_r. replace (N.of_nat (String.length t)) with (N.of_nat (String.length t) - 1 + 1)%N in D3 |- * by lia.
    rewrite N.add_sub in D3. rewrite N.pow_add_r in *. lia.
  - intros r acc k. rewrite append_assoc, D4, Hl. cbn [String.append read_digits]. rewrite H1, H2, append_length. cbn [String.length]. f_equal; [|lia].
    rewrite N.pow_add_r. lia.
Qed.

Lemma pretty_go_digits x s : (0 < x)%N -> ∃ t, pretty_N_go x s = t +:+ s ∧ decimal_digits x t.
Proof.
  revert s. induction (N.lt_wf_0 x) as [x _ IH]; intros s Hx. rewrite pretty_N_go_step by done.
  pose proof (N.div_mod x 10 ltac:(lia)) as E. pose proof (N.mod_lt x 10 ltac:(lia)) as Hm.
  destruct (N.eq_0_gt_0_cases (x `div` 10)) as [E0|H0].
  - rewrite E0, pretty_N_go_0. exists (String (pretty_N_char (x `mod` 10)) ""). split; [done|].
    rewrite E at 1. rewrite E0. apply digits_single. lia.
  - destruct (IH (x `div` 10)%N ltac:(by apply N.div_lt) (String (pretty_N_char (x `mod` 10)) s) H0) as (t & -> & Ht).
    exists (t +:+ String (pretty_N_char (x `mod` 10)) ""). split; [by flat|]. rewrite E at 1. by apply digits_more.
Qed.

Lemma pretty_pos_digits x : decimal_digits (Npos x) (pretty x).
Proof.
  destruct (pretty_go_digits (Npos x) "" ltac:(lia)) as (t & E & Ht). rewrite append_nil in E.
  unfold pretty, pretty_positive, pretty, pretty_N. rewrite decide_False by done. by rewrite E.
Qed.

(** The text of an integer is a number, and reads as that integer. *)
Lemma integer_text n :
  number_text (pretty n) ∧
  read_decimal (pretty n) = Some {| negative := (n <? 0)%Z; mantissa := Z.abs_N n; exponent := 0 |}.
Proof.
  destruct n as [|n|n].
  - split; [by exists 2%nat|reflexivity].
  - pose proof (pretty_pos_digits n) as [D1 D2 D3 D4]. change (pretty (Zpos n)) with (pretty n). split; [exists 3%nat; by rewrite D2 by lia|].
    destruct (pretty n) as [|c t] eqn:Et; [cbn in D3; lia|]. unfold read_decimal.
    assert (Hc : Ascii.eqb c "-" = false) by (destruct D1 as [Hc _]; destruct (Ascii.eqb_spec c "-") as [->|]; done).
    rewrite Hc. specialize (D4 "" 0%N 0%nat). rewrite append_nil in D4. rewrite D4. reflexivity.
  - pose proof (pretty_pos_digits n) as [D1 D2 D3 D4]. change (pretty (Zneg n)) with (String "-" (pretty n)). split.
    + exists 3%nat. cbn [run]. change (number_char "-") with (Some (on_minus, false)). cbn [mbind option_bind]. by rewrite D2 by done.
    + unfold read_decimal. rewrite eqb_self. specialize (D4 "" 0%N 0%nat). rewrite append_nil in D4. rewrite D4. reflexivity.
Qed.

(** ** Texts at the edges of the grammar *)

(** Zero with an exponent is JSON, and refused. *)
Example zero_exponent_refused : load "0e1" = None ∧ load "1e1" = Some (RNumber "1e1").
Proof. done. Qed.

(** A point or an exponent without digits is not JSON, and accepted; the exponent reads
    as zero. *)
Example digits_missing_accepted :
  load "1." = Some (RNumber "1.") ∧ load "1e+" = Some (RNumber "1e+") ∧ lexical_cast_double "1e+" = fzero.
Proof. done. Qed.

(** Everything behind a zero byte is ignored. *)
Example zero_byte_ends : load (String "1" (String NUL "]")) = Some (RNumber "1").
Proof. done. Qed.

(** A surrogate pair becomes six bytes, which are not UTF-8. *)
Example surrogates_separate :
  unescape_text (String backslash ("ud83d" +:+ String backslash "ude00")) = utf8 55357 +:+ utf8 56832 ∧
  String.length (utf8 55357 +:+ utf8 56832) = 6%nat.
Proof. done. Qed.
End CrowJsonProps.
