(* ===== verification/CrowValues.v ===== *)
(** * Values of the JSON reader.

    For [rvalue] of [src/include/crow/json.h]: the unescaping in place computes what the
    characters stand for without leaving the string, a member is found by its key, and
    the array of a list grows ahead of its elements. *)

From stdpp Require Import sorting.
From Stdlib Require Import Ascii String.
From S2P Require Import Prelude Floats CrowJson CrowJsonProps.
Import CrowJsonProps.

Local Open Scope string_scope.
Local Open Scope list_scope.

Abbreviation chars := list_ascii_of_string.

(** What [operator[]] relies on: [std::sort] orders by [key_lt]. *)
Class Sorting (sort : list (string * rvalue) -> list (string * rvalue)) := {
  sort_perm l : sort l ≡ₚ l;
  sort_sorted l : StronglySorted (fun p q => key_lt q.1 p.1 = false) (sort l)
}.

Module CrowValues.

#[local] Arguments String.append !_ _ / : simpl nomatch.

(** ** Unescaping in place *)

Lemma chars_length s : length (chars s) = String.length s.
Proof. induction s as [|c s IH]; [done|]. cbn. by rewrite IH. Qed.

Lemma chars_app a b : chars (String.append a b) = chars a ++ chars b.
Proof. induction a as [|c a IH]; [done|]. cbn. by f_equal. Qed.

(** Writing over the first characters of [Q]. *)
Lemma write_spec s : ∀ (P Q R : list ascii),
  (String.length s <= length Q)%nat ->
  write (P ++ Q ++ R) (length P) s = (P ++ chars s ++ drop (String.length s) Q ++ R, (length P + String.length s)%nat).
Proof.
  induction s as [|c s IH]; intros P Q R HQ; cbn [write]; [cbn; by rewrite drop_0, Nat.add_0_r|].
  destruct Q as [|q Q]; cbn in HQ; [lia|]. cbn [app]. rewrite insert_app_r_alt, Nat.sub_diag by done. cbn [insert list_insert].
  specialize (IH (P ++ [c]) Q R ltac:(lia)). rewrite length_app, <- !app_assoc in IH. cbn in IH. rewrite Nat.add_1_r in IH. rewrite IH.
  cbn. f_equal. lia.
Qed.

Lemma utf8_length n : (1 <= String.length (utf8 n) <= 3)%nat.
Proof. unfold utf8. repeat case_match; cbn; lia. Qed.

(** The character [i] places after the gap. *)
Lemma lookup_gap (P J L : list ascii) i : (P ++ J ++ L) !! (length P + length J + i)%nat = L !! i.
Proof. rewrite app_assoc, lookup_app_r, length_app by (rewrite length_app; lia). f_equal. lia. Qed.

Lemma unescape_loop_S fuel buf head tail end_ c :
  head ≠ end_ -> buf !! head = Some c ->
  unescape_loop (S fuel) buf head tail end_ =
  if Ascii.eqb c backslash then
    e ← buf !! S head;
    match simple_escape e with
    | Some x => let '(buf, tail) := write buf tail (String x "") in unescape_loop fuel buf (S head + 1) tail end_
    | None =>
        if Ascii.eqb e "u" then
          h1 ← buf !! (S head + 1); h2 ← buf !! (S head + 2); h3 ← buf !! (S head + 3); h4 ← buf !! (S head + 4);
          let '(buf, tail) := write buf tail (utf8 (hex4 h1 h2 h3 h4)) in
          unescape_loop fuel buf (S head + 5) tail end_
        else unescape_loop fuel buf (S head + 1) tail end_
    end
  else let '(buf, tail) := write buf tail (String c "") in unescape_loop fuel buf (head + 1) tail end_.
Proof. intros Hh Hc. cbn [unescape_loop]. rewrite (proj2 (Nat.eqb_neq _ _) Hh), Hc. reflexivity. Qed.

(** Between [tail] and [head] is a gap [J] of characters that have been read. *)
Definition unescapes (raw : string) : Prop :=
  ∀ fuel (P J post : list ascii),
    (String.length raw < fuel)%nat ->
    ∃ J', unescape_loop fuel (P ++ J ++ chars raw ++ post) (length P + length J) (length P) (length P + length J + String.length raw) =
            Some (P ++ chars (unescape_text raw) ++ J' ++ post, (length P + String.length (unescape_text raw))%nat) ∧
          (length J' + String.length (unescape_text raw) = length J + String.length raw)%nat.

(** One step: [consumed] is read and [s] written. *)
Lemma unescapes_step fuel (P J post consumed : list ascii) (s r : string) :
  unescapes r -> (String.length s <= length J + length consumed)%nat -> (String.length r < fuel)%nat ->
  ∃ J', (let '(buf, tail) := write (P ++ J ++ (consumed ++ chars r) ++ post) (length P) s in
         unescape_loop fuel buf (length P + length J + length consumed) tail (length P + length J + (length consumed + String.length r))) =
          Some (P ++ chars (String.append s (unescape_text r)) ++ J' ++ post, (length P + String.length (String.append s (unescape_text r)))%nat) ∧
        (length J' + String.length (String.append s (unescape_text r)) = length J + (length consumed + String.length r))%nat.
Proof.
  intros Hr Hs Hf. replace (P ++ J ++ (consumed ++ chars r) ++ post) with (P ++ (J ++ consumed) ++ (chars r ++ post)) by (by rewrite <- !app_assoc).
  rewrite write_spec by (rewrite length_app; lia).
  set (D := drop (String.length s) (J ++ consumed)).
  assert (HD : length D = (length J + length consumed - String.length s)%nat) by (unfold D; rewrite length_drop, length_app; lia).
  destruct (Hr fuel (P ++ chars s) D post Hf) as (J' & E & L). rewrite length_app, chars_length, <- !app_assoc in E.
  exists J'. rewrite append_length, chars_app, <- !app_assoc. split; [|lia].
  etransitivity; [|etransitivity; [exact E|by rewrite Nat.add_assoc]]. f_equal; lia.
Qed.

Lemma unescape_loop_spec raw b : raw_string raw b -> unescapes raw.
Proof.
  induction 1 as [|c r b H1 H2 H3 _ IH|e x r b He _ IH|h1 h2 h3 h4 r b E1 E2 E3 E4 _ IH]; intros fuel P J post Hf; (destruct fuel as [|fuel]; [lia|]).
  - exists J. cbn. rewrite !Nat.add_0_r, Nat.eqb_refl. split; [done|lia].
  - rewrite (unescape_loop_S fuel _ _ _ _ c); cbn [String.length chars] in *; [|lia|by rewrite <- (Nat.add_0_r (_ + _)), lookup_gap].
    rewrite (proj2 (Ascii.eqb_neq _ _) H2). cbn [unescape_text]. rewrite (proj2 (Ascii.eqb_neq _ _) H2).
    apply (unescapes_step fuel P J post [c] (String c "") r IH); cbn; lia.
  - rewrite (unescape_loop_S fuel _ _ _ _ backslash); cbn [String.length list_ascii_of_string] in *;
      [|lia|by rewrite <- (Nat.add_0_r (_ + _)), lookup_gap].
    rewrite eqb_self, <- (Nat.add_1_r (_ + _)), lookup_gap. cbn [lookup list_lookup app mbind option_bind unescape_text]. rewrite eqb_self, He.
    rewrite <- Nat.add_assoc. apply (unescapes_step fuel P J post [backslash; e] (String x "") r IH); cbn; lia.
  - rewrite (unescape_loop_S fuel _ _ _ _ backslash); cbn [String.length list_ascii_of_string] in *;
      [|lia|by rewrite <- (Nat.add_0_r (_ + _)), lookup_gap].
    rewrite eqb_self, <- (Nat.add_1_r (_ + _)). rewrite <- !(Nat.add_assoc (_ + _) 1). rewrite !lookup_gap.
    cbn [lookup list_lookup app mbind option_bind unescape_text Nat.add].
    rewrite eqb_self, simple_escape_not_u. rewrite eqb_self. pose proof (utf8_length (hex4 h1 h2 h3 h4)).
    apply (unescapes_step fuel P J post [backslash; "u"%char; h1; h2; h3; h4] _ r IH); cbn; lia.
Qed.

(** Ending the string where the writing stopped. *)
Lemma terminate (P J post : list ascii) :
  ∃ junk, <[length P := NUL]> (P ++ J ++ NUL :: post) = P ++ NUL :: junk ++ post ∧ length junk = length J.
Proof.
  rewrite insert_app_r_alt, Nat.sub_diag by done. destruct J as [|j J]; [by exists []|].
  exists (J ++ [NUL]). cbn. rewrite <- app_assoc, length_app. cbn. split; [done|lia].
Qed.

(** The buffer after the unescaping. *)
Definition unescaped (pre : list ascii) (raw : string) (junk post : list ascii) : list ascii :=
  pre ++ NUL :: chars (unescape_text raw) ++ NUL :: junk ++ post.

(** C30. Unescaping in place.  On the bytes of a string value (the flag byte, the
    characters the parser accepted, the zero byte), reading and writing with two
    pointers in one buffer leaves the bytes the characters stand for, followed by
    a zero byte, where the string starts: no byte is overwritten before it is read
    and none outside the string is changed.  The flag is then cleared, so that
    nothing more is done: for a copy of the value, which still has the old end,
    the string goes on past the zero byte. *)
Theorem unescape_in_place raw b pre flag post :
  raw_string raw b -> flag ≠ NUL ->
  ∃ junk,
    unescape (pre ++ flag :: chars raw ++ NUL :: post) (S (length pre)) (S (length pre) + String.length raw) =
      Some (unescaped pre raw junk post, (S (length pre) + String.length (unescape_text raw))%nat) ∧
    (String.length (unescape_text raw) + length junk = String.length raw)%nat ∧
    unescape (unescaped pre raw junk post) (S (length pre)) (S (length pre) + String.length raw) =
      Some (unescaped pre raw junk post, (S (length pre) + String.length raw)%nat).
Proof.
  intros Hr Hf. unfold unescape, unescaped. rewrite Nat.sub_succ, Nat.sub_0_r, list_lookup_middle by done. cbn [mbind option_bind].
  rewrite (proj2 (Ascii.eqb_neq _ _) Hf), Nat.add_comm, Nat.add_sub.
  destruct (unescape_loop_spec raw b Hr (S (String.length raw)) (pre ++ [flag]) [] (NUL :: post)) as (J & E & L); [lia|].
  rewrite length_app, <- !app_assoc in E. cbn [app length] in E, L. rewrite Nat.add_0_r, Nat.add_1_r, Nat.add_comm in E.
  rewrite E. cbn [mbind option_bind].
  destruct (terminate (pre ++ flag :: chars (unescape_text raw)) J post) as (junk & T & Lj).
  rewrite length_app in T. cbn [length] in T. rewrite chars_length, Nat.add_succ_r, <- !app_assoc in T.
  exists junk. cbn [app] in T. rewrite Nat.add_succ_l, T. rewrite insert_app_r_alt, Nat.sub_diag by done.
  split; [done|]. split; [lia|]. by rewrite list_lookup_middle.
Qed.

(** The text of "a\u00e9\n": five bytes fewer. *)
Definition accented : string := String "a" (String backslash (String "u" (String "0" (String "0" (String "e" (String "9" (String backslash "n"))))))).

Lemma accented_raw : raw_string accented true.
Proof. apply raw_char; [done..|]. apply (raw_code _ _ _ _ _ true); [done..|]. by apply (raw_simple _ "010" _ false), raw_end. Qed.

Lemma unescape_in_place_witness :
  ∃ junk, unescape ([quote] ++ "001"%char :: chars accented ++ NUL :: [":"%char]) 2 11 =
            Some ([quote] ++ NUL :: chars (unescape_text accented) ++ NUL :: junk ++ [":"%char], 6%nat) ∧ length junk = 5%nat.
Proof.
  destruct (unescape_in_place accented true [quote] "001" [":"%char] accented_raw) as (junk & E & L & _); [done|].
  exists junk. split; [exact E|]. change (4 + length junk = 9)%nat in L. lia.
Defined.

(** ** Members of an object *)

Lemma schar_inj x y : schar x = schar y -> x = y.
Proof.
  unfold schar, code. intros H. rewrite <- (ascii_N_embedding x), <- (ascii_N_embedding y). f_equal.
  pose proof (N_ascii_bounded x). pose proof (N_ascii_bounded y). repeat case_match; lia.
Qed.

Lemma key_lt_irrefl a : key_lt a a = false.
Proof. induction a as [|x a IH]; [done|]. cbn. by rewrite Z.ltb_irrefl, IH, andb_false_r. Qed.

Lemma key_lt_total a : ∀ b, key_lt a b = false -> key_lt b a = false -> a = b.
Proof.
  induction a as [|x a IH]; intros [|y b]; cbn; try done.
  rewrite !orb_false_iff, !andb_false_iff, !Z.ltb_ge, !Z.eqb_neq. intros [H1 H2] [H3 H4].
  assert (E : schar x = schar y) by lia. destruct H2 as [H2|H2]; [lia|]. destruct H4 as [H4|H4]; [lia|].
  by rewrite (schar_inj _ _ E), (IH b).
Qed.

Lemma key_lt_trans a : ∀ b c, key_lt a b = true -> key_lt b c = true -> key_lt a c = true.
Proof.
  induction a as [|x a IH]; intros [|y b] [|z c]; cbn; try done.
  rewrite !orb_true_iff, !andb_true_iff, !Z.ltb_lt, !Z.eqb_eq. intros [H1|[H1 H2]] [H3|[H3 H4]]; [left; lia..|right]. split; [lia|by apply (IH b)].
Qed.

(** [key_lt q p] false orders totally. *)
Lemma key_le_trans a b c : key_lt b a = false -> key_lt c b = false -> key_lt c a = false.
Proof.
  intros H1 H2. destruct (key_lt c a) eqn:E; [|done]. destruct (key_lt a b) eqn:E1; [by rewrite (key_lt_trans c a b) in H2|].
  rewrite (key_lt_total a b) in E by done. congruence.
Qed.

Lemma lower_bound_spec l k :
  StronglySorted (fun p q => key_lt q.1 p.1 = false) l ->
  match lower_bound l k with
  | (k', x) :: _ => (k', x) ∈ l ∧ (k' ≠ k -> k ∉ l.*1)
  | [] => k ∉ l.*1
  end.
Proof.
  induction 1 as [|[k' x] l Hl IH Hf]; cbn [lower_bound]; [apply not_elem_of_nil|]. destruct (key_lt k' k) eqn:E.
  - assert (Hne : k ≠ k') by (intros ->; by rewrite key_lt_irrefl in E).
    destruct (lower_bound l k) as [|[k0 x0] r]; cbn.
    + by apply not_elem_of_cons.
    + destruct IH as [Hin Hn]. split; [by right|]. intros H. apply not_elem_of_cons. split; [done|by apply Hn].
  - split; [left|]. intros Hne. apply not_elem_of_cons. split; [done|]. intros ([k2 x2] & -> & H2)%list_elem_of_fmap.
    rewrite Forall_forall in Hf. specialize (Hf _ H2). cbn in *. by rewrite (key_lt_total k' k2) in Hne.
Qed.

Lemma at_key_found sort `{!Sorting sort} l k :
  (∀ x, at_key sort (RObject l) k = Some x -> (k, x) ∈ l) ∧ (k ∈ l.*1 -> is_Some (at_key sort (RObject l) k)).
Proof.
  cbn [at_key]. pose proof (lower_bound_spec (sort l) k (sort_sorted l)) as H. pose proof (sort_perm l) as Hp.
  assert (Hk : ∀ k, k ∈ (sort l).*1 <-> k ∈ l.*1) by (intros k0; by rewrite Hp).
  destruct (lower_bound (sort l) k) as [|[k' x'] r]; [rewrite Hk in H; by split|].
  destruct (String.eqb_spec k' k) as [->|Hne].
  - destruct H as [Hin _]. rewrite Hp in Hin. split; [by intros x [= <-]|by eexists].
  - destruct H as [_ H]. split; [done|]. rewrite <- Hk. intros Hin. by apply H in Hne.
Qed.

Lemma unique_key (l : list (string * rvalue)) k x y : NoDup l.*1 -> (k, x) ∈ l -> (k, y) ∈ l -> x = y.
Proof.
  induction l as [|[k' z] l IH]; cbn; [by intros _ ?%not_elem_of_nil|]. intros [Hn Hl]%NoDup_cons.
  intros [E1|H1]%elem_of_cons [E2|H2]%elem_of_cons; [congruence|injection E1 as -> ->|injection E2 as -> ->|by apply IH];
    destruct Hn; by eapply (list_elem_of_fmap_2 fst) in H1 || eapply (list_elem_of_fmap_2 fst) in H2.
Qed.

(** Members by key.  Whatever sorting algorithm orders the members, [operator[]]
    finds a member with the key if there is one, and throws otherwise; when the keys
    are distinct, it is the one value of the key. *)
Lemma at_key_lookup sort `{!Sorting sort} l k :
  (∀ x, at_key sort (RObject l) k = Some x -> (k, x) ∈ l) ∧
  (at_key sort (RObject l) k = None <-> k ∉ l.*1) ∧
  (NoDup l.*1 -> ∀ x, at_key sort (RObject l) k = Some x <-> (k, x) ∈ l).
Proof.
  destruct (at_key_found sort l k) as [Hs Hi]. split; [done|]. split.
  - split.
    + intros E Hk. apply Hi in Hk as [x Hx]. congruence.
    + intros Hk. destruct (at_key sort (RObject l) k) as [x|] eqn:E; [|done]. destruct Hk. specialize (Hs x eq_refl). by eapply (list_elem_of_fmap_2 fst) in Hs.
  - intros Hn x. split; [apply Hs|]. intros Hx. destruct (Hi (list_elem_of_fmap_2 fst l (k, x) Hx)) as [y Hy].
    rewrite Hy. f_equal. apply Hs in Hy. by apply (unique_key l k).
Qed.

(** Merge sort is such an algorithm. *)
Definition key_le (p q : string * rvalue) : Prop := key_lt q.1 p.1 = false.

#[export] Instance key_le_dec : RelDecision key_le.
Proof. intros p q. unfold key_le. apply _. Defined.

#[export] Instance key_le_transitive : Transitive key_le.
Proof. intros p q r. unfold key_le. apply key_le_trans. Qed.

#[export] Instance key_le_total : Total key_le.
Proof.
  intros p q. unfold key_le. destruct (key_lt q.1 p.1) eqn:E; [right|by left]. destruct (key_lt p.1 q.1) eqn:E'; [|done].
  pose proof (key_lt_trans _ _ _ E E') as H. by rewrite key_lt_irrefl in H.
Qed.

#[export] Instance merge_sorting : Sorting (merge_sort key_le).
Proof. split; [intros l; apply merge_sort_Permutation|intros l; apply (StronglySorted_merge_sort key_le)]. Qed.

Definition members : list (string * rvalue) := [("vyaw", RNumber "1"); ("command", RString "nav" false); ("vx", RNumber "0.5")].

Lemma at_key_lookup_witness :
  at_key (merge_sort key_le) (RObject members) "command" = Some (RString "nav" false) ∧
  at_key (merge_sort key_le) (RObject members) "vy" = None.
Proof.
  split.
  - apply (at_key_lookup (merge_sort key_le) members "command"); [by apply (bool_decide_unpack (NoDup _)); vm_compute|set_solver].
  - apply (at_key_lookup (merge_sort key_le) members "vy"). by apply (bool_decide_unpack (_ ∉ _)); vm_compute.
Defined.

(** ** Growing lists *)

(** The elements and the free places fill the array. *)
Definition room_ok (r : room) : Prop :=
  (0 <= lsize r)%Z ∧ (0 <= lremain r < 2 ^ 16)%Z ∧ (lsize r + lremain r = capacity r)%Z ∧ (capacity r < 2 ^ 31)%Z.

Fixpoint appended (n : nat) (r : room) : option room :=
  match n with O => Some r | S n => r ← appended n r; emplace_back r end.

(** The doubled size, which wraps around, and the growth. *)
Lemma new_size_spec n :
  (0 <= n < 2 ^ 31)%Z ->
  i32 (u32 (n + n)) = (if n <? 2 ^ 30 then 2 * n else 2 * n - 2 ^ 32)%Z ∧ u32 (i32 (u32 (n + n)) - n) = n.
Proof.
  intros Hn. assert (E : i32 (u32 (n + n)) = (if n <? 2 ^ 30 then 2 * n else 2 * n - 2 ^ 32)%Z).
  { rewrite (uwrap_id 32) by (unfold in_u; lia). destruct (Z.ltb_spec n (2 ^ 30)); [rewrite (swrap_id 32); unfold in_s; lia|].
    unfold swrap. change (32 - 1)%Z with 31%Z. rewrite <- (Z.mod_unique (n + n + 2 ^ 31) (2 ^ 32) 1 (n + n + 2 ^ 31 - 2 ^ 32)); lia. }
  rewrite E. split; [done|]. destruct (n <? 2 ^ 30)%Z; [rewrite (uwrap_id 32); unfold in_u; lia|].
  unfold uwrap. rewrite <- (Z.mod_unique _ (2 ^ 32) (-1) n); lia.
Qed.

Lemma emplace_back_ok r :
  room_ok r -> (lsize r < 2 ^ 31 - 60000)%Z ->
  ∃ r', emplace_back r = Some r' ∧ room_ok r' ∧ lsize r' = (lsize r + 1)%Z.
Proof.
  intros (H1 & H2 & H3 & H4) Hs. unfold emplace_back. destruct (Z.eqb_spec (lremain r) 0) as [E0|Hn].
  - destruct (new_size_spec (lsize r)) as (Ed & Eg); [lia|]. rewrite Eg, Ed.
    rewrite (uwrap_id 32 (lsize r + 60000)), (swrap_id 32 (lsize r + 60000)) by (unfold in_u, in_s; lia).
    match goal with |- context [(if (?m <? 4)%Z then _ else _)] => set (n := if (m <? 4)%Z then 4%Z else m) end. assert (Hg : (lsize r < n <= lsize r + 60000 ∧ n < 2 ^ 31)%Z).
    { unfold n. destruct (Z.ltb_spec 60000 (lsize r)), (Z.ltb_spec (lsize r) (2 ^ 30)); repeat case_match; lia. }
    cbn [lsize capacity lremain]. destruct (Z.ltb_spec (lsize r) n); [|lia]. eexists. split; [done|]. unfold room_ok. cbn [lsize capacity lremain].
    rewrite (uwrap_id 16 (n - lsize r)), (uwrap_id 16), (uwrap_id 32) by (unfold in_u; lia). lia.
  - destruct (Z.ltb_spec (lsize r) (capacity r)); [|lia]. eexists. split; [done|]. unfold room_ok. cbn [lsize capacity lremain].
    rewrite (uwrap_id 16), (uwrap_id 32) by (unfold in_u; lia). lia.
Qed.

(** Lists grow within their arrays.  From an empty list, appending elements doubles
    the array up to 60000 places at a time, and never writes outside it or loses
    count, for every size below 2{^31} - 60000. *)
Lemma emplace_back_in_bounds n :
  (Z.of_nat n <= 2 ^ 31 - 60000)%Z ->
  ∃ r, appended n {| capacity := 0; lsize := 0; lremain := 0 |} = Some r ∧ room_ok r ∧ lsize r = Z.of_nat n.
Proof.
  induction n as [|n IH]; intros Hn; [by eexists; split_and!|].
  destruct IH as (r & E & Hr & Hs); [lia|]. cbn [appended]. rewrite E. cbn [mbind option_bind].
  destruct (emplace_back_ok r Hr) as (r' & E' & Hr' & Hs'); [lia|]. exists r'. split_and!; [done|done|lia].
Qed.

Lemma emplace_back_in_bounds_witness :
  ∃ r, appended 300 {| capacity := 0; lsize := 0; lremain := 0 |} = Some r ∧ room_ok r ∧ lsize r = 300%Z.
Proof. apply (emplace_back_in_bounds 300). lia. Defined.
End CrowValues.
