(* ===== verification/CrowDump.v ===== *)
(** * Written texts are read back.

    For the writer [dump] of [src/include/crow/json.h]: what it writes is a text the
    reader accepts, and the value read has the members, strings and integers that were
    written; a [float] is read as its value rounded to six decimals. *)

From Stdlib Require Import Ascii String.
From S2P Require Import Prelude Floats CrowJson CrowJsonProps.
Import CrowJsonProps.

Local Open Scope list_scope.
Local Open Scope string_scope.

(** The nesting of a value. *)
Fixpoint nesting (v : wvalue) : N :=
  match v with
  | WList l => 1 + foldr N.max 0%N (nesting <$> l)
  | WObject l => 1 + foldr N.max 0%N ((fun p => nesting p.2) <$> l)
  | _ => 0
  end%N.

(** The sign and the size of a [float], in millionths. *)
Definition millionths (x : float64) : bool * Z :=
  match x with
  | S754_zero s => (s, 0%Z)
  | S754_finite s m e => (s, micro m e)
  | _ => (false, 0%Z)
  end.

Section Reads.
Context (print_g : float64 -> string).

(** What can be written: a [float] is below 2{^128}; the notation of a [double] is a
    number. *)
Inductive writable : wvalue -> Prop :=
| writable_null : writable WNull
| writable_false : writable WFalse
| writable_true : writable WTrue
| writable_signed n : writable (WSigned n)
| writable_unsigned n : writable (WUnsigned n)
| writable_float x : ((millionths x).2 < 2 ^ 128 * 10 ^ 6)%Z -> writable (WFloat x)
| writable_double x : (is_number x = true -> number_text (CrowJson.trim (print_g x))) -> writable (WDouble x)
| writable_string s : writable (WString s)
| writable_list l : Forall writable l -> writable (WList l)
| writable_object l : Forall (fun p => writable p.2) l -> writable (WObject l).

(** The value read is the one written. *)
Inductive reads : wvalue -> rvalue -> Prop :=
| reads_null : reads WNull RNull
| reads_false : reads WFalse RFalse
| reads_true : reads WTrue RTrue
| reads_signed n t :
    read_decimal t = Some {| negative := (n <? 0)%Z; mantissa := Z.abs_N n; exponent := 0 |} -> reads (WSigned n) (RNumber t)
| reads_unsigned n t :
    read_decimal t = Some {| negative := (n <? 0)%Z; mantissa := Z.abs_N n; exponent := 0 |} -> reads (WUnsigned n) (RNumber t)
| reads_float x t d :
    is_number x = true -> read_decimal t = Some d -> negative d = (millionths x).1 -> (-6 <= exponent d <= 0)%Z ->
    (Z.of_N (mantissa d) * 10 ^ (6 + exponent d) = (millionths x).2)%Z -> reads (WFloat x) (RNumber t)
| reads_no_float x : is_number x = false -> reads (WFloat x) RNull
| reads_double x : is_number x = true -> reads (WDouble x) (RNumber (CrowJson.trim (print_g x)))
| reads_no_double x : is_number x = false -> reads (WDouble x) RNull
| reads_string s raw b : string_of raw b = s -> reads (WString s) (RString raw b)
| reads_list l l' : Forall2 reads l l' -> reads (WList l) (RList l')
| reads_object l l' : Forall2 (fun p q => p.1 = q.1 ∧ reads p.2 q.2) l l' -> reads (WObject l) (RObject l').
End Reads.

Module CrowDump.

#[local] Arguments String.append !_ _ / : simpl nomatch.

(** Induction through lists and objects. *)
Lemma wvalue_nested_ind (P : wvalue -> Prop) :
  (∀ v, match v with WList _ | WObject _ => True | _ => P v end) ->
  (∀ l, Forall P l -> P (WList l)) -> (∀ l, Forall (fun p => P p.2) l -> P (WObject l)) -> ∀ v, P v.
Proof.
  intros Hs Hl Ho. fix IH 1. intros v. pose proof (Hs v) as Hv. destruct v as [| | |n|n|x|x|s|l|l]; try exact Hv.
  - apply Hl. induction l as [|x l IHl]; constructor; [apply IH|exact IHl].
  - apply Ho. induction l as [|[k x] l IHl]; constructor; [apply IH|exact IHl].
Qed.

(** ** Floating-point numbers *)

(** The number some digits stand for. *)
Definition digits_value (t : string) : N := (read_digits t 0 0).1.1.

Lemma read_digits_shift t : ∀ acc k r,
  all_digits t ->
  read_digits (t +:+ r) acc k = read_digits r (acc * 10 ^ N.of_nat (String.length t) + digits_value t) (k + String.length t).
Proof.
  assert (H : ∀ t acc k r, all_digits t ->
    read_digits (t +:+ r) acc k = read_digits r (acc * 10 ^ N.of_nat (String.length t) + digits_value t) (k + String.length t) ∧
    (read_digits t acc k).1.1 = (acc * 10 ^ N.of_nat (String.length t) + digits_value t)%N).
  { clear t. intros t. induction t as [|c t IH]; intros acc k r Ht.
    - cbn. split; [f_equal; lia|lia].
    - destruct Ht as [Hc Ht]. cbn [String.append String.length]. unfold digits_value. cbn [read_digits]. rewrite Hc.
      destruct (IH (10 * acc + (code c - 48))%N (S k) r Ht) as [-> ->]. destruct (IH (10 * 0 + (code c - 48))%N 1%nat "" Ht) as [_ ->].
      rewrite Nat2N.inj_succ, N.pow_succ_r'. split; [f_equal; [|lia]|]; lia. }
  intros acc k r Ht. by apply H.
Qed.

Lemma digits_value_app a b :
  all_digits a -> all_digits b -> digits_value (a +:+ b) = (digits_value a * 10 ^ N.of_nat (String.length b) + digits_value b)%N.
Proof.
  intros Ha Hb. unfold digits_value at 1. rewrite read_digits_shift by done.
  pose proof (read_digits_shift b (0 * 10 ^ N.of_nat (String.length a) + digits_value a) (0 + String.length a) "" Hb) as E.
  rewrite append_nil in E. rewrite E. cbn [read_digits fst]. lia.
Qed.

Lemma zeros_digits n : all_digits (zeros n) ∧ digits_value (zeros n) = 0%N ∧ String.length (zeros n) = n.
Proof.
  induction n as [|n (IH1 & IH2 & IH3)]; [done|]. cbn [zeros String.length]. split_and!; [done| |by rewrite IH3].
  change (String "0" (zeros n)) with ("0" +:+ zeros n). rewrite digits_value_app by done. rewrite IH2. change (digits_value "0") with 0%N. lia.
Qed.

(** The digits of a natural number. *)
Lemma natural_digits n :
  (0 <= n)%Z -> all_digits (pretty n) ∧ digits_value (pretty n) = Z.to_N n ∧ (∃ q, (∀ q0, (q0 <= 1)%nat -> run q0 (pretty n) = Some q) ∧ (2 <= q <= 3)%nat) ∧
    ∀ j : nat, (0 < j)%nat -> (n < 10 ^ Z.of_nat j)%Z -> (String.length (pretty n) <= j)%nat.
Proof.
  intros Hn. destruct n as [|n|n]; [|pose proof (pretty_pos_digits n) as [D1 D2 D3 D4]; change (pretty (Zpos n)) with (pretty n)|lia].
  - change (pretty 0%Z) with "0". split_and!; [done..| |intros j Hj _; cbn; lia]. exists 2%nat. split; [|lia]. by intros [|[|?]] ?; [..|lia].
  - split_and!; [done| | |].
    + unfold digits_value. specialize (D4 "" 0%N 0%nat). rewrite append_nil in D4. rewrite D4. cbn [read_digits fst Z.to_N]. lia.
    + exists 3%nat. split; [done|lia].
    + intros j Hj Hb. destruct (Nat.leb_spec (String.length (pretty n)) j) as [|Hl]; [done|]. exfalso.
      assert (Hp : (10 ^ N.of_nat j <= 10 ^ (N.of_nat (String.length (pretty n)) - 1))%N) by (apply N.pow_le_mono_r; lia).
      assert (E : Z.of_N (10 ^ N.of_nat j) = (10 ^ Z.of_nat j)%Z) by (rewrite N2Z.inj_pow; f_equal; lia). lia.
Qed.

Lemma six_digits_spec r :
  (0 <= r < 10 ^ 6)%Z -> all_digits (six_digits r) ∧ digits_value (six_digits r) = Z.to_N r ∧ String.length (six_digits r) = 6%nat.
Proof.
  intros Hr. destruct (natural_digits r) as (D & V & _ & L); [lia|]. specialize (L 6%nat ltac:(lia) ltac:(done || apply Hr)).
  destruct (zeros_digits (6 - String.length (pretty r))) as (Z1 & Z2 & Z3). unfold six_digits. split_and!.
  - by apply all_digits_app.
  - rewrite digits_value_app, Z2, V by done. lia.
  - rewrite append_length, Z3. lia.
Qed.

(** Trailing zeros of the digits after the point. *)
Lemma trailing_spec f : ∀ pos,
  (trailing_zeros f decp pos None = None ∨
   ∃ a j, f = a +:+ zeros j ∧ trailing_zeros f decp pos None = Some (pos + String.length a)%nat) ∧
  ∀ p, (trailing_zeros f zero_ pos (Some p) = None ∨
   (∃ j, f = zeros j ∧ trailing_zeros f zero_ pos (Some p) = Some p) ∨
   ∃ a j, f = a +:+ zeros j ∧ trailing_zeros f zero_ pos (Some p) = Some (pos + String.length a)%nat).
Proof.
  induction f as [|c f IH]; intros pos.
  - split; [by left|]. intros p. right. left. by exists 0%nat.
  - destruct (IH (pos + 1)%nat) as [Hd Hz]. split; [|intros p]; cbn [trailing_zeros]; destruct (Ascii.eqb_spec c "0") as [->|Hc].
    + destruct (Hz pos) as [?|[(j & -> & ->)|(a & j & -> & ->)]]; [by left|..]; right.
      * exists "", (S j). split; [done|]. cbn. f_equal. lia.
      * exists (String "0" a), j. split; [done|]. cbn. f_equal. lia.
    + destruct Hd as [?|(a & j & -> & ->)]; [by left|]. right. exists (String c a), j. split; [done|]. cbn. f_equal. lia.
    + destruct (Hz p) as [?|[(j & -> & ->)|(a & j & -> & ->)]]; [by left|..]; right.
      * left. by exists (S j).
      * right. exists (String "0" a), j. split; [done|]. cbn. f_equal. lia.
    + destruct Hd as [?|(a & j & -> & ->)]; [by left|]. right. right. exists (String c a), j. split; [done|]. cbn. f_equal. lia.
Qed.

Fixpoint no_point (s : string) : Prop := match s with EmptyString => True | String c r => c ≠ "."%char ∧ no_point r end.

Lemma trailing_start p r : ∀ pos, no_point p -> trailing_zeros (p +:+ r) start_ pos None = trailing_zeros r start_ (pos + String.length p) None.
Proof.
  induction p as [|c p IH]; intros pos Hp; cbn [String.append String.length]; [f_equal; lia|]. destruct Hp as [Hc Hp].
  cbn [trailing_zeros]. rewrite (proj2 (Ascii.eqb_neq _ _) Hc), IH by done. f_equal; lia.
Qed.

Lemma substring_app a b : String.substring 0 (String.length a) (a +:+ b) = a.
Proof. induction a as [|c a IH]; cbn; [by destruct b|]. by rewrite IH. Qed.

Lemma trailing_point c f pos :
  trailing_zeros (String "." (String c f)) start_ pos None =
  if Ascii.eqb c "0" then trailing_zeros f decp (pos + 2) None else trailing_zeros (String c f) decp (pos + 1) None.
Proof. reflexivity. Qed.

(** At least one digit stays after the point. *)
Lemma trim_point p c f :
  no_point p -> ∃ a j, String c f = a +:+ zeros j ∧ a ≠ "" ∧ CrowJson.trim (p +:+ String "." (String c f)) = p +:+ String "." a.
Proof.
  intros Hp. set (T := p +:+ String "." (String c f)).
  cut ((trailing_zeros T start_ 0 None = None ∨ ∃ a j, String c f = a +:+ zeros j ∧ a ≠ "" ∧
         trailing_zeros T start_ 0 None = Some (String.length (p +:+ String "." a)))).
  { unfold CrowJson.trim. intros [->|(a & j & E & Ha & ->)].
    - exists (String c f), 0%nat. by rewrite append_nil.
    - exists a, j. split; [done|]. split; [done|]. unfold T. rewrite E.
      replace (p +:+ String "." (a +:+ zeros j)) with ((p +:+ String "." a) +:+ zeros j) by (by flat). apply substring_app. }
  unfold T. rewrite trailing_start, trailing_point by done.
  destruct (Ascii.eqb_spec c "0") as [->|Hc].
  - destruct (proj1 (trailing_spec f (0 + String.length p + 2))) as [->|(a & j & -> & ->)]; [by left|]. right.
    exists (String "0" a), j. split_and!; [done..|]. rewrite append_length. cbn [String.length]. f_equal. lia.
  - destruct (proj1 (trailing_spec (String c f) (0 + String.length p + 1))) as [->|(a & j & E & ->)]; [by left|]. right.
    exists a, j. split_and!; [done| |].
    + intros ->. destruct j as [|j]; cbn in E; [done|]. by injection E as -> _.
    + rewrite append_length. cbn [String.length]. f_equal. lia.
Qed.

Lemma digits_no_point t : all_digits t -> no_point t.
Proof. induction t as [|c t IH]; [done|]. intros [Hc Ht]. split; [by intros ->|by apply IH]. Qed.

Lemma substring_short n s : (String.length s <= n)%nat -> String.substring 0 n s = s.
Proof.
  revert n. induction s as [|c s IH]; intros [|n] Hn; cbn in *; [done|done|lia|]. by rewrite IH by lia.
Qed.

(** A sign, a whole number, and digits after the point. *)
Definition fixed_text (s : bool) (n : Z) (a : string) : string :=
  (if s then "-" else "") +:+ pretty n +:+ String "." a.

Lemma fixed_number s n a : (0 <= n)%Z -> all_digits a -> number_text (fixed_text s n a).
Proof.
  intros Hn Ha. destruct (natural_digits n Hn) as (_ & _ & (q & Hq & Hr) & _). exists 4%nat. split; [|done].
  unfold fixed_text. rewrite number_run_app.
  assert (E : ∃ q0, run 0 (if s then "-" else "") = Some q0 ∧ (q0 <= 1)%nat) by (destruct s; [exists 1%nat|exists 0%nat]; (split; [reflexivity|lia])).
  destruct E as (q0 & -> & H0). cbn [mbind option_bind]. rewrite number_run_app, Hq by done. cbn [mbind option_bind run].
  change (number_char ".") with (Some (on_point, false)). cbn [mbind option_bind].
  replace (entry on_point q) with 4%nat by (assert (q = 2 ∨ q = 3)%nat as [->| ->] by lia; reflexivity). by apply run_digits.
Qed.

Lemma fixed_read s n a :
  (0 <= n)%Z -> all_digits a ->
  read_decimal (fixed_text s n a) =
    Some {| negative := s; mantissa := (Z.to_N n * 10 ^ N.of_nat (String.length a) + digits_value a)%N; exponent := (- Z.of_nat (String.length a))%Z |}.
Proof.
  intros Hn Ha. destruct (natural_digits n Hn) as (D & V & _ & _).
  assert (E : ∀ s0, s0 = fixed_text s n a ->
    match s0 with String c r => if Ascii.eqb c "-" then (true, r) else (false, s0) | EmptyString => (false, s0) end = (s, pretty n +:+ String "." a)).
  { intros s0 ->. unfold fixed_text. destruct s; [done|]. cbn [String.append]. destruct (pretty n) as [|c t]; [done|]. cbn [String.append].
    destruct D as [Hc _]. by destruct (Ascii.eqb_spec c "-") as [->|]. }
  unfold read_decimal. rewrite (E _ eq_refl), read_digits_shift by done. cbn [read_digits]. change (is_digit ".") with false. cbn iota.
  rewrite eqb_self. pose proof (read_digits_shift a (0 * 10 ^ N.of_nat (String.length (pretty n)) + digits_value (pretty n)) 0 "" Ha) as R.
  rewrite append_nil in R. rewrite R, V. cbn [read_digits read_exponent mbind option_bind]. f_equal.
Qed.

Lemma micro_nonneg m e : (0 <= micro m e)%Z.
Proof.
  unfold micro. destruct e as [|e|e]; [lia|pose proof (Z.pow_nonneg 2 (Zpos e)); nia|]. unfold round_half_even.
  assert (H : (0 <= Zpos m * 10 ^ 6 / 2 ^ Zpos e)%Z) by (apply Z.div_pos; lia). repeat case_match; lia.
Qed.

Lemma print_f_fixed x :
  is_number x = true -> ((millionths x).2 < 2 ^ 128 * 10 ^ 6)%Z ->
  ∃ s n, millionths x = (s, n) ∧ (0 <= n)%Z ∧ print_f x = fixed_text s (n / 10 ^ 6) (six_digits (n mod 10 ^ 6)).
Proof.
  destruct x as [s|s| |s m e]; [intros _ _|done|done|intros _ Hb].
  - exists s, 0%Z. split; [done|]. split; [done|]. by destruct s.
  - exists s, (micro m e). split; [done|]. pose proof (micro_nonneg m e) as Hn. split; [done|]. cbn [millionths snd] in Hb.
    unfold print_f, fixed_text. destruct (natural_digits (micro m e / 10 ^ 6)) as (_ & _ & _ & L); [apply Z.div_pos; lia|].
    specialize (L 40%nat ltac:(lia)). destruct (six_digits_spec (micro m e mod 10 ^ 6)) as (_ & _ & L6); [apply Z.mod_pos_bound; lia|].
    assert (Hq : (micro m e / 10 ^ 6 < 2 ^ 128)%Z) by (apply Z.div_lt_upper_bound; lia).
    assert (H40 : (2 ^ 128 < 10 ^ Z.of_nat 40)%Z) by (vm_compute; reflexivity). specialize (L ltac:(lia)).
    rewrite substring_short; [by destruct s|]. destruct s; cbn [String.length]; rewrite append_length; cbn [String.length]; lia.
Qed.

(** The text of a [float]. *)
Lemma float_text x :
  is_number x = true -> ((millionths x).2 < 2 ^ 128 * 10 ^ 6)%Z ->
  ∃ d, number_text (CrowJson.trim (print_f x)) ∧ read_decimal (CrowJson.trim (print_f x)) = Some d ∧ negative d = (millionths x).1 ∧
    (-6 <= exponent d <= 0)%Z ∧ (Z.of_N (mantissa d) * 10 ^ (6 + exponent d) = (millionths x).2)%Z.
Proof.
  intros Hx Hb. destruct (print_f_fixed x Hx Hb) as (s & n & -> & Hn & ->). cbn [fst snd].
  pose proof (Z.div_pos n (10 ^ 6) Hn ltac:(lia)) as Hq. pose proof (Z.mod_pos_bound n (10 ^ 6) ltac:(lia)) as Hr.
  destruct (six_digits_spec (n mod 10 ^ 6) Hr) as (D & V & L). destruct (natural_digits (n / 10 ^ 6) Hq) as (Dq & _ & _ & _).
  destruct (six_digits (n mod 10 ^ 6)) as [|c f]; [done|].
  destruct (trim_point ((if s then "-" else "") +:+ pretty (n / 10 ^ 6)%Z) c f) as (a & j & E & Ha & Et).
  { destruct s; cbn [String.append]; [split; [done|]|]; by apply digits_no_point. }
  rewrite append_assoc in Et. unfold fixed_text at 1 2. rewrite Et, append_assoc. fold (fixed_text s (n / 10 ^ 6) a).
  rewrite E in D, V, L. apply all_digits_app in D as [Da Dj]. destruct (zeros_digits j) as (_ & Vj & Lj).
  rewrite digits_value_app, Vj, Lj in V by done. rewrite append_length, Lj in L.
  eexists. split; [by apply fixed_number|]. split; [by apply fixed_read|]. cbn [negative exponent mantissa].
  split; [done|]. split; [lia|]. rewrite N2Z.inj_add, N2Z.inj_mul, N2Z.inj_pow, Z2N.id by done.
  replace (6 + - Z.of_nat (String.length a))%Z with (Z.of_nat j) by lia.
  apply (f_equal Z.of_N) in V. rewrite N2Z.inj_add, N2Z.inj_mul, N2Z.inj_pow, Z2N.id in V by lia.
  replace (Z.of_N (N.of_nat j)) with (Z.of_nat j) in V by lia. replace (Z.of_N (N.of_nat (String.length a))) with (6 - Z.of_nat j)%Z by lia.
  assert (E6 : (10 ^ (6 - Z.of_nat j) * 10 ^ Z.of_nat j = 10 ^ 6)%Z) by (rewrite <- Z.pow_add_r by lia; f_equal; lia).
  pose proof (Z.div_mod n (10 ^ 6) ltac:(lia)) as Ed. change (Z.of_N 10) with 10%Z in *. nia.
Qed.

(** ** Lists and objects *)

Section Text.
Context (print_g : float64 -> string) (indent : Z) (separator : ascii).
Context (Hsep : is_ws separator = true).

Abbreviation text := (dump_internal print_g indent separator).
Abbreviation indentation := (dump_indentation_part indent separator).

Lemma repeat_blank n : blank (repeat_char n separator).
Proof. induction n as [|n IH]; [done|]. by split. Qed.

Lemma indentation_blank lvl : blank (indentation lvl).
Proof. unfold dump_indentation_part. destruct (0 <=? indent)%Z; [split; [done|apply repeat_blank]|done]. Qed.

Lemma blank_app a b : blank a -> blank b -> blank (a +:+ b).
Proof. induction a as [|c a IH]; [done|]. intros [Hc Ha] Hb. split; [done|by apply IH]. Qed.

(** The elements after the first, each with its comma. *)
Fixpoint more_elements (lvl : Z) (l : list wvalue) : string :=
  match l with [] => "" | x :: l => String "," (indentation (lvl + 1) +:+ text x (lvl + 1)) +:+ more_elements lvl l end.

Definition member (lvl : Z) (p : string * wvalue) : string :=
  dump_string p.1 +:+ ":" +:+ (if (0 <=? indent)%Z then " " else "") +:+ text p.2 (lvl + 1).

Fixpoint more_members (lvl : Z) (l : list (string * wvalue)) : string :=
  match l with [] => "" | p :: l => String "," (indentation (lvl + 1) +:+ member lvl p) +:+ more_members lvl l end.

Lemma dump_list_cons x l lvl :
  text (WList (x :: l)) lvl = "[" +:+ indentation (lvl + 1) +:+ (text x (lvl + 1) +:+ more_elements lvl l +:+ indentation lvl) +:+ "]".
Proof.
  cbn [dump_internal]. match goal with |- context [?f l false] => assert (E : f l false = more_elements lvl l) end.
  { induction l as [|y l IH]; [done|]. cbn [more_elements]. rewrite IH. unfold joined. by flat. }
  rewrite E. unfold joined. by flat.
Qed.

Lemma dump_object_cons p l lvl :
  text (WObject (p :: l)) lvl = "{" +:+ indentation (lvl + 1) +:+ (member lvl p +:+ more_members lvl l +:+ indentation lvl) +:+ "}".
Proof.
  destruct p as [k x]. cbn [dump_internal]. match goal with |- context [?f l false] => assert (E : f l false = more_members lvl l) end.
  { induction l as [|[k' y] l IH]; [done|]. cbn [more_members]. rewrite IH. unfold joined, member. cbn [fst snd]. by flat. }
  rewrite E. unfold joined, member. cbn [fst snd]. by flat.
Qed.

(** A value at some depth. *)
Definition written_at (d : N) (v : wvalue) : Prop :=
  ∀ lvl, ∃ r, value_text d (text v lvl) r ∧ reads print_g v r.

Definition written (v : wvalue) : Prop := ∀ d, (d + 2 * nesting v <= max_depth)%N -> written_at d v.

Lemma elements_written d lvl l : ∀ x,
  Forall (written_at (d + 1)) (x :: l) ->
  ∃ rs, elements_text d (text x (lvl + 1) +:+ more_elements lvl l +:+ indentation lvl) rs ∧ Forall2 (reads print_g) (x :: l) rs.
Proof.
  induction l as [|y l IH]; intros x H; apply Forall_cons in H as [Hx Hl]; destruct (Hx (lvl + 1)%Z) as (r & Ht & Hr).
  - exists [r]. split; [|by repeat constructor]. apply element_last; [done|apply indentation_blank].
  - destruct (IH y Hl) as (rs & Hts & Hrs). exists (r :: rs). split; [|by constructor].
    pose proof (element_more d _ r "" (indentation (lvl + 1)) _ rs Ht I (indentation_blank (lvl + 1)) Hts) as H.
    cbn [more_elements]. revert H. by flat.
Qed.

Lemma member_text d lvl p w :
  written_at (d + 1) p.2 -> blank w ->
  ∃ r, members_text d (member lvl p +:+ w) [(p.1, r)] ∧ reads print_g p.2 r ∧
    ∀ w' s' l, blank w' -> members_text d s' l -> members_text d (member lvl p +:+ w +:+ "," +:+ w' +:+ s') ((p.1, r) :: l).
Proof.
  intros Hp Hw. destruct (Hp (lvl + 1)%Z) as (r & Ht & Hr). destruct (raw_escape p.1) as (b & Hb & E).
  assert (Hs : blank (if (0 <=? indent)%Z then " " else "")) by (by destruct (0 <=? indent)%Z).
  exists r. unfold member, dump_string. split; [|split; [done|]].
  - pose proof (member_last d (escape p.1) b "" _ _ r w Hb I Hs Ht Hw) as H. rewrite E in H. revert H. by flat.
  - intros w' s' l Hw' Hl. pose proof (member_more d (escape p.1) b "" _ _ r w w' s' l Hb I Hs Ht Hw Hw' Hl) as H.
    rewrite E in H. revert H. by flat.
Qed.

Lemma members_written d lvl l : ∀ p,
  Forall (fun p => written_at (d + 1) p.2) (p :: l) ->
  ∃ rs, members_text d (member lvl p +:+ more_members lvl l +:+ indentation lvl) rs ∧
    Forall2 (fun p q => p.1 = q.1 ∧ reads print_g p.2 q.2) (p :: l) rs.
Proof.
  induction l as [|q l IH]; intros p H; apply Forall_cons in H as [Hp Hl].
  - destruct (member_text d lvl p (indentation lvl) Hp (indentation_blank lvl)) as (r & Ht & Hr & _).
    exists [(p.1, r)]. split; [done|by repeat constructor].
  - destruct (IH q Hl) as (rs & Hts & Hrs). destruct (member_text d lvl p "" Hp I) as (r & _ & Hr & Hm).
    exists ((p.1, r) :: rs). split; [|by constructor]. cbn [more_members].
    pose proof (Hm _ _ _ (indentation_blank (lvl + 1)) Hts) as H. revert H. by flat.
Qed.

Lemma nesting_bound d (l : list N) :
  (d + 2 * (1 + foldr N.max 0 l) <= max_depth)%N -> (d + 1 <= max_depth)%N ∧ Forall (fun n => d + 1 + 1 + 2 * n <= max_depth)%N l.
Proof.
  intros H. split; [lia|]. apply Forall_forall. intros n Hn.
  assert (n <= foldr N.max 0 l)%N; [|lia]. clear H. induction l as [|m l IH]; [by apply not_elem_of_nil in Hn|]. cbn.
  apply elem_of_cons in Hn as [->|Hn]; [lia|]. specialize (IH Hn). lia.
Qed.

Lemma written_text v : writable print_g v -> written v.
Proof.
  apply (wvalue_nested_ind (fun v => writable print_g v -> written v)); clear v; [intros v|intros l IH..].
  - destruct v as [| | |n|n|x|x|s|l|l]; try exact I; intros Hw d _ lvl; cbn [dump_internal].
    1-3: eexists; split; constructor.
    1-2: destruct (integer_text n) as [Hn Hr]; eexists; split; [by apply text_number|by constructor].
    + destruct (is_number x) eqn:Ex; [|exists RNull; split; by constructor]. inversion_clear Hw.
      destruct (float_text x Ex) as (dd & H1 & H2 & H3 & H4 & H5); [done|]. eexists. split; [by apply text_number|]. by apply (reads_float _ _ _ dd).
    + destruct (is_number x) eqn:Ex; [|exists RNull; split; by constructor]. inversion_clear Hw as [| | | | | |? Hd| | |].
      eexists. split; [by apply text_number, Hd|by constructor].
    + destruct (raw_escape s) as (b & Hb & E). eexists. split; [by apply text_string|by constructor].
  - intros Hw d Hd lvl. inversion_clear Hw as [| | | | | | | |? Hl|]. cbn [nesting] in Hd. apply nesting_bound in Hd as [Hd Hn]. rewrite Forall_fmap in Hn.
    assert (H : Forall (written_at (d + 1 + 1)) l).
    { rewrite !Forall_forall in *. intros x Hx. by apply IH; [|apply Hl|apply Hn]. }
    destruct l as [|x l].
    + exists (RList []). split; [|by constructor]. cbn [dump_internal String.append].
      rewrite <- append_assoc. apply text_empty_list; [done|]. apply blank_app; apply indentation_blank.
    + destruct (elements_written (d + 1) lvl l x H) as (rs & Ht & Hr). exists (RList rs). rewrite dump_list_cons.
      split; [|by constructor]. by apply text_list; [|apply indentation_blank|].
  - intros Hw d Hd lvl. inversion_clear Hw as [| | | | | | | | |? Hl]. cbn [nesting] in Hd. apply nesting_bound in Hd as [Hd Hn]. rewrite Forall_fmap in Hn.
    assert (H : Forall (fun p => written_at (d + 1 + 1) p.2) l).
    { rewrite !Forall_forall in *. intros x Hx. by apply IH; [|apply Hl|apply Hn]. }
    destruct l as [|p l].
    + exists (RObject []). split; [|by constructor]. cbn [dump_internal String.append].
      rewrite <- append_assoc. apply text_empty_object; [done|]. apply blank_app; apply indentation_blank.
    + destruct (members_written (d + 1) lvl l p H) as (rs & Ht & Hr). exists (RObject rs). rewrite dump_object_cons.
      split; [|by constructor]. by apply text_object; [|apply indentation_blank|].
Qed.
End Text.

Lemma dump_loads print_g indent separator v :
  is_ws separator = true -> writable print_g v -> (nesting v <= 5000)%N ->
  ∃ r, load (dump_internal print_g indent separator v 0) = Some r ∧ reads print_g v r.
Proof.
  intros Hs Hw Hn. destruct (written_text print_g indent separator Hs v Hw 0%N) with (lvl := 0%Z) as (r & Ht & Hr); [unfold max_depth; lia|].
  exists r. split; [|done]. apply load_accepts. exists "", (dump_internal print_g indent separator v 0), "", "".
  rewrite !append_nil. done.
Qed.

(** C26. Round trip of the JSON writer.  A value nested at most 5000 deep, written with
    any indentation, is accepted by the reader, which returns the same structure:
    the same keys in the same order, every string with every byte (quotes, backslashes,
    control characters and zero bytes included), integers exactly, a [float] rounded
    to six decimals, and null for NaN and the infinities. *)
Theorem dump_load_roundtrip print_g indent separator v :
  is_ws separator = true -> writable print_g v -> (nesting v <= 5000)%N ->
  ∃ r, load (dump_internal print_g indent separator v 0) = Some r ∧ reads print_g v r.
Proof. apply dump_loads. Qed.

(** An object with a string to escape, a negative integer, 0.5 and an infinity. *)
Definition sample : wvalue :=
  WObject [(String quote "k", WString (String NUL (String "010" "x"))); ("n", WSigned (-120)%Z);
           ("l", WList [WFloat (S754_finite false 4503599627370496 (-53)); WFloat (S754_infinity false); WList []])].

Lemma sample_writable print_g : writable print_g sample.
Proof. by repeat constructor. Qed.

Lemma dump_load_roundtrip_witness :
  ∃ r, load (dump_internal (fun _ => "") 2 " " sample 0) = Some r ∧ reads (fun _ => "") sample r.
Proof.
  apply (dump_load_roundtrip (fun _ => "") 2 " " sample eq_refl (sample_writable _)). by vm_compute.
Defined.

(** The digits of an exponent are taken for digits after the point: the text of
    10{^-10} with 21 digits loses the zero of its exponent and becomes 0.1. *)
Example trim_exponent :
  CrowJson.trim "1.00000000000000003643e-10" = "1.00000000000000003643e-1".
Proof. reflexivity. Qed.

End CrowDump.
