(* ===== verification/ControlHttp.v ===== *)
(** * HTTP requests to the control interface, as texts.

    Puts [ControlInterface], which works on parsed requests, and the JSON reader and
    writer of [CrowJson] together, as the routes of
    [src/example/go2/typego_control_interface.cpp] do: a request is the text of its body,
    an answer the text that is sent. *)

From stdpp Require Import sorting.
From Stdlib Require Import Ascii String.
From S2P Require Import Prelude Floats ControlInterface CrowJson CrowJsonProps CrowValues CrowDump.
Import CrowJsonProps CrowValues CrowDump ControlProps.

Local Open Scope string_scope.
Local Open Scope list_scope.

(** A response with its code and body; [Throws]: an exception leaves the handler. *)
Inductive answer := Answer (code : Z) (body : string) | Throws.

Section Http.
Context (cos sin : float64 -> float64) (print_g : float64 -> string).
Context (sort : list (string * rvalue) -> list (string * rvalue)).
(** The order in which a hash table holds the members of an object. *)
Context (order : list (string * wvalue) -> list (string * wvalue)).

(** [body[f].s()], [body[f].d()] and [body[f].b()]. *)
Definition view (v : rvalue) : json_body :=
  {| field_s f := x ← at_key sort v f; as_s x;
     field_d f := x ← at_key sort v f; as_d x;
     field_b f := x ← at_key sort v f; as_b x |}.

Definition status_json (status : Z) (message : string) : wvalue :=
  WObject (order [("status", WSigned status); ("message", WString message)]).

Definition number_json (x : float32) : wvalue := WFloat (F64.of_f32 x).

Definition state_json (s : HighState) : wvalue :=
  let '(x, y, z) := position s in
  let '(roll, pitch, yaw) := rpy s in
  WObject (order [("x", number_json x); ("y", number_json y); ("z", number_json z);
                  ("roll", number_json roll); ("pitch", number_json pitch); ("yaw", number_json yaw)]).

Definition render (r : response) : answer :=
  match r with
  | Text code body => Answer code body
  | Status code status message => Answer code (dump print_g (status_json status message))
  | State code s => Answer code (dump print_g (state_json s))
  | Raised => Throws
  end.

Definition control_http (body : string) (i : inputs) (r : rc) : option (rc * answer) :=
  '(r, resp) ← control_route cos sin (view <$> load body) i r; Some (r, render resp).

Definition state_http (r : rc) : answer := render (state_route r).
End Http.

(** ** Theorems *)
Module ControlHttp.

Section Theorems.
Context (cos sin : float64 -> float64) (print_g : float64 -> string).
Context (sort : list (string * rvalue) -> list (string * rvalue)) `{!Sorting sort}.
Context (order : list (string * wvalue) -> list (string * wvalue)) (Horder : ∀ l, order l ≡ₚ l).

(** The value of a member of an object that was written. *)
Lemma member_reads l v k x :
  reads print_g (WObject l) v -> NoDup l.*1 -> (k, x) ∈ l -> ∃ y, at_key sort v k = Some y ∧ reads print_g x y.
Proof.
  intros Hr Hn Hx. inversion_clear Hr as [| | | | | | | | | | |? l' Hf].
  assert (Hk : l'.*1 = l.*1) by (clear - Hf; induction Hf as [|p q l l' [H _] _ IH]; cbn; congruence).
  assert (Hy : ∃ y, (k, y) ∈ l' ∧ reads print_g x y).
  { apply list_elem_of_lookup_1 in Hx as [i Hi]. destruct (Forall2_lookup_l _ _ _ _ _ Hf Hi) as ([k' y] & Hi' & Ek & Hry).
    cbn in *. subst k'. exists y. split; [by eapply list_elem_of_lookup_2|done]. }
  destruct Hy as (y & Hy & Hry). exists y. split; [|done]. destruct (at_key_found sort l' k) as [Hs Hi].
  destruct Hi as [y' Ey]; [by eapply (list_elem_of_fmap_2 fst) in Hy|]. rewrite Ey. f_equal.
  apply Hs in Ey. apply (unique_key l' k); [by rewrite Hk|done..].
Qed.

(** An object of few members without lists in it, dumped and loaded. *)
Lemma flat_object_reads l :
  NoDup l.*1 -> Forall (fun p => writable print_g p.2 ∧ nesting p.2 = 0%N) l ->
  ∃ v, load (dump print_g (WObject (order l))) = Some v ∧ ∀ k x, (k, x) ∈ l -> ∃ y, at_key sort v k = Some y ∧ reads print_g x y.
Proof.
  intros Hn Hl. pose proof (Horder l) as Hp. rewrite <- Hp in Hn, Hl.
  destruct (dump_loads print_g (-1) " " (WObject (order l)) eq_refl) as (v & Ev & Hr).
  - constructor. by eapply Forall_impl; [exact Hl|intros p []].
  - cbn [nesting]. replace (foldr N.max 0%N ((fun p => nesting p.2) <$> order l)) with 0%N; [lia|].
    clear - Hl. induction Hl as [|p l' [_ E] _ IH]; cbn; [done|]. rewrite E, <- IH. done.
  - exists v. split; [done|]. intros k x Hx. rewrite <- Hp in Hx. by apply (member_reads (order l) v).
Qed.

Abbreviation http := (control_http cos sin print_g sort order).

(** Reading the answer to a command. *)
Lemma status_reads status message :
  ∃ v t, load (dump print_g (status_json order status message)) = Some v ∧
    at_key sort v "status" = Some (RNumber t) ∧
    read_decimal t = Some {| negative := (status <? 0)%Z; mantissa := Z.abs_N status; exponent := 0 |} ∧
    field_s (view sort v) "message" = Some message.
Proof.
  destruct (flat_object_reads [("status", WSigned status); ("message", WString message)]) as (v & Ev & Hv).
  - apply (bool_decide_unpack (NoDup _)). by vm_compute.
  - by repeat constructor.
  - destruct (Hv "status" (WSigned status)) as (y & Ey & Ry); [left|]. inversion Ry as [| | |? t Et| | | | | | | |]; subst.
    destruct (Hv "message" (WString message)) as (y & Ey' & Ry'); [right; left|]. inversion Ry' as [| | | | | | | | |? raw b Es| |]; subst.
    exists v, t. split_and!; [done..|]. cbn. by rewrite Ey'.
Qed.

Lemma view_command l raw b :
  NoDup l.*1 -> ("command", RString raw b) ∈ l -> field_s (view sort (RObject l)) "command" = Some (string_of raw b).
Proof.
  intros Hn Hc. cbn [view field_s]. destruct (at_key_found sort l "command") as [Hs Hi].
  destruct Hi as [y Ey]; [by eapply (list_elem_of_fmap_2 fst) in Hc|]. rewrite Ey. cbn [mbind option_bind].
  apply Hs in Ey. by rewrite (unique_key l "command" y _ Hn Ey Hc).
Qed.

(** C24. A command from the text of the request to the text of the answer.  A body that
    is not JSON is answered 400.  For a JSON object with distinct keys, whatever
    their order, the white space and the escapes, the text of the command member
    selects the command: an unknown one is answered 400 and changes nothing; a
    command that is not a loop and whose numbers can be read sends exactly its sport
    command, and is answered 200 with a body in which a JSON reader finds the status
    (0, or 2 when the client refused) and the message, empty when it succeeded. *)
Theorem control_http_dispatch body i r :
  (load body = None -> http body i r = Some (r, Answer 400 "Invalid JSON")) ∧
  (∀ l raw b, load body = Some (RObject l) -> NoDup l.*1 -> ("command", RString raw b) ∈ l ->
     (string_of raw b ∉ commands -> http body i r = Some (r, Answer 400 "Unknown command")) ∧
     (∀ c, simple_request (view sort (RObject l)) (string_of raw b) = Some c ->
        ∃ text v t message,
          http body i r = Some (send c r, Answer 200 text) ∧ load text = Some v ∧
          at_key sort v "status" = Some (RNumber t) ∧
          read_decimal t = Some {| negative := false; mantissa := if (ret i =? 0)%Z then 0%N else 2%N; exponent := 0 |} ∧
          field_s (view sort v) "message" = Some message ∧ (ret i = 0%Z -> message = ""))).
Proof.
  unfold control_http. split; [by intros ->|]. intros l raw b -> Hn Hc. cbn [fmap option_fmap option_map].
  destruct (control_route_dispatch cos sin (view sort (RObject l)) i r _ (view_command l raw b Hn Hc)) as [Hu Hs]. split.
  - intros Hx. by rewrite (Hu Hx).
  - intros c Hx. destruct (Hs c Hx) as (message & E & Hm). rewrite E. cbn [mbind option_bind render].
    destruct (status_reads (if (ret i =? 0)%Z then 0 else 2)%Z message) as (v & t & H1 & H2 & H3 & H4).
    exists (dump print_g (status_json order (if (ret i =? 0)%Z then 0 else 2)%Z message)), v, t, message.
    split_and!; try done. rewrite H3. by destruct (ret i =? 0)%Z.
Qed.

(** The size of a [float]. *)
Lemma float_millionths x : f32_ok x = true -> ((millionths (F64.of_f32 x)).2 < 2 ^ 128 * 10 ^ 6)%Z.
Proof.
  destruct x as [s|s| |s m e]; [intros _; cbn; lia..|]. intros Hx.
  destruct (f64_of_f32_exact s m e Hx) as (m' & k & Hk & E & Hm & ->). apply f32_ok_cases in Hx. cbn [millionths snd]. unfold micro.
  assert (H24 : (Zpos m < 2 ^ 24 ∧ e <= 104)%Z) by lia.
  destruct (e - k)%Z as [|p|p] eqn:Ep.
  - lia.
  - assert (Hv : (Zpos m' * 2 ^ Zpos p = Zpos m * 2 ^ e)%Z) by (rewrite E, <- Z.mul_assoc, <- Z.pow_add_r by lia; do 2 f_equal; lia).
    rewrite Hv. assert (2 ^ e <= 2 ^ 104)%Z by (apply Z.pow_le_mono_r; lia). assert (0 < 2 ^ e)%Z by (apply Z.pow_pos_nonneg; lia). nia.
  - unfold round_half_even. assert (H : (Zpos m' * 10 ^ 6 / 2 ^ Zpos p <= Zpos m' * 10 ^ 6)%Z).
    { apply Z.div_le_upper_bound; [apply Z.pow_pos_nonneg; lia|]. assert (0 < 2 ^ Zpos p)%Z by (apply Z.pow_pos_nonneg; lia). nia. }
    repeat case_match; lia.
Qed.

(** The members of the answer. *)
Definition state_fields (s : HighState) : list (string * float32) :=
  [("x", (position s).1.1); ("y", (position s).1.2); ("z", (position s).2);
   ("roll", (rpy s).1.1); ("pitch", (rpy s).1.2); ("yaw", (rpy s).2)].

(** C29. The state as text.  The answer of the state route is a JSON text in which a reader
    finds the six numbers under their names: every finite one with its sign and its
    value rounded to six decimals (to even), NaN and the infinities as null. *)
Theorem state_http_reads r :
  Forall (fun p => f32_ok p.2 = true) (state_fields (high_state r)) ->
  ∃ text v, state_http print_g order r = Answer 200 text ∧ load text = Some v ∧
    ∀ k x, (k, x) ∈ state_fields (high_state r) ->
      ∃ y, at_key sort v k = Some y ∧
        if is_number x then
          ∃ t d, y = RNumber t ∧ read_decimal t = Some d ∧ negative d = (millionths (F64.of_f32 x)).1 ∧ (-6 <= exponent d <= 0)%Z ∧
            (Z.of_N (mantissa d) * 10 ^ (6 + exponent d) = (millionths (F64.of_f32 x)).2)%Z
        else y = RNull.
Proof.
  intros Hok. destruct (flat_object_reads ((fun p => (p.1, number_json p.2)) <$> state_fields (high_state r))) as (v & Ev & Hv).
  - apply (bool_decide_unpack (NoDup _)). by vm_compute.
  - apply Forall_fmap. eapply Forall_impl; [exact Hok|]. intros p Hp. split; [|done]. constructor. by apply float_millionths.
  - exists (dump print_g (WObject (order ((fun p => (p.1, number_json p.2)) <$> state_fields (high_state r))))), v. split_and!; [|done|].
    + unfold state_http, state_route, render, state_json, state_fields. by destruct (position (high_state r)) as [[??]?], (rpy (high_state r)) as [[??]?].
    + intros k x Hx. destruct (Hv k (number_json x)) as (y & Ey & Ry); [by apply (list_elem_of_fmap_2 (fun p => (p.1, number_json p.2))) in Hx|].
      exists y. split; [done|]. assert (En : is_number (F64.of_f32 x) = is_number x).
      { rewrite Forall_forall in Hok. specialize (Hok _ Hx). cbn in Hok. destruct x as [| | |s m e]; try done.
        by destruct (f64_of_f32_exact s m e Hok) as (? & ? & _ & _ & _ & ->). }
      inversion Ry; subst; rewrite <- En; match goal with H : is_number _ = _ |- _ => rewrite H end; [eauto 10|done].
Qed.
End Theorems.

(** A velocity request that the robot accepts; the members of the answer in reverse. *)
Definition nav_text : string :=
  dump (fun _ => "") (WObject [("vyaw", WSigned (-1)); ("command", WString "nav"); ("vx", WFloat (F64.lit 5 10)); ("vy", WUnsigned 0)]).

Definition nav_members : list (string * rvalue) :=
  [("vyaw", RNumber "-1"); ("command", RString "nav" false); ("vx", RNumber "0.5"); ("vy", RNumber "0")].

Definition accepting_robot : inputs := {| ret := 0; start := 0; ticks := [] |}.

Lemma nav_members_nodup : NoDup nav_members.*1.
Proof. apply (bool_decide_unpack (NoDup _)). by vm_compute. Qed.

Lemma control_http_dispatch_witness :
  ∃ text v, control_http (fun x => x) (fun x => x) (fun _ => "") (merge_sort key_le) (@reverse _) nav_text accepting_robot rc_init =
    Some (send (Move (lit32 5 10) fzero (F32.of_Z (-1))) rc_init, Answer 200 text) ∧ load text = Some v.
Proof.
  destruct (proj2 (control_http_dispatch (fun x => x) (fun x => x) (fun _ => "") (merge_sort key_le) (@reverse _) (@reverse_Permutation _)
    nav_text accepting_robot rc_init) nav_members "nav" false) as [_ H].
  - vm_compute. reflexivity.
  - apply nav_members_nodup.
  - right. left.
  - destruct (H (Move (lit32 5 10) fzero (F32.of_Z (-1)))) as (text & v & t & message & E & Ev & _).
    + vm_compute. reflexivity.
    + exists text, v. split; [exact E|exact Ev].
Defined.

(** A robot at x = 1.5, with an infinite y. *)
Definition somewhere : rc :=
  ControlInterface._HighStateHandler
    {| position := (lit32 15 10, S754_infinity false, fzero); rpy := (fzero, fzero, lit32 (-1) 3) |} rc_init.

Lemma state_http_reads_witness :
  ∃ text v y, state_http (fun _ => "") (@reverse _) somewhere = Answer 200 text ∧ load text = Some v ∧
    at_key (merge_sort key_le) v "y" = Some y ∧ y = RNull.
Proof.
  destruct (state_http_reads (fun _ => "") (merge_sort key_le) (@reverse _) (@reverse_Permutation _) somewhere) as (text & v & E & Ev & H).
  - repeat constructor; by vm_compute.
  - destruct (H "y" (S754_infinity false)) as (y & Ey & Hy); [right; left|]. exists text, v, y. split_and!; [exact E|exact Ev|exact Ey|exact Hy].
Defined.
End ControlHttp.
