(* ===== verification/Stand.v ===== *)
(** * The stand-up sequences.

    Models [go2_stand_example.cpp], [b2_stand_example.cpp],
    [go2w_stand_example.cpp] and [b2w_stand_example.cpp] (under [src/example]):
    the start-up loop that releases the motion service, the command
    initialisation, and [LowCmdWrite], which is called every 2 ms and walks the
    legs through a fixed sequence of postures by single-precision
    interpolation.  The four programs share their members and differ in gains,
    postures, durations, the number of phases and the wheels. *)

From stdpp Require Import strings.
From S2P Require Import Prelude Floats Crc LowCmd RobotInterface.

Local Open Scope Z_scope.

(** ** Members *)

(** The members of [Custom] that [LowCmdWrite] uses; [published] is what was
    last handed to the publisher.  The b2 alone has [percent_5]. *)
Record Custom := {
  low_cmd : LowCmd_;
  low_state_q : list float32;    (** [low_state.motor_state()[i].q()] *)
  motiontime : Z;
  startPos : list float32;
  percent_1 : float32; percent_2 : float32; percent_3 : float32; percent_4 : float32; percent_5 : float32;
  firstRun : bool; finished : bool;
  published : option LowCmd_
}.

(** The constants of a program. *)
Record Config := {
  Kp : float32; Kd : float32; servo_mode : Z;
  targetPos_1 : list float32; targetPos_2 : list float32; targetPos_3 : list float32; targetPos_4 : list float32;
  duration_1 : float32; duration_2 : float32; duration_3 : float32; duration_4 : float32; duration_5 : float32
}.

(** Joint angles in hundredths of a radian, one leg after the other. *)
Definition posture (l : list Z) : list float32 := (fun z => lit32 z 100) <$> l.

Definition crouch : list float32 := posture [0; 136; -265; 0; 136; -265; -20; 136; -265; 20; 136; -265].
Definition tall : list float32 := posture [0; 67; -130; 0; 67; -130; 0; 67; -130; 0; 67; -130].

Definition go2_config : Config :=
  {| Kp := F32.of_Z 60; Kd := F32.of_Z 5; servo_mode := 1;
     targetPos_1 := crouch; targetPos_2 := tall;
     targetPos_3 := posture [-35; 136; -265; 35; 136; -265; -50; 136; -265; 50; 136; -265];
     targetPos_4 := [];
     duration_1 := F32.of_Z 500; duration_2 := F32.of_Z 500; duration_3 := F32.of_Z 1000;
     duration_4 := F32.of_Z 900; duration_5 := fzero |}.

Definition b2_config : Config :=
  {| Kp := F32.of_Z 1000; Kd := F32.of_Z 10; servo_mode := 10;
     targetPos_1 := posture [0; 136; -265; 0; 136; -265; 20; 136; -265; 20; 136; -265];
     targetPos_2 := tall;
     targetPos_3 := posture [0; 136; -265; 0; 136; -265; 0; 136; -265; 0; 136; -265];
     targetPos_4 := posture [-50; 136; -265; 50; 136; -265; -50; 136; -265; 50; 136; -265];
     duration_1 := F32.of_Z 500; duration_2 := F32.of_Z 900; duration_3 := F32.of_Z 1000;
     duration_4 := F32.of_Z 1100; duration_5 := F32.of_Z 500 |}.

Definition go2w_config : Config :=
  {| Kp := F32.of_Z 70; Kd := F32.of_Z 5; servo_mode := 1;
     targetPos_1 := crouch; targetPos_2 := tall;
     targetPos_3 := posture [-35; 136; -265; 35; 136; -265; -50; 136; -265; 50; 136; -265];
     targetPos_4 := [];
     duration_1 := F32.of_Z 500; duration_2 := F32.of_Z 500; duration_3 := F32.of_Z 2000;
     duration_4 := F32.of_Z 900; duration_5 := fzero |}.

Definition b2w_config : Config :=
  {| Kp := F32.of_Z 1000; Kd := F32.of_Z 10; servo_mode := 1;
     targetPos_1 := crouch; targetPos_2 := tall;
     targetPos_3 := posture [-65; 136; -265; 65; 136; -265; -65; 136; -265; 65; 136; -265];
     targetPos_4 := [];
     duration_1 := F32.of_Z 800; duration_2 := F32.of_Z 800; duration_3 := F32.of_Z 2000;
     duration_4 := F32.of_Z 1500; duration_5 := fzero |}.

(** ** Start-up *)

(** [queryServiceName]. *)
Definition queryServiceName (form name : string) : string :=
  if bool_decide (form = "0"%string) then
    if bool_decide (name = "normal"%string) then "sport_mode"
    else if bool_decide (name = "ai"%string) then "ai_sport"
    else if bool_decide (name = "advanced"%string) then "advanced_sport"
    else ""
  else if bool_decide (name = "ai-w"%string) then "wheeled_sport(go2W)"
  else if bool_decide (name = "normal-w"%string) then "wheeled_sport(b2W)"
  else "".

(** What a call of [CheckMode] returns: the code, and the form and name it
    writes. *)
Record CheckMode := { check_ret : Z; robotForm : string; motionName : string }.

(** [queryMotionStatus], and the service it reports as active. *)
Definition queryMotionStatus (c : CheckMode) : Z * option string :=
  if bool_decide (motionName c = ""%string) then (0, None)
  else (1, Some (queryServiceName (robotForm c) (motionName c))).

(** The [while (queryMotionStatus())] loop of [Init], over the answers of the
    motion switcher: the number of [ReleaseMode] calls made; [None] while the
    loop has not ended. *)
Fixpoint release_loop (checks : list CheckMode) : option nat :=
  match checks with
  | [] => None
  | c :: checks => if (queryMotionStatus c).1 =? 0 then Some 0%nat else S <$> release_loop checks
  end.

(** [InitLowCmd]. *)
Definition InitLowCmd (cfg : Config) (c : LowCmd_) : LowCmd_ :=
  let servo (m : MotorCmd_) : MotorCmd_ :=
    {| mode := servo_mode cfg; q := PosStopF; dq := VelStopF; tau := fzero; kp := fzero; kd := fzero;
       reserve := reserve m |} in
  {| head := [0xFE; 0xEF]; level_flag := 0xFF; frame_reserve := frame_reserve c; sn := sn c;
     version := version c; bandwidth := bandwidth c; motor_cmd := servo <$> motor_cmd c;
     bms_cmd := bms_cmd c; wireless_remote := wireless_remote c; led := led c; fan := fan c;
     gpio := 0; lc_reserve := lc_reserve c; crc := crc c |}.

(** ** LowCmdWrite *)

Definition one : float32 := F32.of_Z 1.
Definition is_one (x : float32) : bool := SFeqb x one.
Definition below_one (x : float32) : bool := flt x one.

(** [_percent += (float)1 / _duration; _percent = _percent > 1 ? 1 : _percent]. *)
Definition advance (duration percent : float32) : float32 :=
  let p := F32.add percent (F32.div one duration) in
  if fgt p one then one else p.

(** [(1 - _percent) * from[j] + _percent * to[j]]. *)
Definition blend (percent : float32) (from to : list float32) (j : nat) : float32 :=
  F32.add (F32.mul (F32.sub one percent) (from !!! j)) (F32.mul percent (to !!! j)).

(** The loop [for j < 12] that sets the leg motors, [target j] being the angle. *)
Definition set_legs (cfg : Config) (target : nat -> float32) (c : LowCmd_) : LowCmd_ :=
  set_motors c (imap (fun j m =>
    if (j <? 12)%nat
    then {| mode := mode m; q := target j; dq := fzero; tau := fzero; kp := Kp cfg; kd := Kd cfg;
            reserve := reserve m |}
    else m) (motor_cmd c)).

(** The loop [for 12 <= j < 16] that sets the wheel motors of the w variants. *)
Definition set_wheels (cfg : Config) (speed : Z) (c : LowCmd_) : LowCmd_ :=
  set_motors c (imap (fun j m =>
    if ((12 <=? j) && (j <? 16))%nat
    then {| mode := mode m; q := fzero; dq := F32.of_Z speed; tau := fzero; kp := fzero; kd := Kd cfg;
            reserve := reserve m |}
    else m) (motor_cmd c)).

(** The wheel part of phase 3; the thresholds are [double] literals. *)
Definition wheel_phase (cfg : Config) (percent : float32) (c : LowCmd_) : LowCmd_ :=
  let p := F64.of_f32 percent in
  if flt p (F64.lit 4 10) then set_wheels cfg 3 c
  else if fle (F64.lit 4 10) p && flt p (F64.lit 8 10) then set_wheels cfg (-3) c
  else if fle (F64.lit 8 10) p then set_wheels cfg 0 c
  else c.

(** The values of the members while [LowCmdWrite] runs. *)
Record walk := { w_cmd : LowCmd_; w1 : float32; w2 : float32; w3 : float32; w4 : float32; w5 : float32 }.

(** [_percent_1] and the first posture. *)
Definition phase_1 (cfg : Config) (start : list float32) (w : walk) : walk :=
  let p := advance (duration_1 cfg) (w1 w) in
  {| w_cmd := if below_one p then set_legs cfg (blend p start (targetPos_1 cfg)) (w_cmd w) else w_cmd w;
     w1 := p; w2 := w2 w; w3 := w3 w; w4 := w4 w; w5 := w5 w |}.

Definition phase_2 (cfg : Config) (w : walk) : walk :=
  if is_one (w1 w) && below_one (w2 w) then
    let p := advance (duration_2 cfg) (w2 w) in
    {| w_cmd := set_legs cfg (blend p (targetPos_1 cfg) (targetPos_2 cfg)) (w_cmd w);
       w1 := w1 w; w2 := p; w3 := w3 w; w4 := w4 w; w5 := w5 w |}
  else w.

(** Phase 3 holds the second posture; [wheels] adds the wheel motion. *)
Definition phase_3 (wheels : bool) (cfg : Config) (w : walk) : walk :=
  if is_one (w1 w) && is_one (w2 w) && below_one (w3 w) then
    let p := advance (duration_3 cfg) (w3 w) in
    let c := set_legs cfg (fun j => targetPos_2 cfg !!! j) (w_cmd w) in
    {| w_cmd := if wheels then wheel_phase cfg p c else c;
       w1 := w1 w; w2 := w2 w; w3 := p; w4 := w4 w; w5 := w5 w |}
  else w.

(** Phase 4; the guard on [_percent_4] is [<= 1] in the programs where it is the
    last phase and [< 1] in the b2's. *)
Definition phase_4 (last : bool) (cfg : Config) (w : walk) : walk :=
  if is_one (w1 w) && is_one (w2 w) && is_one (w3 w) &&
     (if last then fle (w4 w) one else below_one (w4 w)) then
    let p := advance (duration_4 cfg) (w4 w) in
    {| w_cmd := set_legs cfg (blend p (targetPos_2 cfg) (targetPos_3 cfg)) (w_cmd w);
       w1 := w1 w; w2 := w2 w; w3 := w3 w; w4 := p; w5 := w5 w |}
  else w.

(** Phase 5, of the b2. *)
Definition phase_5 (cfg : Config) (w : walk) : walk :=
  if is_one (w1 w) && is_one (w2 w) && is_one (w3 w) && is_one (w4 w) && fle (w5 w) one then
    let p := advance (duration_5 cfg) (w5 w) in
    {| w_cmd := set_legs cfg (blend p (targetPos_3 cfg) (targetPos_4 cfg)) (w_cmd w);
       w1 := w1 w; w2 := w2 w; w3 := w3 w; w4 := w4 w; w5 := p |}
  else w.

(** The four programs' phases, in order. *)
Definition go2_phases (start : list float32) (w : walk) : walk :=
  phase_4 true go2_config (phase_3 false go2_config (phase_2 go2_config (phase_1 go2_config start w))).

Definition b2_phases (start : list float32) (w : walk) : walk :=
  phase_5 b2_config (phase_4 false b2_config (phase_3 false b2_config (phase_2 b2_config
    (phase_1 b2_config start w)))).

Definition go2w_phases (start : list float32) (w : walk) : walk :=
  phase_4 true go2w_config (phase_3 true go2w_config (phase_2 go2w_config (phase_1 go2w_config start w))).

Definition b2w_phases (start : list float32) (w : walk) : walk :=
  phase_4 true b2w_config (phase_3 true b2w_config (phase_2 b2w_config (phase_1 b2w_config start w))).

Inductive robot := Go2 | B2 | Go2W | B2W.

Definition config (r : robot) : Config :=
  match r with Go2 => go2_config | B2 => b2_config | Go2W => go2w_config | B2W => b2w_config end.

Definition phases (r : robot) : list float32 -> walk -> walk :=
  match r with Go2 => go2_phases | B2 => b2_phases | Go2W => go2w_phases | B2W => b2w_phases end.

(** The last percentage, which the printing and [done] use. *)
Definition last_percent (r : robot) (s : Custom) : float32 :=
  match r with B2 => percent_5 s | _ => percent_4 s end.

Section Write.
Context (pad : Padding).

(** [LowCmdWrite]; the printing is left out. *)
Definition LowCmdWrite (r : robot) (s : Custom) : Custom :=
  let finished' := finished s || is_one (last_percent r s) in
  let motiontime' := i32 (motiontime s + 1) in
  if 500 <=? motiontime' then
    let start := if firstRun s then take 12 (low_state_q s) else startPos s in
    let w := phases r start {| w_cmd := low_cmd s; w1 := percent_1 s; w2 := percent_2 s; w3 := percent_3 s;
                               w4 := percent_4 s; w5 := percent_5 s |} in
    let cmd := seal pad (w_cmd w) in
    {| low_cmd := cmd; low_state_q := low_state_q s; motiontime := motiontime'; startPos := start;
       percent_1 := w1 w; percent_2 := w2 w; percent_3 := w3 w; percent_4 := w4 w; percent_5 := w5 w;
       firstRun := false; finished := finished'; published := Some cmd |}
  else
    {| low_cmd := low_cmd s; low_state_q := low_state_q s; motiontime := motiontime'; startPos := startPos s;
       percent_1 := percent_1 s; percent_2 := percent_2 s; percent_3 := percent_3 s; percent_4 := percent_4 s;
       percent_5 := percent_5 s; firstRun := firstRun s; finished := finished'; published := published s |}.

(** [LowStateMessageHandler], as far as the state is used. *)
Definition LowStateMessageHandler (q : list float32) (s : Custom) : Custom :=
  {| low_cmd := low_cmd s; low_state_q := q; motiontime := motiontime s; startPos := startPos s;
     percent_1 := percent_1 s; percent_2 := percent_2 s; percent_3 := percent_3 s; percent_4 := percent_4 s;
     percent_5 := percent_5 s; firstRun := firstRun s; finished := finished s; published := published s |}.

(** The object after [InitLowCmd]; [_startPos] is uninitialised. *)
Definition Custom_init (r : robot) (junk : list float32) : Custom :=
  {| low_cmd := InitLowCmd (config r) LowCmd_default; low_state_q := replicate 20 fzero; motiontime := 0;
     startPos := junk; percent_1 := fzero; percent_2 := fzero; percent_3 := fzero; percent_4 := fzero;
     percent_5 := fzero; firstRun := true; finished := false; published := None |}.

(** One period: perhaps a state message, then a write. *)
Definition period (r : robot) (s : Custom) (message : option (list float32)) : Custom :=
  LowCmdWrite r (match message with Some q => LowStateMessageHandler q s | None => s end).

Definition run (r : robot) (junk : list float32) (messages : list (option (list float32))) : Custom :=
  foldl (period r) (Custom_init r junk) messages.
End Write.

(** ** The progress of a sequence does not depend on what is measured *)

Abbreviation progress := (float32 * float32 * float32 * float32 * float32)%type.

Definition percents (w : walk) : progress :=
  (w1 w, w2 w, w3 w, w4 w, w5 w).

(** The last percentage of a program, and whether the earlier ones are one. *)
Definition plast (r : robot) (p : progress) : float32 :=
  let '(_, _, _, p4, p5) := p in match r with B2 => p5 | _ => p4 end.

Definition pearlier (r : robot) (p : progress) : bool :=
  let '(p1, p2, p3, p4, _) := p in
  is_one p1 && is_one p2 && is_one p3 && match r with B2 => is_one p4 | _ => true end.

Definition pzero : progress := (fzero, fzero, fzero, fzero, fzero).

(** The number of writes after which each sequence is complete.  With exact
    arithmetic the four would be 2897, 3996, 3897 and 5097. *)
Definition writes (r : robot) : nat :=
  Z.to_nat (match r with Go2 => 2901 | B2 => 4001 | Go2W => 3900 | B2W => 5097 end).

(** The same step with the increments computed once. *)
Definition fast_advance (inc percent : float32) : float32 :=
  let p := F32.add percent inc in if fgt p one then one else p.

Definition increments (r : robot) : progress :=
  let c := config r in
  (F32.div one (duration_1 c), F32.div one (duration_2 c), F32.div one (duration_3 c),
   F32.div one (duration_4 c), F32.div one (duration_5 c)).

(** The phases on the percentages alone. *)
Definition fast_1 (i : float32) (p : progress) : progress :=
  let '(p1, p2, p3, p4, p5) := p in (fast_advance i p1, p2, p3, p4, p5).
Definition fast_2 (i : float32) (p : progress) : progress :=
  let '(p1, p2, p3, p4, p5) := p in
  if is_one p1 && below_one p2 then (p1, fast_advance i p2, p3, p4, p5) else p.
Definition fast_3 (i : float32) (p : progress) : progress :=
  let '(p1, p2, p3, p4, p5) := p in
  if is_one p1 && is_one p2 && below_one p3 then (p1, p2, fast_advance i p3, p4, p5) else p.
Definition fast_4 (last : bool) (i : float32) (p : progress) : progress :=
  let '(p1, p2, p3, p4, p5) := p in
  if is_one p1 && is_one p2 && is_one p3 && (if last then fle p4 one else below_one p4)
  then (p1, p2, p3, fast_advance i p4, p5) else p.
Definition fast_5 (i : float32) (p : progress) : progress :=
  let '(p1, p2, p3, p4, p5) := p in
  if is_one p1 && is_one p2 && is_one p3 && is_one p4 && fle p5 one
  then (p1, p2, p3, p4, fast_advance i p5) else p.

Definition is_b2 (r : robot) : bool := match r with B2 => true | _ => false end.

Definition fast_next (b2 : bool) (i : progress) (p : progress) : progress :=
  let '(i1, i2, i3, i4, i5) := i in
  let p := fast_4 (negb b2) i4 (fast_3 i3 (fast_2 i2 (fast_1 i1 p))) in
  if b2 then fast_5 i5 p else p.

Lemma percents_phase_1 cfg start w :
  percents (phase_1 cfg start w) = fast_1 (F32.div one (duration_1 cfg)) (percents w).
Proof. done. Qed.
Lemma percents_phase_2 cfg w : percents (phase_2 cfg w) = fast_2 (F32.div one (duration_2 cfg)) (percents w).
Proof. unfold phase_2, fast_2, percents. by split_if. Qed.
Lemma percents_phase_3 b cfg w : percents (phase_3 b cfg w) = fast_3 (F32.div one (duration_3 cfg)) (percents w).
Proof. unfold phase_3, fast_3, percents. by split_if. Qed.
Lemma percents_phase_4 b cfg w : percents (phase_4 b cfg w) = fast_4 b (F32.div one (duration_4 cfg)) (percents w).
Proof. unfold phase_4, fast_4, percents. by split_if. Qed.
Lemma percents_phase_5 cfg w : percents (phase_5 cfg w) = fast_5 (F32.div one (duration_5 cfg)) (percents w).
Proof. unfold phase_5, fast_5, percents. by split_if. Qed.

(** The percentages after one round of phases. *)
Lemma fast_next_spec r start w :
  percents (phases r start w) = fast_next (is_b2 r) (increments r) (percents w).
Proof.
  unfold fast_next, increments. cbv zeta beta iota.
  destruct r; cbn [phases is_b2 negb config]; unfold go2_phases, b2_phases, go2w_phases, b2w_phases;
    by rewrite ?percents_phase_5, percents_phase_4, percents_phase_3, percents_phase_2, percents_phase_1.
Qed.

Definition percents_eqb (p q : progress) : bool := bool_decide (p = q).

(** Not complete for [writes r] steps, then complete with all phases over. *)
Lemma progress_checked r :
  check_until (fast_next (is_b2 r) (increments r)) (fun p => negb (is_one (plast r p)))
    (fun p => is_one (plast r p) && pearlier r p) percents_eqb (writes r) pzero = true.
Proof. destruct r; vm_compute; reflexivity. Qed.

(** The percentages after [n] writes. *)
Definition progress_after (r : robot) (n : nat) : progress :=
  Nat.iter n (fast_next (is_b2 r) (increments r)) pzero.

(** The sequence is complete exactly from write number [writes r] on. *)
Lemma progress_complete r n :
  is_one (plast r (progress_after r n)) = (writes r <=? n)%nat ∧
  (is_one (plast r (progress_after r n)) = true -> pearlier r (progress_after r n) = true).
Proof.
  destruct (check_until_sound _ _ _ percents_eqb (writes r) pzero (fun a b => proj1 (bool_decide_eq_true (a = b)))
              (progress_checked r) n) as [Hb Hd].
  destruct (Nat.leb_spec (writes r) n) as [Hn | Hn].
  - specialize (Hd Hn). apply andb_true_iff in Hd as [H1 H2]. unfold progress_after. rewrite H1. done.
  - specialize (Hb Hn). apply negb_true_iff in Hb. unfold progress_after. rewrite Hb. done.
Qed.

(** ** The commands stay well formed *)

Lemma cmd_ok_set_motors c ms :
  LowCmdProps.cmd_ok c -> length ms = 20%nat -> Forall LowCmdProps.motor_ok ms ->
  LowCmdProps.cmd_ok (set_motors c ms).
Proof. unfold LowCmdProps.cmd_ok. intros H ? ?. destruct_and! H. cbn. by split_and!. Qed.

Lemma motors_imap (f : nat -> MotorCmd_ -> MotorCmd_) c :
  (∀ j m, LowCmdProps.motor_ok m -> LowCmdProps.motor_ok (f j m)) ->
  LowCmdProps.cmd_ok c -> LowCmdProps.cmd_ok (set_motors c (imap f (motor_cmd c))).
Proof.
  intros Hf H. pose proof H as H'. unfold LowCmdProps.cmd_ok in H'. destruct_and! H'.
  apply cmd_ok_set_motors; [done | by rewrite length_imap |].
  apply Forall_lookup. intros i m Hi. rewrite list_lookup_imap in Hi.
  destruct (motor_cmd c !! i) as [m' |] eqn:E; [| done]. injection Hi as <-. apply Hf.
  by eapply (Forall_lookup_1 _ (motor_cmd c)).
Qed.

Lemma set_legs_ok cfg t c : LowCmdProps.cmd_ok c -> LowCmdProps.cmd_ok (set_legs cfg t c).
Proof. apply motors_imap. intros j m Hm. by split_if. Qed.

Lemma set_wheels_ok cfg v c : LowCmdProps.cmd_ok c -> LowCmdProps.cmd_ok (set_wheels cfg v c).
Proof. apply motors_imap. intros j m Hm. by split_if. Qed.

#[local] Hint Resolve set_legs_ok set_wheels_ok : core.

(** ** The last posture *)

Definition final (r : robot) : list float32 :=
  match r with B2 => targetPos_4 b2_config | _ => targetPos_3 (config r) end.

(** The twelve leg motors hold the final posture with the program's gains. *)
Definition final_legs (r : robot) (c : LowCmd_) : Prop :=
  ∀ j, (j < 12)%nat -> ∃ m, motor_cmd c !! j = Some m ∧ q m = final r !!! j ∧
    dq m = fzero ∧ tau m = fzero ∧ kp m = Kp (config r) ∧ kd m = Kd (config r).

Lemma one_literal : one = S754_finite false 8388608 (-23).
Proof. by vm_compute. Qed.

Lemma is_one_eq x : is_one x = true -> x = one.
Proof. unfold is_one. rewrite one_literal. apply SFeqb_finite. Qed.

(** Interpolation with percentage one gives the target posture exactly. *)
Lemma blend_one r j :
  (j < 12)%nat ->
  blend one (match r with B2 => targetPos_3 b2_config | _ => targetPos_2 (config r) end) (final r) j = final r !!! j.
Proof.
  intros Hj. assert (H : Forall (fun j => blend one (match r with B2 => targetPos_3 b2_config | _ => targetPos_2 (config r) end)
                                   (final r) j = final r !!! j) (seq 0 12)).
  { apply (bool_decide_unpack _). destruct r; vm_compute; exact I. }
  rewrite Forall_forall in H. apply H. apply elem_of_seq. lia.
Qed.

Lemma set_legs_final r c t :
  LowCmdProps.cmd_ok c -> (∀ j, (j < 12)%nat -> t j = final r !!! j) -> final_legs r (set_legs (config r) t c).
Proof.
  intros Hc Ht j Hj. unfold LowCmdProps.cmd_ok in Hc. destruct_and! Hc.
  destruct (lookup_lt_is_Some_2 (motor_cmd c) j) as [m Hm]; [lia |].
  unfold set_legs. cbn [motor_cmd set_motors]. rewrite list_lookup_imap, Hm. cbn [fmap option_fmap option_map].
  replace (j <? 12)%nat with true by (symmetry; by apply Nat.ltb_lt).
  eexists. split; [done |]. cbn. rewrite Ht by done. done.
Qed.

(** When the last phase is over, its posture has just been commanded. *)
Lemma phase_4_final r w w' :
  is_b2 r = false -> w' = phase_4 true (config r) w -> LowCmdProps.cmd_ok (w_cmd w) ->
  is_one (plast r (percents w')) = true -> pearlier r (percents w') = true -> final_legs r (w_cmd w').
Proof.
  intros Hr -> Hc Hl He.
  assert (Hl' : is_one (w4 (phase_4 true (config r) w)) = true) by by destruct r.
  assert (He' : is_one (w1 (phase_4 true (config r) w)) && is_one (w2 (phase_4 true (config r) w)) &&
                is_one (w3 (phase_4 true (config r) w)) = true)
    by (unfold pearlier, percents in He; destruct r; try done; by rewrite andb_true_r in He).
  clear Hl He. unfold phase_4 in *. destruct (is_one (w1 w) && is_one (w2 w) && is_one (w3 w)) eqn:E.
  - cbn [andb] in *. destruct (fle (w4 w) one) eqn:E4; cbn [w1 w2 w3 w4 w_cmd] in *.
    + apply is_one_eq in Hl'. rewrite Hl'. apply set_legs_final; [done |]. intros j Hj.
      pose proof (blend_one r j Hj) as B. destruct r; done.
    + apply is_one_eq in Hl'. rewrite Hl' in E4. discriminate.
  - cbn [andb w1 w2 w3 w4] in *. congruence.
Qed.

Lemma phase_5_final w w' :
  w' = phase_5 b2_config w -> LowCmdProps.cmd_ok (w_cmd w) ->
  is_one (plast B2 (percents w')) = true -> pearlier B2 (percents w') = true -> final_legs B2 (w_cmd w').
Proof.
  intros -> Hc Hl He. unfold plast, pearlier, percents in *. unfold phase_5 in *.
  destruct (is_one (w1 w) && is_one (w2 w) && is_one (w3 w) && is_one (w4 w)) eqn:E.
  - cbn [andb] in *. destruct (fle (w5 w) one) eqn:E5; cbn [w1 w2 w3 w4 w5 w_cmd] in *.
    + apply is_one_eq in Hl. rewrite Hl. apply (set_legs_final B2); [done |]. intros j Hj. apply (blend_one B2 j Hj).
    + apply is_one_eq in Hl. rewrite Hl in E5. discriminate.
  - cbn [andb w1 w2 w3 w4 w5] in *. congruence.
Qed.

Lemma phase_1_ok cfg start w : LowCmdProps.cmd_ok (w_cmd w) -> LowCmdProps.cmd_ok (w_cmd (phase_1 cfg start w)).
Proof. intros. cbn. split_if; auto. Qed.
Lemma phase_2_ok cfg w : LowCmdProps.cmd_ok (w_cmd w) -> LowCmdProps.cmd_ok (w_cmd (phase_2 cfg w)).
Proof. intros. unfold phase_2. split_if; cbn; auto. Qed.
Lemma phase_3_ok b cfg w : LowCmdProps.cmd_ok (w_cmd w) -> LowCmdProps.cmd_ok (w_cmd (phase_3 b cfg w)).
Proof. intros. unfold phase_3, wheel_phase. repeat (split_if; cbn [w_cmd]); auto. Qed.
Lemma phase_4_ok b cfg w : LowCmdProps.cmd_ok (w_cmd w) -> LowCmdProps.cmd_ok (w_cmd (phase_4 b cfg w)).
Proof. intros. unfold phase_4. split_if; cbn; auto. Qed.
Lemma phase_5_ok cfg w : LowCmdProps.cmd_ok (w_cmd w) -> LowCmdProps.cmd_ok (w_cmd (phase_5 cfg w)).
Proof. intros. unfold phase_5. split_if; cbn; auto. Qed.

#[local] Hint Resolve phase_1_ok phase_2_ok phase_3_ok phase_4_ok phase_5_ok : core.

Lemma phases_ok r start w : LowCmdProps.cmd_ok (w_cmd w) -> LowCmdProps.cmd_ok (w_cmd (phases r start w)).
Proof. destruct r; cbn [phases]; unfold go2_phases, b2_phases, go2w_phases, b2w_phases; auto 10. Qed.

Lemma phases_final r start w :
  LowCmdProps.cmd_ok (w_cmd w) -> is_one (plast r (percents (phases r start w))) = true ->
  pearlier r (percents (phases r start w)) = true -> final_legs r (w_cmd (phases r start w)).
Proof.
  intros Hc Hl He. destruct r.
  - eapply (phase_4_final Go2); [done | reflexivity | | exact Hl | exact He]. auto.
  - eapply phase_5_final; [reflexivity | | exact Hl | exact He]. auto.
  - eapply (phase_4_final Go2W); [done | reflexivity | | exact Hl | exact He]. auto.
  - eapply (phase_4_final B2W); [done | reflexivity | | exact Hl | exact He]. auto.
Qed.

(** ** Runs *)
Section Runs.
Context (pad : Padding) (Hpad : padding_ok pad).

Definition progress_of (s : Custom) : progress :=
  (percent_1 s, percent_2 s, percent_3 s, percent_4 s, percent_5 s).

Lemma seal_ok c : LowCmdProps.cmd_ok c -> LowCmdProps.cmd_ok (seal pad c).
Proof. done. Qed.

Lemma init_ok r : LowCmdProps.cmd_ok (InitLowCmd (config r) LowCmd_default).
Proof. apply (bool_decide_unpack _). destruct r; vm_compute; exact I. Qed.

(** What holds after [n] periods. *)
Definition after (r : robot) (n : nat) (s : Custom) : Prop :=
  motiontime s = Z.of_nat n ∧ LowCmdProps.cmd_ok (low_cmd s) ∧
  progress_of s = progress_after r (n - 499) ∧
  ((500 <= n)%nat -> ∃ c, LowCmdProps.cmd_ok c ∧ low_cmd s = seal pad c ∧ published s = Some (seal pad c) ∧
     ((writes r <= n - 499)%nat -> final_legs r c)).

Lemma period_after r n s message :
  Z.of_nat n + 1 < 2 ^ 31 -> after r n s -> after r (S n) (period pad r s message).
Proof.
  intros Hn (Hm & Hc & Hp & Hpub). unfold period.
  set (s1 := match message with Some q => _ | None => s end).
  assert (E : motiontime s1 = motiontime s ∧ low_cmd s1 = low_cmd s ∧ progress_of s1 = progress_of s)
    by (subst s1; by destruct message).
  destruct E as (E1 & E2 & E3). rewrite <- E1 in Hm. rewrite <- E2 in Hc. rewrite <- E3 in Hp.
  clear E1 E2 E3 Hpub. unfold LowCmdWrite. rewrite Hm, swrap_id by (unfold in_s; lia).
  destruct (Z.leb_spec 500 (Z.of_nat n + 1)) as [Hge | Hlt].
  - set (start := if firstRun s1 then _ else _). set (w := {| w_cmd := low_cmd s1; w1 := _ |}).
    assert (Hok : LowCmdProps.cmd_ok (w_cmd (phases r start w))) by by apply phases_ok.
    assert (Hpr : percents (phases r start w) = progress_after r (S n - 499)).
    { rewrite fast_next_spec. change (percents w) with (progress_of s1). rewrite Hp.
      replace (S n - 499)%nat with (S (n - 499)) by lia. done. }
    split_and!; [cbn; lia | by apply seal_ok | exact Hpr |].
    intros _. exists (w_cmd (phases r start w)). split_and!; [done | done | done |].
    intros Hw. destruct (progress_complete r (S n - 499)) as [H1 H2].
    rewrite (proj2 (Nat.leb_le _ _) Hw) in H1. specialize (H2 H1).
    apply phases_final; [done | by rewrite Hpr | by rewrite Hpr].
  - split_and!; [cbn; lia | done | | lia].
    change (progress_of _) with (progress_of s1). rewrite Hp. f_equal. lia.
Qed.

Lemma run_after r junk messages :
  Z.of_nat (length messages) < 2 ^ 31 -> after r (length messages) (run pad r junk messages).
Proof.
  unfold run. induction messages as [| m messages IH] using rev_ind; intros Hn.
  - split_and!; [done | apply init_ok | by destruct r | cbn; lia].
  - rewrite length_app, Nat.add_comm in *. cbn [length Nat.add] in *. rewrite foldl_app. cbn [foldl].
    apply period_after; [lia | apply IH; lia].
Qed.
End Runs.

(** ** Theorems *)
Module StandProps.

(** C9. Each of the four stand programs completes its sequence in
    single-precision arithmetic after an exact number of periods (499 of waiting,
    then 2901, 4001, 3900 and 5097 writes), whatever state messages arrive: the
    last percentage is one from then on and not before, every later command
    holds the twelve leg motors at the final posture with the program's gains,
    and from period 500 on everything published is a CRC-valid 812-byte frame. *)
Theorem stand_sequence_completes pad r junk messages :
  padding_ok pad -> Z.of_nat (length messages) < 2 ^ 31 ->
  let s := run pad r junk messages in
  is_one (last_percent r s) = (499 + writes r <=? length messages)%nat ∧
  ((500 <= length messages)%nat ->
     ∃ c, published s = Some c ∧ length (image pad c) = 812%nat ∧ Crc32.crc32_core (words (image pad c)) = 0 ∧
       ((499 + writes r <= length messages)%nat -> final_legs r c)).
Proof.
  intros Hpad Hn s. destruct (run_after pad r junk messages Hn) as (_ & _ & Hp & Hpub). fold s in Hp, Hpub. split.
  - replace (last_percent r s) with (plast r (progress_of s)) by by destruct r.
    rewrite Hp, (proj1 (progress_complete r _)).
    destruct (Nat.leb_spec (writes r) (length messages - 499)), (Nat.leb_spec (499 + writes r) (length messages));
      (done || (unfold writes in *; destruct r; lia)).
  - intros Hge. destruct (Hpub Hge) as (c & Hc & Hlow & Hpubl & Hf). exists (seal pad c).
    destruct (LowCmdProps.sealed_frame pad c Hpad Hc) as (L & C & _). split_and!; [done | done | done |].
    intros Hw. assert (Hw' : (writes r <= length messages - 499)%nat) by lia. exact (Hf Hw').
Qed.

(** A go2 that never hears a state message, for 500 periods: waiting is over,
    the sequence is not. *)
Lemma stand_sequence_completes_witness :
  is_one (last_percent Go2 (run LowCmdProps.zero_padding Go2 [] (replicate 500 None))) = false ∧
  ∃ c, published (run LowCmdProps.zero_padding Go2 [] (replicate 500 None)) = Some c ∧
    Crc32.crc32_core (words (image LowCmdProps.zero_padding c)) = 0.
Proof.
  destruct (stand_sequence_completes LowCmdProps.zero_padding Go2 [] (replicate 500 None)) as [H1 H2];
    [apply LowCmdProps.zero_padding_ok | by vm_compute |].
  split; [rewrite H1; by vm_compute |]. clear H1. destruct H2 as (c & H & _ & Hc & _); [apply Nat.leb_le; by vm_compute |]. exists c. split; [exact H | exact Hc].
Defined.

(** The start-up loop ends with the first answer that has no motion name,
    after one release per earlier answer. *)
Lemma release_loop_spec checks c rest :
  Forall (fun c => motionName c ≠ ""%string) checks -> motionName c = ""%string ->
  release_loop (checks ++ c :: rest) = Some (length checks).
Proof.
  intros H Hc. induction H as [| c' checks Hc' _ IH]; cbn [app release_loop length]; unfold queryMotionStatus.
  - rewrite bool_decide_eq_true_2 by done. done.
  - rewrite bool_decide_eq_false_2 by done. cbn [fst]. by rewrite IH.
Qed.

(** A failed [CheckMode] that leaves the name empty counts as a released
    service: its return code is only printed. *)
Lemma failed_check_counts_as_released ret form :
  release_loop [{| check_ret := ret; robotForm := form; motionName := "" |}] = Some 0%nat.
Proof. done. Qed.
End StandProps.
