(* ===== verification/Go2Motion.v ===== *)
(** * Motion examples of the go2.

    Module [Go2Low] models [src/example/go2/go2_low_level.cpp], which drives one
    motor (the front right calf) through a linear transition and then along a
    sine, and module [Trajectory] models [go2_trajectory_follow.cpp], which
    samples a path ahead of a clock and hands it to the sport service.

    [std::sin] and [std::cos] are parameters.  Both programs count their calls in
    an [int]; incrementing it past its maximum is undefined, which is [None]. *)

From S2P Require Import Prelude Floats Rounding Crc LowCmd RobotInterface.
Import Crc32.

Local Open Scope Z_scope.

Module Go2Low.

(** ** Members *)

Record Custom := {
  qInit : list float32; qDes : list float32; Kp : list float32; Kd : list float32;
  rate_count : Z; sin_count : Z; motiontime : Z;
  low_cmd : LowCmd_;
  low_state_q : list float32;      (** [low_state.motor_state()[i].q()] *)
  published : list LowCmd_         (** what was handed to the publisher *)
}.

Definition sin_mid_q : list float32 := [fzero; lit32 12 10; lit32 (-2) 1].
Definition dt : float32 := lit32 2 1000.

(** [InitLowCmd] has the body of the state machine's. *)
Definition InitLowCmd : LowCmd_ -> LowCmd_ := RobotInterface.InitLowCmd.

Definition Custom_init : Custom :=
  {| qInit := replicate 3 fzero; qDes := replicate 3 fzero; Kp := replicate 3 fzero; Kd := replicate 3 fzero;
     rate_count := 0; sin_count := 0; motiontime := 0; low_cmd := InitLowCmd LowCmd_default;
     low_state_q := replicate 20 fzero; published := [] |}.

Definition LowStateMessageHandler (q : list float32) (s : Custom) : Custom :=
  {| qInit := qInit s; qDes := qDes s; Kp := Kp s; Kd := Kd s; rate_count := rate_count s;
     sin_count := sin_count s; motiontime := motiontime s; low_cmd := low_cmd s; low_state_q := q;
     published := published s |}.

(** ** LowCmdWrite *)

Definition zero64 : float64 := F64.of_Z 0.
Definition one64 : float64 := F64.of_Z 1.

(** [jointLinearInterpolation]. *)
Definition jointLinearInterpolation (initPos targetPos rate : float64) : float64 :=
  let rate := std_min (std_max rate zero64) one64 in
  F64.add (F64.mul initPos (F64.sub one64 rate)) (F64.mul targetPos rate).

(** The first branch: the initial position. *)
Definition record_position (s : Custom) : Custom :=
  if (0 <=? motiontime s) && (motiontime s <? 20) then
    {| qInit := [low_state_q s !!! 0%nat; low_state_q s !!! 1%nat; low_state_q s !!! 2%nat];
       qDes := qDes s; Kp := Kp s; Kd := Kd s; rate_count := rate_count s; sin_count := sin_count s;
       motiontime := motiontime s; low_cmd := low_cmd s; low_state_q := low_state_q s; published := published s |}
  else s.

(** [jointLinearInterpolation(qInit[i], sin_mid_q[i], rate)], stored in a
    [float]. *)
Definition ramp_target (rate : float64) (from to : float32) : float32 :=
  F32.of_f64 (jointLinearInterpolation (F64.of_f32 from) (F64.of_f32 to) rate).

(** [rate_count / 200.0]. *)
Definition rate_of (rate_count : Z) : float64 := F64.div (F64.of_Z rate_count) (F64.of_Z 200).

(** The second branch: towards the middle of the sine. *)
Definition approach (s : Custom) : Custom :=
  if (10 <=? motiontime s) && (motiontime s <? 400) then
    let count := rate_count s + 1 in
    {| qInit := qInit s;
       qDes := (fun i => ramp_target (rate_of count) (qInit s !!! i) (sin_mid_q !!! i)) <$> [0; 1; 2]%nat;
       Kp := replicate 3 (F32.of_Z 5); Kd := replicate 3 (F32.of_Z 1); rate_count := count;
       sin_count := sin_count s; motiontime := motiontime s; low_cmd := low_cmd s;
       low_state_q := low_state_q s; published := published s |}
  else s.

Definition freq_rad : float32 := F32.of_f64 (F64.mul (F64.of_f32 (F32.mul (F32.of_Z 1) (F32.of_Z 2))) F64.M_PI).

Section Write.
Context (sin : float32 -> float32) (pad : Padding).

(** [c * sin(t * freq_rad)] with [t = dt * sin_count]. *)
Definition sine (c : float64) (sin_count : Z) : float64 :=
  F64.mul c (F64.of_f32 (sin (F32.mul (F32.mul dt (F32.of_Z sin_count)) freq_rad))).

(** [sin_mid_q[i] + sin_joint], stored in a [float]. *)
Definition sine_target (mid : float32) (c : float64) (sin_count : Z) : float32 :=
  F32.of_f64 (F64.add (F64.of_f32 mid) (sine c sin_count)).

(** The third branch. *)
Definition swing (s : Custom) : Custom :=
  if 400 <=? motiontime s then
    {| qInit := qInit s;
       qDes := [sin_mid_q !!! 0%nat; sine_target (sin_mid_q !!! 1%nat) (F64.lit 6 10) (sin_count s);
                sine_target (sin_mid_q !!! 2%nat) (fneg (F64.lit 9 10)) (sin_count s)];
       Kp := Kp s; Kd := Kd s; rate_count := rate_count s; sin_count := sin_count s + 1;
       motiontime := motiontime s; low_cmd := low_cmd s; low_state_q := low_state_q s; published := published s |}
  else s.

(** The assignments to [low_cmd.motor_cmd()[2]]. *)
Definition set_calf (s : Custom) : Custom :=
  {| qInit := qInit s; qDes := qDes s; Kp := Kp s; Kd := Kd s; rate_count := rate_count s;
     sin_count := sin_count s; motiontime := motiontime s;
     low_cmd := set_motors (low_cmd s) (alter (fun m =>
       {| mode := mode m; q := qDes s !!! 2%nat; dq := fzero; tau := fzero; kp := Kp s !!! 2%nat;
          kd := Kd s !!! 2%nat; reserve := reserve m |}) 2%nat (motor_cmd (low_cmd s)));
     low_state_q := low_state_q s; published := published s |}.

(** The checksum and [Write]. *)
Definition publish (s : Custom) : Custom :=
  let c := seal pad (low_cmd s) in
  {| qInit := qInit s; qDes := qDes s; Kp := Kp s; Kd := Kd s; rate_count := rate_count s;
     sin_count := sin_count s; motiontime := motiontime s; low_cmd := c; low_state_q := low_state_q s;
     published := published s ++ [c] |}.

(** [motiontime++]. *)
Definition tick (s : Custom) : option Custom :=
  if motiontime s =? 2 ^ 31 - 1 then None
  else Some {| qInit := qInit s; qDes := qDes s; Kp := Kp s; Kd := Kd s; rate_count := rate_count s;
               sin_count := sin_count s; motiontime := motiontime s + 1; low_cmd := low_cmd s;
               low_state_q := low_state_q s; published := published s |}.

Definition LowCmdWrite (s : Custom) : option Custom :=
  s ← tick s;
  Some (publish (if 0 <=? motiontime s then set_calf (swing (approach (record_position s))) else s)).

(** State messages and periods of the writing thread, in any order. *)
Inductive event := Message (q : list float32) | Period.

Definition step (s : Custom) (e : event) : option Custom :=
  match e with Message q => Some (LowStateMessageHandler q s) | Period => LowCmdWrite s end.

Fixpoint run (evs : list event) (s : Custom) : option Custom :=
  match evs with
  | [] => Some s
  | e :: evs => s ← step s e; run evs s
  end.
End Write.

(** * Properties *)

(** ** The transition *)

Definition clamped (rate : float64) : float64 := std_min (std_max rate zero64) one64.

Definition unit64 (r : float64) : bool := ok64 r && fle zero64 r && fle r one64.

Lemma unit64_spec r : unit64 r = true -> ok64 r = true ∧ 0 <= fval r <= pw 0.
Proof.
  unfold unit64. intros [[Hr H1]%andb_true_iff H2]%andb_true_iff. rewrite fle64 in H1, H2 by done.
  split; [done|]. pose proof fval_one_64. change (fval one64) with (fval (F64.of_Z 1)) in H2. split; [exact H1|lia].
Qed.

Lemma pw_40 : pw 0 = 2 ^ 40 * pw (-40) ∧ pw (-21) = 2 ^ 19 * pw (-40) ∧ 0 < pw (-40).
Proof.
  split; [apply (pw_add (-40) 40); unfold scale; lia|]. split; [apply (pw_add (-40) 19); unfold scale; lia|].
  apply pw_pos. unfold scale. lia.
Qed.

(** [A (1 - R) + B R], with every operation off by a little, stays between [A]
    and [B] up to nine units. *)
Lemma convex_near A B R S M1 M2 p u :
  0 < u -> p = 2 ^ 40 * u -> 0 <= R <= p -> Z.abs A <= 4 * p ->
  p - R - u <= S <= p - R + u ->
  A * S - 2 * u * p <= M1 * p <= A * S + 2 * u * p ->
  B * R - 2 * u * p <= M2 * p <= B * R + 2 * u * p ->
  Z.min A B - 8 * u <= M1 + M2 <= Z.max A B + 8 * u.
Proof.
  intros Hu Hp HR HA HS H1 H2.
  assert (Z.min A B * p <= A * (p - R) + B * R <= Z.max A B * p).
  { assert (Z.min A B <= A <= Z.max A B) by lia. assert (Z.min A B <= B <= Z.max A B) by lia.
    generalize dependent (Z.min A B). generalize dependent (Z.max A B). intros. nia. }
  assert (Z.abs (A * S - A * (p - R)) <= 4 * p * u).
  { replace (A * S - A * (p - R)) with (A * (S - (p - R))) by ring. rewrite Z.abs_mul.
    apply Z.mul_le_mono_nonneg; lia. }
  assert (0 < p) by lia. nia.
Qed.

Lemma ramp_bounds rate a b :
  unit64 (clamped rate) = true -> angle_ok a = true -> angle_ok b = true ->
  ok32 (ramp_target rate a b) = true ∧
  Z.min (fval a) (fval b) - tolerance <= fval (ramp_target rate a b) <= Z.max (fval a) (fval b) + tolerance.
Proof.
  intros [Hr Hrv]%unit64_spec [Ha Hav]%angle_spec [Hb Hbv]%angle_spec.
  unfold ramp_target, jointLinearInterpolation. fold (clamped rate). set (r := clamped rate) in *. clearbody r.
  destruct (of_f32_exact a Ha) as [Hx Ex], (of_f32_exact b Hb) as [Hy Ey].
  set (x := F64.of_f32 a) in *. set (y := F64.of_f32 b) in *. clearbody x y. rewrite <- Ex, <- Ey in *.
  destruct pw_40 as (E0 & E21 & Hu). set (u := pw (-40)) in *.
  assert (F1 : fval one64 = pw 0) by exact fval_one_64.
  destruct (sub_near 53 1024 ltac:(lia) ltac:(lia) ltac:(lia) one64 r (-40)) as [Hs Hsv];
    [done|done|unfold emin; lia|lia|fold u; change (2 ^ 53) with (2 ^ 13 * 2 ^ 40); lia|].
  fold (F64.sub one64 r) in Hs, Hsv. set (s := F64.sub one64 r) in *. clearbody s.
  assert (Hbig : ∀ z w, Z.abs z <= 4 * pw 0 -> Z.abs w <= 2 * pw 0 -> Z.abs (z * w) + pw 0 < (2 ^ 53 - 1) * u * pw 0).
  { intros z w Hz Hw. rewrite Z.abs_mul. assert (Z.abs z * Z.abs w <= 4 * pw 0 * (2 * pw 0)) by by apply Z.mul_le_mono_nonneg; lia.
    change (2 ^ 53) with (2 ^ 13 * 2 ^ 40). nia. }
  destruct (mul_near 53 1024 ltac:(lia) ltac:(lia) ltac:(lia) x s (-40) Hx Hs) as [Hm1 Hm1v];
    [unfold emin; lia|lia|apply Hbig; [lia|fold u in Hsv; lia]|].
  destruct (mul_near 53 1024 ltac:(lia) ltac:(lia) ltac:(lia) y r (-40) Hy Hr) as [Hm2 Hm2v];
    [unfold emin; lia|lia|apply Hbig; lia|].
  fold (F64.mul x s) in Hm1, Hm1v. fold (F64.mul y r) in Hm2, Hm2v.
  set (m1 := F64.mul x s) in *. set (m2 := F64.mul y r) in *. clearbody m1 m2. fold u in Hsv, Hm1v, Hm2v.
  pose proof (convex_near (fval x) (fval y) (fval r) (fval s) (fval m1) (fval m2) (pw 0) u Hu E0 Hrv Hav
    ltac:(lia) Hm1v Hm2v) as Hc.
  destruct (add_near 53 1024 ltac:(lia) ltac:(lia) ltac:(lia) m1 m2 (-40) Hm1 Hm2) as [Hq Hqv];
    [unfold emin; lia|lia|fold u; change (2 ^ 53) with (2 ^ 13 * 2 ^ 40); lia|].
  fold (F64.add m1 m2) in Hq, Hqv. fold u in Hqv. set (q := F64.add m1 m2) in *. clearbody q.
  destruct (of_f64_near q (-21) Hq) as [Hf Hfv]; [lia|lia|rewrite E21; change (2 ^ 24) with (32 * 2 ^ 19); lia|].
  split; [exact Hf|]. unfold tolerance. rewrite E21 in *. lia.
Qed.

(** The rate of the k-th call of the branch: within [0, 1], and one from the
    200th on. *)
Definition rate_check (k : Z) : bool :=
  unit64 (clamped (rate_of k)) && ((k <? 200) || SFeqb (clamped (rate_of k)) one64).

Lemma rates_checked : forallb rate_check (seqZ 1 390) = true.
Proof. vm_compute. reflexivity. Qed.

Lemma SFeqb_one x : SFeqb x one64 = true -> x = one64.
Proof. apply SFeqb_finite. Qed.

Lemma rate_unit k : 1 <= k <= 390 ->
  unit64 (clamped (rate_of k)) = true ∧ (200 <= k -> clamped (rate_of k) = one64).
Proof.
  intros Hk. pose proof (proj1 (forallb_forall rate_check _) rates_checked k) as H.
  assert (Hin : In k (seqZ 1 390)) by (apply list_elem_of_In, elem_of_seqZ; lia).
  specialize (H Hin). clear Hin. apply andb_true_iff in H as [H1 H2]. split; [exact H1|].
  intros H200. apply orb_true_iff in H2 as [H2|H2]; [rewrite Z.ltb_lt in H2; lia|]. by apply SFeqb_one.
Qed.

Definition mid_calf : float32 := sin_mid_q !!! 2%nat.

(** At rate one the transition has arrived. *)
Lemma ramp_arrives rate a : clamped rate = one64 -> angle_ok a = true -> ramp_target rate a mid_calf = mid_calf.
Proof.
  intros Hr [Ha _]%angle_spec. destruct (of_f32_exact a Ha) as [Hx _].
  unfold ramp_target, jointLinearInterpolation. fold (clamped rate). rewrite Hr.
  set (x := F64.of_f32 a) in *. clearbody x. change (F64.sub one64 one64) with (S754_zero false).
  destruct x as [sx|sx| |sx mx ex]; try done; by destruct sx; vm_compute.
Qed.

(** ** The sine *)

(** What is used of [std::sin] on [float]s. *)
Definition sin_range (sin : float32 -> float32) : Prop :=
  ∀ x, ok32 x = true -> ok32 (sin x) = true ∧ fle (F32.of_Z (-1)) (sin x) = true ∧ fle (sin x) (F32.of_Z 1) = true.

(** The range of the calf around its middle position of -2 rad. *)
Definition calf_low : float32 := lit32 (-29) 10.
Definition calf_high : float32 := lit32 (-10999) 10000.

Lemma phase_finite k : 0 <= k <= 2 ^ 31 -> ok32 (F32.mul (F32.mul dt (F32.of_Z k)) freq_rad) = true.
Proof.
  intros Hk. assert (Hp : 0 < pw 0) by (apply pw_pos; unfold scale; lia).
  assert (V : ∀ n, n = 23 ∨ n = 26 ∨ n = 31 ->
    ok32 (F32.of_Z (2 ^ n)) = true ∧ fval (F32.of_Z (2 ^ n)) = 2 ^ n * pw 0)
    by (intros n [-> | [-> | ->]]; split; vm_compute; reflexivity).
  destruct (V 31) as [O31 V31]; [auto|]. destruct (V 23) as [O23 V23]; [auto|]. destruct (V 26) as [O26 V26]; [auto|].
  assert (Hdt : ok32 dt = true ∧ 0 <= 256 * fval dt <= pw 0) by (split_and!; vm_compute; congruence).
  assert (Hf : ok32 freq_rad = true ∧ 0 <= fval freq_rad <= 8 * pw 0) by (split_and!; vm_compute; congruence).
  destruct Hdt as [Od Vd], Hf as [Of Vf].
  destruct (of_Z32_between k fzero (F32.of_Z (2 ^ 31))) as [Ok Vk]; [done|done|rewrite V31; cbn [fval fzero]; nia|].
  rewrite V31 in Vk. cbn [fval fzero] in Vk.
  destruct (mul_between 24 128 ltac:(lia) ltac:(lia) ltac:(lia) dt (F32.of_Z k) fzero (F32.of_Z (2 ^ 23))) as [Om Vm];
    [done|done|done|done|rewrite V23; cbn [fval fzero]; split; [nia|]|].
  { apply Z.le_trans with (fval dt * (2 ^ 31 * pw 0)); [apply Z.mul_le_mono_nonneg_l; lia|nia]. }
  rewrite V23 in Vm. cbn [fval fzero] in Vm. fold (F32.mul dt (F32.of_Z k)) in Om, Vm.
  eapply between_number, (mul_between 24 128 ltac:(lia) ltac:(lia) ltac:(lia) _ _ fzero (F32.of_Z (2 ^ 26)));
    [done|done|done|done|]. rewrite V26. cbn [fval fzero]. split; [nia|].
  apply Z.le_trans with (2 ^ 23 * pw 0 * (8 * pw 0)); [apply Z.mul_le_mono_nonneg; lia|lia].
Qed.

Lemma calf_constants :
  ok32 calf_low = true ∧ ok32 calf_high = true ∧ ok64 (F64.lit 9 10) = true ∧ ok64 (F64.of_f32 mid_calf) = true ∧
  fval (F64.of_f32 mid_calf) = - (2 * pw 0) ∧ 0 < fval (F64.lit 9 10) ∧
  fval calf_low <= - (2 * pw 0) - fval (F64.lit 9 10) ∧ - (2 * pw 0) + fval (F64.lit 9 10) <= fval calf_high.
Proof. split_and!; first [reflexivity | vm_compute; reflexivity | vm_compute; congruence]. Qed.

Lemma mid_calf_ok : angle_ok mid_calf = true.
Proof. vm_compute. reflexivity. Qed.

#[local] Opaque calf_low calf_high mid_calf.

Lemma sine_target_bounds sin k :
  sin_range sin -> 0 <= k <= 2 ^ 31 ->
  let x := sine_target sin mid_calf (fneg (F64.lit 9 10)) k in
  ok32 x = true ∧ fle calf_low x = true ∧ fle x calf_high = true.
Proof.
  intros Hsin Hk. unfold sine_target, sine.
  destruct (Hsin _ (phase_finite k Hk)) as (Hw & W1 & W2).
  set (w := sin _) in *. clearbody w. rewrite fle32 in W1, W2 by done.
  change (fval (F32.of_Z (-1))) with (- pw 0) in W1. change (fval (F32.of_Z 1)) with (pw 0) in W2.
  destruct (of_f32_exact w Hw) as [Ow Ew]. rewrite <- Ew in W1, W2.
  destruct calf_constants as (OL & OH & O9 & Om & Em & P9 & BL & BH).
  set (c := F64.lit 9 10) in *. clearbody c.
  destruct (mul_between 53 1024 ltac:(lia) ltac:(lia) ltac:(lia) (fneg c) (F64.of_f32 w) (fneg c) c) as [Os Vs];
    [by rewrite number_opp|done|by rewrite number_opp|done|rewrite fval_opp; nia|].
  fold (F64.mul (fneg c) (F64.of_f32 w)) in Os, Vs. rewrite fval_opp in Vs.
  set (m := F64.mul _ _) in *. clearbody m.
  destruct (of_f32_exact calf_low OL) as [OL' EL], (of_f32_exact calf_high OH) as [OH' EH].
  destruct (add_between 53 1024 ltac:(lia) ltac:(lia) ltac:(lia) (F64.of_f32 mid_calf) m (F64.of_f32 calf_low)
    (F64.of_f32 calf_high)) as [Oa Va]; [done|done|done|done|rewrite Em, EL, EH; lia|].
  rewrite EL, EH in Va. fold (F64.add (F64.of_f32 mid_calf) m) in Oa, Va.
  destruct (of_f64_between _ calf_low calf_high Oa OL OH Va) as [Of Vf]. split; [exact Of|].
  rewrite !fle32 by done. lia.
Qed.

(** ** Frames *)

Definition idle_motor : MotorCmd_ :=
  {| mode := 1; q := PosStopF; dq := VelStopF; tau := fzero; kp := fzero; kd := fzero; reserve := [0; 0; 0] |}.

(** The gains in call [n]. *)
Definition gain (n : Z) (k : Z) : float32 := if n <? 10 then fzero else F32.of_Z k.

Definition calf_motor (n : Z) (x : float32) : MotorCmd_ :=
  {| mode := 1; q := x; dq := fzero; tau := fzero; kp := gain n 5; kd := gain n 1; reserve := [0; 0; 0] |}.

(** The motors with [m] in place of the calf, and the command with them. *)
Definition with_calf (m : MotorCmd_) : list MotorCmd_ := [idle_motor; idle_motor; m] ++ replicate 17 idle_motor.

Definition calf_command (m : MotorCmd_) (v : Z) : LowCmd_ :=
  set_crc (set_motors (InitLowCmd LowCmd_default) (with_calf m)) v.

(** The angles a run has seen: those of its messages, and the zero that
    [low_state] holds before the first one. *)
Definition measured (evs : list event) : list float32 :=
  omap (fun e => match e with Message q => Some (q !!! 2%nat) | Period => None end) evs.

Definition seen (evs : list event) : list float32 := fzero :: measured evs.

Fixpoint periods (evs : list event) : Z :=
  match evs with [] => 0 | Message _ :: evs => periods evs | Period :: evs => 1 + periods evs end.

Section Runs.
Context (sin : float32 -> float32) (pad : Padding).

(** The target in call [n]. *)
Definition target_ok (angles : list float32) (n : Z) (x : float32) : Prop :=
  if n <? 10 then x = fzero
  else if n <? 209 then ∃ a, a ∈ angles ∧ ok32 x = true ∧
    Z.min (fval a) (fval mid_calf) - tolerance <= fval x <= Z.max (fval a) (fval mid_calf) + tolerance
  else if n <? 400 then x = mid_calf
  else x = sine_target sin mid_calf (fneg (F64.lit 9 10)) (n - 400) ∧
       fle calf_low x = true ∧ fle x calf_high = true.

Lemma target_ok_mono angles angles' n x : angles ⊆ angles' -> target_ok angles n x -> target_ok angles' n x.
Proof.
  intros Hs. unfold target_ok. destruct (n <? 10), (n <? 209); try done. intros (a & Ha & H). exists a. auto.
Qed.

(** A frame is valid and moves no motor but the calf. *)
Definition frame_ok (angles : list float32) (n : Z) (f : LowCmd_) : Prop :=
  length (image pad f) = 812%nat ∧ crc32_core (words (image pad f)) = 0 ∧
  ∃ x, motor_cmd f = with_calf (calf_motor n x) ∧ target_ok angles n x.

Lemma frame_ok_mono angles angles' n f : angles ⊆ angles' -> frame_ok angles n f -> frame_ok angles' n f.
Proof.
  intros Hs (H1 & H2 & x & H3 & H4). split; [done|]. split; [done|]. exists x. split; [done|].
  by eapply target_ok_mono.
Qed.

Record inv (angles : list float32) (n : Z) (s : Custom) : Prop := {
  inv_time : motiontime s = n;
  inv_range : 0 <= n < 2 ^ 31;
  inv_rate : rate_count s = Z.max 0 (Z.min 390 (n - 9));
  inv_sin : sin_count s = Z.max 0 (n - 399);
  inv_des : target_ok angles n (qDes s !!! 2%nat);
  inv_Kp : Kp s !!! 2%nat = gain n 5;
  inv_Kd : Kd s !!! 2%nat = gain n 1;
  inv_init : qInit s !!! 2%nat ∈ angles;
  inv_state : low_state_q s !!! 2%nat ∈ angles;
  inv_cmd : ∃ m v, low_cmd s = calf_command m v ∧ mode m = 1 ∧ reserve m = [0; 0; 0];
  inv_count : Z.of_nat (length (published s)) = n;
  inv_published : ∀ k f, published s !! k = Some f -> frame_ok angles (Z.of_nat k + 1) f
}.

Lemma inv_init_state : inv [fzero] 0 Custom_init.
Proof.
  split; try done; try (by left). exists idle_motor, 0. split_and!; reflexivity.
Qed.

Lemma inv_message angles n s q :
  inv angles n s -> inv (angles ++ [q !!! 2%nat]) n (LowStateMessageHandler q s).
Proof.
  intros [H1 H2 H3 H4 H5 H6 H7 H8 H9 H10 H11 H12].
  assert (Hs : angles ⊆ angles ++ [q !!! 2%nat]) by (intros a Ha; apply elem_of_app; by left).
  split; try done.
  - by eapply target_ok_mono.
  - by apply Hs.
  - apply elem_of_app. right. by left.
  - intros k f Hk. eapply frame_ok_mono, H12; done.
Qed.

Context (Hsin : sin_range sin) (Hpad : padding_ok pad).

Lemma calf_command_ok m v : mode m = 1 -> reserve m = [0; 0; 0] -> LowCmdProps.cmd_ok (calf_command m v).
Proof.
  intros Hm Hr. unfold LowCmdProps.cmd_ok, calf_command, with_calf. cbn [set_crc set_motors motor_cmd].
  split_and!; try done; try (by repeat constructor).
  assert (Hi : LowCmdProps.motor_ok idle_motor) by (apply (bool_decide_unpack _); vm_compute; exact I).
  assert (Hc : LowCmdProps.motor_ok m) by (unfold LowCmdProps.motor_ok; rewrite Hm, Hr; split; [done|by repeat constructor]).
  rewrite Forall_app, !Forall_cons. split_and!; [exact Hi|exact Hi|exact Hc|constructor|by apply Forall_replicate].
Qed.

(** The members after the three branches of call [n]. *)
Lemma stages_inv angles n s s1 :
  Forall (fun a => angle_ok a = true) angles -> inv angles n s -> n + 1 < 2 ^ 31 -> tick s = Some s1 ->
  let s' := swing sin (approach (record_position s1)) in
  motiontime s' = n + 1 ∧ rate_count s' = Z.max 0 (Z.min 390 (n + 1 - 9)) ∧ sin_count s' = Z.max 0 (n + 1 - 399) ∧
  target_ok angles (n + 1) (qDes s' !!! 2%nat) ∧ Kp s' !!! 2%nat = gain (n + 1) 5 ∧ Kd s' !!! 2%nat = gain (n + 1) 1 ∧
  qInit s' !!! 2%nat ∈ angles ∧ low_state_q s' = low_state_q s ∧ low_cmd s' = low_cmd s ∧ published s' = published s.
Proof.
  intros Hang [H1 H2 H3 H4 H5 H6 H7 H8 H9 _ _ _] Hn. unfold tick. destruct (_ =? _); [done|]. intros [= <-].
  set (s1 := {| motiontime := motiontime s + 1 |}).
  assert (R : let r := record_position s1 in motiontime r = n + 1 ∧ rate_count r = rate_count s ∧
    sin_count r = sin_count s ∧ qDes r = qDes s ∧ Kp r = Kp s ∧ Kd r = Kd s ∧ qInit r !!! 2%nat ∈ angles ∧
    low_state_q r = low_state_q s ∧ low_cmd r = low_cmd s ∧ published r = published s).
  { unfold record_position. destruct (_ && _); cbn; rewrite H1; split_and!; done. }
  cbv zeta in R. destruct R as (R1 & R2 & R3 & R4 & R5 & R6 & R7 & R8 & R9 & R10).
  set (r := record_position s1) in *. clearbody r. clear s1.
  assert (Ha : angle_ok (qInit r !!! 2%nat) = true) by (rewrite Forall_forall in Hang; by apply Hang).
  assert (Hmid : angle_ok mid_calf = true) by exact mid_calf_ok.
  destruct (Z.lt_ge_cases (n + 1) 10) as [L10|L10]; [|destruct (Z.lt_ge_cases (n + 1) 400) as [L400|L400]].
  - unfold approach. rewrite R1, (proj2 (Z.leb_gt 10 (n + 1))) by lia. cbn [andb].
    unfold swing. rewrite R1, (proj2 (Z.leb_gt 400 (n + 1))) by lia.
    rewrite R2, R3, R4, R5, R6, H3, H4, H6, H7. unfold target_ok, gain in *.
    rewrite (proj2 (Z.ltb_lt n 10)) in H5 |- * by lia. rewrite (proj2 (Z.ltb_lt (n + 1) 10)) by lia.
    split_and!; first [lia | assumption | reflexivity].
  - unfold approach. rewrite R1, (proj2 (Z.leb_le 10 (n + 1))), (proj2 (Z.ltb_lt (n + 1) 400)) by lia. cbn [andb].
    unfold swing. cbn [motiontime]. rewrite (proj2 (Z.leb_gt 400 (n + 1))) by lia.
    cbn [motiontime rate_count sin_count qDes Kp Kd qInit low_state_q low_cmd published].
    rewrite R2, R3, H3, H4. unfold gain. rewrite (proj2 (Z.ltb_ge (n + 1) 10)) by lia.
    split_and!; try first [lia | assumption | reflexivity]. rewrite Z.max_r, Z.min_r by lia. replace (n - 9 + 1) with (n + 1 - 9) by lia.
    change ((fun i => ramp_target (rate_of (n + 1 - 9)) (qInit r !!! i) (sin_mid_q !!! i)) <$> [0; 1; 2]%nat !!! 2%nat)
      with (ramp_target (rate_of (n + 1 - 9)) (qInit r !!! 2%nat) mid_calf).
    destruct (rate_unit (n + 1 - 9)) as [Hu H1']; [lia|]. unfold target_ok.
    rewrite (proj2 (Z.ltb_ge (n + 1) 10)), (proj2 (Z.ltb_lt (n + 1) 400)) by lia.
    destruct (Z.ltb_spec (n + 1) 209).
    + exists (qInit r !!! 2%nat). split; [exact R7|]. by apply ramp_bounds.
    + apply ramp_arrives; [apply H1'; lia|exact Ha].
  - unfold approach. rewrite R1, (proj2 (Z.ltb_ge (n + 1) 400)), andb_false_r by lia.
    unfold swing. rewrite R1, (proj2 (Z.leb_le 400 (n + 1))) by lia.
    cbn [motiontime rate_count sin_count qDes Kp Kd qInit low_state_q low_cmd published].
    rewrite R2, R3, R5, R6, H3, H4, H6, H7. unfold gain.
    rewrite (proj2 (Z.ltb_ge n 10)), (proj2 (Z.ltb_ge (n + 1) 10)) by lia.
    split_and!; try first [lia | assumption | reflexivity]. rewrite Z.max_r by lia. replace (n - 399) with (n + 1 - 400) by lia.
    unfold target_ok. rewrite (proj2 (Z.ltb_ge (n + 1) 10)), (proj2 (Z.ltb_ge (n + 1) 209)),
      (proj2 (Z.ltb_ge (n + 1) 400)) by lia.
    split; [reflexivity|]. apply (sine_target_bounds sin (n + 1 - 400) Hsin). lia.
Qed.

Lemma calf_write_inv angles n s :
  Forall (fun a => angle_ok a = true) angles -> inv angles n s -> n + 1 < 2 ^ 31 ->
  ∃ s', LowCmdWrite sin pad s = Some s' ∧ inv angles (n + 1) s'.
Proof.
  intros Hang Hi Hn. pose proof Hi as [H1 H2 _ _ _ _ _ _ H9 (m & v & H10 & Hm & Hr) H11 H12].
  unfold LowCmdWrite. destruct (tick s) as [s1|] eqn:Et.
  2:{ unfold tick in Et. destruct (Z.eqb_spec (motiontime s) (2 ^ 31 - 1)); [lia|done]. }
  pose proof (stages_inv angles n s s1 Hang Hi Hn Et) as H.
  assert (T : (0 <=? motiontime s1) = true).
  { unfold tick in Et. destruct (_ =? _); [done|]. injection Et as <-. cbn. apply Z.leb_le. lia. }
  cbn [mbind option_bind]. rewrite T. eexists. split; [reflexivity|].
  set (s2 := swing sin (approach (record_position s1))) in *. clearbody s2. clear Hi Et T s1.
  destruct H as (E1 & E2 & E3 & E4 & E5 & E6 & E7 & E8 & E9 & E10).
  assert (Ec : low_cmd (set_calf s2) = calf_command (calf_motor (n + 1) (qDes s2 !!! 2%nat)) v).
  { unfold set_calf. cbn [low_cmd]. rewrite E9, H10, E5, E6. unfold calf_command, with_calf, calf_motor.
    rewrite <- Hm, <- Hr. reflexivity. }
  assert (Hf : frame_ok angles (n + 1) (seal pad (low_cmd (set_calf s2)))).
  { rewrite Ec. destruct (LowCmdProps.sealed_frame pad _ Hpad (calf_command_ok (calf_motor (n + 1) (qDes s2 !!! 2%nat)) v
      eq_refl eq_refl)) as (F1 & F2 & _). split; [exact F1|]. split; [exact F2|]. by eexists. }
  split; unfold publish; cbn [motiontime rate_count sin_count qDes Kp Kd qInit low_state_q low_cmd published set_calf];
    try assumption; try lia.
  - by rewrite E8.
  - exists (calf_motor (n + 1) (qDes s2 !!! 2%nat)), (crc (seal pad (calf_command (calf_motor (n + 1) (qDes s2 !!! 2%nat)) v))).
    split; [|by split]. transitivity (seal pad (low_cmd (set_calf s2))); [reflexivity|]. by rewrite Ec.
  - rewrite E10, length_app. cbn [length]. lia.
  - intros k f Hk. rewrite E10 in Hk. apply lookup_app_Some in Hk as [Hk|[Hk Hl]]; [by apply H12|].
    apply list_lookup_singleton_Some in Hl as [Hk0 <-]. replace (Z.of_nat k + 1) with (n + 1) by lia. exact Hf.
Qed.

Lemma calf_run_inv evs angles n s :
  Forall (fun a => angle_ok a = true) (angles ++ measured evs) -> inv angles n s -> n + periods evs < 2 ^ 31 ->
  ∃ s', run sin pad evs s = Some s' ∧ inv (angles ++ measured evs) (n + periods evs) s'.
Proof.
  revert angles n s. induction evs as [|[q|] evs IH]; intros angles n s Hang Hi Hn.
  - exists s. cbn. by rewrite app_nil_r, Z.add_0_r.
  - cbn [run step mbind option_bind periods] in *. change (measured (Message q :: evs)) with ([q !!! 2%nat] ++ measured evs) in *.
    rewrite app_assoc in *. apply IH; [done|by apply inv_message|done].
  - assert (0 <= periods evs) by (clear; induction evs as [|[]]; cbn [periods]; lia).
    cbn [run step mbind option_bind periods] in *. change (measured (Period :: evs)) with (measured evs) in *.
    destruct (calf_write_inv angles n s) as (s' & -> & Hi'); [by apply Forall_app in Hang as [? _]|done|lia|].
    cbn [mbind option_bind]. rewrite Z.add_assoc in *. by apply IH.
Qed.

(** The call after the [2^31 - 1]st increments [motiontime] past its maximum. *)
Lemma run_overflows evs angles n s :
  Forall (fun a => angle_ok a = true) (angles ++ measured evs) -> inv angles n s -> 2 ^ 31 <= n + periods evs ->
  run sin pad evs s = None.
Proof.
  revert angles n s. induction evs as [|[q|] evs IH]; intros angles n s Hang Hi Hn.
  - destruct Hi as [_ H _ _ _ _ _ _ _ _ _ _]. cbn in Hn. lia.
  - cbn [run step mbind option_bind periods] in *. change (measured (Message q :: evs)) with ([q !!! 2%nat] ++ measured evs) in *.
    rewrite app_assoc in *. eapply IH; [done|by apply inv_message|done].
  - cbn [run step periods] in *. change (measured (Period :: evs)) with (measured evs) in *.
    destruct (Z.lt_ge_cases (n + 1) (2 ^ 31)).
    + destruct (calf_write_inv angles n s) as (s' & -> & Hi'); [by apply Forall_app in Hang as [? _]|done|done|].
      cbn [mbind option_bind]. eapply IH; [done|exact Hi'|lia].
    + destruct Hi as [H1 H2 _ _ _ _ _ _ _ _ _ _]. unfold LowCmdWrite, tick.
      by rewrite (proj2 (Z.eqb_eq (motiontime s) (2 ^ 31 - 1))) by lia.
Qed.
End Runs.

(** C15. The go2 low-level example, for every interleaving of state messages, whose
    calf angles are at most 4 rad, and periods of the writing thread.  For up to
    [2^31 - 1] periods, 49 days, every period publishes one frame, which is
    valid, leaves nineteen motors idle, and commands the calf without torque in
    the first nine periods, then with fixed gains towards a target that lies
    between an angle the program has seen and the middle of the sine until
    period 209, is the middle until period 400, and is then the sine, within
    [-2.9, -1.0999] rad.  The period after that overflows the counter. *)
Theorem go2_calf_motion sin pad evs :
  sin_range sin -> padding_ok pad -> Forall (fun a => angle_ok a = true) (seen evs) ->
  (periods evs < 2 ^ 31 ->
   ∃ s, run sin pad evs Custom_init = Some s ∧ Z.of_nat (length (published s)) = periods evs ∧
     ∀ k f, published s !! k = Some f -> frame_ok sin pad (seen evs) (Z.of_nat k + 1) f) ∧
  (2 ^ 31 <= periods evs -> run sin pad evs Custom_init = None).
Proof.
  intros Hsin Hpad Hang. split; intros Hn.
  - destruct (calf_run_inv sin pad Hsin Hpad evs [fzero] 0 Custom_init) as (s & Hr & Hi); [done|apply inv_init_state|done|].
    exists s. split; [exact Hr|]. destruct Hi as [_ _ _ _ _ _ _ _ _ _ Hc Hp]. by split.
  - by apply (run_overflows sin pad Hsin Hpad evs [fzero] 0 Custom_init Hang (inv_init_state sin pad)).
Qed.

(** A constant stands for the sine; two messages and twelve periods. *)
Lemma go2_calf_motion_witness :
  ∃ s, run (fun _ => fzero) LowCmdProps.zero_padding
         ([Message (replicate 20 (lit32 (-1) 1))] ++ replicate 12 Period) Custom_init = Some s ∧
       Z.of_nat (length (published s)) = 12.
Proof.
  destruct (go2_calf_motion (fun _ => fzero) LowCmdProps.zero_padding
    ([Message (replicate 20 (lit32 (-1) 1))] ++ replicate 12 Period)) as [H _].
  - intros x _. split_and!; reflexivity.
  - exact LowCmdProps.zero_padding_ok.
  - repeat (constructor; [vm_compute; reflexivity|]). constructor.
  - destruct H as (s & Hr & Hl & _); [vm_compute; reflexivity|]. exists s. split; [exact Hr|exact Hl].
Defined.
End Go2Low.

Module Trajectory.

(** [PathPoint]. *)
Record PathPoint := {
  timeFromStart : float32; x : float32; y : float32; yaw : float32; vx : float32; vy : float32; vyaw : float32
}.

(** The members of [Custom] and the static local [count]; the paths handed to
    [TrajectoryFollow] are recorded. *)
Record Custom := { c : Z; count : float32; sent : list (list PathPoint) }.

Definition Custom_init : Custom := {| c := 0; count := fzero; sent := [] |}.

Definition dt : float32 := lit32 2 1000.
Definition speed : float32 := lit32 3 10.      (** [vx] *)
Definition delta : float32 := lit32 6 100.

Section Control.
Context (sin cos : float64 -> float64).

(** The i-th point of the path at clock [count]. *)
Definition point (count : float32) (i : Z) : PathPoint :=
  let var := F32.add count (F32.mul (F32.of_Z i) delta) in
  let v := F64.of_f32 speed in
  let phase := F64.mul (F64.mul F64.M_PI v) (F64.of_f32 var) in
  {| timeFromStart := F32.mul (F32.of_Z i) delta;
     x := F32.mul speed var;
     y := F32.of_f64 (F64.mul (F64.lit 6 10) (sin phase));
     yaw := F32.of_f64 (F64.mul (F64.mul (F64.mul (F64.mul (F64.of_Z 2) (F64.lit 6 10)) v) F64.M_PI) (cos phase));
     vx := speed;
     vy := F32.of_f64 (F64.mul (F64.mul F64.M_PI v) (F64.mul (F64.lit 6 10) (cos phase)));
     vyaw := F32.of_f64 (F64.mul (F64.mul (F64.mul (F64.mul (F64.mul (F64.mul (fneg F64.M_PI) v) (F64.of_Z 2))
               (F64.lit 6 10)) v) F64.M_PI) (sin phase)) |}.

Definition control (s : Custom) : option Custom :=
  if c s =? 2 ^ 31 - 1 then None
  else
    let count := F32.add (count s) dt in
    Some {| c := c s + 1; count := count; sent := sent s ++ [point count <$> seqZ 0 30] |}.

(** [n] periods of the thread. *)
Fixpoint run (n : nat) (s : Custom) : option Custom :=
  match n with O => Some s | S n => s ← control s; run n s end.
End Control.

(** ** The clock *)

Definition clock_limit : float32 := F32.of_Z 65536.

(** A [float] below 65536 is at least one unit of its last place below. *)
Lemma below_limit t : ok32 t = true -> fval t < 2 ^ 16 * pw 0 -> fval t <= 2 ^ 16 * pw 0 - pw (-8).
Proof.
  intros Ht Hlt. assert (Hp : 0 < pw (-8)) by (apply pw_pos; unfold scale; lia).
  assert (E0 : pw 0 = 2 ^ 8 * pw (-8)) by (apply (pw_add (-8) 8); unfold scale; lia).
  destruct t as [s|s| |s m e]; [|discriminate Ht|discriminate Ht|]; cbn [fval] in Hlt |- *; [lia|].
  pose proof (number_mantissa 24 128 ltac:(lia) ltac:(lia) ltac:(lia) _ _ _ Ht) as (E1 & E2 & M1 & M2).
  unfold emin in *. assert (0 < pw e) by (apply pw_pos; unfold scale; lia).
  destruct s; cbn [cond_Zopp] in *; [nia|].
  destruct (Z.le_gt_cases (-8) e) as [He|He].
  - assert (Ee : pw e = 2 ^ (e + 8) * pw (-8)) by (rewrite <- (pw_add (-8) (e + 8)) by (unfold scale; lia); by replace (-8 + (e + 8)) with e by lia).
    assert (0 < 2 ^ (e + 8)) by (apply Z.pow_pos_nonneg; lia). rewrite E0 in *. rewrite Ee in *.
    set (K := 2 ^ (e + 8)) in *. set (P := pw (-8)) in *. clearbody K P.
    assert (Zpos m * K < 2 ^ 24) by (apply (Z.mul_lt_mono_pos_r P); [done|]; lia).
    assert (Zpos m * K * P <= (2 ^ 24 - 1) * P) by (apply Z.mul_le_mono_nonneg_r; lia). lia.
  - assert (pw e <= pw (-9)) by (apply pw_mono; lia).
    assert (E9 : pw (-8) = 2 ^ 1 * pw (-9)) by (apply (pw_add (-9) 1); unfold scale; lia). rewrite E0. nia.
Qed.

Lemma clock_step t :
  ok32 t = true -> 0 <= fval t <= fval clock_limit ->
  ok32 (F32.add t dt) = true ∧ fval t <= fval (F32.add t dt) <= fval clock_limit ∧
  (t = clock_limit -> F32.add t dt = clock_limit).
Proof.
  intros Ht Hv. assert (HL : ok32 clock_limit = true ∧ fval clock_limit = 2 ^ 16 * pw 0) by (split; vm_compute; reflexivity).
  destruct HL as [HL EL].
  assert (Hd : ok32 dt = true ∧ 0 <= fval dt ∧ fval dt <= pw (-8)) by (split_and!; vm_compute; congruence).
  destruct Hd as (Hd & Hd1 & Hd2).
  assert (Hfix : F32.add clock_limit dt = clock_limit) by (vm_compute; reflexivity).
  destruct (Z.eq_dec (fval t) (fval clock_limit)) as [E|E].
  - assert (t = clock_limit) as ->.
    { assert (Hle : SFeqb t clock_limit = true).
      { unfold SFeqb. rewrite (compare_fval 24 128) by (lia || done). by rewrite E, Z.compare_refl. }
      exact (SFeqb_finite _ _ _ _ Hle). }
    rewrite Hfix. split; [done|]. split; [lia|done].
  - pose proof (below_limit t Ht ltac:(lia)).
    destruct (add_between 24 128 ltac:(lia) ltac:(lia) ltac:(lia) t dt t clock_limit) as [Ha Hav]; [done|done|done|done|lia|].
    fold (F32.add t dt) in Ha, Hav. split; [done|]. split; [lia|]. by intros ->.
Qed.

Section Paths.
Context (sin cos : float64 -> float64).

Lemma run_S n s : run sin cos (S n) s = s ← run sin cos n s; control sin cos s.
Proof.
  revert s; induction n as [|n IH]; intros s; [cbn; by destruct (control sin cos s)|].
  change (run sin cos (S (S n)) s) with (s ← control sin cos s; run sin cos (S n) s).
  cbn [run]. destruct (control sin cos s) as [s'|]; [|done]. cbn [mbind option_bind]. apply IH.
Qed.

Record inv (n : nat) (s : Custom) : Prop := {
  inv_c : c s = Z.of_nat n;
  inv_number : ok32 (count s) = true;
  inv_clock : 0 <= fval (count s) <= fval clock_limit;
  inv_sent : length (sent s) = n;
  inv_paths : ∀ p, p ∈ sent s -> ∃ t, p = point sin cos t <$> seqZ 0 30 ∧ ok32 t = true ∧ 0 <= fval t <= fval clock_limit
}.

Lemma path_inv n s : inv n s -> (Z.of_nat n < 2 ^ 31 - 1) ->
  ∃ s', control sin cos s = Some s' ∧ inv (S n) s' ∧ count s' = F32.add (count s) dt.
Proof.
  intros [H1 H2 H3 H4 H5] Hn. unfold control. rewrite (proj2 (Z.eqb_neq (c s) _)) by lia.
  eexists. split; [reflexivity|]. split; [|reflexivity].
  destruct (clock_step (count s) H2 H3) as (S1 & S2 & _). split; cbn [c count sent]; [lia|done|lia| |].
  - rewrite length_app, H4. cbn. lia.
  - intros p [Hp| ->%list_elem_of_singleton]%elem_of_app; [by apply H5|]. eexists. split_and!; [reflexivity|done|lia|lia].
Qed.

(** The clock, started at zero, is a [float] to which 0.002 is added in every
    period: it cannot pass 65536 s, and stays there once it gets there, so that
    from then on every path sent is the same. *)
Lemma trajectory_clock n s :
  Z.of_nat n < 2 ^ 31 -> run sin cos n Custom_init = Some s ->
  inv n s ∧ (count s = clock_limit ->
    ∀ s', control sin cos s = Some s' -> count s' = clock_limit ∧ last (sent s') = Some (point sin cos clock_limit <$> seqZ 0 30)).
Proof.
  intros Hn Hr.
  assert (Hi : ∀ k, (k <= n)%nat -> ∃ s, run sin cos k Custom_init = Some s ∧ inv k s).
  { induction k as [|k IH]; intros Hk.
    - exists Custom_init. split; [reflexivity|]. split; [reflexivity|reflexivity| |reflexivity|by intros p ?%not_elem_of_nil].
      split; [reflexivity|]. vm_compute. congruence.
    - destruct IH as (s' & E & Hi); [lia|]. rewrite run_S, E. cbn [mbind option_bind].
      destruct (path_inv k s' Hi) as (s'' & E' & Hi' & _); [lia|]. by exists s''. }
  destruct (Hi n) as (s' & E & Hs); [lia|]. rewrite E in Hr. injection Hr as ->. split; [exact Hs|].
  intros Hc s' Hs'. unfold control in Hs'. destruct (_ =? _); [done|]. injection Hs' as <-. cbn [count sent].
  destruct Hs as [_ H2 H3 _ _]. destruct (clock_step (count s) H2 H3) as (_ & _ & Hfix). rewrite (Hfix Hc).
  split; [done|]. by rewrite last_snoc.
Qed.
End Paths.
End Trajectory.
