(* ===== verification/Wav.v ===== *)
(** * Wave files.

    Models [src/example/g1/audio/wav.hpp]: the reader of 16-bit PCM files, with
    its chunk scan, and the writer.  A [std::istream] on a file is the file's
    bytes, a position and the failure state; reads that hit the end of the file
    fill what they can and fail, seeks fail only before the beginning.  Header
    fields are signed integers of the C++ widths. *)

From S2P Require Import Prelude.

Local Open Scope Z_scope.

(** ** Input streams *)

Record istream := { data : bytes; pos : Z; failed : bool }.

(** [is.read(p, n)], [old] being the [n] bytes at [p] before. *)
Definition read (n : nat) (old : bytes) (s : istream) : bytes * istream :=
  if failed s then (old, s)
  else
    let got := slice (Z.to_nat (pos s)) n (data s) in
    if (length got =? n)%nat
    then (got, {| data := data s; pos := pos s + Z.of_nat n; failed := false |})
    else (got ++ drop (length got) old,
          {| data := data s; pos := pos s + Z.of_nat (length got); failed := true |}).

(** Reads into an [int32_t] or [int16_t] whose value was [old]. *)
Definition read_i32 (old : Z) (s : istream) : Z * istream :=
  let '(b, s) := read 4 (le_bytes 4 (u32 old)) s in (i32 (le_val b), s).
Definition read_i16 (old : Z) (s : istream) : Z * istream :=
  let '(b, s) := read 2 (le_bytes 2 (u16 old)) s in (i16 (le_val b), s).

(** [is.seekg(off, std::istream::cur)]. *)
Definition seekg (off : Z) (s : istream) : istream :=
  if failed s then s
  else if pos s + off <? 0 then {| data := data s; pos := pos s; failed := true |}
  else {| data := data s; pos := pos s + off; failed := false |}.

(** ** WaveHeader *)

Record WaveHeader := {
  chunk_id : Z; chunk_size : Z; format : Z; subchunk1_id : Z; subchunk1_size : Z;
  audio_format : Z; num_channels : Z; sample_rate : Z; byte_rate : Z; block_align : Z;
  bits_per_sample : Z; subchunk2_id : Z; subchunk2_size : Z
}.

(** The 44 bytes of the structure. *)
Definition header_bytes (h : WaveHeader) : bytes :=
  le_bytes 4 (u32 (chunk_id h)) ++ le_bytes 4 (u32 (chunk_size h)) ++ le_bytes 4 (u32 (format h)) ++
  le_bytes 4 (u32 (subchunk1_id h)) ++ le_bytes 4 (u32 (subchunk1_size h)) ++
  le_bytes 2 (u16 (audio_format h)) ++ le_bytes 2 (u16 (num_channels h)) ++
  le_bytes 4 (u32 (sample_rate h)) ++ le_bytes 4 (u32 (byte_rate h)) ++
  le_bytes 2 (u16 (block_align h)) ++ le_bytes 2 (u16 (bits_per_sample h)) ++
  le_bytes 4 (u32 (subchunk2_id h)) ++ le_bytes 4 (u32 (subchunk2_size h)).

Definition RIFF : Z := 0x46464952.
Definition WAVE : Z := 0x45564157.
Definition JUNK : Z := 0x4b4e554a.
Definition fmt_ : Z := 0x20746d66.
Definition DATA : Z := 0x61746164.

(** [SeekToDataChunk]: from the id and size of a chunk whose header has been
    read; [None] when the fuel does not suffice. *)
Fixpoint SeekToDataChunk (fuel : nat) (id size : Z) (s : istream) : option (Z * Z * istream) :=
  if negb (failed s) && negb (id =? DATA) then
    match fuel with
    | O => None
    | S fuel =>
        let s := seekg size s in
        let '(id, s) := read_i32 id s in
        let '(size, s) := read_i32 size s in
        SeekToDataChunk fuel id size s
    end
  else Some (id, size, s).

(** ** ReadWaveImpl *)

(** What a call leaves: the flag, the samples, and the other two output
    parameters if they were assigned. *)
Record wave := { is_ok : bool; ans : bytes; sampling_rate : option Z; channelCount : option Z }.

Definition rejected (channels : option Z) : wave :=
  {| is_ok := false; ans := []; sampling_rate := None; channelCount := channels |}.

(** [Threw] is the exception of a vector of negative size; [Overrun] is the
    write of one byte behind the vector when the size of the data is odd. *)
Inductive outcome := Returned (w : wave) | Threw | Overrun.

(** The int expression [sample_rate * num_channels * bits_per_sample / 8] (and
    the one without the rate), wrapping at 32 bits. *)
Definition expected_byte_rate (rate channels bits : Z) : Z := Z.quot (i32 (i32 (rate * channels) * bits)) 8.
Definition expected_block_align (channels bits : Z) : Z := Z.quot (channels * bits) 8.

(** The samples in a buffer, and the two bytes stored for each. *)
Definition samples_of (b : bytes) : list Z :=
  (fun i => i16 (le_val (slice (2 * i) 2 b))) <$> seq 0 (Nat.div (length b) 2).
Definition split_sample (v : Z) : bytes := [Z.land v 0xFF; Z.land (Z.shiftr v 8) 0xFF].

(** From the data chunk on: [size] bytes are read into a vector of [size / 2]
    samples, which are split into bytes. *)
Definition read_samples (size rate channels : Z) (s : istream) : outcome :=
  let w := {| is_ok := false; ans := []; sampling_rate := Some rate; channelCount := Some channels |} in
  let n := Z.quot size 2 in
  let got := slice (Z.to_nat (pos s)) (Z.to_nat size) (data s) in
  if n <? 0 then Threw
  else if 2 * n <? Z.of_nat (length got) then Overrun
  else if negb (Z.of_nat (length got) =? size) then Returned w
  else Returned {| is_ok := true; ans := concat (split_sample <$> samples_of got);
                   sampling_rate := Some rate; channelCount := Some channels |}.

(** The rest of the header after the channel count, then the data. *)
Definition read_format (fuel : nat) (subchunk1_size channels : Z) (s : istream) : option outcome :=
  let fail := Some (Returned (rejected (Some (i8 channels)))) in
  let '(rate, s) := read_i32 0 s in
  let '(byte_rate, s) := read_i32 0 s in
  let '(block_align, s) := read_i16 0 s in
  let '(bits, s) := read_i16 0 s in
  if negb (byte_rate =? expected_byte_rate rate channels bits) then fail
  else if negb (block_align =? expected_block_align channels bits) then fail
  else if negb (bits =? 16) then fail
  else
    let '(extra_size, s) := if subchunk1_size =? 18 then read_i16 (-1) s else (0, s) in
    if negb (extra_size =? 0) then fail
    else
      let '(id, s) := read_i32 0 s in
      let '(size, s) := read_i32 0 s in
      '(_, size, s) ← SeekToDataChunk fuel id size s;
      if failed s then fail
      else Some (read_samples size rate (i8 channels) s).

(** [ReadWaveImpl]; [None] is a chunk scan that exceeds the fuel. *)
Definition ReadWaveImpl (fuel : nat) (s : istream) : option outcome :=
  let fail := Some (Returned (rejected None)) in
  let '(chunk_id, s) := read_i32 0 s in
  if negb (chunk_id =? RIFF) then fail
  else
    let '(_, s) := read_i32 0 s in
    let '(format, s) := read_i32 0 s in
    if negb (format =? WAVE) then fail
    else
      let '(subchunk1_id, s) := read_i32 0 s in
      let '(subchunk1_size, s) := read_i32 0 s in
      let '(subchunk1_id, subchunk1_size, s) :=
        if subchunk1_id =? JUNK then
          let s := seekg subchunk1_size s in
          let '(subchunk1_id, s) := read_i32 subchunk1_id s in
          let '(subchunk1_size, s) := read_i32 subchunk1_size s in
          (subchunk1_id, subchunk1_size, s)
        else (subchunk1_id, subchunk1_size, s) in
      if negb (subchunk1_id =? fmt_) then fail
      else if negb (subchunk1_size =? 16) && negb (subchunk1_size =? 18) then fail
      else
        let '(audio_format, s) := read_i16 0 s in
        if negb (audio_format =? 1) then fail
        else
          let '(channels, s) := read_i16 0 s in
          read_format fuel subchunk1_size channels s.

(** [ReadWave]; a file that cannot be opened is a failed stream. *)
Definition ReadWave (fuel : nat) (file : option bytes) : option outcome :=
  ReadWaveImpl fuel
    match file with
    | Some data => {| data := data; pos := 0; failed := false |}
    | None => {| data := []; pos := 0; failed := true |}
    end.

(** ** WriteWave *)

(** The header; products are ints, then cut to the width of the member. *)
Definition wave_header (sampling_rate n channels : Z) : WaveHeader :=
  let subchunk2_size := Z.quot (i32 (i32 (n * channels) * 16)) 8 in
  {| chunk_id := RIFF; chunk_size := i32 (36 + subchunk2_size); format := WAVE; subchunk1_id := fmt_;
     subchunk1_size := 16; audio_format := 1; num_channels := channels; sample_rate := sampling_rate;
     byte_rate := Z.quot (i32 (i32 (sampling_rate * channels) * 16)) 8;
     block_align := i16 (Z.quot (channels * 16) 8); bits_per_sample := 16;
     subchunk2_id := DATA; subchunk2_size := subchunk2_size |}.

(** [WriteWave]: the result and the file; [opened] and [written] are the states
    of the output stream. *)
Definition WriteWave (opened written : bool) (sampling_rate : Z) (samples : list Z) (n channels : Z) :
    bool * option bytes :=
  if negb opened then (false, None)
  else
    let file := header_bytes (wave_header sampling_rate n channels) ++
                concat ((fun v => le_bytes 2 (u16 v)) <$> take (Z.to_nat (n * channels)) samples) in
    (written, Some file).

(** ** Reading what was written *)
Module WavProps.

Abbreviation stream d p := {| data := d; pos := p; failed := false |}.

Lemma read_at n d p old b rest :
  0 <= p -> drop (Z.to_nat p) d = b ++ rest -> length b = n ->
  read n old (stream d p) = (b, stream d (p + Z.of_nat n)) ∧ drop (Z.to_nat (p + Z.of_nat n)) d = rest.
Proof.
  intros Hp Hd Hl. unfold read. cbn [failed data pos].
  assert (E : slice (Z.to_nat p) n d = b) by (unfold slice; rewrite Hd; by apply take_app_length').
  rewrite E, Hl, Nat.eqb_refl. split; [done |].
  rewrite Z2Nat.inj_add, Nat2Z.id, <- drop_drop, Hd by lia. by apply drop_app_length'.
Qed.

Lemma read_i32_at d p old v rest :
  0 <= p -> in_s 32 v -> drop (Z.to_nat p) d = le_bytes 4 (u32 v) ++ rest ->
  read_i32 old (stream d p) = (v, stream d (p + 4)) ∧ drop (Z.to_nat (p + 4)) d = rest.
Proof.
  intros Hp Hv Hd. unfold read_i32. destruct (read_at 4 d p (le_bytes 4 (u32 old)) _ rest Hp Hd) as [E H];
    [apply length_le_bytes |].
  rewrite E, le_val_bytes, swrap_of_pattern by (done || lia || (apply uwrap_in; lia)). done.
Qed.

Lemma read_i16_at d p old v rest :
  0 <= p -> in_s 16 v -> drop (Z.to_nat p) d = le_bytes 2 (u16 v) ++ rest ->
  read_i16 old (stream d p) = (v, stream d (p + 2)) ∧ drop (Z.to_nat (p + 2)) d = rest.
Proof.
  intros Hp Hv Hd. unfold read_i16. destruct (read_at 2 d p (le_bytes 2 (u16 old)) _ rest Hp Hd) as [E H];
    [apply length_le_bytes |].
  rewrite E, le_val_bytes, swrap_of_pattern by (done || lia || (apply uwrap_in; lia)). done.
Qed.

(** The bytes a sample is split into are its image in memory. *)
Lemma split_sample_bytes v : in_s 16 v -> split_sample v = le_bytes 2 (u16 v).
Proof.
  intros Hv. unfold split_sample. change (le_bytes 2 (u16 v)) with [u16 v mod 256; (u16 v / 256) mod 256].
  change 0xFF with (Z.ones 8). rewrite !Z.land_ones, Z.shiftr_div_pow2 by lia.
  unfold uwrap. change (2 ^ 8) with 256. change (2 ^ 16) with 65536. clear Hv.
  change 65536 with (256 * 256). rewrite Z.rem_mul_r by lia.
  pose proof (Z.mod_pos_bound v 256 ltac:(lia)) as Hm. pose proof (Z.mod_pos_bound (v / 256) 256 ltac:(lia)) as Hd.
  rewrite (Z.mul_comm 256), Z.mod_add, Z.div_add, (Z.div_small (v mod 256)), Z.add_0_l by lia.
  by rewrite !Z.mod_mod by lia.
Qed.

Lemma samples_of_bytes l :
  Forall (in_s 16) l -> samples_of (concat ((fun v => le_bytes 2 (u16 v)) <$> l)) = l.
Proof.
  intros Hl. unfold samples_of.
  rewrite (length_concat_fixed _ 2) by (intros; apply length_le_bytes).
  replace (2 * length l / 2)%nat with (length l) by (rewrite Nat.mul_comm; symmetry; by apply Nat.div_mul).
  apply (read_concat (fun v => le_bytes 2 (u16 v)) (fun b => i16 (le_val b))); [intros; apply length_le_bytes |].
  eapply Forall_impl; [exact Hl |]. intros v Hv.
  rewrite le_val_bytes, swrap_of_pattern by (done || lia || (apply uwrap_in; lia)). done.
Qed.

Ltac step_read :=
  match goal with
  | H : drop (Z.to_nat ?p) ?d = le_bytes 4 (u32 ?v) ++ ?rest |- context [read_i32 ?old (stream ?d ?p)] =>
      let E := fresh in let H' := fresh in
      destruct (read_i32_at d p old v rest) as [E H'];
      [lia | first [assumption | apply swrap_in; lia | unfold in_s, RIFF, WAVE, fmt_, DATA; lia] | exact H | rewrite E; clear E H; cbv beta iota]
  | H : drop (Z.to_nat ?p) ?d = le_bytes 2 (u16 ?v) ++ ?rest |- context [read_i16 ?old (stream ?d ?p)] =>
      let E := fresh in let H' := fresh in
      destruct (read_i16_at d p old v rest) as [E H'];
      [lia | first [assumption | apply swrap_in; lia | unfold in_s, RIFF, WAVE, fmt_, DATA; lia] | exact H | rewrite E; clear E H; cbv beta iota]
  end.

Lemma seek_at_data fuel size s : SeekToDataChunk fuel DATA size s = Some (DATA, size, s).
Proof. by destruct fuel; cbn [SeekToDataChunk]; rewrite Z.eqb_refl, andb_false_r. Qed.

(** A file written by [WriteWave] is read back. *)
Lemma read_written fuel rate n channels samples :
  in_s 32 rate -> 0 <= channels < 256 -> 0 <= n -> n * channels = Z.of_nat (length samples) ->
  n * channels * 16 < 2 ^ 31 -> in_s 32 (rate * channels * 16) -> Forall (in_s 16) samples ->
  ReadWave fuel (Some (header_bytes (wave_header rate n channels) ++
                       concat ((fun v => le_bytes 2 (u16 v)) <$> samples))) =
  Some (Returned {| is_ok := true; ans := concat ((fun v => le_bytes 2 (u16 v)) <$> samples);
                    sampling_rate := Some rate; channelCount := Some (i8 channels) |}).
Proof.
  intros Hr Hc Hn Hl Hs Hb Hf. unfold ReadWave.
  set (body := concat _). set (d := header_bytes _ ++ body).
  assert (Lb : Z.of_nat (length body) = n * channels * 2).
  { subst body. rewrite (length_concat_fixed _ 2) by (intros; apply length_le_bytes). lia. }
  assert (H0 : drop (Z.to_nat 0) d = d) by done.
  unfold d in H0 at 2. unfold header_bytes in H0. rewrite <- !app_assoc in H0.
  assert (Hs2 : i32 (i32 (n * channels) * 16) = n * channels * 2 * 8)
    by (rewrite (swrap_id 32 (n * channels)), swrap_id by (unfold in_s; lia); lia).
  assert (Hb2 : i32 (i32 (rate * channels) * 16) = rate * channels * 2 * 8)
    by (unfold in_s in Hb; rewrite (swrap_id 32 (rate * channels)), swrap_id by (unfold in_s; lia); lia).
  assert (Ha2 : channels * 16 = channels * 2 * 8) by lia.
  unfold wave_header in H0. cbn [chunk_id chunk_size format subchunk1_id subchunk1_size audio_format num_channels
    sample_rate byte_rate block_align bits_per_sample subchunk2_id subchunk2_size] in H0.
  rewrite Hs2, Hb2, Ha2, !Z.quot_mul in H0 by lia. rewrite (swrap_id 16 (channels * 2)) in H0 by (unfold in_s; lia).
  assert (in_s 32 (rate * channels * 2) ∧ in_s 32 (n * channels * 2) ∧ in_s 16 (channels * 2) ∧ in_s 16 channels)
    as (? & ? & ? & ?) by (unfold in_s in *; lia).
  unfold ReadWaveImpl, read_format.
  cbv zeta. step_read. rewrite Z.eqb_refl. cbn [negb]. do 2 step_read. rewrite Z.eqb_refl. cbn [negb].
  do 2 step_read. change (fmt_ =? JUNK) with false. cbv iota. rewrite Z.eqb_refl. cbn [Z.eqb Pos.eqb negb andb].
  step_read. cbn [Z.eqb Pos.eqb negb].
  do 5 step_read.
  unfold expected_byte_rate, expected_block_align. rewrite Hb2, Ha2, !Z.quot_mul, !Z.eqb_refl by lia.
  cbn [Z.eqb Pos.eqb negb].
  do 2 step_read. rewrite seek_at_data. cbn [mbind option_bind failed]. unfold read_samples. cbv zeta. cbn [pos data].
  match goal with H : drop _ d = body |- _ => rename H into Hd end.
  assert (Hg : slice (Z.to_nat (0 + 4 + 4 + 4 + 4 + 4 + 2 + 2 + 4 + 4 + 2 + 2 + 4 + 4))
                 (Z.to_nat (n * channels * 2)) d = body) by (unfold slice; rewrite Hd; apply take_ge; lia).
  rewrite Hg, Z.quot_mul, (proj2 (Z.ltb_ge _ _)), (proj2 (Z.ltb_ge _ _)), Lb, Z.eqb_refl by lia. cbn [negb].
  subst body. rewrite samples_of_bytes by done. do 4 f_equal.
  apply list_fmap_ext. intros i v Hv. apply split_sample_bytes. by eapply (Forall_lookup_1 _ samples).
Qed.

(** What [WriteWave] writes, [ReadWave] reads back: for any sampling rate,
    channel count and 16-bit samples whose byte counts fit an int, the reader
    accepts the file and returns the bytes of the samples, the rate and the
    channel count (cut to 8 bits). *)
Lemma wave_roundtrip fuel rate n channels samples :
  in_s 32 rate -> 0 <= channels < 256 -> 0 <= n -> n * channels = Z.of_nat (length samples) ->
  n * channels * 16 < 2 ^ 31 -> in_s 32 (rate * channels * 16) -> Forall (in_s 16) samples ->
  ∃ file, WriteWave true true rate samples n channels = (true, Some file) ∧
    ReadWave fuel (Some file) =
      Some (Returned {| is_ok := true; ans := concat ((fun v => le_bytes 2 (u16 v)) <$> samples);
                        sampling_rate := Some rate; channelCount := Some (i8 channels) |}).
Proof.
  intros Hr Hc Hn Hl Hs Hb Hf. eexists. split; [reflexivity |].
  rewrite take_ge by lia. by apply read_written.
Qed.

(** Two stereo samples at 16 kHz. *)
Lemma wave_roundtrip_witness :
  ∃ file, WriteWave true true 16000 [1; -2; 300; -32768] 2 2 = (true, Some file) ∧
    ReadWave 0 (Some file) =
      Some (Returned {| is_ok := true; ans := [1; 0; 254; 255; 44; 1; 0; 128];
                        sampling_rate := Some 16000; channelCount := Some 2 |}).
Proof.
  apply (wave_roundtrip 0 16000 2 2 [1; -2; 300; -32768]); [by vm_compute | lia | lia | done | lia | by vm_compute |].
  repeat (apply Forall_cons; split; [by vm_compute |]). apply Forall_nil_2.
Defined.

(** ** The chunk scan *)

(** A chunk: its id and contents. *)
Definition chunk_bytes (c : Z * bytes) : bytes :=
  le_bytes 4 (u32 (fst c)) ++ le_bytes 4 (u32 (Z.of_nat (length (snd c)))) ++ snd c.

Definition chunk_ok (c : Z * bytes) : Prop := in_s 32 (fst c) ∧ Z.of_nat (length (snd c)) < 2 ^ 31.

(** The scan skips the chunks before the data chunk, one step each. *)
Lemma seek_skips_chunks cs d p id size skipped size' rest fuel :
  0 <= p -> id ≠ DATA -> Z.of_nat (length skipped) = size -> Forall (fun c => fst c ≠ DATA ∧ chunk_ok c) cs ->
  in_s 32 size' -> (length cs < fuel)%nat ->
  drop (Z.to_nat p) d = skipped ++ concat (chunk_bytes <$> cs) ++ le_bytes 4 (u32 DATA) ++ le_bytes 4 (u32 size') ++ rest ->
  ∃ p', SeekToDataChunk fuel id size (stream d p) = Some (DATA, size', stream d p') ∧
        0 <= p' ∧ drop (Z.to_nat p') d = rest.
Proof.
  revert p id size skipped fuel. induction cs as [| [id' c] cs IH]; intros p id size skipped fuel Hp Hid Hsz Hcs Hs' Hf Hd;
    (destruct fuel as [| fuel]; [cbn in Hf; lia |]); cbn [SeekToDataChunk failed negb andb];
    rewrite (proj2 (Z.eqb_neq id DATA) Hid); cbn [negb]; unfold seekg; cbn [failed pos data];
    rewrite (proj2 (Z.ltb_ge _ 0)) by lia;
    (assert (Hd' := f_equal (drop (length skipped)) Hd));
    rewrite drop_drop, drop_app_length in Hd';
    replace (Z.to_nat p + length skipped)%nat with (Z.to_nat (p + size)) in Hd' by lia; clear Hd.
  - cbn [fmap list_fmap concat app] in Hd'. do 2 step_read. rewrite seek_at_data.
    eexists. split; [done |]. split; [lia | done].
  - inversion_clear Hcs as [| ? ? [Hne [Hi Hl]] Hcs']. cbn [fst snd] in *.
    cbn [fmap list_fmap concat] in Hd'. unfold chunk_bytes at 1 in Hd'. cbn [fst snd] in Hd'.
    rewrite <- !app_assoc in Hd'.
    assert (in_s 32 (Z.of_nat (length c))) by (unfold in_s; lia).
    do 2 step_read. eapply IH; [lia | done | done | done | done | cbn in Hf; lia | done].
Qed.

(** A file whose chunk after the format has the id "LIST" and size -8. *)
Definition looping_header : WaveHeader :=
  {| chunk_id := RIFF; chunk_size := 36; format := WAVE; subchunk1_id := fmt_; subchunk1_size := 16;
     audio_format := 1; num_channels := 1; sample_rate := 16000; byte_rate := 32000; block_align := 2;
     bits_per_sample := 16; subchunk2_id := 0x5453494c; subchunk2_size := -8 |}.

Definition looping_file : bytes := Eval vm_compute in header_bytes looping_header.

(** One turn of the scan returns to the same place. *)
Lemma scan_turns fuel : SeekToDataChunk fuel 0x5453494c (-8) (stream looping_file 44) = None.
Proof.
  induction fuel as [| fuel IH]; [done |].
  assert (E1 : read_i32 0x5453494c (seekg (-8) (stream looping_file 44)) = (0x5453494c, stream looping_file 40))
    by by vm_compute.
  assert (E2 : read_i32 (-8) (stream looping_file 40) = (-8, stream looping_file 44)) by by vm_compute.
  cbn [SeekToDataChunk failed]. change (0x5453494c =? DATA) with false. cbn [andb negb].
  rewrite E1. cbv beta iota. rewrite E2. exact IH.
Qed.

(** The header of the looping file is accepted, up to the scan. *)
Lemma looping_file_scan fuel :
  ReadWave fuel (Some looping_file) =
    ('(_, size, s) ← SeekToDataChunk fuel 0x5453494c (-8) (stream looping_file 44);
     if failed s then Some (Returned (rejected (Some (i8 1)))) else Some (read_samples size 16000 (i8 1) s)).
Proof.
  unfold ReadWave, ReadWaveImpl, read_format. cbv zeta.
  repeat (match goal with
    | |- context [read_i32 ?o (stream looping_file ?p)] =>
        let v := eval vm_compute in (fst (read_i32 o (stream looping_file p))) in
        let p' := eval vm_compute in (p + 4) in
        replace (read_i32 o (stream looping_file p)) with (v, stream looping_file p') by (vm_compute; reflexivity)
    | |- context [read_i16 ?o (stream looping_file ?p)] =>
        let v := eval vm_compute in (fst (read_i16 o (stream looping_file p))) in
        let p' := eval vm_compute in (p + 2) in
        replace (read_i16 o (stream looping_file p)) with (v, stream looping_file p') by (vm_compute; reflexivity)
    end; cbv beta iota delta [Z.eqb Pos.eqb negb andb RIFF WAVE JUNK fmt_]).
  reflexivity.
Qed.

(** The chunk scan follows a negative chunk size backwards: there is a 44-byte
    file on which the reader never returns, whatever the fuel. *)
Lemma negative_chunk_hangs_reader fuel : ReadWave fuel (Some looping_file) = None.
Proof. rewrite looping_file_scan, scan_turns. done. Qed.

(** A data chunk of odd size makes the reader write behind its vector. *)
Lemma odd_data_overruns :
  ReadWave 0 (Some (header_bytes
    {| chunk_id := RIFF; chunk_size := 37; format := WAVE; subchunk1_id := fmt_; subchunk1_size := 16;
       audio_format := 1; num_channels := 1; sample_rate := 16000; byte_rate := 32000; block_align := 2;
       bits_per_sample := 16; subchunk2_id := DATA; subchunk2_size := 1 |} ++ [7])) = Some Overrun.
Proof. by vm_compute. Qed.
End WavProps.
