(* ===== verification/Audio.v ===== *)
(** * The audio interface of the Go2.

    Models [src/example/go2/typego_audio_interface.cpp]: the upload handler, its
    checks and answers, and [playWav], which reads a header, configures the PCM
    device and submits the rest of the file in blocks.  ALSA is not part of the
    repository: the outcomes of its calls are inputs, and what is submitted to the
    device is recorded.  The upload handler starts here from the part of the request
    that holds the file; [Multipart] takes it from the bytes. *)

From stdpp Require Import strings.
From S2P Require Import Prelude Wav.

Local Open Scope Z_scope.

(** ** playWav *)

(** What the device calls return: the three attempts to open, the other calls,
    the number of channels it settled on, and the result of each write. *)
Record device := {
  open_plughw : Z; open_default : Z; open_dmix : Z;
  set_params : Z; actual_channels : Z; prepare : Z; writei : list Z
}.

(** [-EPIPE]. *)
Definition EPIPE : Z := 32.

Definition BUFFER_SIZE : nat := 4096.

(** The fields taken from the 44 bytes of the header. *)
Record fields := { audioFormat : Z; numChannels : Z; sampleRate : Z; byteRate : Z; blockAlign : Z; bitsPerSample : Z }.

Definition parse_header (h : bytes) : fields :=
  {| audioFormat := le_val (slice 20 2 h); numChannels := le_val (slice 22 2 h);
     sampleRate := le_val (slice 24 4 h); byteRate := le_val (slice 28 4 h);
     blockAlign := le_val (slice 32 2 h); bitsPerSample := le_val (slice 34 2 h) |}.

(** The sample format chosen for a bit depth. *)
Inductive pcm_format := U8 | S16_LE | S24_LE | S32_LE.

Definition choose_format (bits : Z) : option pcm_format :=
  if bits =? 8 then Some U8 else if bits =? 16 then Some S16_LE
  else if bits =? 24 then Some S24_LE else if bits =? 32 then Some S32_LE else None.

(** The name and the error of the successive attempts to open the device. *)
Definition open_pcm (d : device) : Z :=
  let err := open_plughw d in
  let err := if err <? 0 then open_default d else err in
  if err <? 0 then open_dmix d else err.

(** The [while (!file.eof())] loop: the blocks handed to [snd_pcm_writei], a
    block being the frames it names.  [eof] is set by a read that comes up
    short.  [None] is a division by zero, or not enough fuel. *)
Fixpoint play_loop (fuel : nat) (frame_size : Z) (results : list Z) (data : bytes) (eof : bool) :
    option (list bytes) :=
  if eof then Some []
  else match fuel with
  | O => None
  | S fuel =>
      let block := take BUFFER_SIZE data in
      let eof := (length block <? BUFFER_SIZE)%nat in
      if (length block =? 0)%nat then Some []
      else if frame_size =? 0 then None
      else
        let frames := Z.of_nat (length block) / frame_size in
        let submitted := take (Z.to_nat (frames * frame_size)) block in
        match results with
        | [] => None
        | result :: results =>
            if negb (result =? - EPIPE) && (result <? 0) then Some [submitted]
            else
              rest ← play_loop fuel frame_size results (drop BUFFER_SIZE data) eof;
              Some (submitted :: rest)
        end
  end.

(** [playWav]: the result and the blocks submitted; [junk] is the uninitialised
    header array.  The PCM handle is closed on every path that opened it. *)
Definition playWav (junk : bytes) (file : option bytes) (d : device) : option (bool * list bytes) :=
  match file with
  | None => Some (false, [])
  | Some data =>
      let got := take 44 data in
      let header := parse_header (got ++ drop (length got) junk) in
      let eof := (length got <? 44)%nat in
      if negb (audioFormat header =? 1) then Some (false, [])
      else if open_pcm d <? 0 then Some (false, [])
      else match choose_format (bitsPerSample header) with
      | None => Some (false, [])
      | Some _ =>
          if set_params d <? 0 then Some (false, [])
          else if prepare d <? 0 then Some (false, [])
          else
            let frame_size := u32 (actual_channels d * (bitsPerSample header / 8)) in
            blocks ← play_loop (S (length data)) frame_size (writei d) (drop 44 data) eof;
            Some (true, blocks)
      end
  end.

(** ** The upload handler *)

Record response := { code : Z; status : Z; message : string; path : option string }.

Definition SUCCESS_ : Z := 0.
Definition ERROR_ : Z := 2.

(** [filename.substr(filename.size() - 4) != ".wav"], for long enough names. *)
Definition is_wav (filename : string) : bool :=
  (4 <=? String.length filename)%nat &&
  bool_decide (String.substring (String.length filename - 4) 4 filename = ".wav"%string).

Definition upload_dir : string := "/tmp/audio_uploads/".

(** [/upload_play]: the body of the "audio" part, the "filename" parameter of its
    header if present, whether the file can be created, and the player. *)
Definition upload_play (body : bytes) (filename_param : option string) (created : bool)
    (play : bytes -> option (bool * list bytes)) : option (response * option (string * bytes)) :=
  if (length body =? 0)%nat
  then Some ({| code := 400; status := ERROR_; path := None;
                message := "No audio file provided. Use 'audio' as the form field name." |}, None)
  else
    let filename := default "uploaded_audio.wav"%string filename_param in
    if negb (is_wav filename)
    then Some ({| code := 400; status := ERROR_; message := "Only WAV files are supported"; path := None |}, None)
    else
      let filepath := (upload_dir +:+ filename)%string in
      if negb created
      then Some ({| code := 500; status := ERROR_; message := "Failed to save uploaded file"; path := None |}, None)
      else
        '(ret, _) ← play body;
        Some (if (ret : bool)
              then {| code := 200; status := SUCCESS_; message := "Audio uploaded and played successfully!";
                      path := Some filepath |}
              else {| code := 500; status := ERROR_; message := "Audio uploaded but playback failed!"; path := None |},
              Some (filepath, body)).

(** ** Properties *)
Module AudioProps.

(** A result after which the loop goes on. *)
Definition goes_on (r : Z) : Prop := 0 <= r ∨ r = - EPIPE.

Lemma goes_on_test r : goes_on r -> negb (r =? - EPIPE) && (r <? 0) = false.
Proof.
  intros [H | ->]; [| done]. rewrite (proj2 (Z.ltb_ge r 0) H). by rewrite andb_false_r.
Qed.

(** Whole blocks and the whole frames of the rest. *)
Lemma whole_frames fs n : 0 < fs -> (fs | 4096) -> (4096 + n) / fs * fs = 4096 + n / fs * fs.
Proof.
  intros Hp [k Hk]. rewrite Hk. rewrite (Z.add_comm (k * fs)), Z.div_add by lia. lia.
Qed.

Lemma buffer_size : Z.of_nat BUFFER_SIZE = 4096.
Proof. done. Qed.

Opaque BUFFER_SIZE.

Lemma play_loop_complete fuel fs results data :
  0 < fs -> (fs | 4096) -> Forall goes_on results ->
  (length data < fuel)%nat -> (length data < length results)%nat ->
  ∃ blocks, play_loop fuel fs results data false = Some blocks ∧
    concat blocks = take (Z.to_nat (Z.of_nat (length data) / fs * fs)) data ∧
    Forall (fun b => length b <= BUFFER_SIZE)%nat blocks.
Proof.
  intros Hp Hd. pose proof buffer_size as HB. revert results data. induction fuel as [| fuel IH]; intros results data Hr Hf Hl; [lia |].
  cbn [play_loop]. rewrite (proj2 (Z.eqb_neq fs 0)) by lia.
  destruct (Nat.eqb_spec (length (take BUFFER_SIZE data)) 0) as [E0 | E0].
  { exists []. rewrite length_take in E0.
    destruct data; [| cbn [length] in E0; lia]. split_and!; [done | by rewrite take_nil | apply Forall_nil_2]. }
  destruct results as [| r results]; [cbn in Hl; lia |]. inversion_clear Hr as [| ? ? Hr1 Hr2].
  rewrite (goes_on_test r Hr1).
  destruct (Nat.ltb_spec (length (take BUFFER_SIZE data)) BUFFER_SIZE) as [Hs | Hs]; rewrite length_take in *.
  - (* the last block *)
    assert (Hlen : (length data < BUFFER_SIZE)%nat) by lia.
    replace (play_loop fuel fs results (drop BUFFER_SIZE data) true) with (Some (@nil bytes)) by by destruct fuel.
    cbn [mbind option_bind]. rewrite Nat.min_r, (take_ge data BUFFER_SIZE) by lia.
    eexists. split; [done |]. cbn [concat]. rewrite app_nil_r. split; [done |].
    apply Forall_singleton. rewrite length_take. lia.
  - assert (Hlen : (BUFFER_SIZE <= length data)%nat) by lia.
    destruct (IH results (drop BUFFER_SIZE data)) as (blocks & E & C & F);
      [done | rewrite length_drop; lia | rewrite length_drop; cbn in Hl; lia |].
    rewrite E. cbn [mbind option_bind]. eexists. split; [done |]. cbn [concat]. rewrite C, Nat.min_l by lia.
    assert (W : Z.of_nat BUFFER_SIZE / fs * fs = 4096) by (rewrite HB; destruct Hd as [k ->]; by rewrite Z.div_mul by lia).
    rewrite W, length_drop. split.
    + replace (Z.of_nat (length data)) with (4096 + Z.of_nat (length data - BUFFER_SIZE)) by lia.
      rewrite whole_frames by done.
      pose proof (Z.div_pos (Z.of_nat (length data - BUFFER_SIZE)) fs ltac:(lia) Hp).
      rewrite Z2Nat.inj_add by nia. replace (Z.to_nat 4096) with BUFFER_SIZE by lia.
      rewrite (take_ge (take BUFFER_SIZE data)) by (rewrite length_take; lia).
      set (k := Z.to_nat _). rewrite <- (take_drop BUFFER_SIZE data) at 3. rewrite take_app.
      rewrite length_take, Nat.min_l by lia. rewrite (take_ge (take BUFFER_SIZE data)) by (rewrite length_take; lia).
      f_equal. f_equal. lia.
    + constructor; [rewrite !length_take; lia | done].
Qed.

(** When the frame size divides the 4096-byte buffer (mono or stereo, 8, 16
    or 32 bits) and no write fails, playing submits the sample data of the file
    in order and completely, up to a last incomplete frame, in blocks of at most
    4096 bytes; and playWav terminates and succeeds. *)
Lemma playWav_complete junk header data d :
  length header = 44%nat ->
  let f := parse_header header in
  let fs := actual_channels d * (bitsPerSample f / 8) in
  audioFormat f = 1 -> choose_format (bitsPerSample f) ≠ None ->
  0 <= open_pcm d -> 0 <= set_params d -> 0 <= prepare d ->
  0 < fs < 2 ^ 32 -> (fs | 4096) ->
  Forall goes_on (writei d) -> (length data < length (writei d))%nat ->
  ∃ blocks, playWav junk (Some (header ++ data)) d = Some (true, blocks) ∧
    concat blocks = take (Z.to_nat (Z.of_nat (length data) / fs * fs)) data ∧
    Forall (fun b => length b <= BUFFER_SIZE)%nat blocks.
Proof.
  intros Hh f fs Ha Hf Ho Hs Hp Hr Hd Hw Hl. unfold playWav.
  rewrite take_app_length', Hh, (drop_app_length' header data 44) by done.
  assert (E : parse_header (header ++ drop 44 junk) = f).
  { subst f. unfold parse_header. unfold slice.
    f_equal; f_equal; rewrite drop_app_le by lia; (rewrite take_app_le; [done | rewrite length_drop; lia]). }
  rewrite E, Ha. cbn [Z.eqb Pos.eqb negb]. rewrite (proj2 (Z.ltb_ge _ _) Ho).
  destruct (choose_format (bitsPerSample f)); [| done].
  rewrite (proj2 (Z.ltb_ge _ _) Hs), (proj2 (Z.ltb_ge _ _) Hp).
  change (44 <? 44)%nat with false. fold fs. rewrite (uwrap_id 32) by (unfold in_u; lia).
  destruct (play_loop_complete (S (length (header ++ data))) fs (writei d) data) as (blocks & Eb & C & F);
    [lia | done | done | rewrite length_app; lia | done |].
  exists blocks. rewrite Eb. by split_and!.
Qed.

(** A stereo 16-bit file with two frames and one odd byte. *)
Definition stereo_header : bytes :=
  header_bytes (wave_header 16000 2 2).

Definition good_device : device :=
  {| open_plughw := -2; open_default := 0; open_dmix := 0; set_params := 0; actual_channels := 2;
     prepare := 0; writei := replicate 10 2 |}.

Lemma playWav_complete_witness :
  ∃ blocks, playWav [] (Some (stereo_header ++ [1; 2; 3; 4; 5; 6; 7; 8; 9])) good_device = Some (true, blocks) ∧
    concat blocks = [1; 2; 3; 4; 5; 6; 7; 8] ∧ Forall (fun b => length b <= BUFFER_SIZE)%nat blocks.
Proof.
  apply (playWav_complete [] stereo_header [1; 2; 3; 4; 5; 6; 7; 8; 9] good_device);
    try (by vm_compute); [by exists 1024 |].
  cbn. repeat (apply Forall_cons; split; [left; lia |]). apply Forall_nil_2.
Defined.

(** Names are not checked for separators: an upload can be written outside the
    upload directory. *)
Lemma upload_escapes_directory play :
  play [1] = Some (true, []) ->
  upload_play [1] (Some "../../root/x.wav"%string) true play =
    Some ({| code := 200; status := SUCCESS_; message := "Audio uploaded and played successfully!";
             path := Some "/tmp/audio_uploads/../../root/x.wav"%string |},
          Some ("/tmp/audio_uploads/../../root/x.wav"%string, [1])).
Proof. intros H. unfold upload_play. rewrite H. by vm_compute. Qed.
End AudioProps.
