(* ===== verification/Multipart.v ===== *)
(** * Multipart requests and the upload of audio.

    Models [src/include/crow/multipart.h], which the audio program uses to take a file
    from a request, the case-insensitive comparison of [src/include/crow/utility.h], and
    the route of [src/example/go2/typego_audio_interface.cpp] from the bytes of the
    request on.  Texts are [string]s of bytes; sizes are below 2{^63}, so that the only
    arithmetic that wraps around is with [npos].  [find] of an [unordered_multimap], which
    may return any element with the key, is a parameter. *)

From stdpp Require Import strings.
From Stdlib Require Import Ascii String.
From S2P Require Import Prelude Wav Audio CrowJson CrowJsonProps.
Import CrowJsonProps.

Local Open Scope list_scope.
Local Open Scope string_scope.

(** ** std::string *)

(** [s.find(pat)]; [None] is [npos]. *)
Fixpoint find (pat s : string) : option nat :=
  match starts pat s with
  | Some _ => Some 0%nat
  | None => match s with EmptyString => None | String _ r => S <$> find pat r end
  end.

Fixpoint take_str (n : nat) (s : string) : string :=
  match n, s with S n, String c r => String c (take_str n r) | _, _ => "" end.

(** [s.erase(0, n)]. *)
Fixpoint drop_str (n : nat) (s : string) : string :=
  match n, s with S n, String _ r => drop_str n r | _, _ => s end.

(** [s.substr(0, found)]. *)
Definition upto (found : option nat) (s : string) : string :=
  match found with Some n => take_str n s | None => s end.

(** [found + k] for a positive [k]: [npos] is 2{^64} - 1. *)
Definition plus (found : option nat) (k : nat) : nat :=
  match found with Some n => n + k | None => k - 1 end.

(** A result, an exception, or undefined behaviour. *)
Inductive parse_result (A : Type) := Ok (a : A) | bad_request (what : string) | out_of_range | Undefined.
Arguments Ok {A} a. Arguments bad_request {A} what. Arguments out_of_range {A}. Arguments Undefined {A}.

#[export] Instance parse_result_bind : MBind parse_result := fun A B f m =>
  match m with Ok a => f a | bad_request w => bad_request w | out_of_range => out_of_range | Undefined => Undefined end.

(** [s.substr(pos)]. *)
Definition substr_from (pos : nat) (s : string) : parse_result string :=
  if (pos <=? String.length s)%nat then Ok (drop_str pos s) else out_of_range.

(** ** Case-insensitive keys *)

Definition toupper (c : ascii) : ascii :=
  if ((97 <=? code c) && (code c <=? 122))%N then chr (code c - 32) else c.

Fixpoint string_equals (l r : string) : bool :=
  match l, r with
  | EmptyString, EmptyString => true
  | String x l, String y r => Ascii.eqb (toupper x) (toupper y) && string_equals l r
  | _, _ => false
  end.

(** What the standard promises of [find] of a multimap. *)
Class MultimapFind {A} (mfind : string -> list (string * A) -> option A) := {
  mfind_in k l x : mfind k l = Some x -> ∃ k', (k', x) ∈ l ∧ string_equals k k' = true;
  mfind_none k l : mfind k l = None -> ∀ k' x, (k', x) ∈ l -> string_equals k k' = false
}.

(** ** Parts *)

Definition CR : ascii := "013".
Definition LF : ascii := "010".
Definition crlf : string := String CR (String LF "").
Definition dd : string := "--".

Record header := { value : string; params : list (string * string) }.
Record part := { headers : list (string * header); body : string }.
Record message := { boundary : string; parts : list part; part_map : list (string * part) }.

(** [find] and [emplace] of the map of the parameters. *)
Fixpoint param (k : string) (l : list (string * string)) : option string :=
  match l with (k', v) :: l => if String.eqb k' k then Some v else param k l | [] => None end.

Definition emplace_param (k v : string) (l : list (string * string)) : list (string * string) :=
  match param k l with Some _ => l | None => (l ++ [(k, v)])%list end.

(** [trim], with the quotation mark. *)
Definition trim (s : string) : string :=
  if (1 <? String.length s)%nat && Ascii.eqb (peek s) quote && Ascii.eqb (peek (drop_str (String.length s - 1) s)) quote
  then take_str (String.length s - 2) (drop_str 1 s) else s.

Definition pad (s : string) : string := String quote (s +:+ String quote "").

Definition get_boundary (header : string) : string :=
  match find "boundary=" header with
  | Some found =>
      let to_return := drop_str (found + 9) header in
      if Ascii.eqb (peek to_return) quote then take_str (String.length to_return - 2) (drop_str 1 to_return) else to_return
  | None => ""
  end.

(** [line] up to the next "; ", and the rest of it. *)
Definition next_field (line : string) : string * string :=
  let found_semicolon := find "; " line in
  (upto found_semicolon line, match found_semicolon with Some n => drop_str (n + 2) line | None => "" end).

(** The parameters of a header; the fuel bounds the length of the line. *)
Fixpoint parse_params (fuel : nat) (line : string) (acc : list (string * string)) : list (string * string) :=
  match fuel, line with
  | S fuel, String _ _ =>
      let '(param_, line) := next_field line in
      let param_split := find "=" param_ in
      let value := drop_str (plus param_split 1) param_ in
      parse_params fuel line (emplace_param (upto param_split param_) (trim value) acc)
  | _, _ => acc
  end.

Fixpoint parse_section_head (fuel : nat) (lines : string) (acc : list (string * header)) : parse_result (list (string * header)) :=
  match fuel, lines with
  | S fuel, String _ _ =>
      let found_crlf := find crlf lines in
      let line := upto found_crlf lines in
      let lines := drop_str (plus found_crlf 2) lines in
      '(key, to_add) ←
        match line with
        | EmptyString => Ok ("", {| value := ""; params := [] |})
        | _ =>
            let '(header_, line) := next_field line in
            let header_split := find ": " header_ in
            value ← substr_from (plus header_split 2) header_;
            Ok (upto header_split header_, {| value := value; params := parse_params (String.length line) line [] |})
        end;
      parse_section_head fuel lines (acc ++ [(key, to_add)])%list
  | _, _ => Ok acc
  end.

Definition parse_section (section : string) : parse_result part :=
  let found := find (crlf +:+ crlf) section in
  let head_line := take_str (plus found 2) section in
  let section := drop_str (plus found 4) section in
  headers ← parse_section_head (String.length head_line) head_line [];
  Ok {| headers := headers;
        body := if (String.length section <? 2)%nat then section else take_str (String.length section - 2) section |}.

Section Message.
Context (find_header : string -> list (string * header) -> option header).
Context (find_part : string -> list (string * part) -> option part).
Context (find_value : string -> list (string * string) -> option string).

Definition get_header_object (headers : list (string * header)) (key : string) : header :=
  default {| value := ""; params := [] |} (find_header key headers).

(** The name of a part; without one the end of the map is dereferenced. *)
Definition part_name (p : part) : option string := param "name" (params (get_header_object (headers p) "Content-Disposition")).

(** [parse_body], from the parts parsed so far.  A delimiter is longer than two
    characters, so the length of the body is enough fuel; when it is used up the body
    is empty. *)
Fixpoint parse_body (fuel : nat) (msg : message) (body : string) : parse_result message :=
  if String.eqb body crlf then Ok msg
  else
    let delimiter := dd +:+ boundary msg in
    match find delimiter body, fuel with
    | Some found, S fuel =>
        let section := take_str found body in
        let body := drop_str (found + String.length delimiter + 2) body in
        match section with
        | EmptyString => parse_body fuel msg body
        | _ =>
            parsed_section ← parse_section section;
            match part_name parsed_section with
            | None => Undefined
            | Some name =>
                parse_body fuel
                  {| boundary := boundary msg; parts := (parts msg ++ [parsed_section])%list;
                     part_map := (part_map msg ++ [(name, parsed_section)])%list |} body
            end
        end
    | _, _ => bad_request "Unable to find delimiter in multipart message. Probably ill-formed body"
    end.

(** [message(const request& req)]. *)
Definition message_of (req_headers : list (string * string)) (req_body : string) : parse_result message :=
  let boundary := get_boundary (default "" (find_value "Content-Type" req_headers)) in
  match boundary with
  | EmptyString => bad_request "Empty boundary in multipart message"
  | _ => parse_body (String.length req_body) {| boundary := boundary; parts := []; part_map := [] |} req_body
  end.

Definition get_part_by_name (msg : message) (name : string) : part :=
  default {| headers := []; body := "" |} (find_part name (part_map msg)).

Definition bytes_of (s : string) : bytes := (fun c => Z.of_N (code c)) <$> list_ascii_of_string s.

(** The route [/upload_play], from the request. *)
Definition upload_http (req_headers : list (string * string)) (req_body : string) (created : bool)
    (play : bytes -> option (bool * list bytes)) : parse_result (option (response * option (string * bytes))) :=
  msg ← message_of req_headers req_body;
  let audio_part := get_part_by_name msg "audio" in
  let header_obj := get_header_object (headers audio_part) "Content-Disposition" in
  Ok (upload_play (bytes_of (body audio_part)) (param "filename" (params header_obj)) created play).
End Message.

(** ** Writing *)

Definition dump_param (p : string * string) : string := "; " +:+ p.1 +:+ "=" +:+ pad p.2.

Fixpoint dump_params (l : list (string * string)) : string :=
  match l with [] => "" | p :: l => dump_param p +:+ dump_params l end.

Definition dump_header (h : string * header) : string := h.1 +:+ ": " +:+ value h.2 +:+ dump_params (params h.2).

Fixpoint dump_headers (l : list (string * header)) : string :=
  match l with [] => "" | h :: l => dump_header h +:+ crlf +:+ dump_headers l end.

(** [dump(i)]: the headers and parameters in the order their tables hold them. *)
Definition dump_part (p : part) : string := dump_headers (headers p) +:+ crlf +:+ body p +:+ crlf.

Fixpoint dump_parts (delimiter : string) (l : list part) : string :=
  match l with [] => "" | p :: l => delimiter +:+ crlf +:+ dump_part p +:+ dump_parts delimiter l end.

Definition dump (boundary : string) (l : list part) : string :=
  let delimiter := dd +:+ boundary in dump_parts delimiter l +:+ delimiter +:+ dd +:+ crlf.

(** ** Properties *)
Module MultipartProps.

#[local] Arguments String.append !_ _ / : simpl nomatch.

(** *** Texts *)

Lemma take_str_app n a b : n = String.length a -> take_str n (a +:+ b) = a.
Proof. intros ->. induction a as [|c a IH]; cbn; [by destruct b|]. by rewrite IH. Qed.

Lemma drop_str_app n k a b : n = (String.length a + k)%nat -> drop_str n (a +:+ b) = drop_str k b.
Proof. intros ->. induction a as [|c a IH]; cbn; [done|done]. Qed.

Lemma drop_str_0 s : drop_str 0 s = s.
Proof. by destruct s. Qed.

Lemma drop_str_app_eq n a b : n = String.length a -> drop_str n (a +:+ b) = b.
Proof. intros ->. rewrite (drop_str_app _ 0), drop_str_0 by lia. done. Qed.

Lemma drop_str_length n s : String.length (drop_str n s) = (String.length s - n)%nat.
Proof. revert n. induction s as [|c s IH]; intros [|n]; cbn; [done..|apply IH]. Qed.

(** A character does not occur. *)
Fixpoint lacks (c : ascii) (s : string) : Prop := match s with EmptyString => True | String x r => x ≠ c ∧ lacks c r end.

Lemma lacks_app c a b : lacks c (a +:+ b) <-> lacks c a ∧ lacks c b.
Proof. induction a as [|x a IH]; cbn; [tauto|]. rewrite IH. tauto. Qed.

Lemma starts_none w s : starts w s = None <-> ∀ r, s ≠ w +:+ r.
Proof.
  split.
  - intros E r ->. assert (starts w (w +:+ r) = Some r) by (by apply starts_spec). congruence.
  - intros H. destruct (starts w s) as [r|] eqn:E; [|done]. apply starts_spec in E. by apply H in E.
Qed.

Lemma starts_app w r : starts w (w +:+ r) = Some r.
Proof. by apply starts_spec. Qed.

Lemma find_step pat c s : find pat (String c s) = match starts pat (String c s) with Some _ => Some 0%nat | None => S <$> find pat s end.
Proof. reflexivity. Qed.

Lemma find_here pat s : find pat (pat +:+ s) = Some 0%nat.
Proof. destruct (pat +:+ s) as [|c r] eqn:E; [|rewrite find_step]; [cbn [find]|]; by rewrite <- E, starts_app. Qed.

Lemma find_cons pat c s : find pat (String c s) = None <-> starts pat (String c s) = None ∧ find pat s = None.
Proof.
  rewrite find_step. destruct (starts pat (String c s)); [naive_solver|]. destruct (find pat s); cbn; naive_solver.
Qed.

Lemma append_eq a x : ∀ b y, a +:+ x = b +:+ y ->
  (∃ l, a = b +:+ l ∧ y = l +:+ x) ∨ (∃ l, b = a +:+ l ∧ x = l +:+ y).
Proof.
  induction a as [|c a IH]; intros b y E; [right; by exists b|]. destruct b as [|c' b]; [left; by exists (String c a)|].
  cbn in E. injection E as -> E. apply IH in E as [(l & -> & ->)|(l & -> & ->)]; [left|right]; by exists l.
Qed.

(** The first occurrence of a pattern after [a]: it is not in [a], and does not begin
    in [a] and end behind it. *)
Lemma find_after pat a b :
  find pat a = None -> (∀ a1 a2 w r, a = a1 +:+ a2 -> a2 ≠ "" -> pat = a2 +:+ w -> w ≠ "" -> pat +:+ b ≠ w +:+ r) ->
  find pat (a +:+ pat +:+ b) = Some (String.length a).
Proof.
  induction a as [|c a IH]; intros Hn Hb; [exact (find_here pat b)|]. apply find_cons in Hn as [Hs Hn]. cbn [String.append String.length].
  rewrite find_step. destruct (starts pat (String c (a +:+ pat +:+ b))) as [r|] eqn:E.
  - exfalso. apply starts_spec in E. change (String c a +:+ (pat +:+ b) = pat +:+ r) in E.
    apply append_eq in E as [(l & Ea & _)|(l & Ep & Er)]; [by apply starts_none with (r := l) in Hs|].
    destruct l as [|x l].
    + rewrite append_nil in Ep. apply starts_none with (r := "") in Hs. by rewrite append_nil in Hs.
    + by apply (Hb "" (String c a) (String x l) r).
  - rewrite IH; [done|done|]. intros a1 a2 w r -> H1 H2. by apply (Hb (String c a1) a2 w).
Qed.

(** A separator of two different characters. *)
Lemma find_pair x y a b :
  x ≠ y -> find (String x (String y "")) a = None -> find (String x (String y "")) (a +:+ String x (String y b)) = Some (String.length a).
Proof.
  intros Hxy Hn. apply (find_after (String x (String y "")) a b Hn). intros a1 a2 w r _ Ha E Hw E'.
  destruct a2 as [|c a2]; [done|]. injection E as -> E. destruct a2 as [|c' a2]; cbn in E.
  - subst w. cbn in E'. congruence.
  - injection E as -> E. by destruct a2.
Qed.

Lemma find_lacks pat c s : lacks c s -> pat ≠ "" -> peek pat = c -> find pat s = None.
Proof.
  intros Hs Hp Hc. induction s as [|x s IH]; [destruct pat; [done|done]|]. destruct Hs as [Hx Hs]. apply find_cons. split; [|by apply IH].
  apply starts_none. intros r E. destruct pat as [|p pat]; [done|]. cbn in *. congruence.
Qed.

(** A single character. *)
Lemma find_char c a b : lacks c a -> find (String c "") (a +:+ String c b) = Some (String.length a).
Proof.
  intros Ha. apply (find_after (String c "") a b); [by apply (find_lacks _ c)|]. intros a1 a2 w r _ H E Hw.
  destruct a2 as [|x a2]; [done|]. injection E as -> E. by destruct a2, w.
Qed.

(** *** Headers *)

Lemma trim_pad v : trim (pad v) = v.
Proof.
  unfold trim, pad. cbn [String.length peek]. rewrite append_length. cbn [String.length].
  replace (1 <? S (String.length v + 1))%nat with true by (symmetry; apply Nat.ltb_lt; lia). rewrite eqb_self.
  replace (S (String.length v + 1) - 1)%nat with (S (String.length v)) by lia. cbn [drop_str].
  rewrite (drop_str_app_eq _ v) by done. cbn [peek]. rewrite eqb_self. cbn [andb]. apply take_str_app. lia.
Qed.

Lemma next_field_last a : find "; " a = None -> next_field a = (a, "").
Proof. intros E. unfold next_field. by rewrite E. Qed.

Lemma next_field_more a b : find "; " a = None -> next_field (a +:+ "; " +:+ b) = (a, b).
Proof.
  intros E. unfold next_field. change (a +:+ "; " +:+ b) with (a +:+ String ";" (String " " b)). rewrite (find_pair ";" " ") by done. cbn [upto].
  rewrite take_str_app, (drop_str_app _ 2) by done. cbn [drop_str]. done.
Qed.

Definition param_text (p : string * string) : string := p.1 +:+ "=" +:+ pad p.2.

Definition param_ok (p : string * string) : Prop := lacks "=" p.1 ∧ find "; " (param_text p) = None.

Lemma param_text_nonempty p : ∃ c r, param_text p = String c r.
Proof. unfold param_text. destruct p as [[|c k] v]; cbn; eauto. Qed.

Lemma param_fresh k l : k ∉ l.*1 -> param k l = None.
Proof.
  induction l as [|[k' v] l IH]; cbn; [done|]. intros [Hk Hl]%not_elem_of_cons. destruct (String.eqb_spec k' k); [congruence|by apply IH].
Qed.

(** One parameter is added. *)
Lemma emplace_parsed p acc :
  lacks "=" p.1 -> p.1 ∉ acc.*1 ->
  emplace_param (upto (find "=" (param_text p)) (param_text p)) (trim (drop_str (plus (find "=" (param_text p)) 1) (param_text p))) acc = (acc ++ [p])%list.
Proof.
  intros He Hn. unfold param_text. change (p.1 +:+ "=" +:+ pad p.2) with (p.1 +:+ String "=" (pad p.2)).
  rewrite (find_char "=") by done. cbn [upto plus]. rewrite take_str_app, (drop_str_app _ 1) by done. cbn [drop_str].
  rewrite trim_pad. unfold emplace_param. rewrite param_fresh by done. by destruct p.
Qed.

Lemma parse_params_S fuel c r acc :
  parse_params (S fuel) (String c r) acc =
  let '(param_, line) := next_field (String c r) in
  parse_params fuel line (emplace_param (upto (find "=" param_) param_) (trim (drop_str (plus (find "=" param_) 1) param_)) acc).
Proof. reflexivity. Qed.

Lemma parse_params_nil fuel acc : parse_params fuel "" acc = acc.
Proof. by destruct fuel. Qed.

Lemma parse_params_spec l : ∀ p fuel acc,
  Forall param_ok (p :: l) -> NoDup (acc ++ p :: l)%list.*1 -> (String.length (param_text p +:+ dump_params l) <= fuel)%nat ->
  parse_params fuel (param_text p +:+ dump_params l) acc = (acc ++ p :: l)%list.
Proof.
  induction l as [|q l IH]; intros p fuel acc Hok Hnd Hf; apply Forall_cons in Hok as [[He Hs] Hl];
    (assert (Hp : p.1 ∉ acc.*1) by (rewrite fmap_app in Hnd; apply NoDup_app in Hnd as (_ & Hnd & _); intros Hin; apply (Hnd _ Hin); left));
    destruct (param_text_nonempty p) as (c & r & Ep).
  - cbn [dump_params] in *. rewrite append_nil, Ep in *. destruct fuel as [|fuel]; [cbn in Hf; lia|]. rewrite parse_params_S, next_field_last by done.
    by rewrite <- Ep, emplace_parsed, parse_params_nil.
  - change (dump_params (q :: l)) with (("; " +:+ param_text q) +:+ dump_params l) in *. rewrite append_assoc in *. rewrite append_length in Hf.
    pose proof (next_field_more (param_text p) (param_text q +:+ dump_params l) Hs) as En. rewrite Ep in En, Hf |- *.
    destruct fuel as [|fuel]; [cbn in Hf; lia|]. change (String c r +:+ "; " +:+ param_text q +:+ dump_params l) with (String c (r +:+ "; " +:+ param_text q +:+ dump_params l)) in *.
    rewrite parse_params_S, En, <- Ep, emplace_parsed by done. rewrite IH; [by rewrite <- app_assoc|done|by rewrite <- app_assoc|].
    rewrite append_length in Hf. cbn [String.length] in Hf. lia.
Qed.

(** *** Lines *)

Definition header_ok (h : string * header) : Prop :=
  find ": " h.1 = None ∧ find "; " (h.1 +:+ ": " +:+ value h.2) = None ∧
  NoDup (params h.2).*1 ∧ Forall param_ok (params h.2) ∧ lacks CR (dump_header h).

Lemma dump_header_nonempty h : ∃ c r, dump_header h = String c r.
Proof. unfold dump_header. destruct h as [[|c k] v]; cbn; eauto. Qed.

(** A line of a header. *)
Lemma header_line h :
  header_ok h ->
  (let '(header_, line) := next_field (dump_header h) in
   value ← substr_from (plus (find ": " header_) 2) header_;
   Ok (upto (find ": " header_) header_, {| value := value; params := parse_params (String.length line) line [] |})) = Ok h.
Proof.
  destruct h as [k [v ps]]. intros (Hc & Hs & Hn & Hp & _). cbn [fst snd value params] in *.
  assert (E : next_field (dump_header (k, {| value := v; params := ps |})) =
    (k +:+ ": " +:+ v, match ps with [] => "" | p :: l => param_text p +:+ dump_params l end)).
  { unfold dump_header. cbn [fst snd value params]. destruct ps as [|p l].
    - cbn [dump_params]. rewrite append_nil. by apply next_field_last.
    - change (dump_params (p :: l)) with (("; " +:+ param_text p) +:+ dump_params l). rewrite <- (next_field_more _ _ Hs). f_equal. by flat. }
  rewrite E. change (k +:+ ": " +:+ v) with (k +:+ String ":" (String " " v)). rewrite (find_pair ":" " ") by done. cbn [plus upto].
  unfold substr_from. rewrite append_length. cbn [String.length]. rewrite (proj2 (Nat.leb_le _ _)) by lia. cbn [mbind parse_result_bind].
  rewrite (drop_str_app _ 2), take_str_app by done. cbn [drop_str]. do 3 f_equal. destruct ps as [|p l]; [done|]. by apply (parse_params_spec l p).
Qed.

Lemma parse_section_head_S fuel c r acc :
  parse_section_head (S fuel) (String c r) acc =
  '(key, to_add) ←
    match upto (find crlf (String c r)) (String c r) with
    | EmptyString => Ok ("", {| value := ""; params := [] |})
    | line =>
        let '(header_, line) := next_field line in
        value ← substr_from (plus (find ": " header_) 2) header_;
        Ok (upto (find ": " header_) header_, {| value := value; params := parse_params (String.length line) line [] |})
    end;
  parse_section_head fuel (drop_str (plus (find crlf (String c r)) 2) (String c r)) (acc ++ [(key, to_add)])%list.
Proof. cbn [parse_section_head]. by destruct (upto (find crlf (String c r)) (String c r)). Qed.

Lemma parse_section_head_spec l : ∀ fuel acc,
  Forall header_ok l -> (String.length (dump_headers l) <= fuel)%nat -> parse_section_head fuel (dump_headers l) acc = Ok (acc ++ l)%list.
Proof.
  induction l as [|h l IH]; intros fuel acc Hok Hf; [destruct fuel; cbn; by rewrite app_nil_r|].
  apply Forall_cons in Hok as [Hh Hl]. pose proof (header_line h Hh) as Eh. destruct Hh as (_ & _ & _ & _ & Hcr).
  destruct (dump_header_nonempty h) as (c & r & Ed). cbn [dump_headers] in *. rewrite !append_length in Hf.
  pose proof (find_pair CR LF (dump_header h) (dump_headers l) ltac:(done) (find_lacks crlf CR _ Hcr ltac:(done) eq_refl)) as Ef.
  change (find crlf (dump_header h +:+ crlf +:+ dump_headers l) = Some (String.length (dump_header h))) in Ef.
  destruct fuel as [|fuel]; [rewrite Ed in Hf; cbn in Hf; lia|].
  assert (Et : ∀ t, t = dump_header h +:+ crlf +:+ dump_headers l -> parse_section_head (S fuel) t acc = Ok (acc ++ h :: l)%list); [|by apply Et].
  intros t Et. destruct t as [|c' r']; [by rewrite Ed in Et|]. rewrite parse_section_head_S, Et, Ef. cbn [upto plus].
  rewrite take_str_app, (drop_str_app _ 2) by done. cbn [drop_str crlf String.append]. rewrite Ed in Eh |- *. rewrite Eh.
  destruct h as [k hd]. cbn [mbind parse_result_bind]. rewrite IH; [by rewrite <- app_assoc|done|]. cbn in Hf. lia.
Qed.

(** *** Sections *)

Lemma find_skip pat c a s : lacks c a -> pat ≠ "" -> peek pat = c -> find pat (a +:+ s) = (Nat.add (String.length a)) <$> find pat s.
Proof.
  intros Ha Hp Hc. induction a as [|x a IH]; cbn [String.append String.length]; [by destruct (find pat s)|]. destruct Ha as [Hx Ha].
  rewrite find_step. assert (E : starts pat (String x (a +:+ s)) = None).
  { apply starts_none. intros r E. destruct pat as [|p pat]; [done|]. cbn in *. congruence. }
  rewrite E, IH by done. by destruct (find pat s).
Qed.

(** The empty line ends the headers. *)
Lemma find_blank_line h l r :
  Forall header_ok (h :: l) -> find (crlf +:+ crlf) (dump_headers (h :: l) +:+ crlf +:+ r) = Some (String.length (dump_headers (h :: l)) - 2)%nat.
Proof.
  revert h. induction l as [|h' l IH]; intros h Hok; apply Forall_cons in Hok as [(_ & _ & _ & _ & Hcr) Hl].
  - cbn [dump_headers]. rewrite append_assoc, (find_skip _ CR) by done. rewrite append_nil.
    replace (crlf +:+ crlf +:+ r) with ((crlf +:+ crlf) +:+ r) by (by flat). rewrite find_here. cbn [fmap option_fmap option_map].
    rewrite append_length. cbn [crlf String.length]. f_equal. lia.
  - specialize (IH h' Hl). apply Forall_cons in Hl as [(_ & _ & _ & _ & Hcr') _].
    set (rest := dump_headers (h' :: l) +:+ crlf +:+ r) in *.
    assert (Hr : ∃ c t, rest = String c t ∧ c ≠ CR).
    { unfold rest. cbn [dump_headers]. destruct (dump_header_nonempty h') as (c & t & E). rewrite E in Hcr' |- *. cbn [String.append].
      eexists _, _. split; [done|]. by destruct Hcr'. }
    replace (dump_headers (h :: h' :: l) +:+ crlf +:+ r) with (dump_header h +:+ String CR (String LF rest)) by (unfold rest; cbn [dump_headers crlf]; by flat).
    rewrite (find_skip _ CR) by done. destruct Hr as (c & t & Er & Hc).
    assert (E1 : starts (crlf +:+ crlf) (String CR (String LF rest)) = None).
    { apply starts_none. intros t' E. rewrite Er in E. cbn in E. congruence. }
    rewrite find_step, E1, find_step. change (starts (crlf +:+ crlf) (String LF rest)) with (@None string). cbn iota. rewrite IH.
    cbn [fmap option_fmap option_map]. f_equal. change (dump_headers (h :: h' :: l)) with (dump_header h +:+ crlf +:+ dump_headers (h' :: l)).
    rewrite !append_length. cbn [crlf String.length]. assert (2 <= String.length (dump_headers (h' :: l)))%nat; [|lia].
    cbn [dump_headers]. rewrite !append_length. cbn [crlf String.length]. lia.
Qed.

Lemma headers_length h l : (2 <= String.length (dump_headers (h :: l)))%nat.
Proof. cbn [dump_headers]. rewrite !append_length. cbn [crlf String.length]. lia. Qed.

Lemma parse_section_spec p : headers p ≠ [] -> Forall header_ok (headers p) -> parse_section (dump_part p) = Ok p.
Proof.
  destruct p as [[|h l] b]; [done|]. cbn [headers]. intros _ Hok. unfold parse_section, dump_part. cbn [headers body].
  rewrite (find_blank_line h l (b +:+ crlf) Hok). pose proof (headers_length h l) as Hl. cbn [plus].
  rewrite take_str_app by lia. rewrite (drop_str_app _ 2) by lia. cbn [crlf String.append drop_str].
  rewrite (parse_section_head_spec (h :: l)) by done. cbn [mbind parse_result_bind app]. rewrite append_length. change (String.length crlf) with 2%nat.
  rewrite (proj2 (Nat.ltb_ge _ _)) by lia. by rewrite take_str_app by lia.
Qed.

(** *** Bodies *)

Section Body.
Context (find_header : string -> list (string * header) -> option header).
Context (bnd : string) (Hb : lacks LF bnd).

Abbreviation delimiter := (dd +:+ bnd).
Abbreviation name_of := (part_name find_header).
Abbreviation parse := (parse_body find_header).

Definition part_ok (p : part) : Prop :=
  headers p ≠ [] ∧ Forall header_ok (headers p) ∧ find delimiter (dump_part p) = None ∧ is_Some (name_of p).

Lemma ends_with_LF a a1 a2 : a +:+ crlf = a1 +:+ a2 -> a2 ≠ "" -> ~ lacks LF a2.
Proof.
  intros E Hn Hl. apply append_eq in E as [(l & -> & ->)|(l & -> & E)].
  - apply lacks_app in Hl as [_ (_ & [] & _)]. done.
  - destruct l as [|x l]; cbn in E; [subst a2; by destruct Hl as (_ & [] & _)|]. injection E as _ E.
    destruct l as [|y l]; cbn in E; [subst a2; by destruct Hl as ([] & _)|]. injection E as _ E. by destruct l, a2.
Qed.

Lemma find_delimiter p r : part_ok p -> find delimiter (dump_part p +:+ delimiter +:+ r) = Some (String.length (dump_part p)).
Proof.
  intros (_ & _ & Hd & _). apply find_after; [done|]. intros a1 a2 w r' Ea Hn Ed _ _.
  assert (Hl : lacks LF delimiter) by (by apply lacks_app). rewrite Ed in Hl. apply lacks_app in Hl as [Hl _].
  unfold dump_part in Ea. rewrite <- !append_assoc in Ea. by apply (ends_with_LF _ a1 a2) in Ea.
Qed.

(** What follows a delimiter and the two characters after it. *)
Fixpoint after_delimiter (l : list part) : string :=
  match l with
  | [] => crlf
  | p :: l => dump_part p +:+ delimiter +:+ (match l with [] => dd | _ => crlf end) +:+ after_delimiter l
  end.

Lemma dump_after l : dump bnd l = delimiter +:+ (match l with [] => dd | _ => crlf end) +:+ after_delimiter l.
Proof.
  unfold dump. destruct l as [|p l]; [done|]. revert p. induction l as [|q l IH]; intros p.
  - cbn [dump_parts after_delimiter]. by flat.
  - change (dump_parts delimiter (p :: q :: l)) with (delimiter +:+ crlf +:+ dump_part p +:+ dump_parts delimiter (q :: l)).
    change (after_delimiter (p :: q :: l)) with (dump_part p +:+ delimiter +:+ crlf +:+ after_delimiter (q :: l)).
    rewrite <- (IH q). rewrite !append_assoc. done.
Qed.

(** A message after more parts. *)
Definition extend (msg : message) (l : list part) : message :=
  {| boundary := boundary msg; parts := (parts msg ++ l)%list;
     part_map := (part_map msg ++ ((fun p => (default "" (name_of p), p)) <$> l))%list |}.

Lemma section_nonempty p : ∃ c r, dump_part p = String c r.
Proof.
  unfold dump_part. destruct (headers p) as [|h l]; [by eexists _, _|]. destruct (dump_header_nonempty h) as (c & r & E).
  cbn [dump_headers]. rewrite E. by eexists _, _.
Qed.

Lemma parse_body_S fuel msg text found :
  text ≠ crlf -> find (dd +:+ boundary msg) text = Some found ->
  parse (S fuel) msg text =
  match take_str found text with
  | EmptyString => parse fuel msg (drop_str (found + String.length (dd +:+ boundary msg) + 2) text)
  | section =>
      parsed_section ← parse_section section;
      match name_of parsed_section with
      | None => Undefined
      | Some name =>
          parse fuel
            {| boundary := boundary msg; parts := (parts msg ++ [parsed_section])%list;
               part_map := (part_map msg ++ [(name, parsed_section)])%list |}
            (drop_str (found + String.length (dd +:+ boundary msg) + 2) text)
      end
  end.
Proof.
  intros Hn Hf. cbn [parse_body]. destruct (String.eqb_spec text crlf); [done|]. rewrite Hf. by destruct (take_str found text).
Qed.

Lemma drop_two w r : String.length w = 2%nat -> drop_str 2 (w +:+ r) = r.
Proof. intros H. by rewrite drop_str_app_eq. Qed.

Lemma parse_after l : ∀ fuel msg,
  boundary msg = bnd -> Forall part_ok l -> (length l <= fuel)%nat -> parse fuel msg (after_delimiter l) = Ok (extend msg l).
Proof.
  induction l as [|p l IH]; intros fuel msg Em Hok Hf.
  - destruct fuel; cbn; unfold extend; by rewrite !app_nil_r; destruct msg.
  - apply Forall_cons in Hok as [Hp Hl]. destruct fuel as [|fuel]; [cbn in Hf; lia|]. cbn [after_delimiter].
    set (w := match l with [] => dd | _ => crlf end). assert (Hw : String.length w = 2%nat) by (by unfold w; destruct l).
    pose proof (find_delimiter p (w +:+ after_delimiter l) Hp) as Ef. rewrite <- Em in Ef.
    rewrite (parse_body_S fuel msg _ (String.length (dump_part p))); rewrite <- Em.
    2: { intros E. apply (f_equal String.length) in E. rewrite !append_length in E. cbn [dd crlf String.length] in E.
         destruct (section_nonempty p) as (c & r & Es). rewrite Es in E. cbn in E. lia. }
    2: { done. }
    rewrite take_str_app by done. destruct (section_nonempty p) as (c & r & Es). rewrite Es, <- Es.
    destruct Hp as (Hh & Hho & _ & [name Hname]). rewrite parse_section_spec by done. cbn [mbind parse_result_bind]. rewrite Hname.
    rewrite <- Nat.add_assoc, (drop_str_app _ (String.length (dd +:+ boundary msg) + 2)), (drop_str_app _ 2), drop_two by done.
    rewrite IH; [|done|done|cbn in Hf; lia]. unfold extend. cbn [boundary parts part_map fmap list_fmap]. rewrite Hname. by rewrite <- !app_assoc.
Qed.
End Body.

(** *** Enough fuel

    A loop that has as much fuel as characters left does not run out of it. *)

Lemma next_field_length c r : (String.length (next_field (String c r)).2 < String.length (String c r))%nat.
Proof. unfold next_field. destruct (find "; " (String c r)); cbn [snd]; [rewrite drop_str_length|]; cbn; lia. Qed.

Lemma parse_params_fuel fuel : ∀ line acc, (String.length line <= fuel)%nat -> parse_params (S fuel) line acc = parse_params fuel line acc.
Proof.
  induction fuel as [|fuel IH]; intros [|c r] acc Hl; [done|cbn in Hl; lia|done|]. rewrite (parse_params_S (S fuel)), (parse_params_S fuel).
  pose proof (next_field_length c r) as Hn. destruct (next_field (String c r)) as [p line]. apply IH. cbn in *. lia.
Qed.

Lemma plus_pos found k : (0 < k - 1)%nat -> (0 < plus found k)%nat.
Proof. destruct found; cbn; lia. Qed.

Lemma parse_section_head_fuel fuel : ∀ lines acc,
  (String.length lines <= fuel)%nat -> parse_section_head (S fuel) lines acc = parse_section_head fuel lines acc.
Proof.
  induction fuel as [|fuel IH]; intros [|c r] acc Hl; [done|cbn in Hl; lia|done|].
  rewrite (parse_section_head_S (S fuel)), (parse_section_head_S fuel).
  destruct (match upto (find crlf (String c r)) (String c r) with EmptyString => _ | _ => _ end) as [[k h]| | |]; [|done..].
  cbn [mbind parse_result_bind]. apply IH. rewrite drop_str_length. pose proof (plus_pos (find crlf (String c r)) 2). cbn [String.length] in *. lia.
Qed.

Lemma parse_body_fuel find_header fuel : ∀ msg text,
  (String.length text <= fuel)%nat -> parse_body find_header (S fuel) msg text = parse_body find_header fuel msg text.
Proof.
  induction fuel as [|fuel IH]; intros msg text Hl.
  - destruct text; [done|cbn in Hl; lia].
  - destruct (String.eqb_spec text crlf) as [->|Hn]; [done|]. destruct (find (dd +:+ boundary msg) text) as [found|] eqn:E.
    + rewrite !(parse_body_S find_header _ msg text found) by done.
      assert (Hd : (String.length (drop_str (found + String.length (dd +:+ boundary msg) + 2) text) <= fuel)%nat) by (rewrite drop_str_length; lia).
      destruct (take_str found text); [by apply IH|]. destruct (parse_section _) as [p| | |]; cbn [mbind parse_result_bind]; [|done..].
      destruct (part_name find_header p); [by apply IH|done].
    + cbn [parse_body]. by rewrite (proj2 (String.eqb_neq _ _) Hn), E.
Qed.

(** *** Whole messages *)

Section Whole.
Context (find_header : string -> list (string * header) -> option header).
Context (find_value : string -> list (string * string) -> option string).
Context (bnd : string) (Hb : lacks LF bnd) (Hne : bnd ≠ "") (Hq : peek bnd ≠ quote).

Definition content_type : string := "multipart/form-data; boundary=" +:+ bnd.

Lemma boundary_of_content_type : get_boundary content_type = bnd.
Proof.
  unfold get_boundary, content_type. assert (E : find "boundary=" ("multipart/form-data; boundary=" +:+ bnd) = Some 21%nat) by reflexivity.
  rewrite E. cbn [Nat.add]. rewrite (drop_str_app_eq 30) by done. by rewrite (proj2 (Ascii.eqb_neq _ _) Hq).
Qed.

(** The message with these parts. *)
Definition message_with (l : list part) : message :=
  {| boundary := bnd; parts := l; part_map := (fun p => (default "" (part_name find_header p), p)) <$> l |}.

Lemma after_delimiter_length l : (length l <= String.length (after_delimiter bnd l))%nat.
Proof.
  induction l as [|p l IH]; [cbn; lia|]. cbn [after_delimiter length]. rewrite !append_length.
  destruct (section_nonempty p) as (c & r & ->). cbn [String.length]. lia.
Qed.

Lemma message_of_dump req_headers l :
  find_value "Content-Type" req_headers = Some content_type -> Forall (part_ok find_header bnd) l ->
  message_of find_header find_value req_headers (dump bnd l) = Ok (message_with l).
Proof.
  intros Ec Hl. unfold message_of. rewrite Ec. cbn [from_option id]. rewrite boundary_of_content_type. rewrite dump_after.
  set (w := match l with [] => dd | _ => crlf end). assert (Hw : String.length w = 2%nat) by (by unfold w; destruct l).
  pose proof (after_delimiter_length l) as Ha. set (msg := {| boundary := bnd; parts := []; part_map := [] |}).
  assert (E : ∀ fuel, (length l <= fuel)%nat -> parse_body find_header (S fuel) msg ((dd +:+ bnd) +:+ w +:+ after_delimiter bnd l) = Ok (message_with l)).
  { intros fuel Hf. rewrite (parse_body_S find_header fuel msg _ 0).
    - assert (Ht : ∀ s, take_str 0 s = "") by (by intros []). rewrite Ht. cbn [Nat.add msg boundary].
      rewrite (drop_str_app _ 2), drop_two by done. by apply (parse_after find_header bnd Hb l fuel msg).
    - intros E. apply (f_equal String.length) in E. rewrite !append_length, Hw in E. cbn [dd crlf String.length] in E. lia.
    - apply find_here. }
  assert (Hm : ∀ X Y : parse_result message, match bnd with EmptyString => X | String _ _ => Y end = Y) by (by destruct bnd). rewrite Hm.
  assert (El : ∃ fuel, String.length ((dd +:+ bnd) +:+ w +:+ after_delimiter bnd l) = S fuel ∧ (length l <= fuel)%nat).
  { rewrite !append_length. cbn [dd String.length Nat.add]. eexists. split; [done|]. lia. }
  destruct El as (fuel & -> & Hf). by apply E.
Qed.
End Whole.

(** C28. Round trip of multipart messages.  A message written by [dump], sent with the
    content type of its boundary, is parsed into the same parts: the same headers with
    their parameters (quotes removed) in the order they were written, and the same
    bodies, byte for byte, whatever lines and zero bytes they contain; and every part
    is entered under its name.  The boundary has no line feed and no quotation mark in
    front and its delimiter does not occur in the parts; the headers are separable. *)
Theorem multipart_roundtrip find_header find_value bnd req_headers l :
  lacks LF bnd -> bnd ≠ "" -> peek bnd ≠ quote ->
  find_value "Content-Type" req_headers = Some (content_type bnd) -> Forall (part_ok find_header bnd) l ->
  message_of find_header find_value req_headers (dump bnd l) =
    Ok {| boundary := bnd; parts := l; part_map := (fun p => (default "" (part_name find_header p), p)) <$> l |}.
Proof. intros H1 H2 H3 H4 H5. by apply (message_of_dump find_header find_value bnd H1 H2 H3). Qed.

(** The first element with a key: one way to implement [find]. *)
Fixpoint first_equal {A} (k : string) (l : list (string * A)) : option A :=
  match l with (k', x) :: l => if string_equals k k' then Some x else first_equal k l | [] => None end.

#[export] Instance first_equal_find {A} : MultimapFind (@first_equal A).
Proof.
  split.
  - intros k l x. induction l as [|[k' y] l IH]; cbn; [done|]. destruct (string_equals k k') eqn:E.
    + intros [= ->]. exists k'. split; [left|done].
    + intros (k2 & H & E2)%IH. exists k2. split; [by right|done].
  - intros k l. induction l as [|[k' y] l IH]; cbn; [by intros _ ? ? ?%not_elem_of_nil|]. destruct (string_equals k k') eqn:E; [done|].
    intros Hn k2 x [[= -> ->]|H]%elem_of_cons; [done|by apply (IH Hn k2 x)].
Qed.

Definition audio_part : part :=
  {| headers := [("Content-Disposition", {| value := "form-data"; params := [("name", "audio"); ("filename", "a b.wav")] |});
                 ("Content-Type", {| value := "audio/wav"; params := [] |})];
     body := String NUL (crlf +:+ crlf +:+ "--x") |}.

Definition form : list part :=
  [{| headers := [("content-disposition", {| value := "form-data"; params := [("name", "title")] |})]; body := "" |}; audio_part].

Definition type_header : list (string * string) := [("content-type", content_type "xyz")].

Lemma lacks_dec c s : (if decide (Forall (.≠ c) (list_ascii_of_string s)) then true else false) = true -> lacks c s.
Proof.
  destruct (decide _) as [H|]; [intros _|done]. induction s as [|x s IH]; [done|]. cbn in H. apply Forall_cons in H as [Hx H]. by split; [|apply IH].
Qed.

Lemma form_ok : Forall (part_ok first_equal "xyz") form.
Proof.
  repeat constructor; try (vm_compute; done); try (apply lacks_dec; vm_compute; done); try (apply (bool_decide_unpack (_ ∉ _)); vm_compute; done).
  all: by eexists; vm_compute.
Qed.

Lemma multipart_roundtrip_witness :
  message_of first_equal first_equal type_header (dump "xyz" form) =
    Ok {| boundary := "xyz"; parts := form; part_map := [("title", nth 0 form audio_part); ("audio", audio_part)] |}.
Proof.
  apply (multipart_roundtrip first_equal first_equal "xyz" type_header form);
    [by apply lacks_dec; vm_compute|done|done|vm_compute; reflexivity|apply form_ok].
Defined.

(** *** The upload *)

Section Upload.
Context (find_header : string -> list (string * header) -> option header).
Context (find_part : string -> list (string * part) -> option part) `{!MultimapFind find_part}.
Context (find_value : string -> list (string * string) -> option string).

Abbreviation name_of := (part_name find_header).

(** The one part of the form with the name. *)
Definition only_part (name : string) (l : list part) (p : part) : Prop :=
  p ∈ l ∧ name_of p = Some name ∧ ∀ q n, q ∈ l -> name_of q = Some n -> string_equals name n = true -> q = p.

Lemma string_equals_refl s : string_equals s s = true.
Proof. induction s as [|c s IH]; [done|]. cbn. by rewrite eqb_self, IH. Qed.

Lemma get_only_part bnd name l p :
  Forall (fun q => is_Some (name_of q)) l -> only_part name l p -> get_part_by_name find_part (message_with find_header bnd l) name = p.
Proof.
  intros Hl (Hp & Hn & Hu). unfold get_part_by_name, message_with. cbn [part_map].
  set (m := (fun p => (default "" (name_of p), p)) <$> l).
  assert (Hm : ∀ k q, (k, q) ∈ m -> q ∈ l ∧ name_of q = Some k).
  { intros k q (q' & [= -> ->] & Hq)%list_elem_of_fmap. split; [done|]. rewrite Forall_forall in Hl. by destruct (Hl _ Hq) as [n ->]. }
  destruct (find_part name m) as [q|] eqn:E.
  - apply mfind_in in E as (k & Hk & He). apply Hm in Hk as [Hq Hk]. by apply (Hu q k).
  - exfalso. assert (Hin : (name, p) ∈ m).
    { apply list_elem_of_fmap. exists p. by rewrite Hn. }
    apply (mfind_none _ _ E) in Hin. by rewrite string_equals_refl in Hin.
Qed.

(** C27. An upload from the bytes of the request to the file.  Of a form with one part
    named audio (in upper or lower case) whose header carries a file name, exactly the
    bytes of that part's body are saved under that name, and played, when the name ends
    in .wav: the answer is 200, or 500 when the playback fails.  Another name is refused
    with 400 and nothing is saved. *)
Theorem upload_saves_part bnd req_headers l p f created play :
  lacks LF bnd -> bnd ≠ "" -> peek bnd ≠ quote ->
  find_value "Content-Type" req_headers = Some (content_type bnd) -> Forall (part_ok find_header bnd) l ->
  only_part "audio" l p -> body p ≠ "" ->
  param "filename" (params (get_header_object find_header (headers p) "Content-Disposition")) = Some f ->
  let answer := upload_http find_header find_part find_value req_headers (dump bnd l) created play in
  (is_wav f = false -> ∃ resp, answer = Ok (Some (resp, None)) ∧ Audio.code resp = 400%Z) ∧
  (is_wav f = true -> created = true -> ∀ ret blocks, play (bytes_of (body p)) = Some (ret, blocks) ->
     ∃ resp, answer = Ok (Some (resp, Some (upload_dir +:+ f, bytes_of (body p)))) ∧ Audio.code resp = if (ret : bool) then 200%Z else 500%Z).
Proof.
  intros H1 H2 H3 H4 H5 Hp Hb Hf answer. subst answer. unfold upload_http. rewrite (message_of_dump find_header find_value bnd H1 H2 H3 req_headers l H4 H5).
  cbn [mbind parse_result_bind]. rewrite (get_only_part bnd "audio" l p); [|by eapply Forall_impl; [exact H5|intros q (_ & _ & _ & ?)]|done].
  rewrite Hf. unfold upload_play. assert (Hlen : (length (bytes_of (body p)) =? 0)%nat = false).
  { unfold bytes_of. rewrite length_fmap. by destruct (body p). }
  rewrite Hlen. cbn [from_option id]. split.
  - intros ->. cbn [negb]. by eexists.
  - intros -> -> ret blocks ->. cbn [negb mbind option_bind]. eexists. split; [done|]. by destruct ret.
Qed.
End Upload.

Lemma form_only_audio : only_part first_equal "audio" form audio_part.
Proof.
  split_and!; [right; left|done|]. intros q n [->|[->|[]%not_elem_of_nil]%elem_of_cons]%elem_of_cons; [|done].
  intros E. vm_compute in E. injection E as <-. by vm_compute.
Qed.

Lemma upload_saves_part_witness :
  ∃ resp, upload_http first_equal first_equal first_equal type_header (dump "xyz" form) true (fun data => Some (true, [data])) =
    Ok (Some (resp, Some ("/tmp/audio_uploads/a b.wav", [0; 13; 10; 13; 10; 45; 45; 120]%Z))) ∧ Audio.code resp = 200%Z.
Proof.
  destruct (proj2 (upload_saves_part first_equal first_equal first_equal "xyz" type_header form audio_part "a b.wav" true
    (fun data => Some (true, [data])) ltac:(by apply lacks_dec; vm_compute) ltac:(done) ltac:(done) ltac:(vm_compute; reflexivity) form_ok
    form_only_audio ltac:(done) ltac:(vm_compute; reflexivity)) eq_refl eq_refl true [bytes_of (body audio_part)] eq_refl) as (resp & E & Ec).
  exists resp. split; [exact E|exact Ec].
Defined.

(** *** Ill-formed requests *)

Definition nameless : list part := [{| headers := [("Content-Disposition", {| value := "form-data"; params := [] |})]; body := "x" |}].

(** A part without a name makes the program read past the end of a map. *)
Example nameless_undefined : message_of first_equal first_equal type_header (dump "xyz" nameless) = Undefined.
Proof. vm_compute. reflexivity. Qed.

(** Without the line break after the last delimiter, the message is refused, although all
    its parts are there. *)
Example no_final_line_break :
  ∃ w, message_of first_equal first_equal type_header (take_str (String.length (dump "xyz" form) - 2) (dump "xyz" form)) = bad_request w.
Proof. eexists. vm_compute. reflexivity. Qed.

(** A line break before the first delimiter, which is allowed, is taken for a part. *)
Example preamble_undefined : message_of first_equal first_equal type_header (crlf +:+ dump "xyz" form) = Undefined.
Proof. vm_compute. reflexivity. Qed.
End MultipartProps.
