(* ===== verification/BlockQueue.v ===== *)
(** * The blocking queue.

    Models [src/include/unitree/common/block_queue.hpp].  Every operation holds
    the mutex, so it is atomic but for [MutexCond::Wait], which releases it: a
    [Get] on an empty queue is split there, and resumes on whatever state it
    finds.  [MutexCond] belongs to the SDK library; its [Wait] may return true or
    false at any time, which covers signals, time-outs and spurious wake-ups. *)

From S2P Require Import Prelude.

Local Open Scope Z_scope.

(** [UT_QUEUE_MAX_LEN], from [decl.hpp]: INT_MAX. *)
Definition UT_QUEUE_MAX_LEN : Z := 2147483647.

Section Queue.
Context {T : Type}.

Record BlockQueue := { mMaxSize : Z; mCurSize : Z; mQueue : list T }.

Definition make (maxSize : Z) : BlockQueue :=
  {| mMaxSize := if maxSize =? 0 then UT_QUEUE_MAX_LEN else maxSize; mCurSize := 0; mQueue := [] |}.

(** [pop_front] and [mCurSize --], on a queue whose first element is [x]. *)
Definition pop (q : BlockQueue) : option (T * BlockQueue) :=
  match mQueue q with
  | [] => None
  | x :: l => Some (x, {| mMaxSize := mMaxSize q; mCurSize := u64 (mCurSize q - 1); mQueue := l |})
  end.

(** [Put].  [None] is [pop_front] on an empty list. *)
Definition Put (t : T) (replace putfront : bool) (q : BlockQueue) : option (bool * BlockQueue) :=
  let push (q : BlockQueue) :=
    {| mMaxSize := mMaxSize q; mCurSize := u64 (mCurSize q + 1);
       mQueue := if putfront then t :: mQueue q else mQueue q ++ [t] |} in
  if mMaxSize q <=? mCurSize q then
    if negb replace then Some (false, q)
    else '(_, q) ← pop q; Some (false, push q)
  else Some (true, push q).

(** [GetTimeout]: [waited] is the result of [Wait] and the queue when it returned;
    it is used when the queue is empty at first. *)
Definition GetTimeout (waited : bool * BlockQueue) (q : BlockQueue) : option T * BlockQueue :=
  match pop q with
  | Some (t, q) => (Some t, q)
  | None =>
      let '(woken, q) := waited in
      if negb woken then (None, q)
      else match pop q with
      | None => (None, q)
      | Some (t, q) => (Some t, q)
      end
  end.

(** The second [Get] throws instead of returning false. *)
Inductive got := Value (t : T) | TimeoutException.

Definition Get (waited : bool * BlockQueue) (q : BlockQueue) : got * BlockQueue :=
  let '(r, q) := GetTimeout waited q in
  (match r with Some t => Value t | None => TimeoutException end, q).

Definition Empty (q : BlockQueue) : bool := mCurSize q =? 0.
Definition Size (q : BlockQueue) : Z := mCurSize q.

(** ** Threads *)

(** The shared queue, the number of threads blocked in [Wait], and the history:
    the elements put in, and those that left (by [Get] or replaced), in order. *)
Record system := { queue : BlockQueue; waiting : nat; entered : list T; left_ : list T }.

Definition start (maxSize : Z) : system := {| queue := make maxSize; waiting := 0; entered := []; left_ := [] |}.

Definition set_queue (s : system) (q : BlockQueue) (entered' left' : list T) : system :=
  {| queue := q; waiting := waiting s; entered := entered s ++ entered'; left_ := left_ s ++ left' |}.

Section Steps.
(** Whether some caller uses [putfront]. *)
Context (fronts : bool).

Inductive step : system -> system -> Prop :=
| step_put s t replace putfront q :
    (putfront = true -> fronts = true) -> Put t replace putfront (queue s) = Some (true, q) ->
    step s (set_queue s q [t] [])
| step_put_full s t putfront q :
    Put t false putfront (queue s) = Some (false, q) -> step s (set_queue s q [] [])
| step_put_replace s t putfront old q :
    (putfront = true -> fronts = true) -> head (mQueue (queue s)) = Some old ->
    Put t true putfront (queue s) = Some (false, q) -> step s (set_queue s q [t] [old])
| step_get s t q :
    pop (queue s) = Some (t, q) -> step s (set_queue s q [] [t])
| step_get_blocks s :
    pop (queue s) = None ->
    step s {| queue := queue s; waiting := S (waiting s); entered := entered s; left_ := left_ s |}
| step_wakes s n woken q0 r q :
    waiting s = S n -> mQueue q0 = [] -> GetTimeout (woken, queue s) q0 = (r, q) ->
    step s {| queue := q; waiting := n; entered := entered s; left_ := left_ s ++ option_list r |}.
End Steps.

(** ** Invariants *)

(** The counter is the length and the bound holds. *)
Definition queue_ok (q : BlockQueue) : Prop :=
  mCurSize q = Z.of_nat (length (mQueue q)) ∧ mCurSize q <= mMaxSize q ∧ 1 <= mMaxSize q < 2 ^ 64.

Lemma make_ok maxSize : in_u 64 maxSize -> queue_ok (make maxSize).
Proof.
  unfold in_u, queue_ok, make. intros H. cbn. unfold UT_QUEUE_MAX_LEN.
  destruct (Z.eqb_spec maxSize 0); lia.
Qed.

Lemma pop_spec q :
  queue_ok q ->
  match pop q with
  | Some (t, q') => mQueue q = t :: mQueue q' ∧ queue_ok q' ∧ mMaxSize q' = mMaxSize q ∧ mCurSize q' < mMaxSize q'
  | None => mQueue q = []
  end.
Proof.
  intros (Hc & Hm & Hr). unfold pop. destruct (mQueue q) as [| x l] eqn:E; [done |].
  cbn [length] in Hc. unfold queue_ok. cbn [mQueue mCurSize mMaxSize].
  rewrite uwrap_id by (unfold in_u; lia). split_and!; (done || lia).
Qed.

(** The queue an element is put into, given there is room. *)
Definition inserted (t : T) (putfront : bool) (l : list T) : list T := if putfront then t :: l else l ++ [t].

Lemma length_inserted t putfront l : length (inserted t putfront l) = S (length l).
Proof. unfold inserted. destruct putfront; [done |]. rewrite length_app. cbn. lia. Qed.

(** The three behaviours of [Put]; it never fails. *)
Lemma put_spec t replace putfront q :
  queue_ok q ->
  ∃ q', queue_ok q' ∧ mMaxSize q' = mMaxSize q ∧
    if mMaxSize q <=? mCurSize q then
      Put t replace putfront q = Some (false, q') ∧
      (if replace then ∃ old l, mQueue q = old :: l ∧ mQueue q' = inserted t putfront l else q' = q)
    else Put t replace putfront q = Some (true, q') ∧ mQueue q' = inserted t putfront (mQueue q).
Proof.
  intros Hq. pose proof Hq as (Hc & Hm & Hr). unfold Put.
  destruct (Z.leb_spec (mMaxSize q) (mCurSize q)) as [Hf | Hf].
  - destruct replace; cbn [negb]; [| by exists q].
    pose proof (pop_spec q Hq) as Hp. destruct (pop q) as [[old q1] |]; [| rewrite Hp in Hc; cbn in Hc; lia].
    destruct Hp as (Hl & (Hc1 & _ & _) & Hm1 & Hlt). cbn [mbind option_bind].
    eexists. split; [| split; [| split; [done | by exists old, (mQueue q1)]]]; [| done].
    unfold queue_ok. cbn [mQueue mCurSize mMaxSize]. fold (inserted t putfront (mQueue q1)).
    rewrite length_inserted, uwrap_id by (unfold in_u; lia). lia.
  - eexists. split; [| split; [| split; [done | done]]]; [| done].
    unfold queue_ok. cbn [mQueue mCurSize mMaxSize]. fold (inserted t putfront (mQueue q)).
    rewrite length_inserted, uwrap_id by (unfold in_u; lia). lia.
Qed.

(** Everything that entered has left or is in the queue; in order of entry, when
    nobody puts in front. *)
Definition history_ok (fronts : bool) (s : system) : Prop :=
  entered s ≡ₚ left_ s ++ mQueue (queue s) ∧ (fronts = false -> entered s = left_ s ++ mQueue (queue s)).

Definition system_ok (fronts : bool) (s : system) : Prop := queue_ok (queue s) ∧ history_ok fronts s.

Lemma history_insert (fronts putfront : bool) s t gone l q' :
  (putfront = true -> fronts = true) -> history_ok fronts s ->
  mQueue (queue s) = gone ++ l -> mQueue q' = inserted t putfront l ->
  history_ok fronts (set_queue s q' [t] gone).
Proof.
  intros Hf [Hp He] Hl Hq. unfold history_ok, set_queue. cbn [entered left_ queue]. rewrite Hq, Hl in *. split.
  - rewrite Hp. unfold inserted. destruct putfront; solve_Permutation.
  - intros Hff. rewrite (He Hff). destruct putfront; [specialize (Hf eq_refl); congruence |].
    unfold inserted. by rewrite <- !app_assoc.
Qed.

Lemma history_remove fronts s q' r n :
  history_ok fronts s -> mQueue (queue s) = r ++ mQueue q' ->
  history_ok fronts {| queue := q'; waiting := n; entered := entered s; left_ := left_ s ++ r |}.
Proof.
  intros [Hp He] Hl. unfold history_ok. cbn [entered left_ queue]. rewrite Hl in *. rewrite <- app_assoc. done.
Qed.

Lemma queue_step_ok fronts s s' : step fronts s s' -> system_ok fronts s -> system_ok fronts s'.
Proof.
  intros Hstep [Hq Hh]. destruct Hstep as [s t rep pf q Hf Hp | s t pf q Hp | s t pf old q Hf Ho Hp | s t q Hp | s Hp
    | s n woken q0 r q Hw H0 Hg].
  - destruct (put_spec t rep pf (queue s) Hq) as (q' & Hok & _ & H). destruct (_ <=? _); destruct H as [E H];
      rewrite E in Hp; simplify_eq. split; [done |]. by apply (history_insert fronts pf s t [] (mQueue (queue s))).
  - destruct (put_spec t false pf (queue s) Hq) as (q' & Hok & _ & H). destruct (_ <=? _); destruct H as [E H];
      rewrite E in Hp; simplify_eq. split; [done |]. unfold history_ok, set_queue in *. cbn. by rewrite !app_nil_r.
  - destruct (put_spec t true pf (queue s) Hq) as (q' & Hok & _ & H). destruct (_ <=? _); destruct H as [E H];
      rewrite E in Hp; simplify_eq. destruct H as (old' & l & Hl & Hq'). rewrite Hl in Ho. injection Ho as ->.
    split; [done |]. by apply (history_insert fronts pf s t [old] l).
  - pose proof (pop_spec (queue s) Hq) as H. rewrite Hp in H. destruct H as (Hl & Hok & _). split; [done |].
    unfold set_queue. rewrite app_nil_r. by apply history_remove.
  - done.
  - unfold GetTimeout in Hg. unfold pop at 1 in Hg. rewrite H0 in Hg.
    assert (Hsame : r = None -> q = queue s -> system_ok fronts
              {| queue := q; waiting := n; entered := entered s; left_ := left_ s ++ option_list r |})
      by (intros -> ->; split; [done |]; by apply history_remove).
    destruct woken; cbn [negb] in Hg; [| by simplify_eq; apply Hsame].
    pose proof (pop_spec (queue s) Hq) as H. destruct (pop (queue s)) as [[t q'] |]; simplify_eq; [| by apply Hsame].
    destruct H as (Hl & Hok & _). split; [done |]. by apply history_remove.
Qed.
End Queue.

(** ** Theorems *)
Module BlockQueueProps.

Lemma reachable_ok {T} fronts maxSize (s : @system T) :
  in_u 64 maxSize -> rtc (step fronts) (start maxSize) s -> system_ok fronts s.
Proof.
  intros Hm H. assert (H0 : system_ok fronts (@start T maxSize)) by (split; [by apply make_ok | done]).
  revert H0. induction H as [| s1 s2 s3 Hs _ IH]; intros H0; [done |]. apply IH. by eapply queue_step_ok.
Qed.

(** C19. In every interleaving of producers and consumers, blocked or not, the
    queue's counter is its length and never exceeds the bound; no element is
    lost, duplicated or invented: what was accepted is, as a multiset, what was
    taken or replaced plus what is queued, and without [putfront] it is exactly
    that in order (first in, first out); and [Put] always returns, refusing or
    replacing the oldest element exactly when the queue is full. *)
Theorem queue_is_bounded_fifo {T} fronts maxSize (s : @system T) :
  in_u 64 maxSize -> rtc (step fronts) (start maxSize) s ->
  mCurSize (queue s) = Z.of_nat (length (mQueue (queue s))) ∧ mCurSize (queue s) <= mMaxSize (queue s) ∧
  entered s ≡ₚ left_ s ++ mQueue (queue s) ∧
  (fronts = false -> entered s = left_ s ++ mQueue (queue s)) ∧
  (∀ t replace putfront, ∃ accepted q', Put t replace putfront (queue s) = Some (accepted, q') ∧
     (accepted = false <-> mCurSize (queue s) = mMaxSize (queue s)) ∧
     (accepted = false -> replace = false -> q' = queue s)).
Proof.
  intros Hm H. destruct (reachable_ok fronts maxSize s Hm H) as [Hq [Hp He]].
  pose proof Hq as (Hc & Hb & _). split_and!; try done.
  intros t rep pf. destruct (put_spec t rep pf (queue s) Hq) as (q' & _ & _ & E).
  destruct (Z.leb_spec (mMaxSize (queue s)) (mCurSize (queue s))); destruct E as [E HE].
  - exists false, q'. split_and!; [done | split; [lia | done] |]. intros _ ->. exact HE.
  - exists true, q'. split_and!; [done | split; [done | lia] | done].
Qed.

(** A queue of one element: a put, a replacing put, a get. *)
Definition after_run : @system Z :=
  {| queue := {| mMaxSize := 1; mCurSize := 0; mQueue := [] |}; waiting := 0; entered := [7; 8]; left_ := [7; 8] |}.

Lemma after_run_reachable : rtc (step false) (start 1) after_run.
Proof.
  eapply rtc_l; [eapply (step_put false _ 7 false false); [done | reflexivity] |].
  eapply rtc_l; [eapply (step_put_replace false _ 8 false 7); [done | reflexivity | reflexivity] |].
  eapply rtc_l; [eapply (step_get false _ 8); reflexivity |].
  apply rtc_refl.
Qed.

Lemma queue_is_bounded_fifo_witness :
  mCurSize (queue after_run) = 0 ∧ entered after_run = left_ after_run ++ mQueue (queue after_run).
Proof.
  destruct (queue_is_bounded_fifo false 1 after_run) as (H1 & _ & _ & H4 & _);
    [by vm_compute | apply after_run_reachable |].
  split; [exact H1 | exact (H4 eq_refl)].
Defined.
End BlockQueueProps.
