(* ===== verification/DdsChannel.v ===== *)
(** * Channels over DDS.

    Models the part of the DDS layer the headers hold:
    [src/include/unitree/common/dds/dds_entity.hpp] ([DdsWriter::Write] and
    [WaitReader], [DdsReaderListener], [DdsReader]),
    [common/dds/dds_topic_channel.hpp] ([DdsTopicChannel]),
    [robot/channel/channel_factory.hpp], [channel_publisher.hpp] and
    [channel_subscriber.hpp].

    A reader with a queue involves three threads: the owner, which sets the
    listener up and destroys it, the thread of the DDS library that calls
    [on_data_available], and the thread that empties the queue.  Their steps
    interleave freely.  The queue is the one of [BlockQueue], whose [Wait] may
    return at any time; the system remembers whether it was notified. *)

From S2P Require Import Prelude BlockQueue.

Local Open Scope Z_scope.

(** ** The writer *)

Definition UT_DDS_WAIT_MATCHED_TIME_SLICE : Z := 10000.
Definition UT_DDS_WAIT_MATCHED_TIME_MAX : Z := 1000000.

(** What [publication_matched_status().current_count()] answers the [i]-th time, or
    that it throws. *)
Abbreviation Status := (nat -> option Z).

(** The loop of [WaitReader] from the [i]-th test on: the slices slept, and
    whether a query threw. *)
Fixpoint wait_loop (fuel : nat) (status : Status) (i : nat) (waitTime : Z) : option (nat * bool) :=
  match fuel with
  | O => None
  | S fuel =>
      if 0 <? waitTime then
        match status i with
        | None => Some (i, true)
        | Some count =>
            if count =? 0 then wait_loop fuel status (S i) (waitTime - UT_DDS_WAIT_MATCHED_TIME_SLICE)
            else Some (i, false)
        end
      else Some (i, false)
  end.

(** The loop makes at most 100 slices; one more test ends it. *)
Definition wait_fuel : nat := 101.

Definition WaitReader (status : Status) (waitMicrosec : Z) : option (nat * bool) :=
  if waitMicrosec <? UT_DDS_WAIT_MATCHED_TIME_SLICE then Some (0%nat, false)
  else
    let waitTime := Z.quot waitMicrosec 2 in
    let waitTime := if UT_DDS_WAIT_MATCHED_TIME_MAX <? waitTime then UT_DDS_WAIT_MATCHED_TIME_MAX else waitTime in
    wait_loop wait_fuel status 0 waitTime.

(** What becomes of a [Write]: the message is handed to DDS, which takes it or
    throws, caught and logged; or the wait threw, which is not caught. *)
Inductive write_result := Written (ok : bool) | WaitThrew.

Definition DdsWriter_Write (status : Status) (native_write : bool) (waitMicrosec : Z) : option (nat * write_result) :=
  w ← (if 0 <? waitMicrosec then WaitReader status waitMicrosec else Some (0%nat, false));
  let '(slices, threw) := w in
  Some (slices, if threw : bool then WaitThrew else Written native_write).

(** [ChannelPublisher::Write]: false without a channel. *)
Definition ChannelPublisher_Write (channel : bool) (status : Status) (native_write : bool) (waitMicrosec : Z) :
    option (nat * write_result) :=
  if channel then DdsWriter_Write status native_write waitMicrosec else Some (0%nat, Written false).

Section Reader.
Context {MSG Callback : Type} (HasMessageHandler : Callback -> bool).

(** ** The listener *)

(** The queue holds shared pointers to fresh copies, never null: the messages. *)
Record DdsReaderListener := {
  mHasQueue : bool;
  mQuit : bool;
  mMask : bool;  (* data_available *)
  mLastDataAvailableTime : Z;
  mCallbackPtr : option Callback;
  mDataQueuePtr : option (@BlockQueue MSG) }.

Definition DdsReaderListener_make : DdsReaderListener :=
  {| mHasQueue := false; mQuit := false; mMask := false; mLastDataAvailableTime := 0;
     mCallbackPtr := None; mDataQueuePtr := None |}.

Definition SetCallback (cb : Callback) (l : DdsReaderListener) : DdsReaderListener :=
  {| mHasQueue := mHasQueue l; mQuit := mQuit l; mMask := if HasMessageHandler cb then true else mMask l;
     mLastDataAvailableTime := mLastDataAvailableTime l; mCallbackPtr := Some cb; mDataQueuePtr := mDataQueuePtr l |}.

Definition SetQueue (len : Z) (l : DdsReaderListener) : DdsReaderListener :=
  if len <=? 0 then l
  else {| mHasQueue := true; mQuit := mQuit l; mMask := mMask l; mLastDataAvailableTime := mLastDataAvailableTime l;
          mCallbackPtr := mCallbackPtr l; mDataQueuePtr := Some (make len) |}.

Definition set_time (now : Z) (l : DdsReaderListener) : DdsReaderListener :=
  {| mHasQueue := mHasQueue l; mQuit := mQuit l; mMask := mMask l; mLastDataAvailableTime := swrap 64 now;
     mCallbackPtr := mCallbackPtr l; mDataQueuePtr := mDataQueuePtr l |}.

Definition set_data (q : BlockQueue) (l : DdsReaderListener) : DdsReaderListener :=
  {| mHasQueue := mHasQueue l; mQuit := mQuit l; mMask := mMask l; mLastDataAvailableTime := mLastDataAvailableTime l;
     mCallbackPtr := mCallbackPtr l; mDataQueuePtr := Some q |}.

Definition set_quit (l : DdsReaderListener) : DdsReaderListener :=
  {| mHasQueue := mHasQueue l; mQuit := true; mMask := mMask l; mLastDataAvailableTime := mLastDataAvailableTime l;
     mCallbackPtr := mCallbackPtr l; mDataQueuePtr := mDataQueuePtr l |}.

(** ** The threads *)

(** The owner: [SetListener], then the destructor of the reader. *)
Inductive main_pc :=
| M_callback (cb : Callback) (qlen : Z)
| M_queue (qlen : Z)
| M_listener
| M_running
| M_quit       (* the native reader is closed *)
| M_interrupt  (* mQuit is set *)
| M_join       (* mDataQueueThreadPtr->Wait() *)
| M_gone.

(** The DDS thread in [on_data_available]: the samples left, with their validity. *)
Inductive data_pc :=
| D_idle
| D_samples (l : list (MSG * bool))
| D_valid (m : MSG) (l : list (MSG * bool)).

(** The queue thread. *)
Inductive queue_pc :=
| Q_none
| Q_handler
| Q_test
| Q_get
| Q_wait (notified : bool)
| Q_call (m : MSG)
| Q_end.

(** Besides the listener and the threads, the history: the valid messages in the
    order they were received, those the handler was called with, and what left
    the queue, with whether the queue thread took it (or it was evicted). *)
Record system := {
  listener : DdsReaderListener;
  main : main_pc;
  data : data_pc;
  queuer : queue_pc;
  received : list MSG;
  delivered : list MSG;
  gone : list (MSG * bool) }.

Definition start (cb : Callback) (qlen : Z) : system :=
  {| listener := DdsReaderListener_make; main := M_callback cb qlen; data := D_idle; queuer := Q_none;
     received := []; delivered := []; gone := [] |}.

Definition with_main (l : DdsReaderListener) (pc : main_pc) (qpc : queue_pc) (s : system) : system :=
  {| listener := l; main := pc; data := data s; queuer := qpc;
     received := received s; delivered := delivered s; gone := gone s |}.

Definition with_data (l : DdsReaderListener) (pc : data_pc) (s : system) : system :=
  {| listener := l; main := main s; data := pc; queuer := queuer s;
     received := received s; delivered := delivered s; gone := gone s |}.

Definition with_queuer (l : DdsReaderListener) (pc : queue_pc) (taken : list MSG) (s : system) : system :=
  {| listener := l; main := main s; data := data s; queuer := pc;
     received := received s; delivered := delivered s; gone := gone s ++ map (fun m => (m, true)) taken |}.

(** A step is not enabled, dereferences a null pointer or an empty list, or leads
    to a state. *)
Inductive outcome := Disabled | Fault | Next (s : system).

(** [Notify]: it reaches the queue thread when that waits. *)
Definition notify (pc : queue_pc) : queue_pc := match pc with Q_wait _ => Q_wait true | pc => pc end.

(** [SetListener]: the callback, the queue and its thread, the registration; then
    the destructors of [DdsReader], which closes the native reader once no callback
    runs, and of the listener. *)
Definition main_step (s : system) : outcome :=
  let l := listener s in
  match main s with
  | M_callback cb qlen => Next (with_main (SetCallback cb l) (M_queue qlen) (queuer s) s)
  | M_queue qlen => Next (with_main (SetQueue qlen l) M_listener (if qlen <=? 0 then queuer s else Q_handler) s)
  | M_listener => Next (with_main l M_running (queuer s) s)
  | M_running => match data s with D_idle => Next (with_main l M_quit (queuer s) s) | _ => Disabled end
  | M_quit =>
      if mHasQueue l then Next (with_main (set_quit l) M_interrupt (queuer s) s)
      else Next (with_main l M_gone (queuer s) s)
  | M_interrupt => Next (with_main l M_join (notify (queuer s)) s)
  | M_join => match queuer s with Q_end => Next (with_main l M_gone (queuer s) s) | _ => Disabled end
  | M_gone => Disabled
  end.

(** DDS calls [on_data_available], and [reader.take()] returns [samples]. *)
Definition take_step (samples : list (MSG * bool)) (s : system) : outcome :=
  match main s, data s with
  | M_running, D_idle => if mMask (listener s) then Next (with_data (listener s) (D_samples samples) s) else Disabled
  | _, _ => Disabled
  end.

(** [mCallbackPtr->OnDataAvailable(m)] by the DDS thread, then the next sample. *)
Definition call_directly (m : MSG) (rest : list (MSG * bool)) (s : system) : outcome :=
  match mCallbackPtr (listener s) with
  | None => Fault
  | Some _ => Next {| listener := listener s; main := main s; data := D_samples rest; queuer := queuer s;
                      received := received s ++ [m]; delivered := delivered s ++ [m]; gone := gone s |}
  end.

(** [mDataQueuePtr->Put(MSG_PTR(new MSG(m)), true)]. *)
Definition put_message (m : MSG) (rest : list (MSG * bool)) (s : system) : outcome :=
  match mDataQueuePtr (listener s) with
  | None => Fault
  | Some q =>
      match Put m true false q with
      | None => Fault
      | Some (accepted, q') =>
          Next {| listener := set_data q' (listener s); main := main s; data := D_samples rest; queuer := notify (queuer s);
                  received := received s ++ [m]; delivered := delivered s;
                  gone := gone s ++ if accepted then [] else map (fun m => (m, false)) (take 1 (mQueue q)) |}
      end
  end.

Definition data_step (now : Z) (s : system) : outcome :=
  let l := listener s in
  match data s with
  | D_idle => Disabled
  | D_samples [] => Next (with_data l D_idle s)
  | D_samples ((m, valid) :: rest) =>
      if valid then Next (with_data (set_time now l) (D_valid m rest) s) else Next (with_data l (D_samples rest) s)
  | D_valid m rest => if mHasQueue l then put_message m rest s else call_directly m rest s
  end.

(** The thread of [SetQueue]; [woken] is the result of [Wait]. *)
Definition queue_step (woken : bool) (s : system) : outcome :=
  let l := listener s in
  match queuer s with
  | Q_none | Q_end => Disabled
  | Q_handler =>
      match mCallbackPtr l with
      | Some cb => Next (with_queuer l (if HasMessageHandler cb then Q_test else Q_handler) [] s)
      | None => Next (with_queuer l Q_handler [] s)
      end
  | Q_test => Next (with_queuer l (if mQuit l then Q_end else Q_get) [] s)
  | Q_get =>
      match mDataQueuePtr l with
      | None => Fault
      | Some q =>
          match pop q with
          | Some (m, q') => Next (with_queuer (set_data q' l) (Q_call m) [m] s)
          | None => Next (with_queuer l (Q_wait false) [] s)
          end
      end
  | Q_wait _ =>
      match mDataQueuePtr l with
      | None => Fault
      | Some q =>
          (* the rest of [GetTimeout], called on an empty queue *)
          match GetTimeout (woken, q) {| mMaxSize := mMaxSize q; mCurSize := 0; mQueue := [] |} with
          | (Some m, q') => Next (with_queuer (set_data q' l) (Q_call m) [m] s)
          | (None, q') => Next (with_queuer (set_data q' l) Q_test [] s)
          end
      end
  | Q_call m =>
      match mCallbackPtr l with
      | None => Fault
      | Some _ => Next {| listener := l; main := main s; data := data s; queuer := Q_test;
                          received := received s; delivered := delivered s ++ [m]; gone := gone s |}
      end
  end.

Inductive event := E_main | E_take (samples : list (MSG * bool)) | E_data (now : Z) | E_queue (woken : bool).

Definition step (e : event) (s : system) : outcome :=
  match e with
  | E_main => main_step s
  | E_take samples => take_step samples s
  | E_data now => data_step now s
  | E_queue woken => queue_step woken s
  end.

Fixpoint run (es : list event) (s : system) : outcome :=
  match es with
  | [] => Next s
  | e :: es => match step e s with Next s' => run es s' | r => r end
  end.

(** [ChannelSubscriber::InitChannel], through [CreateRecvChannel] and
    [DdsFactoryModel::SetReader], whose [queuelen] is an [int32_t]; [None] is the
    exception for a missing handler. *)
Definition InitChannel (mHandler : option Callback) (mQueueLen : Z) : option system :=
  match mHandler with
  | Some cb => Some (start cb (i32 mQueueLen))
  | None => None
  end.

(** ** Invariant *)

(** What the queue holds, and the message the queue thread is about to deliver. *)
Definition queued (s : system) : list MSG := match mDataQueuePtr (listener s) with Some q => mQueue q | None => [] end.

Definition in_hand (pc : queue_pc) : list MSG := match pc with Q_call m => [m] | _ => [] end.

Definition taken (l : list (MSG * bool)) : list MSG := map fst (filter (fun p => p.2 = true) l).

(** A message is evicted only with [n] newer ones behind it. *)
Definition evictions_ok (n : Z) (l : list (MSG * bool)) (q : list MSG) : Prop :=
  ∀ a m b, l = a ++ (m, false) :: b -> n <= Z.of_nat (length b + length q).

(** How far the owner is. *)
Definition phase (pc : main_pc) : nat :=
  match pc with
  | M_callback _ _ => 0 | M_queue _ => 1 | M_listener => 2 | M_running => 3
  | M_quit => 4 | M_interrupt => 5 | M_join => 6 | M_gone => 7
  end.

Context (cb : Callback) (qlen : Z).

(** The queue and the history. *)
Definition history (has : bool) (ptr : option BlockQueue) (received delivered : list MSG) (gone : list (MSG * bool))
    (hand : list MSG) : Prop :=
  if has then
    ∃ q, ptr = Some q ∧ queue_ok q ∧ mMaxSize q = qlen ∧ received = map fst gone ++ mQueue q ∧
      taken gone = delivered ++ hand ∧ evictions_ok qlen gone (mQueue q)
  else ptr = None ∧ received = delivered ∧ gone = [].

Record sys_ok (s : system) : Prop := {
  ok_main : match main s with M_callback cb' n => cb' = cb ∧ n = qlen | M_queue n => n = qlen | _ => True end;
  ok_callback : mCallbackPtr (listener s) = if decide (phase (main s) = 0%nat) then None else Some cb;
  ok_has : mHasQueue (listener s) = (bool_decide (2 <= phase (main s))%nat && (0 <? qlen));
  ok_data : data s ≠ D_idle -> main s = M_running;
  ok_early : (phase (main s) < 3)%nat -> received s = [];
  ok_thread : queuer s = Q_none <-> mHasQueue (listener s) = false;
  ok_quit : mQuit (listener s) = true -> (5 <= phase (main s))%nat;
  ok_history : history (mHasQueue (listener s)) (mDataQueuePtr (listener s)) (received s) (delivered s) (gone s)
      (in_hand (queuer s)) }.

Lemma start_ok : sys_ok (start cb qlen).
Proof. by constructor. Qed.

Lemma taken_app l1 l2 : taken (l1 ++ l2) = taken l1 ++ taken l2.
Proof. unfold taken. by rewrite filter_app, map_app. Qed.

Lemma taken_taken l : taken (map (fun m => (m, true)) l) = l.
Proof. unfold taken. induction l as [|m l IH]; [done|]. cbn [map]. rewrite filter_cons_True by done. cbn [map fst]. by f_equal. Qed.

Lemma taken_evicted l : taken (map (fun m => (m, false)) l) = [].
Proof. unfold taken. induction l as [|m l IH]; [done|]. cbn [map]. by rewrite filter_cons_False by done. Qed.

(** Splitting a list one longer at its end. *)
Lemma snoc_split {A} (l : list A) x a y b :
  l ++ [x] = a ++ y :: b -> (b = [] ∧ x = y ∧ l = a) ∨ ∃ b', b = b' ++ [x] ∧ l = a ++ y :: b'.
Proof.
  intros H. destruct b as [|z b] using rev_ind.
  - apply app_inj_tail in H as [-> ->]. by left.
  - right. exists b. rewrite app_comm_cons, app_assoc in H. apply app_inj_tail in H as [-> ->]. done.
Qed.

Lemma evictions_get n l m q : evictions_ok n l (m :: q) -> evictions_ok n (l ++ [(m, true)]) q.
Proof.
  intros H a x b [(_ & ? & _)|(b' & -> & E)]%snoc_split; [done|]. specialize (H a x b' E). rewrite length_app. cbn [length] in *. lia.
Qed.

Lemma evictions_put n l q q' : (length q <= length q')%nat -> evictions_ok n l q -> evictions_ok n l q'.
Proof. intros Hl H a x b E. specialize (H a x b E). lia. Qed.

Lemma evictions_evict n l old q m :
  n <= Z.of_nat (length (q ++ [m])) -> evictions_ok n l (old :: q) -> evictions_ok n (l ++ [(old, false)]) (q ++ [m]).
Proof.
  intros Hn H a x b [(-> & _ & _)|(b' & -> & E)]%snoc_split; [cbn [length]; lia|].
  specialize (H a x b' E). rewrite length_app. cbn [length] in *. lia.
Qed.

Context (Hqlen : in_s 32 qlen).

(** A step goes well. *)
Definition good (r : outcome) : Prop := match r with Disabled => True | Fault => False | Next s => sys_ok s end.

(** The fields of a successor. *)
Ltac fields :=
  constructor; unfold with_main, with_data, with_queuer, SetCallback, set_time, set_data, set_quit in *;
  cbn [listener main data queuer received delivered gone mHasQueue mQuit mMask mLastDataAvailableTime mCallbackPtr
       mDataQueuePtr phase] in *.

Lemma notify_in_hand pc : in_hand (notify pc) = in_hand pc.
Proof. by destruct pc. Qed.

Lemma notify_none pc : notify pc = Q_none <-> pc = Q_none.
Proof. by destruct pc. Qed.

(** Closes the fields a step leaves as they were. *)
Ltac same_fields :=
  fields;
  repeat match goal with
    | E : main ?s = _ |- context [main ?s] => rewrite E
    | E : data ?s = _ |- context [data ?s] => rewrite E
    | E : queuer ?s = _ |- context [queuer ?s] => rewrite E
    | E : mHasQueue (listener ?s) = true |- context [mHasQueue (listener ?s)] => rewrite E
    | E : mHasQueue (listener ?s) = false |- context [mHasQueue (listener ?s)] => rewrite E
    end; cbn [phase in_hand map]; rewrite ?notify_none, ?notify_in_hand, ?app_nil_r; try done;
  repeat match goal with
    | |- _ -> _ => intros ?
    | |- _ ∧ _ => split
    | H : ?P -> _, H' : ?P |- _ => specialize (H H')
    | H : (_ < _)%nat -> received ?s = [] |- received ?s = [] => apply H
    end; try done; try lia; try congruence.

(** The thread is made with the queue. *)
Lemma queue_made s : sys_ok s -> main s = M_queue qlen -> 0 < qlen ->
  sys_ok (with_main (SetQueue qlen (listener s)) M_listener Q_handler s).
Proof.
  intros [H1 H2 H3 H4 H8 H5 H6 H7] E Hq. rewrite E in *. unfold SetQueue. destruct (Z.leb_spec qlen 0) as [L|L]; [lia|].
  unfold in_s in Hqlen. cbn in H3. rewrite H3 in H7. destruct H7 as (_ & H7 & H9). specialize (H8 ltac:(cbn; lia)).
  assert (Hd : delivered s = []) by congruence. same_fields; rewrite ?H9, ?Hd, ?H8; [cbn; symmetry; apply Z.ltb_lt; lia|].
  exists (make qlen). split_and!; try done; [apply make_ok; unfold in_u; lia|unfold make; cbn; destruct (Z.eqb_spec qlen 0); lia|].
  by intros [].
Qed.

Lemma main_good s : sys_ok s -> good (main_step s).
Proof.
  intros H. pose proof H as [H1 H2 H3 H4 H8 H5 H6 H7]. unfold main_step. destruct (main s) eqn:E; cbn [phase] in *.
  - destruct H1 as [-> ->]. same_fields.
  - subst. destruct (Z.leb_spec qlen 0) as [L|L]; [|by apply queue_made].
    unfold SetQueue. rewrite (proj2 (Z.leb_le _ _) L). same_fields.
    rewrite H3. cbn. symmetry. apply Z.ltb_ge. lia.
  - same_fields.
  - destruct (data s) eqn:D; [|done|done]. same_fields.
  - destruct (mHasQueue (listener s)) eqn:Q; same_fields.
  - same_fields.
  - destruct (queuer s) eqn:Q; try done. same_fields.
  - done.
Qed.

Lemma take_good samples s : sys_ok s -> good (take_step samples s).
Proof.
  intros [H1 H2 H3 H4 H8 H5 H6 H7]. unfold take_step. destruct (main s) eqn:E; try done. destruct (data s) eqn:D; try done.
  destruct (mMask (listener s)); [|done]. same_fields.
Qed.

(** A message put in the queue. *)
Lemma put_history q m received delivered gone hand :
  history true (Some q) received delivered gone hand ->
  ∃ accepted q', Put m true false q = Some (accepted, q') ∧
    history true (Some q') (received ++ [m]) delivered
      (gone ++ if accepted : bool then [] else map (fun m => (m, false)) (take 1 (mQueue q))) hand.
Proof.
  intros (q0 & [= <-] & Hq & Hm & Hr & Ht & He). destruct (put_spec m true false q Hq) as (q' & Hok & Hm' & Hput).
  pose proof Hok as (Hc & _ & _). pose proof Hq as (Hc0 & _ & _).
  destruct (Z.leb_spec (mMaxSize q) (mCurSize q)) as [L|L]; destruct Hput as [E HE].
  - destruct HE as (old & l & El & El'). cbn [inserted] in El'. exists false, q'. split; [done|]. exists q'. rewrite El in *.
    cbn [take map]. split_and!; try done; [congruence|rewrite Hr, El', map_app; cbn; by rewrite <- !app_assoc| |].
    + by rewrite taken_app, Ht, app_nil_r.
    + rewrite El'. apply evictions_evict; [|done]. rewrite length_app. cbn [length] in *. lia.
  - cbn [inserted] in HE. exists true, q'. split; [done|]. exists q'. rewrite app_nil_r.
    split_and!; try done; [congruence|by rewrite Hr, HE, app_assoc|].
    rewrite HE. eapply evictions_put; [|exact He]. rewrite length_app. lia.
Qed.

Lemma data_good now s : sys_ok s -> good (data_step now s).
Proof.
  intros [H1 H2 H3 H4 H8 H5 H6 H7]. unfold data_step. destruct (data s) as [|[|[m valid] rest]|m rest] eqn:D; [done|..];
    specialize (H4 ltac:(done)); rewrite H4 in *; cbn [phase] in *.
  - same_fields.
  - destruct valid; same_fields.
  - cbn in H2. destruct (mHasQueue (listener s)) eqn:Q.
    + unfold put_message. pose proof H7 as (q & Eq & _). rewrite Eq in *.
      destruct (put_history q m _ _ _ _ H7) as (accepted & q' & E & H). rewrite E. same_fields.
    + unfold call_directly. rewrite H2. destruct H7 as (Hp & Hr & Hg). same_fields. by rewrite Hp, Hr.
Qed.

(** A message taken out of the queue. *)
Lemma pop_history q m q' received delivered gone :
  history true (Some q) received delivered gone [] -> pop q = Some (m, q') ->
  history true (Some q') received delivered (gone ++ [(m, true)]) [m].
Proof.
  intros (q0 & [= <-] & Hq & Hm & Hr & Ht & He) Hp. pose proof (pop_spec q Hq) as H. rewrite Hp in H.
  destruct H as (El & Hok & Hm' & _). exists q'. rewrite El in *. split_and!; try done; [congruence| | |by apply evictions_get].
  - rewrite Hr, map_app. cbn. by rewrite <- app_assoc.
  - rewrite taken_app, Ht, app_nil_r. done.
Qed.

Lemma queue_good woken s : sys_ok s -> good (queue_step woken s).
Proof.
  intros [H1 H2 H3 H4 H8 H5 H6 H7]. unfold queue_step. destruct (queuer s) eqn:Q; try done;
    assert (Hh : mHasQueue (listener s) = true)
      by (destruct (mHasQueue (listener s)); [done|exfalso; by pose proof (proj2 H5 eq_refl)]);
    clear H5; rewrite Hh in H7; cbn [in_hand] in H7.
  - destruct (mCallbackPtr (listener s)) eqn:E; [destruct (HasMessageHandler _)|]; same_fields.
  - destruct (mQuit (listener s)) eqn:E; same_fields.
  - pose proof H7 as (q & Eq & _). rewrite Eq in *. destruct (pop q) as [[m q']|] eqn:P; same_fields.
    by apply (pop_history q).
  - pose proof H7 as (q & Eq & _). rewrite Eq in *. unfold GetTimeout. cbn [pop mQueue].
    destruct woken; cbn [negb]; [|same_fields]. destruct (pop q) as [[m q']|] eqn:P; same_fields. by apply (pop_history q).
  - assert (Hc : mCallbackPtr (listener s) = Some cb).
    { rewrite H2. destruct (decide _) as [E|]; [|done]. rewrite Hh in H3. rewrite E in H3. done. }
    rewrite Hc. same_fields. destruct H7 as (q & Eq & Hq & Hm & Hr & Ht & He). exists q. rewrite app_nil_r. done.
Qed.

Lemma step_good e s : sys_ok s -> good (step e s).
Proof. destruct e; [apply main_good|apply take_good|apply data_good|apply queue_good]. Qed.

Lemma run_good es s : sys_ok s -> good (run es s).
Proof.
  revert s. induction es as [|e es IH]; intros s H; [done|]. cbn [run].
  pose proof (step_good e s H) as Hs. destruct (step e s); [done|done|]. by apply IH.
Qed.

(** ** What was offered *)

Definition valids (l : list (MSG * bool)) : list MSG := taken l.

(** The valid samples [on_data_available] has not handled yet, and those a
    sequence of events brings. *)
Definition pending (pc : data_pc) : list MSG :=
  match pc with D_idle => [] | D_samples l => valids l | D_valid m l => m :: valids l end.

Definition offered (es : list event) : list MSG :=
  flat_map (fun e => match e with E_take samples => valids samples | _ => [] end) es.

Lemma step_offered e s s' :
  step e s = Next s' -> received s' ++ pending (data s') = received s ++ pending (data s) ++ offered [e].
Proof.
  destruct e as [|samples|now|woken]; cbn [step offered flat_map app]; rewrite ?app_nil_r; intros E.
  - unfold main_step in E. repeat case_match; simplify_eq; cbn [with_main received data]; congruence.
  - unfold take_step in E. repeat case_match; simplify_eq. cbn. done.
  - unfold data_step, put_message, call_directly in E.
    destruct (data s) as [|[|[m [|]] rest]|m rest]; cbv beta iota zeta in E; [|simplify_eq..|]; try done.
    repeat case_match; simplify_eq; cbn [received data]; by rewrite <- app_assoc.
  - unfold queue_step in E. repeat case_match; simplify_eq; done.
Qed.

Lemma run_offered es s s' :
  run es s = Next s' -> received s' ++ pending (data s') = received s ++ pending (data s) ++ offered es.
Proof.
  revert s. induction es as [|e es IH]; intros s; cbn [run].
  - intros [= ->]. cbn. by rewrite app_nil_r.
  - destruct (step e s) as [| |s1] eqn:E; [done|done|]. intros H. rewrite (IH _ H).
    pose proof (step_offered e s s1 E) as Hs. cbn [offered flat_map] in *. rewrite app_nil_r in Hs.
    fold (offered es). rewrite app_assoc, Hs. by rewrite <- !app_assoc.
Qed.

(** An empty queue has passed on the last message. *)
Lemma last_taken n l q : 1 <= n -> evictions_ok n l q -> q = [] -> last (taken l) = last (map fst l).
Proof.
  intros Hn He ->. destruct l as [|[m b] l _] using rev_ind; [done|]. rewrite taken_app, map_app. cbn [map]. destruct b.
  - rewrite (taken_taken [m] : taken [(m, true)] = [m]). by rewrite !last_snoc.
  - specialize (He l m [] eq_refl). cbn in He. lia.
Qed.
End Reader.

(** * Properties *)
Module DdsChannelProps.
Section Properties.
Context {MSG Callback : Type} (HasMessageHandler : Callback -> bool).

#[local] Abbreviation run := (@run MSG Callback HasMessageHandler).
#[local] Abbreviation step := (@step MSG Callback HasMessageHandler).

Lemma init_run_ok cb mQueueLen es s0 (s : @system MSG Callback) :
  InitChannel (Some cb) mQueueLen = Some s0 -> run es s0 = Next s -> sys_ok cb (i32 mQueueLen) s.
Proof.
  intros [= <-] H. pose proof (run_good HasMessageHandler cb (i32 mQueueLen) ltac:(by apply swrap_in) es _ (start_ok _ _)) as Hg.
  by rewrite H in Hg.
Qed.

(** C10. Delivery to a subscriber, in every interleaving of the owner, the DDS
    thread and the queue thread, from [InitChannel] on.  No step dereferences a
    null pointer or an empty list.  Each valid sample counts as received in the
    order it was offered.  Without a queue ([mQueueLen], cut to 32 bits, is not
    positive) the handler has been called with exactly the received messages in
    order.  With a queue of [n], at most [n] wait; what was received is what left
    the queue followed by what waits; the handler is called in order with all that
    left but the evicted, a message is evicted only after [n] newer ones arrived,
    and when nothing waits the last message delivered is the last received. *)
Theorem subscriber_delivers cb mQueueLen es s0 (s : @system MSG Callback) :
  InitChannel (Some cb) mQueueLen = Some s0 -> run es s0 = Next s ->
  (∀ e, step e s ≠ Fault) ∧ received s ++ pending (data s) = offered es ∧
  (i32 mQueueLen <= 0 -> delivered s = received s) ∧
  (0 < i32 mQueueLen ->
     Z.of_nat (length (queued s)) <= i32 mQueueLen ∧ received s = map fst (gone s) ++ queued s ∧
     delivered s ++ in_hand (queuer s) = taken (gone s) ∧
     (∀ a m b, gone s = a ++ (m, false) :: b -> i32 mQueueLen <= Z.of_nat (length b + length (queued s))) ∧
     (queued s = [] -> last (delivered s ++ in_hand (queuer s)) = last (received s))).
Proof.
  intros Hi Hr. pose proof (init_run_ok _ _ _ _ _ Hi Hr) as Hok. injection Hi as <-.
  assert (Hn : in_s 32 (i32 mQueueLen)) by by apply swrap_in.
  split; [intros e Hf; pose proof (step_good HasMessageHandler cb _ Hn e s Hok) as Hg; by rewrite Hf in Hg|].
  split; [by rewrite (run_offered _ _ _ _ Hr)|].
  pose proof (ok_has _ _ _ Hok) as Hh. pose proof (ok_history _ _ _ Hok) as Hy. pose proof (ok_early _ _ _ Hok) as He.
  pose proof (ok_thread _ _ _ Hok) as Hth. destruct (mHasQueue (listener s)); cbn [history] in Hy.
  - destruct Hy as (q & Eq & (Hc & Hm & _) & Hn' & Hrc & Ht & Hv). unfold queued. rewrite Eq.
    split; [intros L; symmetry in Hh; apply andb_true_iff in Hh as [_ Hh%Z.ltb_lt]; lia|]. intros L.
    split_and!; [lia|done|done|done|]. intros E0. rewrite <- Ht, (last_taken (i32 mQueueLen) _ _ ltac:(lia) Hv E0), Hrc, E0. by rewrite app_nil_r.
  - destruct Hy as (Eq & Hrd & Hg). split; [done|]. intros L. rewrite (proj2 (Z.ltb_lt _ _) L), andb_true_r in Hh.
    symmetry in Hh. apply bool_decide_eq_false in Hh. specialize (He ltac:(lia)). rewrite He in Hrd. unfold queued, evictions_ok.
    rewrite Eq, Hg, He, <- Hrd, (proj2 Hth eq_refl).
    split_and!; [cbn; lia|done|done|intros a m b E0; by destruct a|done].
Qed.

(** ** Shutting down *)

(** The steps the queue thread has left once it is told to quit, and the messages
    it may still deliver. *)
Definition distance (pc : @queue_pc MSG) : nat :=
  match pc with Q_none | Q_end => 0 | Q_test => 1 | Q_call _ => 2 | Q_handler => 2 | Q_wait _ => 3 | Q_get => 4 end.

Definition deliveries (pc : @queue_pc MSG) : nat :=
  match pc with Q_get | Q_wait _ | Q_call _ => 1 | _ => 0 end.

Definition queue_events (es : list (@event MSG)) : nat :=
  length (filter (fun e => match e with E_queue _ => true | _ => false end = true) es).

(** What holds from the moment [mQuit] is set. *)
Definition quitting (cb : Callback) (s : @system MSG Callback) : Prop :=
  mQuit (listener s) = true ∧ mCallbackPtr (listener s) = Some cb ∧ is_Some (mDataQueuePtr (listener s)) ∧
  data s = D_idle ∧ (5 <= phase (main s))%nat ∧ queuer s ≠ Q_none.

Lemma queue_quits cb woken s :
  HasMessageHandler cb = true -> quitting cb s -> queuer s = Q_end ∨
  ∃ s', step (E_queue woken) s = Next s' ∧ quitting cb s' ∧ (S (distance (queuer s')) <= distance (queuer s))%nat ∧
    (length (delivered s') + deliveries (queuer s') <= length (delivered s) + deliveries (queuer s))%nat.
Proof.
  intros Hcb (Hq & Hc & [q Hd] & Hi & Hp & Hn). cbn [DdsChannel.step]. unfold queue_step, quitting.
  destruct (queuer s) eqn:Q; try done; [right..|by left]; rewrite ?Hc, ?Hq, ?Hd, ?Hcb;
    try (eexists; split; [reflexivity|]; cbn; rewrite ?length_app; cbn; split_and!; by (done || lia)).
  - destruct (pop q) as [[m q']|]; (eexists; split; [reflexivity|]); cbn; rewrite ?Hc, ?Hd; split_and!; by (done || lia).
  - destruct (GetTimeout _ _) as [[m|] q']; (eexists; split; [reflexivity|]); cbn; rewrite ?Hc; split_and!; by (done || lia).
Qed.

(** The other threads do not disturb it. *)
Lemma others_quit cb e s s' :
  quitting cb s -> (∀ w, e ≠ E_queue w) -> step e s = Next s' ->
  quitting cb s' ∧ distance (queuer s') = distance (queuer s) ∧ deliveries (queuer s') = deliveries (queuer s) ∧
  delivered s' = delivered s.
Proof.
  intros (Hq & Hc & Hd & Hi & Hp & Hn) He E. destruct e as [|samples|now|w]; cbn [DdsChannel.step] in E; [| | |by destruct (He w)].
  - unfold main_step in E. unfold quitting. destruct (main s) eqn:M; cbn [phase] in Hp; try lia; try done.
    + injection E as <-. cbn. split_and!; try done; destruct (queuer s); try done; lia.
    + destruct (queuer s) eqn:Q; try done. injection E as <-. cbn. split_and!; try done; lia.
  - unfold take_step in E. destruct (main s) eqn:M; cbn [phase] in Hp; (lia || done).
  - unfold data_step in E. rewrite Hi in E. done.
Qed.

Lemma run_quits cb es s s' :
  HasMessageHandler cb = true -> quitting cb s -> run es s = Next s' ->
  quitting cb s' ∧ (queue_events es + distance (queuer s') <= distance (queuer s))%nat ∧
  (length (delivered s') + deliveries (queuer s') <= length (delivered s) + deliveries (queuer s))%nat.
Proof.
  intros Hcb. revert s. induction es as [|e es IH]; intros s Hs; cbn [DdsChannel.run].
  { intros [= <-]. done. }
  destruct (step e s) as [| |s1] eqn:E; [done|done|]. intros H. unfold queue_events in *.
  assert (Hstep : quitting cb s1 ∧ (queue_events [e] + distance (queuer s1) <= distance (queuer s))%nat ∧
    (length (delivered s1) + deliveries (queuer s1) <= length (delivered s) + deliveries (queuer s))%nat).
  { destruct e as [|samples|now|w];
      try (apply (others_quit cb) in E as (Hq & Hd & Hv & Hl); [|exact Hs|done]; rewrite Hd, Hv, Hl; split; [exact Hq|split; [apply Nat.le_refl|lia]]).
    destruct (queue_quits cb w s Hcb Hs) as [Q|(s2 & E2 & Hq & Hd & Hv)].
    - cbn [DdsChannel.step] in E. unfold queue_step in E. by rewrite Q in E.
    - rewrite E2 in E. injection E as <-. done. }
  destruct Hstep as (Hq & Hd & Hv). destruct (IH s1 Hq H) as (Hq' & Hd' & Hv'). split; [done|].
  unfold queue_events in Hd. rewrite filter_cons in Hd |- *. destruct (decide _); cbn [length] in *; lia.
Qed.

Lemma reached_quitting cb n s :
  sys_ok cb n s -> 0 < n -> mQuit (listener s) = true -> quitting cb s.
Proof.
  intros H Hn Hq. pose proof (ok_quit _ _ _ H Hq) as Hp. pose proof (ok_has _ _ _ H) as Hh.
  rewrite (proj2 (Z.ltb_lt _ _) Hn), andb_true_r, bool_decide_true in Hh by lia.
  pose proof (ok_history _ _ _ H) as Hy. rewrite Hh in Hy. destruct Hy as (q & Eq & _).
  split_and!; try done.
  - rewrite (ok_callback _ _ _ H). by rewrite decide_False by lia.
  - pose proof (ok_data _ _ _ H) as Hd. destruct (data s); [done|..]; specialize (Hd ltac:(done)); rewrite Hd in Hp; cbn in Hp; lia.
  - intros Q. apply (ok_thread _ _ _ H) in Q. congruence.
Qed.

(** Shutting down a reader with a queue and a handler.  Once the destructor has
    set [mQuit], in every further interleaving the queue thread makes at most four
    more steps and calls the handler at most once more, whatever is left in the
    queue; and until it has ended it is never stuck: given a return from [Wait], it
    can step. *)
Lemma reader_shutdown cb mQueueLen es s0 s es' s' :
  HasMessageHandler cb = true -> 0 < i32 mQueueLen -> InitChannel (Some cb) mQueueLen = Some s0 -> run es s0 = Next s ->
  mQuit (listener s) = true -> run es' s = Next s' ->
  (queue_events es' <= 4)%nat ∧ (length (delivered s') <= length (delivered s) + 1)%nat ∧
  (queuer s' = Q_end ∨ ∀ woken, ∃ s'', step (E_queue woken) s' = Next s'' ∧ (distance (queuer s'') < distance (queuer s'))%nat).
Proof.
  intros Hcb Hn Hi Hr Hq Hr'. pose proof (reached_quitting _ _ _ (init_run_ok _ _ _ _ _ Hi Hr) Hn Hq) as Hs.
  destruct (run_quits cb es' s s' Hcb Hs Hr') as (Hs' & Hd & Hv).
  assert (distance (queuer s) <= 4 ∧ deliveries (queuer s) <= 1)%nat by (destruct (queuer s); cbn; lia).
  split; [lia|]. split; [lia|]. destruct (queue_quits cb true s' Hcb Hs') as [Q|_]; [by left|].
  destruct (queuer s') eqn:Q; try (right; intros woken; destruct (queue_quits cb woken s' Hcb Hs') as [?|(s2 & E & _ & Hd2 & _)];
    [congruence|exists s2; by rewrite Q in Hd2]). by left.
Qed.

(** The owner sets up and destroys the reader while the queue thread is between
    the test of [mQuit] and [Get]. *)
Definition quiet_shutdown : list (@event MSG) :=
  [E_main; E_main; E_main; E_queue true; E_queue true; E_main; E_main; E_main; E_queue true].

(** Without a handler the thread of the queue does not get past its first loop. *)
Definition idling (s : @system MSG Callback) : Prop :=
  (queuer s = Q_none ∨ queuer s = Q_handler) ∧ main s ≠ M_gone.

Lemma idles cb n es s :
  HasMessageHandler cb = false -> 0 < n -> in_s 32 n -> run es (start cb n) = Next s -> idling s.
Proof.
  intros Hcb Hn Hr. assert (H0 : sys_ok cb n (@start MSG Callback cb n)) by apply start_ok.
  assert (Hi0 : idling (@start MSG Callback cb n)) by (split; [by left|done]).
  revert H0 Hi0. generalize (@start MSG Callback cb n). induction es as [|e es IH]; intros s0 Hok Hi; cbn [DdsChannel.run].
  { by intros [= <-]. }
  pose proof (step_good HasMessageHandler cb n Hr e s0 Hok) as Hok1.
  destruct (step e s0) as [| |s1] eqn:E; [done|done|]. apply IH; [exact Hok1|]. clear IH. destruct Hi as [Hi Hm].
  destruct e as [|samples|now|w]; cbn [DdsChannel.step] in E.
  - unfold main_step in E. pose proof (ok_has _ _ _ Hok) as Hh. pose proof (ok_main _ _ _ Hok) as Hq.
    unfold idling. destruct (main s0) eqn:M; try done;
      try (injection E as <-; cbn; destruct Hi as [-> | ->]; split; by auto).
    + subst qlen. injection E as <-. cbn. destruct (_ <=? _); split; by auto.
    + destruct (data s0); [|done|done]. injection E as <-. cbn. destruct Hi as [-> | ->]; split; by auto.
    + cbn in Hh. rewrite (proj2 (Z.ltb_lt _ _) Hn) in Hh. rewrite Hh in E. injection E as <-. cbn. destruct Hi as [-> | ->]; split; by auto.
    + by destruct Hi as [Q|Q]; rewrite Q in E.
  - unfold take_step in E. destruct (main s0) eqn:M; try done. destruct (data s0); try done. destruct (mMask _); [|done].
    injection E as <-. split; [done|]. cbn. by rewrite M.
  - unfold data_step, put_message, call_directly in E. unfold idling.
    repeat case_match; simplify_eq; cbn; (split; [by destruct Hi as [-> | ->]; auto|done]).
  - unfold queue_step in E. destruct Hi as [Q|Q]; rewrite Q in E; [done|]. pose proof (ok_callback _ _ _ Hok) as Hc.
    rewrite Hc in E. unfold idling. destruct (decide _); [injection E as <-; cbn; by auto|].
    rewrite Hcb in E. injection E as <-. cbn. by auto.
Qed.

(** C40. Shutting down can hang.  With a queue, the destructor may find the queue
    thread between its test of [mQuit] and [Get]: it then joins a thread that waits
    on an empty queue and was not notified, and nothing but a return from [Wait]
    without notification can happen any more.  And a reader whose callback has no
    handler has a queue thread that never looks at [mQuit]: the destructor never
    completes. *)
Theorem reader_shutdown_can_hang cb n :
  0 < n -> in_s 32 n ->
  (HasMessageHandler cb = true ->
     ∃ s, run quiet_shutdown (start cb n) = Next s ∧ main s = M_join ∧ queuer s = Q_wait false ∧ queued s = [] ∧
       ∀ e s', step e s = Next s' -> ∃ woken, e = E_queue woken) ∧
  (HasMessageHandler cb = false -> ∀ es s, run es (start cb n) = Next s -> main s ≠ M_gone).
Proof.
  intros Hn Hr. split; intros Hcb; [|intros es s H; by destruct (idles cb n es s Hcb Hn Hr H)].
  assert (E0 : (n <=? 0) = false) by (apply Z.leb_gt; lia).
  eexists. split.
  { unfold quiet_shutdown. cbn. unfold SetQueue, SetCallback. rewrite E0. cbn. rewrite Hcb. cbn. reflexivity. }
  cbn. split_and!; try done. intros e s' E. destruct e as [| | |w]; [done|done|done|by exists w].
Qed.
End Properties.

(** ** Waiting for a reader *)

(** The loop ends, having slept while no reader matched, until one did, a query
    threw or the time was used up. *)
Lemma wait_loop_spec fuel status i waitTime :
  (0 < fuel)%nat -> waitTime <= 10000 * (Z.of_nat fuel - 1) ->
  ∃ j threw, wait_loop fuel status i waitTime = Some (j, threw) ∧ (i <= j)%nat ∧
    (∀ k, (i <= k < j)%nat -> status k = Some 0) ∧
    10000 * Z.of_nat (j - i) < Z.max 0 waitTime + 10000 ∧ (waitTime <= 0 -> j = i) ∧
    (threw = true -> status j = None) ∧
    (threw = false -> waitTime <= 10000 * Z.of_nat (j - i) ∨ ∃ count, status j = Some count ∧ count ≠ 0).
Proof.
  revert i waitTime. induction fuel as [|fuel IH]; intros i w Hf Hw; [lia|]. cbn [wait_loop]. unfold UT_DDS_WAIT_MATCHED_TIME_SLICE.
  assert (Hstop : ∀ k, (i <= k < i)%nat -> status k = Some 0) by lia.
  destruct (Z.ltb_spec 0 w) as [L|L]; [|exists i, false; split_and!; try done; try lia; left; lia].
  destruct (status i) as [count|] eqn:E; [|exists i, true; split_and!; try done; lia].
  destruct (Z.eqb_spec count 0) as [->|Hc]; [|exists i, false; split_and!; try done; try lia; right; by exists count].
  destruct (IH (S i) (w - 10000)) as (j & threw & H1 & H2 & H3 & H4 & H5 & H6 & H7); [lia|lia|].
  exists j, threw. split_and!; try done; try lia.
  - intros k Hk. destruct (decide (k = i)) as [->|]; [done|]. apply H3. lia.
  - intros Ht. destruct (H7 Ht) as [H8|H8]; [left; lia|by right].
Qed.

(** The time [WaitReader] may spend. *)
Definition budget (waitMicrosec : Z) : Z :=
  if waitMicrosec <? 10000 then 0 else Z.min (waitMicrosec / 2) 1000000.

Lemma WaitReader_spec status w :
  ∃ j threw, WaitReader status w = Some (j, threw) ∧ (∀ k, (k < j)%nat -> status k = Some 0) ∧
    10000 * Z.of_nat j < budget w + 10000 ∧ (budget w = 0 -> j = 0%nat) ∧ (threw = true -> status j = None) ∧
    (threw = false -> budget w <= 10000 * Z.of_nat j ∨ ∃ count, status j = Some count ∧ count ≠ 0).
Proof.
  unfold WaitReader, budget, UT_DDS_WAIT_MATCHED_TIME_SLICE, UT_DDS_WAIT_MATCHED_TIME_MAX.
  destruct (Z.ltb_spec w 10000) as [L|L].
  { exists 0%nat, false. split_and!; try done; try lia. }
  rewrite Z.quot_div_nonneg by lia. set (t := if _ <? _ then _ else _).
  assert (Ht : t = Z.min (w / 2) 1000000) by (subst t; destruct (Z.ltb_spec 1000000 (w / 2)); lia).
  assert (0 < w / 2) by (apply Z.div_str_pos; lia).
  destruct (wait_loop_spec wait_fuel status 0 t) as (j & threw & H1 & H2 & H3 & H4 & H5 & H6 & H7); [unfold wait_fuel; lia|unfold wait_fuel; lia|].
  rewrite <- Ht. exists j, threw. rewrite Nat.sub_0_r in *. split_and!; try done; try lia. intros k Hk. apply H3. lia.
Qed.

(** [Write] always comes to an end, whatever the matched status does: it sleeps
    at most 100 slices, never longer than the caller allows, only while no reader
    is matched, and stops early only when one is or the query of the status throws.
    It hands the message to DDS in every case but that last one, and reports what
    DDS did. *)
Lemma write_waits_bounded status native_write w :
  ∃ slices r, DdsWriter_Write status native_write w = Some (slices, r) ∧
    (slices <= 100)%nat ∧ 10000 * Z.of_nat slices <= Z.max 0 w ∧ (∀ k, (k < slices)%nat -> status k = Some 0) ∧
    (r = WaitThrew ∧ status slices = None ∨
     r = Written native_write ∧
       (budget w <= 10000 * Z.of_nat slices ∨ ∃ count, status slices = Some count ∧ count ≠ 0)).
Proof.
  unfold DdsWriter_Write. destruct (Z.ltb_spec 0 w) as [L|L].
  - destruct (WaitReader_spec status w) as (j & threw & -> & H1 & H2 & H3 & H4 & H5). cbn.
    exists j, (if threw then WaitThrew else Written native_write). split; [done|].
    assert (Hb : 0 <= budget w <= 1000000 ∧ (budget w = 0 ∨ 10000 <= w ∧ budget w <= w / 2)).
    { unfold budget. destruct (Z.ltb_spec w 10000); [lia|]. assert (0 <= w / 2) by (apply Z.div_pos; lia). lia. }
    pose proof (Z.mul_div_le w 2 ltac:(lia)). split; [lia|]. split; [destruct Hb as [? [Hb|Hb]]; [rewrite (H3 Hb)|]; lia|].
    split; [done|]. destruct threw; [left|right]; by auto.
  - exists 0%nat, (Written native_write). split; [done|]. split_and!; try lia. right. split; [done|]. left.
    unfold budget. destruct (Z.ltb_spec w 10000); lia.
Qed.

(** A reader appears after 30 ms of a wait of 0.1 s. *)
Example write_waits_three :
  DdsWriter_Write (fun i => Some (if (i <? 3)%nat then 0 else 1)) true 100000 = Some (3%nat, Written true).
Proof. reflexivity. Qed.

(** ** Witnesses *)

#[local] Abbreviation handled := (fun _ : unit => true).

(** A queue of one: the first of two valid messages is evicted. *)
Definition evicting : list (@event Z) :=
  [E_main; E_main; E_main; E_take [(7, true); (8, false); (9, true)]; E_data 5; E_data 5; E_data 6; E_data 7; E_data 7; E_data 8;
   E_queue true; E_queue true; E_queue true; E_queue true].

Definition state_after (es : list (@event Z)) (n : Z) : @system Z unit :=
  match DdsChannel.run handled es (start tt n) with Next s => s | _ => start tt n end.

Lemma subscriber_delivers_witness :
  delivered (state_after evicting 1) = [9] ∧ received (state_after evicting 1) = [7; 9] ∧
  last (delivered (state_after evicting 1)) = last (received (state_after evicting 1)).
Proof.
  destruct (subscriber_delivers handled tt 1 evicting (start tt (i32 1)) (state_after evicting 1) eq_refl ltac:(vm_compute; reflexivity))
    as (_ & _ & _ & H). destruct (H ltac:(vm_compute; reflexivity)) as (_ & _ & _ & _ & Hl).
  split; [vm_compute; reflexivity|]. split; [vm_compute; reflexivity|]. exact (Hl ltac:(vm_compute; reflexivity)).
Defined.

(** Three messages wait when the reader is destroyed: one is delivered. *)
Definition closing : list (@event Z) :=
  [E_main; E_main; E_main; E_queue true; E_queue true; E_take [(1, true); (2, true); (3, true)];
   E_data 5; E_data 5; E_data 5; E_data 5; E_data 5; E_data 5; E_data 5; E_main; E_main].

Definition closed : list (@event Z) := [E_queue true; E_queue true; E_main; E_queue true; E_main].

Lemma reader_shutdown_witness :
  let s := state_after closing 8 in let s' := state_after (closing ++ closed) 8 in
  delivered s' = [1] ∧ main s' = M_gone ∧ (length (delivered s') <= length (delivered s) + 1)%nat.
Proof.
  cbv zeta. split; [vm_compute; reflexivity|]. split; [vm_compute; reflexivity|].
  apply (reader_shutdown handled tt 8 closing (start tt (i32 8)) (state_after closing 8) closed (state_after (closing ++ closed) 8));
    vm_compute; reflexivity.
Defined.

Lemma reader_shutdown_can_hang_witness :
  ∃ s : @system Z unit, DdsChannel.run handled quiet_shutdown (start tt 4) = Next s ∧ main s = M_join.
Proof.
  destruct (proj1 (@reader_shutdown_can_hang Z unit handled tt 4 ltac:(lia) ltac:(vm_compute; split; congruence)) eq_refl)
    as (s & H1 & H2 & _). by exists s.
Defined.
End DdsChannelProps.
