(* ===== verification/Topics.v ===== *)
(** * Topics and channels.

    Models the templates that create and use the channels of the DDS layer:
    [src/include/unitree/common/dds/dds_topic_channel.hpp] ([DdsTopicChannel]),
    [dds_easy_model.hpp] ([DdsEasyModel]), [dds_factory_model.hpp]
    ([DdsFactoryModel]) and, on top of them,
    [src/include/unitree/robot/channel/channel_factory.hpp],
    [channel_publisher.hpp], [channel_subscriber.hpp] and [channel_labor.hpp].

    A template is modelled once, with its message type as an argument.  What the
    DDS library answers to a call is an argument ([native]); the untemplated
    [GetChannel], whose body is in the SDK library, is a parameter that is assumed
    to look its argument up in [mChannelMap]. *)

From stdpp Require Import gmap strings.
From S2P Require Import Prelude BlockQueue DdsChannel.

Local Open Scope Z_scope.

(** ** Results *)

(** An exception, or a call the language gives no meaning to: a null pointer is
    followed, or an object is used at another message type. *)
Inductive error := DdsError | AlreadyExists | InvalidHandler.
Inductive result (A : Type) := Returns (a : A) | Throws (e : error) | Undefined.
Arguments Returns {A} a. Arguments Throws {A} e. Arguments Undefined {A}.

(** What the DDS library does in a call: whether the topic, the writer and the
    reader can be created (with their QoS) and the listener be set, how a wait for
    readers goes, and whether a message is accepted. *)
Record native := {
  topic_ok : bool; writer_ok : bool; reader_ok : bool; listener_ok : bool; status : Status; write_ok : bool }.

Section Channels.
Context {T : Type} `{EqDecision T}.  (** message types *)
Context {Callback : Type} (HasMessageHandler : Callback -> bool).

(** ** DdsTopicChannel *)

Abbreviation Listener := (@DdsReaderListener unit Callback).

(** The type of the channel's messages, whether [mTopic] and [mWriter] are set, and
    the listener of [mReader]. *)
Record DdsTopicChannel := { mMSG : T; mTopic : bool; mWriter : bool; mReader : option Listener }.

Definition new_channel (MSG : T) : DdsTopicChannel := {| mMSG := MSG; mTopic := false; mWriter := false; mReader := None |}.

Definition channel_SetTopic (n : native) (c : DdsTopicChannel) : DdsTopicChannel * result unit :=
  if topic_ok n then ({| mMSG := mMSG c; mTopic := true; mWriter := mWriter c; mReader := mReader c |}, Returns tt)
  else (c, Throws DdsError).

(** The constructor of the writer follows [mTopic]. *)
Definition channel_SetWriter (n : native) (c : DdsTopicChannel) : DdsTopicChannel * result unit :=
  if negb (mTopic c) then (c, Undefined)
  else if writer_ok n then ({| mMSG := mMSG c; mTopic := mTopic c; mWriter := true; mReader := mReader c |}, Returns tt)
  else (c, Throws DdsError).

(** The reader is stored before its listener is set. *)
Definition channel_SetReader (n : native) (cb : Callback) (queuelen : Z) (c : DdsTopicChannel) : DdsTopicChannel * result unit :=
  if negb (mTopic c) then (c, Undefined)
  else if reader_ok n then
    let listener := SetQueue queuelen (SetCallback HasMessageHandler cb DdsReaderListener_make) in
    ({| mMSG := mMSG c; mTopic := mTopic c; mWriter := mWriter c; mReader := Some listener |},
     if listener_ok n then Returns tt else Throws DdsError)
  else (c, Throws DdsError).

Definition channel_Write (n : native) (waitMicrosec : Z) (c : DdsTopicChannel) : result bool :=
  if negb (mWriter c) then Undefined
  else match DdsWriter_Write (status n) (write_ok n) waitMicrosec with
       | Some (_, Written ok) => Returns ok
       | Some (_, WaitThrew) => Throws DdsError
       | None => Undefined
       end.

Definition channel_GetLastDataAvailableTime (c : DdsTopicChannel) : Z :=
  match mReader c with Some l => mLastDataAvailableTime l | None => 0 end.

(** ** DdsEasyModel *)

Abbreviation ChannelMap := (gmap string DdsTopicChannel).

Section EasyModel.
Context (find_channel : ChannelMap -> string -> option DdsTopicChannel).

(** [GetChannel<MSG>]: the pointer is cast whatever the type of the channel. *)
Definition GetChannel (MSG : T) (topic : string) (mChannelMap : ChannelMap) : result (option DdsTopicChannel) :=
  match find_channel mChannelMap topic with
  | Some c => if decide (mMSG c = MSG) then Returns (Some c) else Undefined
  | None => Returns None
  end.

(** The first part of both [SetTopic]: a new channel enters the map before its topic
    is created. *)
Definition ensure_channel (n : native) (MSG : T) (topic : string) (m : ChannelMap) :
    ChannelMap * result DdsTopicChannel :=
  match GetChannel MSG topic m with
  | Returns (Some c) => (m, Returns c)
  | Returns None =>
      let '(c, r) := channel_SetTopic n (new_channel MSG) in
      (<[topic := c]> m, match r with Returns _ => Returns c | Throws e => Throws e | Undefined => Undefined end)
  | Throws e => (m, Throws e)
  | Undefined => (m, Undefined)
  end.

Definition SetTopic_writer (n : native) (MSG : T) (topic : string) (m : ChannelMap) : ChannelMap * result unit :=
  match ensure_channel n MSG topic m with
  | (m, Returns c) =>
      if negb (mWriter c) then let '(c, r) := channel_SetWriter n c in (<[topic := c]> m, r)
      else (m, Throws AlreadyExists)
  | (m, Throws e) => (m, Throws e)
  | (m, Undefined) => (m, Undefined)
  end.

Definition SetTopic_reader (n : native) (MSG : T) (topic : string) (rcb : Callback) (queuelen : Z) (m : ChannelMap) :
    ChannelMap * result unit :=
  match ensure_channel n MSG topic m with
  | (m, Returns c) =>
      match mReader c with
      | None => let '(c, r) := channel_SetReader n rcb queuelen c in (<[topic := c]> m, r)
      | Some _ => (m, Throws AlreadyExists)
      end
  | (m, Throws e) => (m, Throws e)
  | (m, Undefined) => (m, Undefined)
  end.

Definition WriteMessage (n : native) (MSG : T) (topic : string) (waitMicrosec : Z) (m : ChannelMap) : result bool :=
  match GetChannel MSG topic m with
  | Returns (Some c) => channel_Write n waitMicrosec c
  | Returns None => Returns false
  | Throws e => Throws e
  | Undefined => Undefined
  end.

(** *** Sequences of calls *)

Inductive action := AWriter | AReader (rcb : Callback) (queuelen : Z) | AWrite (waitMicrosec : Z).

(** A call of one of the templates at a type, with what DDS does meanwhile. *)
Record call := { c_native : native; c_MSG : T; c_topic : string; c_action : action }.

(** [SetTopic] returns nothing, [WriteMessage] a boolean. *)
Abbreviation answer := (option bool).

Definition perform_call (c : call) (m : ChannelMap) : ChannelMap * result answer :=
  let void (x : ChannelMap * result unit) :=
    (x.1, match x.2 with Returns _ => Returns None | Throws e => Throws e | Undefined => Undefined end) in
  match c_action c with
  | AWriter => void (SetTopic_writer (c_native c) (c_MSG c) (c_topic c) m)
  | AReader rcb q => void (SetTopic_reader (c_native c) (c_MSG c) (c_topic c) rcb q m)
  | AWrite w =>
      (m, match WriteMessage (c_native c) (c_MSG c) (c_topic c) w m with
          | Returns b => Returns (Some b) | Throws e => Throws e | Undefined => Undefined end)
  end.

(** The calls one after the other; an exception is caught and the caller goes on.
    [None] after a call without meaning. *)
Fixpoint calls (l : list call) (m : ChannelMap) : option ChannelMap :=
  match l with
  | [] => Some m
  | c :: l =>
      match perform_call c m with
      | (_, Undefined) => None
      | (m, _) => calls l m
      end
  end.
End EasyModel.

(** ** DdsFactoryModel and ChannelFactory *)

Definition CreateTopicChannel (n : native) (MSG : T) : result DdsTopicChannel :=
  match channel_SetTopic n (new_channel MSG) with
  | (c, Returns _) => Returns c
  | (_, Throws e) => Throws e
  | (_, Undefined) => Undefined
  end.

(** A channel that is not complete is dropped with the exception.  [inited]:
    [mDdsFactoryPtr] is set. *)
Definition CreateSendChannel (inited : bool) (n : native) (MSG : T) : result DdsTopicChannel :=
  if negb inited then Undefined
  else match CreateTopicChannel n MSG with
       | Returns c =>
           match channel_SetWriter n c with
           | (c, Returns _) => Returns c | (_, Throws e) => Throws e | (_, Undefined) => Undefined
           end
       | r => r
       end.

Definition CreateRecvChannel (inited : bool) (n : native) (MSG : T) (callback : Callback) (queuelen : Z) : result DdsTopicChannel :=
  if negb inited then Undefined
  else match CreateTopicChannel n MSG with
       | Returns c =>
           match channel_SetReader n callback queuelen c with
           | (c, Returns _) => Returns c | (_, Throws e) => Throws e | (_, Undefined) => Undefined
           end
       | r => r
       end.

(** Assignment of a created channel to a member: not reached by an exception. *)
Definition assign (old : option DdsTopicChannel) (r : result DdsTopicChannel) : option DdsTopicChannel * result unit :=
  match r with
  | Returns c => (Some c, Returns tt)
  | Throws e => (old, Throws e)
  | Undefined => (old, Undefined)
  end.

(** ** ChannelPublisher and ChannelSubscriber: the state is [mChannelPtr] *)

Definition publisher_InitChannel (inited : bool) (n : native) (MSG : T) (mChannelPtr : option DdsTopicChannel) :=
  assign mChannelPtr (CreateSendChannel inited n MSG).

Definition publisher_Write (n : native) (waitMicrosec : Z) (mChannelPtr : option DdsTopicChannel) : result bool :=
  match mChannelPtr with Some c => channel_Write n waitMicrosec c | None => Returns false end.

Definition CloseChannel (mChannelPtr : option DdsTopicChannel) : option DdsTopicChannel := None.

Definition subscriber_InitChannel (inited : bool) (n : native) (MSG : T) (mHandler : option Callback) (mQueueLen : Z)
    (mChannelPtr : option DdsTopicChannel) : option DdsTopicChannel * result unit :=
  match mHandler with
  | Some h => assign mChannelPtr (CreateRecvChannel inited n MSG h (i32 mQueueLen))
  | None => (mChannelPtr, Throws InvalidHandler)
  end.

Definition subscriber_GetLastDataAvailableTime (mChannelPtr : option DdsTopicChannel) : Z :=
  match mChannelPtr with Some c => channel_GetLastDataAvailableTime c | None => -1 end.

(** ** ChannelLabor: [mSendChannlPtr] and [mRecvChannlPtr] *)

Definition labor_InitChannel (inited : bool) (ns nr : native) (SEND_MSG RECV_MSG : T) (cb : Callback) (queuelen : Z)
    (s : option DdsTopicChannel * option DdsTopicChannel) : (option DdsTopicChannel * option DdsTopicChannel) * result unit :=
  match assign s.1 (CreateSendChannel inited ns SEND_MSG) with
  | (send, Returns _) =>
      let '(recv, r) := assign s.2 (CreateRecvChannel inited nr RECV_MSG cb queuelen) in ((send, recv), r)
  | (send, r) => ((send, s.2), r)
  end.

(** No test for a channel, unlike in [ChannelPublisher]. *)
Definition labor_Send (n : native) (waitTimeout : Z) (s : option DdsTopicChannel * option DdsTopicChannel) : result bool :=
  match s.1 with Some c => channel_Write n waitTimeout c | None => Undefined end.
End Channels.

(** * Specification *)
Section Specification.
Context {T : Type} `{EqDecision T}.
Context {Callback : Type} (HasMessageHandler : Callback -> bool).

Abbreviation call := (@call T Callback).

(** The calls that create the channel of a topic, those that give it a writer and
    those that give it a reader. *)
Definition creates (t : string) (c : call) : bool :=
  bool_decide (c_topic c = t) && match c_action c with AWrite _ => false | _ => true end.

Definition gives_writer (t : string) (c : call) : bool :=
  bool_decide (c_topic c = t) && match c_action c with AWriter => writer_ok (c_native c) | _ => false end.

Definition gives_reader (t : string) (c : call) : bool :=
  bool_decide (c_topic c = t) && match c_action c with AReader _ _ => reader_ok (c_native c) | _ => false end.

Definition first_of (P : call -> bool) (h : list call) : option call := head (filter (fun c => P c = true) h).

(** After the calls [h]: the call that created the channel, and whether the topic
    has a writer and a reader. *)
Definition creator (h : list call) (t : string) : option call := first_of (creates t) h.

Definition topic_made (h : list call) (t : string) : bool :=
  match creator h t with Some f => topic_ok (c_native f) | None => false end.

Definition has_writer (h : list call) (t : string) : bool :=
  topic_made h t && match first_of (gives_writer t) h with Some _ => true | None => false end.

Definition has_reader (h : list call) (t : string) : bool :=
  topic_made h t && match first_of (gives_reader t) h with Some _ => true | None => false end.

Definition written (n : native) (w : Z) : result (option bool) :=
  match DdsWriter_Write (status n) (write_ok n) w with
  | Some (_, Written ok) => Returns (Some ok)
  | _ => Throws DdsError
  end.

(** What a call does, by the calls before it. *)
Definition expected (h : list call) (c : call) : result (option bool) :=
  let t := c_topic c in
  let n := c_native c in
  match creator h t with
  | None =>
      match c_action c with
      | AWriter => if topic_ok n && writer_ok n then Returns None else Throws DdsError
      | AReader _ _ => if topic_ok n && (reader_ok n && listener_ok n) then Returns None else Throws DdsError
      | AWrite _ => Returns (Some false)
      end
  | Some f =>
      if decide (c_MSG f = c_MSG c) then
        match c_action c with
        | AWriter =>
            if has_writer h t then Throws AlreadyExists
            else if topic_made h t then (if writer_ok n then Returns None else Throws DdsError)
            else Undefined
        | AReader _ _ =>
            if has_reader h t then Throws AlreadyExists
            else if topic_made h t then (if reader_ok n && listener_ok n then Returns None else Throws DdsError)
            else Undefined
        | AWrite w => if has_writer h t then written n w else Undefined
        end
      else Undefined
  end.

(** The channel of a topic. *)
Definition described (h : list call) (t : string) : option DdsTopicChannel :=
  f ← creator h t;
  Some {| mMSG := c_MSG f; mTopic := topic_made h t; mWriter := has_writer h t;
          mReader :=
            if topic_made h t then
              c ← first_of (gives_reader t) h;
              match c_action c with
              | AReader rcb q => Some (SetQueue q (SetCallback HasMessageHandler rcb DdsReaderListener_make))
              | _ => None
              end
            else None |}.
End Specification.

(** * Properties *)
Module TopicsProps.
Section Histories.
Context {T : Type} `{EqDecision T}.
Context {Callback : Type} (HasMessageHandler : Callback -> bool).

Abbreviation call := (@call T Callback).
Abbreviation described := (described HasMessageHandler).
Implicit Types (h : list call) (c : call).

Lemma first_of_snoc (P : call -> bool) h c :
  first_of P (h ++ [c]) = match first_of P h with Some x => Some x | None => if P c then Some c else None end.
Proof.
  unfold first_of. rewrite filter_app. destruct (filter _ h) as [|x l]; [|done]. cbn [app head].
  rewrite filter_cons. destruct (decide (P c = true)) as [->|E]; [done|]. by apply not_true_is_false in E as ->.
Qed.

Lemma first_of_true (P : call -> bool) h c : first_of P h = Some c -> P c = true.
Proof.
  unfold first_of. intros E. assert (Hc : c ∈ filter (fun c => P c = true) h) by (apply head_Some_elem_of in E; done).
  by apply list_elem_of_filter in Hc as [? _].
Qed.

(** A call leaves the other topics alone. *)
Lemma described_other h c t : c_topic c ≠ t -> described (h ++ [c]) t = described h t.
Proof.
  intros Ht. unfold Topics.described, has_writer, topic_made, creator. rewrite !first_of_snoc.
  assert (F : creates t c = false ∧ gives_writer t c = false ∧ gives_reader t c = false)
    by (unfold creates, gives_writer, gives_reader; by rewrite bool_decide_eq_false_2).
  destruct F as (-> & -> & ->). by destruct (first_of _ h), (first_of (gives_writer t) h), (first_of (gives_reader t) h).
Qed.

(** Only a call that creates the channel gives it a writer or a reader. *)
Lemma nothing_given h t : creator h t = None -> first_of (gives_writer t) h = None ∧ first_of (gives_reader t) h = None.
Proof.
  unfold creator, first_of. induction h as [|c h IH]; [done|]. rewrite !filter_cons.
  destruct (decide (creates t c = true)) as [E|E]; [done|]. intros Hh. destruct (IH Hh) as [E1 E2].
  assert (F : gives_writer t c = false ∧ gives_reader t c = false).
  { unfold creates, gives_writer, gives_reader in *. destruct (bool_decide _); cbn in *; [|done]. by destruct (c_action c). }
  destruct F as [F1 F2]. rewrite !decide_False by congruence. done.
Qed.

Context (find_channel : gmap string (@DdsTopicChannel T Callback) -> string -> option (@DdsTopicChannel T Callback)).
Context (find_channel_lookup : ∀ m t, find_channel m t = m !! t).

Abbreviation perform := (perform_call HasMessageHandler find_channel).
Abbreviation calls := (calls HasMessageHandler find_channel).

Lemma topic_calls_snoc h c m :
  calls (h ++ [c]) m = m' ← calls h m; match perform c m' with (_, Undefined) => None | (m'', _) => Some m'' end.
Proof.
  revert m. induction h as [|c' h IH]; intros m; cbn [app Topics.calls mbind option_bind].
  - destruct (perform c m) as [m' []]; done.
  - destruct (perform c' m) as [m' []]; [apply IH|apply IH|done].
Qed.

Lemma write_total n w : match DdsWriter_Write (status n) (write_ok n) w with
  | Some (_, Written ok) => Returns ok | Some (_, WaitThrew) => Throws DdsError | None => Undefined end =
  match written n w with Returns (Some ok) => Returns ok | Returns None => Undefined | Throws e => Throws e | Undefined => Undefined end.
Proof.
  unfold written. destruct (DdsChannelProps.write_waits_bounded (status n) (write_ok n) w) as (k & r & -> & _).
  by destruct r.
Qed.

Definition describes h (m : gmap string (@DdsTopicChannel T Callback)) : Prop := ∀ t, m !! t = described h t.

(** A step is right when it changes the map at its topic only, as described. *)
Lemma describes_insert h c m x :
  describes h m -> described (h ++ [c]) (c_topic c) = Some x -> describes (h ++ [c]) (<[c_topic c := x]> m).
Proof.
  intros Hm Hx t. destruct (decide (c_topic c = t)) as [<-|Ht]; [by rewrite lookup_insert_eq|].
  rewrite lookup_insert_ne by done. by rewrite described_other.
Qed.

Lemma describes_same h c m :
  describes h m -> described (h ++ [c]) (c_topic c) = described h (c_topic c) -> describes (h ++ [c]) m.
Proof.
  intros Hm Hx t. destruct (decide (c_topic c = t)) as [<-|Ht]; [by rewrite Hx|]. by rewrite described_other.
Qed.

Lemma topic_self (t : string) : bool_decide (t = t) = true.
Proof. by apply bool_decide_eq_true_2. Qed.

Ltac history :=
  unfold Topics.described, has_writer, has_reader, topic_made, creator; rewrite ?first_of_snoc;
  unfold creates, gives_writer, gives_reader; rewrite ?topic_self.

Lemma perform_new h c m :
  describes h m -> creator h (c_topic c) = None ->
  (perform c m).2 = expected h c ∧ describes (h ++ [c]) (perform c m).1.
Proof.
  intros Hm Hc. destruct (nothing_given h _ Hc) as [Hw Hr].
  assert (Hl : find_channel m (c_topic c) = None) by (rewrite find_channel_lookup, Hm; unfold Topics.described; by rewrite Hc).
  unfold creator, creates, gives_writer, gives_reader in Hc, Hw, Hr.
  assert (Hd : ∀ x, x = described (h ++ [c]) (c_topic c) -> ∀ y, x = Some y -> describes (h ++ [c]) (<[c_topic c := y]> m))
    by (intros x -> y Hy; by apply describes_insert).
  unfold perform_call, expected, SetTopic_writer, SetTopic_reader, WriteMessage, ensure_channel, GetChannel. rewrite Hl.
  unfold creator, creates. rewrite Hc.
  destruct (c_action c) as [|rcb q|w] eqn:Ea; cbn [fst snd].
  - unfold channel_SetTopic. destruct (topic_ok (c_native c)) eqn:E1; cbn; [destruct (writer_ok (c_native c)) eqn:E2; cbn|];
      (split; [done|]); rewrite ?insert_insert_eq; (eapply Hd; [|reflexivity]);
      history; rewrite Hc, Hw, Hr, Ea; cbn; by rewrite E1, ?E2.
  - unfold channel_SetTopic. destruct (topic_ok (c_native c)) eqn:E1; cbn; [destruct (reader_ok (c_native c)) eqn:E2; cbn|];
      (split; [by destruct (listener_ok (c_native c))|]); rewrite ?insert_insert_eq; (eapply Hd; [|reflexivity]);
      history; rewrite Hc, Hw, Hr, Ea; cbn; rewrite E1, ?E2; cbn; by rewrite ?Ea.
  - split; [done|]. apply describes_same; [done|]. history. rewrite Hc, Hw, Hr, Ea. done.
Qed.

Definition listener_of (c : call) : option (@DdsReaderListener unit Callback) :=
  match c_action c with
  | AReader rcb q => Some (SetQueue q (SetCallback HasMessageHandler rcb DdsReaderListener_make))
  | _ => None
  end.

Lemma described_old h c t f :
  creator h t = Some f ->
  described (h ++ [c]) t =
    Some {| mMSG := c_MSG f; mTopic := topic_made h t;
            mWriter := topic_made h t && match first_of (gives_writer t) h with Some _ => true | None => gives_writer t c end;
            mReader := if topic_made h t then
                         x ← match first_of (gives_reader t) h with Some x => Some x | None => if gives_reader t c then Some c else None end;
                         listener_of x
                       else None |}.
Proof.
  intros Hc. unfold Topics.described, has_writer, topic_made, creator in *. rewrite !first_of_snoc, Hc. cbn [mbind option_bind].
  f_equal. f_equal. f_equal. destruct (first_of (gives_writer t) h); [done|]. by destruct (gives_writer t c).
Qed.

(** A call on a channel that exists, of the right type. *)
Lemma perform_old h c m f :
  describes h m -> creator h (c_topic c) = Some f -> c_MSG f = c_MSG c ->
  (perform c m).2 = expected h c ∧ (expected h c ≠ Undefined -> describes (h ++ [c]) (perform c m).1).
Proof.
  intros Hm Hc HT. pose proof (Hm (c_topic c)) as Hl. rewrite <- find_channel_lookup in Hl.
  pose proof (described_old h c _ f Hc) as Hd. pose proof (describes_same h c m Hm) as Hs.
  assert (Hi : ∀ x, described (h ++ [c]) (c_topic c) = Some x -> describes (h ++ [c]) (<[c_topic c := x]> m)) by (intros; by apply describes_insert).
  rewrite Hd in Hs, Hi. clear Hd.
  unfold Topics.described in Hl, Hs. rewrite Hc in Hl, Hs. cbn [mbind option_bind] in Hl, Hs. fold (described h (c_topic c)) in *.
  unfold perform_call, expected, SetTopic_writer, SetTopic_reader, WriteMessage, ensure_channel, GetChannel. rewrite Hl, Hc.
  cbn [mMSG]. rewrite !decide_True by done. unfold has_writer, has_reader in *. unfold gives_writer at 2 in Hs. unfold gives_writer at 2 in Hi. unfold gives_reader at 2 in Hs. unfold gives_reader at 2 in Hi. rewrite topic_self in Hs, Hi.
  assert (Hsome : ∀ x, first_of (gives_reader (c_topic c)) h = Some x -> is_Some (listener_of x)).
  { intros x Hx%first_of_true. unfold gives_reader in Hx. unfold listener_of. destruct (bool_decide _); [|done].
    by destruct (c_action x); eauto. }
  destruct (c_action c) as [|rcb q|w] eqn:Ea; cbn [fst snd mWriter mReader andb] in *.
  - unfold channel_SetWriter. cbn [mTopic mWriter mMSG mReader].
    destruct (topic_made h (c_topic c)); [destruct (first_of (gives_writer (c_topic c)) h); [|destruct (writer_ok (c_native c))]|];
      cbn in *.
    + split; [done|]. intros _. apply Hs. by destruct (first_of _ h).
    + split; [done|]. intros _. apply Hi. by destruct (first_of _ h).
    + split; [done|]. intros _. apply Hi. by destruct (first_of _ h).
    + split; [done|]. by intros [].
  - unfold channel_SetReader. cbn [mTopic mWriter mMSG mReader].
    destruct (topic_made h (c_topic c)); [destruct (first_of (gives_reader (c_topic c)) h) as [x|]; [|destruct (reader_ok (c_native c))]|];
      cbn in *.
    + destruct (Hsome x eq_refl) as [l El]. unfold listener_of in El. rewrite El. split; [done|]. intros _. apply Hs. by destruct (first_of _ h).
    + split; [by destruct (listener_ok _)|]. intros _. apply Hi. unfold listener_of. rewrite Ea. by destruct (first_of _ h).
    + split; [done|]. intros _. apply Hi. by destruct (first_of _ h).
    + split; [done|]. by intros [].
  - unfold channel_Write. cbn [mWriter]. rewrite write_total.
    destruct (topic_made h (c_topic c) && _) eqn:Ew; cbn.
    + split.
      * unfold written. destruct (DdsWriter_Write _ _ _) as [[? []]|]; done.
      * intros _. apply Hs. by destruct (first_of (gives_writer _) h), (first_of (gives_reader _) h).
    + split; [done|]. by intros [].
Qed.

Lemma perform_step h c m :
  describes h m -> (perform c m).2 = expected h c ∧ (expected h c ≠ Undefined -> describes (h ++ [c]) (perform c m).1).
Proof.
  intros Hm. destruct (creator h (c_topic c)) as [f|] eqn:Hc.
  - destruct (decide (c_MSG f = c_MSG c)) as [HT|HT]; [by apply (perform_old h c m f)|].
    assert (He : expected h c = Undefined) by (unfold expected; by rewrite Hc, decide_False).
    rewrite He. split; [|by intros []]. pose proof (Hm (c_topic c)) as Hl. rewrite <- find_channel_lookup in Hl.
    unfold Topics.described in Hl. rewrite Hc in Hl. cbn [mbind option_bind] in Hl.
    unfold perform_call, SetTopic_writer, SetTopic_reader, WriteMessage, ensure_channel, GetChannel. rewrite Hl. cbn [mMSG].
    rewrite !decide_False by done. by destruct (c_action c).
  - destruct (perform_new h c m Hm Hc) as [H1 H2]. by split.
Qed.

Lemma calls_describe h m : calls h ∅ = Some m -> describes h m.
Proof.
  revert m. induction h as [|c h IH] using rev_ind; intros m.
  - cbn. intros [= <-] t. by rewrite lookup_empty.
  - rewrite topic_calls_snoc. destruct (calls h ∅) as [m'|] eqn:E; [|done]. cbn [mbind option_bind].
    destruct (perform_step h c m' (IH m' eq_refl)) as [Hr Hd]. destruct (perform c m') as [m'' r]. cbn [fst snd] in *. subst r.
    destruct (expected h c); [intros [= <-]; by apply Hd|intros [= <-]; by apply Hd|done].
Qed.

Lemma written_defined n w : written n w ≠ Undefined.
Proof. unfold written. by destruct (DdsWriter_Write _ _ _) as [[? []]|]. Qed.

Lemma undefined_cases h c :
  expected h c = Undefined <->
  ∃ f, creator h (c_topic c) = Some f ∧
    (c_MSG f ≠ c_MSG c ∨
     match c_action c with AWrite _ => has_writer h (c_topic c) = false | _ => topic_ok (c_native f) = false end).
Proof.
  unfold expected, has_writer, has_reader, topic_made. destruct (creator h (c_topic c)) as [f|] eqn:Ec.
  - assert (Hf : ∀ P : call -> Prop, (∃ f', Some f = Some f' ∧ P f') <-> P f) by naive_solver. rewrite Hf. clear Hf.
    destruct (decide (c_MSG f = c_MSG c)); [|naive_solver].
    assert (Hb : ∀ (b : bool) (r : result (option bool)), r ≠ Undefined -> (if b then r else Undefined) = Undefined <-> b = false)
      by (intros [] r Hr; by split).
    assert (HT : ∀ P : Prop, (c_MSG f ≠ c_MSG c ∨ P) <-> P) by tauto. rewrite HT.
    destruct (c_action c) as [|rcb q|w]; [| |by apply Hb, written_defined].
    + destruct (topic_ok _); cbn; [|done]. destruct (first_of _ h); [done|]. by destruct (writer_ok _).
    + destruct (topic_ok _); cbn; [|done]. destruct (first_of _ h); [done|]. by destruct (_ && _).
  - split; [|naive_solver]. destruct (c_action c); [destruct (_ && _)|destruct (_ && _)|]; done.
Qed.

(** C11. The topics of a [DdsEasyModel].  After any sequence of calls, with whatever
    failures of the DDS library, each of which had a meaning, the map of channels
    and the outcome of the next call are determined by the calls before it: the
    first [SetTopic] of a name fixes the message type and creates the topic; one
    writer and one reader can be added, and a further one is refused; a message is
    handed over when there is a writer, and [false] is returned for an unknown name.
    A call has no meaning in exactly these cases: another message type; a
    [SetTopic] after the creation of the topic failed; a message for a topic
    without a writer. *)
Theorem topic_calls_spec h m c :
  calls h ∅ = Some m ->
  (perform c m).2 = expected h c ∧
  (∀ t, m !! t = described h t) ∧
  ((perform c m).2 = Undefined <->
   ∃ f, creator h (c_topic c) = Some f ∧
     (c_MSG f ≠ c_MSG c ∨
      match c_action c with AWrite _ => has_writer h (c_topic c) = false | _ => topic_ok (c_native f) = false end)).
Proof.
  intros Hh%calls_describe. destruct (perform_step h c m Hh) as [Hr _]. split; [done|]. split; [exact Hh|]. rewrite Hr.
  apply undefined_cases.
Qed.

(** After a failed creation of its topic a name cannot be used again. *)
Lemma failed_topic_is_lost h m c f :
  calls h ∅ = Some m -> creator h (c_topic c) = Some f -> topic_ok (c_native f) = false ->
  (perform c m).2 = Undefined.
Proof.
  intros Hh%calls_describe Hc Hf. rewrite (proj1 (perform_step h c m Hh)). apply undefined_cases. exists f. split; [done|]. right.
  destruct (c_action c); [done|done|]. unfold has_writer, topic_made. by rewrite Hc, Hf.
Qed.

(** ** Publishers, subscribers and pairs *)

Lemma sender_complete inited n MSG (c : @DdsTopicChannel T Callback) :
  CreateSendChannel inited n MSG = Returns c -> mWriter c = true.
Proof.
  unfold CreateSendChannel, CreateTopicChannel, channel_SetTopic. destruct inited; cbn; [|done]. destruct (topic_ok n); cbn; [|done].
  unfold channel_SetWriter. cbn. destruct (writer_ok n); cbn; [|done]. by intros [= <-].
Qed.

(** The calls of a publisher. *)
Inductive pub_call := PInit (n : native) | PWrite (n : native) (w : Z) | PClose.

Definition pub_step (MSG : T) (a : pub_call) (p : option (@DdsTopicChannel T Callback)) :
    option (@DdsTopicChannel T Callback) * result (option bool) :=
  match a with
  | PInit n => let '(p, r) := publisher_InitChannel true n MSG p in
      (p, match r with Returns _ => Returns None | Throws e => Throws e | Undefined => Undefined end)
  | PWrite n w => (p, match publisher_Write n w p with Returns b => Returns (Some b) | Throws e => Throws e | Undefined => Undefined end)
  | PClose => (CloseChannel p, Returns None)
  end.

Lemma pub_complete MSG l p :
  (∀ x : @DdsTopicChannel T Callback, p = Some x -> mWriter x = true) ->
  ∀ x, foldl (fun p a => (pub_step MSG a p).1) p l = Some x -> mWriter x = true.
Proof.
  revert p. induction l as [|b l IH]; intros p Hp; [exact Hp|]. cbn [foldl]. apply IH. intros x. destruct b as [n|n w|]; cbn; [|apply Hp|done].
  unfold publisher_InitChannel, assign. destruct (CreateSendChannel true n MSG) eqn:E; [|apply Hp|apply Hp].
  intros [= <-]. by apply sender_complete in E.
Qed.

(** With an initialised factory no sequence of calls of a publisher is without
    meaning: before [InitChannel], after a failed one and after [CloseChannel]
    messages are refused, otherwise they are handed over. *)
Lemma publisher_lifecycle MSG l a :
  let p := foldl (fun p a => (pub_step MSG a p).1) None l in
  (pub_step MSG a p).2 ≠ Undefined ∧
  ∀ n w, a = PWrite n w -> (pub_step MSG a p).2 = match p with Some _ => written n w | None => Returns (Some false) end.
Proof.
  cbn zeta. pose proof (pub_complete MSG l None) as Hp.
  specialize (Hp ltac:(done)). destruct (foldl _ None l) as [c|].
  - specialize (Hp c eq_refl). assert (Hw : ∀ n w, (pub_step MSG (PWrite n w) (Some c)).2 = written n w).
    { intros n w. cbn. unfold channel_Write. rewrite Hp. cbn. rewrite write_total. unfold written.
      by destruct (DdsWriter_Write _ _ _) as [[? []]|]. }
    split; [|intros n w ->; apply Hw]. destruct a as [n|n w|]; [|rewrite Hw; apply written_defined|done].
    cbn. unfold publisher_InitChannel, CreateSendChannel, CreateTopicChannel, channel_SetTopic, channel_SetWriter.
    destruct (topic_ok n); cbn; [|done]. by destruct (writer_ok n).
  - split; [|by intros n w ->]. destruct a as [n|n w|]; [|done|done].
    cbn. unfold publisher_InitChannel, CreateSendChannel, CreateTopicChannel, channel_SetTopic, channel_SetWriter.
    destruct (topic_ok n); cbn; [|done]. by destruct (writer_ok n).
Qed.
End Histories.

(** ** Examples *)

Definition fine : native :=
  {| topic_ok := true; writer_ok := true; reader_ok := true; listener_ok := true; status := fun _ => Some 1; write_ok := true |}.
Definition no_topic : native :=
  {| topic_ok := false; writer_ok := true; reader_ok := true; listener_ok := true; status := fun _ => Some 1; write_ok := true |}.

Abbreviation at_topic n t a := {| c_native := n; c_MSG := 0%nat; c_topic := t; c_action := a |}.

Definition look (m : gmap string (@DdsTopicChannel nat unit)) (t : string) := m !! t.

(** A topic with a reader and a writer, and another whose creation failed: the next
    attempt follows a null pointer. *)
Definition example_calls : list (@call nat unit) :=
  [at_topic fine "rt/a" (AReader tt 0); at_topic fine "rt/a" AWriter; at_topic fine "rt/a" (AWrite 20000);
   at_topic no_topic "rt/b" AWriter].

Lemma topic_calls_spec_witness :
  ∃ m, calls (fun _ : unit => true) look example_calls ∅ = Some m ∧
    (perform_call (fun _ => true) look (at_topic fine "rt/a" (AWrite 0)) m).2 = Returns (Some true) ∧
    (perform_call (fun _ => true) look (at_topic fine "rt/a" AWriter) m).2 = Throws AlreadyExists ∧
    (perform_call (fun _ => true) look (at_topic fine "rt/c" (AWrite 0)) m).2 = Returns (Some false) ∧
    (perform_call (fun _ => true) look (at_topic fine "rt/b" AWriter) m).2 = Undefined.
Proof.
  destruct (calls (fun _ : unit => true) look example_calls ∅) as [m|] eqn:Hm.
  - pose proof (fun c => proj1 (topic_calls_spec (fun _ => true) look (fun _ _ => eq_refl) example_calls m c Hm)) as Hc.
    exists m. split; [done|]. rewrite !Hc. clear Hc Hm m. split_and!; vm_compute; reflexivity.
  - exfalso. assert (E : match calls (fun _ : unit => true) look example_calls ∅ with Some _ => true | None => false end = true)
      by (vm_compute; reflexivity). by rewrite Hm in E.
Defined.

(** A request/response pair that was not initialised has no guard. *)
Example labor_without_channel n w : labor_Send (T := nat) (Callback := unit) n w (None, None) = Undefined.
Proof. reflexivity. Qed.
End TopicsProps.
