(* ===== verification/Publisher.v ===== *)
(** * The real-time publisher and the subscription of the DDS wrapper.

    Models [src/include/unitree/dds_wrapper/common/Publisher.h]
    ([RealTimePublisher]: a real-time thread that fills [msg_] between [trylock]
    and [unlockAndPublish], and the [publishingLoop] thread that copies and
    writes it) as a step relation with one step per access to shared state, for
    any override of the virtual function [pre_communication], and
    [Subscription.h] ([SubscriptionBase]: the time of the last message and the
    connection wait).  What the loop hands to [publisher_->Write] is recorded;
    the channel itself belongs to the SDK library. *)

From S2P Require Import Prelude.

Local Open Scope Z_scope.

(** ** RealTimePublisher *)
Section Publisher.
Context {MessageType : Type}.

(** [pre_communication], which subclasses override: what [msg_] may become.  It
    is a relation because an override may read objects that other threads
    change.  [post_communication] is overridden nowhere. *)
Context (pre_communication : MessageType -> MessageType -> Prop).

Inductive turn := REALTIME | NON_REALTIME | LOOP_NOT_STARTED.

Inductive holder := Nobody | RtThread | LoopThread.

(** Where the real-time thread is: outside, inside [trylock] after [try_lock]
    succeeded or after the turn was wrong, owning [msg_], or in
    [unlockAndPublish] after the assignment to [turn_]. *)
Inductive rt_pc := Rt_outside | Rt_try | Rt_refused | Rt_owns | Rt_unlocking.

(** Where the publishing thread is. *)
Inductive loop_pc :=
| L_start                           (** before [is_running_ = true] *)
| L_turn                            (** before [turn_ = REALTIME] *)
| L_while                           (** at the test [while (keep_running_)] *)
| L_lock                            (** in [lock()], at the top or after a sleep *)
| L_test                            (** locked, at the test of the inner loop *)
| L_unlock                          (** locked, in the inner loop before [unlock()] *)
| L_pre                             (** locked, before [pre_communication()] *)
| L_copy                            (** locked, before [outgoing = msg_] *)
| L_give (outgoing : MessageType)   (** locked, before [turn_ = REALTIME] *)
| L_release (outgoing : MessageType) (** locked, before [unlock()] *)
| L_if (outgoing : MessageType)     (** at [if (keep_running_)] *)
| L_write (outgoing : MessageType)  (** before [publisher_->Write] *)
| L_exit                            (** before [is_running_ = false] *)
| L_end.

Record publisher := {
  msg_ : MessageType; turn_ : turn; is_running_ : bool; keep_running_ : bool;
  mutex_ : holder; rt : rt_pc; loop : loop_pc;
  requested : list MessageType;   (** [msg_] at each [unlockAndPublish] *)
  written : list MessageType      (** what was written to the channel *)
}.

(** The constructor. *)
Definition make (m : MessageType) : publisher :=
  {| msg_ := m; turn_ := LOOP_NOT_STARTED; is_running_ := false; keep_running_ := true;
     mutex_ := Nobody; rt := Rt_outside; loop := L_start; requested := []; written := [] |}.

Definition set_rt (p : publisher) (pc : rt_pc) (h : holder) : publisher :=
  {| msg_ := msg_ p; turn_ := turn_ p; is_running_ := is_running_ p; keep_running_ := keep_running_ p;
     mutex_ := h; rt := pc; loop := loop p; requested := requested p; written := written p |}.

Definition set_loop (p : publisher) (pc : loop_pc) (h : holder) : publisher :=
  {| msg_ := msg_ p; turn_ := turn_ p; is_running_ := is_running_ p; keep_running_ := keep_running_ p;
     mutex_ := h; rt := rt p; loop := pc; requested := requested p; written := written p |}.

Definition set_turn (p : publisher) (t : turn) : publisher :=
  {| msg_ := msg_ p; turn_ := t; is_running_ := is_running_ p; keep_running_ := keep_running_ p;
     mutex_ := mutex_ p; rt := rt p; loop := loop p; requested := requested p; written := written p |}.

Definition set_running (p : publisher) (b : bool) : publisher :=
  {| msg_ := msg_ p; turn_ := turn_ p; is_running_ := b; keep_running_ := keep_running_ p;
     mutex_ := mutex_ p; rt := rt p; loop := loop p; requested := requested p; written := written p |}.

Definition stop (p : publisher) : publisher :=
  {| msg_ := msg_ p; turn_ := turn_ p; is_running_ := is_running_ p; keep_running_ := false;
     mutex_ := mutex_ p; rt := rt p; loop := loop p; requested := requested p; written := written p |}.

Definition set_msg (p : publisher) (m : MessageType) : publisher :=
  {| msg_ := m; turn_ := turn_ p; is_running_ := is_running_ p; keep_running_ := keep_running_ p;
     mutex_ := mutex_ p; rt := rt p; loop := loop p; requested := requested p; written := written p |}.

Definition request (p : publisher) : publisher :=
  {| msg_ := msg_ p; turn_ := turn_ p; is_running_ := is_running_ p; keep_running_ := keep_running_ p;
     mutex_ := mutex_ p; rt := rt p; loop := loop p; requested := requested p ++ [msg_ p]; written := written p |}.

Definition write (p : publisher) (m : MessageType) : publisher :=
  {| msg_ := msg_ p; turn_ := turn_ p; is_running_ := is_running_ p; keep_running_ := keep_running_ p;
     mutex_ := mutex_ p; rt := rt p; loop := loop p; requested := requested p; written := written p ++ [m] |}.

(** [trylock], [unlockAndPublish] and the owner's stores to [msg_]. *)
Inductive rt_step : publisher -> publisher -> Prop :=
| rt_try_fails p :     (* try_lock fails: trylock returns false *)
    rt p = Rt_outside -> mutex_ p ≠ Nobody -> rt_step p p
| rt_try p :
    rt p = Rt_outside -> mutex_ p = Nobody -> rt_step p (set_rt p Rt_try RtThread)
| rt_accepted p :
    rt p = Rt_try -> turn_ p = REALTIME -> rt_step p (set_rt p Rt_owns (mutex_ p))
| rt_refused p :
    rt p = Rt_try -> turn_ p ≠ REALTIME -> rt_step p (set_rt p Rt_refused (mutex_ p))
| rt_refused_unlock p :
    rt p = Rt_refused -> rt_step p (set_rt p Rt_outside Nobody)
| rt_store p m :
    rt p = Rt_owns -> rt_step p (set_msg p m)
| rt_publish p :       (* unlockAndPublish: turn_ = NON_REALTIME *)
    rt p = Rt_owns -> rt_step p (set_rt (set_turn (request p) NON_REALTIME) Rt_unlocking (mutex_ p))
| rt_unlock p :        (* unlockAndPublish: mutex_.unlock() *)
    rt p = Rt_unlocking -> rt_step p (set_rt p Rt_outside Nobody).

(** [publishingLoop]. *)
Inductive loop_step : publisher -> publisher -> Prop :=
| l_start p :
    loop p = L_start -> loop_step p (set_loop (set_running p true) L_turn (mutex_ p))
| l_turn p :
    loop p = L_turn -> loop_step p (set_loop (set_turn p REALTIME) L_while (mutex_ p))
| l_while p :
    loop p = L_while -> loop_step p (set_loop p (if keep_running_ p then L_lock else L_exit) (mutex_ p))
| l_lock_busy p :      (* try_lock fails: sleep and try again *)
    loop p = L_lock -> mutex_ p ≠ Nobody -> loop_step p p
| l_lock p :
    loop p = L_lock -> mutex_ p = Nobody -> loop_step p (set_loop p L_test LoopThread)
| l_test_wait p :
    loop p = L_test -> turn_ p ≠ NON_REALTIME -> keep_running_ p = true ->
    loop_step p (set_loop p L_unlock (mutex_ p))
| l_test_done p :
    loop p = L_test -> (turn_ p = NON_REALTIME ∨ keep_running_ p = false) ->
    loop_step p (set_loop p L_pre (mutex_ p))
| l_pre p m :
    loop p = L_pre -> pre_communication (msg_ p) m ->
    loop_step p (set_loop (set_msg p m) L_copy (mutex_ p))
| l_unlock p :
    loop p = L_unlock -> loop_step p (set_loop p L_lock Nobody)
| l_copy p :
    loop p = L_copy -> loop_step p (set_loop p (L_give (msg_ p)) (mutex_ p))
| l_give p out :
    loop p = L_give out -> loop_step p (set_loop (set_turn p REALTIME) (L_release out) (mutex_ p))
| l_release p out :
    loop p = L_release out -> loop_step p (set_loop p (L_if out) Nobody)
| l_if p out :
    loop p = L_if out -> loop_step p (set_loop p (if keep_running_ p then L_write out else L_while) (mutex_ p))
| l_write p out :
    loop p = L_write out -> loop_step p (set_loop (write p out) L_while (mutex_ p))
| l_exit p :
    loop p = L_exit -> loop_step p (set_loop (set_running p false) L_end (mutex_ p)).

(** Either thread, or a call of [stop]. *)
Inductive step : publisher -> publisher -> Prop :=
| step_rt p p' : rt_step p p' -> step p p'
| step_loop p p' : loop_step p p' -> step p p'
| step_stop p : step p (stop p).

(** ** The invariant *)

Definition rt_inside (pc : rt_pc) : bool := match pc with Rt_outside => false | _ => true end.
Definition loop_inside (pc : loop_pc) : bool :=
  match pc with L_test | L_unlock | L_pre | L_copy | L_give _ | L_release _ => true | _ => false end.

(** The loop has run [pre_communication] and not yet given the turn back. *)
Definition prepared (pc : loop_pc) : bool := match pc with L_copy | L_give _ => true | _ => false end.

(** The messages the loop is taking to the channel, and the request waiting in
    [msg_]. *)
Definition carried (p : publisher) : list MessageType :=
  match loop p with
  | L_release m | L_if m | L_write m => [m]
  | pc => match turn_ p with NON_REALTIME => if prepared pc then [msg_ p] else [] | _ => [] end
  end.
Definition pending (p : publisher) : list MessageType :=
  match turn_ p with NON_REALTIME => if prepared (loop p) then [] else [msg_ p] | _ => [] end.

(** Every request but the pending one has been prepared, and then written or is
    being carried. *)
Definition accounted (p : publisher) : Prop :=
  ∃ served, requested p = served ++ pending p ∧ Forall2 pre_communication served (written p ++ carried p).

(** What has been written are the first requests, prepared. *)
Definition delivered (p : publisher) : Prop :=
  ∃ served rest, requested p = served ++ rest ∧ Forall2 pre_communication served (written p).

(** What the position of the loop says about the turn and the accounts. *)
Definition loop_ok (p : publisher) : Prop :=
  match loop p with
  | L_start | L_turn => turn_ p = LOOP_NOT_STARTED
  | L_pre | L_copy => keep_running_ p = true -> turn_ p = NON_REALTIME
  | L_give out => out = msg_ p ∧ (keep_running_ p = true -> turn_ p = NON_REALTIME)
  | L_write _ => accounted p
  | _ => True
  end.

Definition publisher_ok (p : publisher) : Prop :=
  rt_inside (rt p) && loop_inside (loop p) = false ∧
  mutex_ p = (if rt_inside (rt p) then RtThread else if loop_inside (loop p) then LoopThread else Nobody) ∧
  (rt p = Rt_owns -> turn_ p = REALTIME) ∧ loop_ok p ∧
  (keep_running_ p = true -> accounted p) ∧ delivered p.

Lemma make_publisher_ok m : publisher_ok (make m).
Proof.
  unfold publisher_ok, accounted, delivered, loop_ok. cbn. split_and!; try done; intros; [by exists [] | by exists [], []].
Qed.

Lemma accounted_delivered p : accounted p -> delivered p.
Proof.
  intros (served & Hr & Hf). apply Forall2_app_inv_r in Hf as (s1 & s2 & H1 & _ & ->).
  exists s1, (s2 ++ pending p). by rewrite Hr, <- app_assoc.
Qed.

Ltac publisher_case :=
  unfold publisher_ok, accounted, loop_ok, set_rt, set_loop, set_turn, set_running, set_msg, request, write, stop,
    carried, pending in *;
  cbn [msg_ turn_ is_running_ keep_running_ mutex_ rt loop requested written rt_inside loop_inside prepared andb] in *.

(** Closes a case once the positions are known: the accounts did not change, or
    a request was added, prepared, or written. *)
Ltac use_refl := repeat match goal with H : ?x = ?x -> _ |- _ => specialize (H eq_refl) end.
Ltac accounts :=
  match goal with
  | H : Forall2 pre_communication ?served _ |- ∃ _, _ =>
      repeat match goal with t : turn |- _ => destruct t end; rewrite ?app_nil_r in *;
      first [ exists served; rewrite ?app_nil_r; by split
            | exists served; rewrite <- ?app_assoc in *; rewrite ?app_nil_r in *; by split
            | eexists (served ++ [_]); rewrite ?app_nil_r; split; [reflexivity|];
              apply Forall2_app; [done | by constructor] ]
  end.
Ltac publisher_close :=
  use_refl; split_and!; intros; simplify_eq/=; use_refl; split_hyps; use_refl; simplify_eq/=; try done; try congruence;
  try accounts.

Lemma rt_step_ok p p' : rt_step p p' -> publisher_ok p -> publisher_ok p'.
Proof.
  intros Hs (Hx & Hm & Ho & Hl & Ha & Hp).
  assert (Hd : delivered p').
  { destruct Hs; try exact Hp. destruct Hp as (s & rest & Hr & Hf). exists s, (rest ++ [msg_ p]).
    cbn. by rewrite Hr, <- app_assoc. }
  revert Hd. destruct Hs as [p R M | p R M | p R T | p R T | p R | p mg R | p R | p R];
    destruct p as [mg' t r k h rpc lpc req wr]; publisher_case; subst; try done;
    destruct lpc; publisher_case; try discriminate; intros Hd.
  all: publisher_close.
Qed.

Lemma loop_step_ok p p' : loop_step p p' -> publisher_ok p -> publisher_ok p'.
Proof.
  intros Hs (Hx & Hm & Ho & Hl & Ha & Hp).
  assert (Hd : (∀ out, loop p ≠ L_write out) -> delivered p').
  { intros Hn. destruct Hs; try exact Hp. by edestruct Hn. }
  revert Hd.
  destruct Hs as [p L | p L | p L | p L M | p L M | p L T K | p L T | p mg' L P | p L | p L | p out L | p out L
    | p out L | p out L | p L]; destruct p as [mg t r k h rpc lpc req wr]; publisher_case; subst; try done;
    destruct rpc; publisher_case; try discriminate; intros Hd.
  all: try (specialize (Hd ltac:(congruence))).
  all: try destruct k; try (destruct T as [-> | ?]); try discriminate.
  all: publisher_close.
  all: try (apply accounted_delivered; publisher_case; accounts).
Qed.

Lemma publisher_step_ok p p' : step p p' -> publisher_ok p -> publisher_ok p'.
Proof.
  intros Hs Hok. destruct Hs as [p p' H | p p' H | p].
  - by eapply rt_step_ok.
  - by eapply loop_step_ok.
  - destruct Hok as (Hx & Hm & Ho & Hl & Ha & Hp). destruct p as [mg t r k h rpc lpc req wr]. publisher_case. subst.
    split_and!; try done. by destruct lpc; split_hyps.
Qed.

Lemma reachable_publisher_ok m p : rtc step (make m) p -> publisher_ok p.
Proof.
  intros H. cut (publisher_ok (make m)); [| apply make_publisher_ok].
  induction H as [| p1 p2 p3 Hs _ IH]; [done |]. intros. apply IH. by eapply publisher_step_ok.
Qed.
End Publisher.

(** ** SubscriptionBase *)

(** The members; times are nanoseconds of the steady clock, the time-out is in
    milliseconds. *)
Record subscription (MessageType : Type) := {
  sub_msg : MessageType; timeout_ms_ : Z; last_update_time_ : Z
}.
Arguments sub_msg {_} _.
Arguments timeout_ms_ {_} _.
Arguments last_update_time_ {_} _.

Section Subscription.
Context {MessageType : Type}.

(** The constructor at time [now]: the last update lies one time-out back. *)
Definition SubscriptionBase (m : MessageType) (now : Z) : subscription MessageType :=
  {| sub_msg := m; timeout_ms_ := 1000; last_update_time_ := now - 1000 * 1000000 |}.

(** The default handler. *)
Definition on_message (now : Z) (m : MessageType) (s : subscription MessageType) : subscription MessageType :=
  {| sub_msg := m; timeout_ms_ := timeout_ms_ s; last_update_time_ := now |}.

Definition set_timeout_ms (timeout_ms : Z) (s : subscription MessageType) : subscription MessageType :=
  {| sub_msg := sub_msg s; timeout_ms_ := timeout_ms; last_update_time_ := last_update_time_ s |}.

Definition isTimeout (now : Z) (s : subscription MessageType) : bool :=
  timeout_ms_ s * 1000000 <? now - last_update_time_ s.

(** The loop of [wait_for_connection]: an iteration is a poll (the clock and the
    subscription at that moment) and the clock after the sleep; the result is
    whether the warning was given.  [None] while it has not ended. *)
Fixpoint wait_for_connection (t0 : Z) (polls : list (Z * subscription MessageType * Z)) (warn_info : bool) : option bool :=
  match polls with
  | [] => None
  | (now, s, later) :: polls =>
      if isTimeout now s
      then wait_for_connection t0 polls (warn_info || (2000000000 <? later - t0))
      else Some warn_info
  end.

(** A subscription is timed out exactly when no message arrived in the last
    time-out period; the wait ends with the first poll that finds one. *)
Lemma isTimeout_message now now' m s :
  isTimeout now' (on_message now m s) = false <-> now' - now <= timeout_ms_ s * 1000000.
Proof. unfold isTimeout. cbn. rewrite Z.ltb_ge. lia. Qed.

Lemma wait_ends t0 polls now s later rest warn :
  Forall (fun p => isTimeout p.1.1 p.1.2 = true) polls -> isTimeout now s = false ->
  wait_for_connection t0 (polls ++ (now, s, later) :: rest) warn =
    Some (warn || existsb (fun p => 2000000000 <? p.2 - t0) polls).
Proof.
  intros H Hs. revert warn. induction H as [| [[n s'] l] polls Hp _ IH]; intros warn; cbn [app wait_for_connection existsb].
  - by rewrite Hs, orb_false_r.
  - cbn [fst snd] in *. rewrite Hp, IH. by rewrite orb_assoc.
Qed.
End Subscription.

(** ** Theorems *)
Module PublisherProps.

(** C18. In every interleaving of the real-time thread, the publishing thread and
    a stop, and for every override of [pre_communication]: the two threads are
    never both inside the region guarded by the mutex, so a message is never
    copied while it is being filled; what is written to the channel are the
    first messages requested, in order and without duplicates, each passed once
    through [pre_communication]; and while the publisher runs at most two
    requests are outstanding, the one being carried and the one waiting in
    [msg_]. *)
Theorem realtime_publisher_delivers {MessageType} (hook : MessageType -> MessageType -> Prop) m p :
  rtc (step hook) (make m) p ->
  rt_inside (rt p) && loop_inside (loop p) = false ∧
  (∃ served rest, requested p = served ++ rest ∧ Forall2 hook served (written p)) ∧
  (keep_running_ p = true ->
     (∃ served, requested p = served ++ pending p ∧ Forall2 hook served (written p ++ carried p)) ∧
     (length (requested p) <= length (written p) + 2)%nat).
Proof.
  intros H. destruct (reachable_publisher_ok hook m p H) as (Hx & _ & _ & _ & Ha & Hp). split_and!; [done | done |].
  intros Hk. specialize (Ha Hk). split; [exact Ha|]. destruct Ha as (served & -> & Hf%Forall2_length).
  rewrite length_app in *.
  assert (length (carried p) <= 1)%nat by (unfold carried; destruct (loop p), (turn_ p); cbn; lia).
  assert (length (pending p) <= 1)%nat by (unfold pending; destruct (turn_ p), (prepared (loop p)); cbn; lia). lia.
Qed.

Ltac rt_go c := eapply rtc_l; [apply step_rt; eapply c; first [reflexivity | discriminate] | cbn].
Ltac loop_go c := eapply rtc_l; [apply step_loop; eapply c; first [reflexivity | discriminate | (left; reflexivity)] | cbn].

(** A run that publishes one message. *)
Lemma publish_one {MessageType} (hook : MessageType -> MessageType -> Prop) m m' :
  hook m m' -> ∃ p, rtc (step hook) (make m) p ∧ requested p = [m] ∧ written p = [m'].
Proof.
  intros Hh. eexists. split; [|split].
  - loop_go @l_start. loop_go @l_turn. rt_go @rt_try. rt_go @rt_accepted. rt_go @rt_publish. rt_go @rt_unlock.
    loop_go @l_while. loop_go @l_lock. loop_go @l_test_done.
    eapply rtc_l; [apply step_loop; eapply (l_pre _ _ m'); [reflexivity | exact Hh] | cbn].
    loop_go @l_copy. loop_go @l_give. loop_go @l_release. loop_go @l_if. loop_go @l_write. apply rtc_refl.
  - reflexivity.
  - reflexivity.
Qed.

(** A hook that adds ten. *)
Lemma realtime_publisher_delivers_witness :
  ∃ p, written p = [15] ∧ requested p = [5] ∧ rt_inside (rt p) && loop_inside (loop p) = false.
Proof.
  destruct (publish_one (fun m m' => m' = m + 10) 5 15 eq_refl) as (p & Hp & Hr & Hw). exists p.
  split; [exact Hw|]. split; [exact Hr|].
  apply (realtime_publisher_delivers (fun m m' => m' = m + 10) 5 p Hp).
Defined.
End PublisherProps.
