(* ===== verification/RobotWrappers.v ===== *)
(** * The robot wrappers of the DDS library.

    Models [src/include/unitree/dds_wrapper/robots] ([go2_pub.h], [go2_sub.h],
    [go2.h], [g1_pub.h] and [g1_sub.h]): the publishers, which are
    [RealTimePublisher]s of [Publisher] with a [pre_communication] that seals
    commands or fills in the joystick, and the subscription of the robot state,
    whose [update] unpacks the joystick and watches its time-out.

    The classes of the go2 and of the g1 differ in their messages only.  A state
    message is the bytes of the object, as in [HgMsg], read and written at the
    offsets of the class; a copy of the object keeps them. *)

From stdpp Require Import strings sorting.
From S2P Require Import Prelude Floats Crc Gamepad Joystick LowCmd HgMsg Publisher.
Import Crc32.

Local Open Scope Z_scope.

(** ** State messages *)

(** A state class: the number of words before its last member, [crc], and the
    offset of [wireless_remote]. *)
Record Layout := { body_words : nat; remote_at : nat }.

(** [unitree_go::msg::dds_::LowState_]: 1180 bytes. *)
Definition go2_LowState : Layout := {| body_words := 294; remote_at := 1104 |}.

(** [unitree_hg::msg::dds_::LowState_]: 2092 bytes. *)
Definition g1_LowState : Layout := {| body_words := 522; remote_at := 2032 |}.

Definition layout_ok (L : Layout) : Prop := (remote_at L + 40 <= 4 * body_words L)%nat.

Definition message_ok (L : Layout) (m : bytes) : Prop :=
  length m = (4 * body_words L + 4)%nat ∧ bytes_ok m.

#[global] Instance message_ok_dec L m : Decision (message_ok L m).
Proof. unfold message_ok. apply _. Defined.

Definition remote (L : Layout) (m : bytes) : bytes := slice (remote_at L) 40 m.

(** [memcpy(&msg_.wireless_remote()[0], &key, 40)]. *)
Definition set_remote (L : Layout) (frame m : bytes) : bytes :=
  take (remote_at L) m ++ frame ++ drop (remote_at L + 40) m.

(** [msg_.crc() = crc32_core(p, (sizeof(MsgType)>>2)-1)], [p] pointing to [msg_]. *)
Definition seal_state (L : Layout) (m : bytes) : bytes :=
  take (4 * body_words L) m ++ le_bytes 4 (crc_of_object m).

(** The test a receiver makes of the checksum. *)
Definition crc_valid (L : Layout) (m : bytes) : bool :=
  le_val (slice (4 * body_words L) 4 m) =? crc_of_object m.

(** ** Publishers *)

(** [publisher::LowState::pre_communication]: [joystick] is null or points to a
    joystick; [junk] is what the uninitialised result of [combine] holds. *)
Definition LowState_pre_communication (L : Layout) (joystick : option UnitreeJoystick.t)
    (junk : xRockerBtnDataStruct) (m : bytes) : bytes :=
  seal_state L
    match joystick with
    | Some j => set_remote L (rf_buff (UnitreeJoystick.combine j junk)) m
    | None => m
    end.

(** Any contents the type allows. *)
Definition indeterminate (k : xRockerBtnDataStruct) : Prop :=
  GamepadProps.frame_ok k ∧ bytes_ok (rk_head k) ∧ bytes_ok (rk_idle k).

(** The joystick belongs to another thread: at each message it is in one of the
    states [joystick] (null when it is [None]), which [combine] reads as a whole;
    an update of the joystick while [combine] runs is left out. *)
Definition LowState_hook (L : Layout) (joystick : option (UnitreeJoystick.t -> Prop)) (m m' : bytes) : Prop :=
  match joystick with
  | Some states => ∃ j junk, states j ∧ indeterminate junk ∧
                             m' = LowState_pre_communication L (Some j) junk m
  | None => ∃ junk, m' = LowState_pre_communication L None junk m
  end.

(** [publisher::LowCmd] of the go2: constructor and [pre_communication]. *)
Definition go2_LowCmd_init (c : LowCmd.LowCmd_) : LowCmd.LowCmd_ :=
  {| head := [0xFE; 0xEF]; level_flag := 0xFF; frame_reserve := frame_reserve c; sn := sn c;
     version := version c; bandwidth := bandwidth c;
     motor_cmd := (fun m => {| mode := 1; q := q m; dq := dq m; tau := tau m; kp := kp m; kd := kd m;
                               reserve := reserve m |}) <$> motor_cmd c;
     bms_cmd := bms_cmd c; LowCmd.wireless_remote := LowCmd.wireless_remote c; led := led c; fan := fan c;
     gpio := gpio c; lc_reserve := lc_reserve c; crc := crc c |}.

Definition go2_LowCmd_hook (c c' : LowCmd.LowCmd_) : Prop :=
  ∃ pad, LowCmd.padding_ok pad ∧ c' = LowCmd.seal pad c.

(** [publisher::LowCmd] of the g1. *)
Definition g1_LowCmd_hook (c c' : Hg.LowCmd_) : Prop :=
  ∃ pad, Hg.padding_ok pad ∧ c' = Hg.seal pad c.

(** [check_mode_machine], once the subscription is connected. *)
Definition check_mode_machine (msg_ : Hg.LowCmd_) (state : bytes) : bool :=
  let m_sub := Hg.state_mode_machine state in
  let m_pub := Hg.mode_machine msg_ in
  negb (negb (m_sub =? 0) && negb (m_sub =? m_pub)).

(** [publisher::ArmSdk::weight], setter and getter. *)
Definition set_weight (coe : float32) (c : Hg.LowCmd_) : Hg.LowCmd_ :=
  {| Hg.mode_pr := Hg.mode_pr c; Hg.mode_machine := Hg.mode_machine c;
     Hg.motor_cmd := alter (fun m => {| Hg.mode := Hg.mode m; Hg.q := std_clamp coe fzero (F32.of_Z 1);
                                        Hg.dq := Hg.dq m; Hg.tau := Hg.tau m; Hg.kp := Hg.kp m;
                                        Hg.kd := Hg.kd m; Hg.reserve := Hg.reserve m |}) 29%nat (Hg.motor_cmd c);
     Hg.lc_reserve := Hg.lc_reserve c; Hg.crc := Hg.crc c |}.

Definition weight (c : Hg.LowCmd_) : option float32 := Hg.q <$> Hg.motor_cmd c !! 29%nat.

(** [publisher::WirelessController::pre_communication]. *)
Definition WirelessController_pre_communication (joystick : option UnitreeJoystick.t)
    (junk : xRockerBtnDataStruct) (m : WirelessGamepad.WirelessController_) : WirelessGamepad.WirelessController_ :=
  match joystick with
  | Some j =>
      {| WirelessGamepad.msg_lx := Axis.data_ (UnitreeJoystick.lx j);
         WirelessGamepad.msg_ly := Axis.data_ (UnitreeJoystick.ly j);
         WirelessGamepad.msg_rx := Axis.data_ (UnitreeJoystick.rx j);
         WirelessGamepad.msg_ry := Axis.data_ (UnitreeJoystick.ry j);
         WirelessGamepad.msg_keys := rk_btn (UnitreeJoystick.combine j junk) |}
  | None => m
  end.

(** ** Subscriptions *)

(** [subscription::LowState]; times are nanoseconds of the system clock. *)
Record LowStateSub := {
  base : subscription bytes;
  joystick : UnitreeJoystick.t;
  joystick_timeout_ms_ : Z;
  isJoystickTimeout_ : bool;
  last_joystick_time_ : Z
}.

(** The constructor: a default [time_point] is the epoch. *)
Definition LowStateSub_make (m : bytes) (now : Z) : LowStateSub :=
  {| base := SubscriptionBase m now; joystick := UnitreeJoystick.init; joystick_timeout_ms_ := 3000;
     isJoystickTimeout_ := false; last_joystick_time_ := 0 |}.

(** The handler of the base class. *)
Definition receive (now : Z) (m : bytes) (s : LowStateSub) : LowStateSub :=
  {| base := on_message now m (base s); joystick := joystick s; joystick_timeout_ms_ := joystick_timeout_ms_ s;
     isJoystickTimeout_ := isJoystickTimeout_ s; last_joystick_time_ := last_joystick_time_ s |}.

(** [update]. *)
Definition update (L : Layout) (now : Z) (s : LowStateSub) : LowStateSub :=
  let frame := remote L (sub_msg (base s)) in
  let inactive := forallb (fun i => i =? 0) frame in
  {| base := base s;
     joystick := UnitreeJoystick.extract (joystick s) (rf_rx frame);
     joystick_timeout_ms_ := joystick_timeout_ms_ s;
     isJoystickTimeout_ :=
       if inactive then
         if joystick_timeout_ms_ s * 1000000 <? now - last_joystick_time_ s then true else isJoystickTimeout_ s
       else false;
     last_joystick_time_ := if inactive then last_joystick_time_ s else now |}.

(** ** shutdown() of go2.h *)

(** The loop [while (msc->CheckMode(form, name), !name.empty())], over what each
    [CheckMode] stores in [name] ([None] when it stores nothing) and what the
    [ReleaseMode] after it returns: the numbers of calls of [ReleaseMode] and of
    warnings; [None] while the loop has not ended. *)
Fixpoint shutdown (calls : list (option string * Z)) (name : string) : option (nat * nat) :=
  match calls with
  | [] => None
  | (answer, ret) :: calls =>
      let name := default name answer in
      if bool_decide (name = ""%string) then Some (0, 0)%nat
      else '(released, warned) ← shutdown calls name;
           Some (S released, if ret =? 0 then warned else S warned)
  end.

(** A message arrives and the program calls [update]. *)
Definition observe (L : Layout) (s : LowStateSub) (u : Z * bytes) : LowStateSub := update L u.1 (receive u.1 u.2 s).

(** * Properties *)
Module WrapperProps.
Import Keys UnitreeJoystick JoystickProps.

Lemma layouts_ok L : L ∈ [go2_LowState; g1_LowState] -> layout_ok L.
Proof. rewrite !elem_of_cons. intros [-> | [-> | []%not_elem_of_nil]]; by apply Nat.leb_le. Qed.

(** ** Joystick and frame *)

(** The fourteen buttons that have a key in the frame, with its bit. *)
Definition keyed_buttons : list ((t -> JButton.t) * Z) :=
  [(back, bit_select); (start, bit_start); (LB, bit_L1); (RB, bit_R1); (F1, bit_F1); (F2, bit_F2);
   (A, bit_A); (B, bit_B); (X, bit_X); (Y, bit_Y); (up, bit_up); (down, bit_down); (left, bit_left);
   (right, bit_right)].

(** Buttons hold what [extract] stores in them, sticks are [float]s. *)
Definition joystick_ok (j : t) : Prop :=
  Forall (fun b => JButton.data_ (b.1 j) = 0 ∨ JButton.data_ (b.1 j) = 1) keyed_buttons ∧
  Forall (fun a => f32_ok (Axis.data_ a) = true) [lx j; ly j; rx j; ry j].

#[global] Instance joystick_ok_dec j : Decision (joystick_ok j).
Proof. unfold joystick_ok. apply _. Defined.

(** [each_button] does a case for each of the fourteen. *)
Ltac each_button H :=
  unfold keyed_buttons in H; rewrite ?elem_of_cons in H;
  repeat (destruct H as [-> | H]); [.. | by apply not_elem_of_nil in H].

Lemma combine_button j w b :
  b ∈ keyed_buttons -> Z.testbit (combine_keys j w) b.2 = Z.odd (JButton.data_ (b.1 j)).
Proof. intros Hb. unfold combine_keys. each_button Hb; cbn [fst snd]; by rewrite !set_field_spec by done. Qed.

Lemma extract_button j k b :
  b ∈ keyed_buttons -> b.1 (extract j k) = JButton.update (b.1 j) (comp_int (rk_btn k) b.2).
Proof. intros Hb. by each_button Hb. Qed.

(** The update of a keyed button by a frame that [combine] made. *)
Lemma extract_combine_button s j junk b :
  joystick_ok j -> b ∈ keyed_buttons ->
  b.1 (extract s (combine j junk)) = JButton.update (b.1 s) (JButton.data_ (b.1 j)).
Proof.
  intros [H01 _] Hb. rewrite extract_button by exact Hb. f_equal.
  unfold comp_int, comp. cbn [combine rk_btn]. rewrite combine_button by exact Hb.
  rewrite Forall_forall in H01. by destruct (H01 b Hb) as [-> | ->].
Qed.

Lemma combine_keys_u16 j w : in_u 16 w -> in_u 16 (combine_keys j w).
Proof.
  intros Hw. unfold combine_keys.
  assert (H : ∀ w bit d, in_u 16 w -> 0 <= bit < 16 -> in_u 16 (set_field w bit d)); [|by repeat apply H].
  clear. intros w bit d Hw Hbit. apply testbit_high_in_u; [done| |].
  - unfold set_field. destruct Hw. destruct (Z.odd d).
    + apply Z.lor_nonneg. split; [lia|]. apply Z.shiftl_nonneg. lia.
    + apply Z.ldiff_nonneg. by left.
  - intros i Hi. rewrite set_field_spec by lia. destruct (Z.eqb_spec bit i); [lia|]. by eapply in_u_testbit_high.
Qed.

Lemma combine_frame_ok j junk :
  joystick_ok j -> indeterminate junk ->
  GamepadProps.frame_ok (combine j junk) ∧ length (rf_buff (combine j junk)) = 40%nat ∧
  bytes_ok (rf_buff (combine j junk)).
Proof.
  intros [_ Ha] ((H1 & H2 & H3 & _ & _ & _ & H4 & _) & B1 & B2).
  assert (Hf : GamepadProps.frame_ok (combine j junk)).
  { unfold GamepadProps.frame_ok. cbn. decompose_Forall_hyps. split_and!; try done. by apply combine_keys_u16. }
  split; [exact Hf|]. split; [by apply GamepadProps.remote_frame_roundtrip|].
  change (rk_head junk) with (rk_head (combine j junk)) in B1.
  change (rk_idle junk) with (rk_idle (combine j junk)) in B2. clear Hf. revert B1 B2.
  generalize (combine j junk). intros k B1 B2. unfold rf_buff. LowCmdProps.bytes_solve.
Qed.

(** ** Sealed state messages *)
Section State.
Context (L : Layout) (HL : layout_ok L).

Lemma crc_of_message m : length m = (4 * body_words L + 4)%nat ->
  crc_of_object m = crc32_core (words (take (4 * body_words L) m)).
Proof.
  intros Hl. unfold crc_of_object. rewrite LowCmdProps.take_words, Hl.
  replace (Nat.pred ((4 * body_words L + 4) / 4)) with (body_words L); [done|].
  replace (4 * body_words L + 4)%nat with (S (body_words L) * 4)%nat by lia. by rewrite Nat.div_mul.
Qed.

Lemma seal_state_ok m : message_ok L m ->
  message_ok L (seal_state L m) ∧ crc_valid L (seal_state L m) = true ∧
  crc32_core (words (seal_state L m)) = 0.
Proof.
  intros [Hl Hb]. set (body := take (4 * body_words L) m).
  assert (Lb : length body = (4 * body_words L)%nat) by (subst body; rewrite length_take, Hl; lia).
  assert (Bb : bytes_ok body) by by apply Forall_take.
  assert (E : seal_state L m = body ++ le_bytes 4 (crc32_core (words body))).
  { unfold seal_state. by rewrite (crc_of_message m Hl). }
  rewrite E. split; [|split; [|by apply (LowCmdProps.residue_sealed (body_words L))]].
  - split; [by rewrite length_app, Lb, length_le_bytes|]. by apply Forall_app; split; [|apply le_bytes_ok].
  - unfold crc_valid. apply Z.eqb_eq. rewrite (LowCmdProps.crc_of_object_body (body_words L)) by done.
    unfold slice. rewrite <- Lb, drop_app_length, take_ge by by rewrite length_le_bytes.
    apply le_val_bytes, Crc32Spec.crc32_in. by apply (LowCmdProps.words_ok (body_words L)).
Qed.

Lemma remote_seal m : length m = (4 * body_words L + 4)%nat -> remote L (seal_state L m) = remote L m.
Proof.
  intros Hl. unfold remote, slice, seal_state. rewrite drop_app_le, take_app_le.
  - rewrite !take_drop_commute, take_take. f_equal. f_equal. unfold layout_ok in HL. lia.
  - rewrite length_drop, length_take. unfold layout_ok in HL. lia.
  - rewrite length_take. unfold layout_ok in HL. lia.
Qed.

Lemma set_remote_ok f m : length f = 40%nat -> bytes_ok f -> message_ok L m ->
  message_ok L (set_remote L f m) ∧ remote L (set_remote L f m) = f.
Proof.
  unfold layout_ok in HL. intros Hf Bf [Hl Hb]. unfold set_remote. split; [split|].
  - rewrite !length_app, length_take, length_drop, Hf, Hl. lia.
  - apply Forall_app; split; [by apply Forall_take|]. by apply Forall_app; split; [|apply Forall_drop].
  - unfold remote. assert (Lt : length (take (remote_at L) m) = remote_at L) by (rewrite length_take; lia).
    rewrite slice_app_r by by symmetry. by apply take_app_length'.
Qed.
End State.

(** ** What the publishers write *)

Lemma pre_communication_ok L joystick m m' :
  layout_ok L -> (∀ states j, joystick = Some states -> states j -> joystick_ok j) ->
  message_ok L m -> LowState_hook L joystick m m' ->
  message_ok L m' ∧ crc_valid L m' = true ∧ crc32_core (words m') = 0 ∧
  match joystick with
  | Some states => ∃ j junk, states j ∧ indeterminate junk ∧ remote L m' = rf_buff (combine j junk) ∧
                             rf_rx (remote L m') = combine j junk
  | None => remote L m' = remote L m
  end.
Proof.
  intros HL Hj Hm Hh. destruct joystick as [states|]; cbn [LowState_hook] in Hh.
  - destruct Hh as (j & junk & Hs & Hjunk & ->). unfold LowState_pre_communication.
    destruct (combine_frame_ok j junk (Hj states j eq_refl Hs) Hjunk) as (Hf & Hl & Hb).
    destruct (set_remote_ok L HL _ m Hl Hb Hm) as [Hm' Hr].
    destruct (seal_state_ok L _ Hm') as (H1 & H2 & H3). split_and!; [done..|].
    exists j, junk. rewrite (remote_seal L HL) by by destruct Hm'. rewrite Hr.
    split_and!; [done..|]. by apply GamepadProps.remote_frame_roundtrip.
  - destruct Hh as [junk ->]. unfold LowState_pre_communication.
    destruct (seal_state_ok L m Hm) as (H1 & H2 & H3). split_and!; [done..|].
    apply (remote_seal L HL). by destruct Hm.
Qed.

(** Every message written comes from a request and the hook. *)
Lemma written_from_request {M} (hook : M -> M -> Prop) m0 p m' :
  rtc (step hook) (make m0) p -> m' ∈ written p -> ∃ m, m ∈ requested p ∧ hook m m'.
Proof.
  intros Hp Hm'. destruct (reachable_publisher_ok hook m0 p Hp) as (_ & _ & _ & _ & _ & (served & rest & -> & Hf)).
  apply list_elem_of_lookup_1 in Hm' as [i Hi].
  destruct (Forall2_lookup_r _ _ _ _ _ Hf Hi) as (m & Hm & Hh). exists m. split; [|exact Hh].
  apply elem_of_app. left. by eapply list_elem_of_lookup_2.
Qed.

(** C13. What a robot publishes about its joystick is what a program sees.  Let a
    [LowState] publisher run in any interleaving with its users while the
    joystick it points to changes among well-formed states.  Every message it
    writes has a valid checksum and carries the joystick in some state [j] it
    had: when a subscription receives that message and updates, its fourteen
    keyed buttons are updated with exactly the data of [j]'s, and its sticks are
    filtered with exactly [j]'s values. *)
Theorem joystick_travels L states m0 p m' :
  layout_ok L -> (∀ j, states j -> joystick_ok j) ->
  rtc (step (LowState_hook L (Some states))) (make m0) p ->
  Forall (message_ok L) (requested p) -> m' ∈ written p ->
  crc_valid L m' = true ∧ crc32_core (words m') = 0 ∧
  ∃ j, states j ∧ ∀ s now later,
    let s' := joystick (update L later (receive now m' s)) in
    (∀ b, b ∈ keyed_buttons -> b.1 s' = JButton.update (b.1 (joystick s)) (JButton.data_ (b.1 j))) ∧
    lx s' = Axis.update (lx (joystick s)) (Axis.data_ (lx j)) ∧
    ly s' = Axis.update (ly (joystick s)) (Axis.data_ (ly j)) ∧
    rx s' = Axis.update (rx (joystick s)) (Axis.data_ (rx j)) ∧
    ry s' = Axis.update (ry (joystick s)) (Axis.data_ (ry j)).
Proof.
  intros HL Hok Hp Hreq Hm'. destruct (written_from_request _ m0 p m' Hp Hm') as (m & Hm & Hh).
  rewrite Forall_forall in Hreq.
  destruct (pre_communication_ok L (Some states) m m' HL) as (_ & Hc & Hz & (j & junk & Hs & _ & _ & Hr));
    [by intros ? ? [= <-]; apply Hok|by apply Hreq|exact Hh|].
  split; [exact Hc|]. split; [exact Hz|]. exists j. split; [exact Hs|]. intros s now later s'.
  assert (E : s' = extract (joystick s) (combine j junk)) by (subst s'; cbn; by rewrite Hr).
  rewrite E. split; [|repeat split]. intros b Hb. apply extract_combine_button; [by apply Hok|exact Hb].
Qed.

Definition pressed_A : t :=
  extract init {| rk_head := [0; 0]; rk_btn := 0x0100; rk_lx := fzero; rk_rx := fzero; rk_ry := fzero;
                  rk_L2 := fzero; rk_ly := fzero; rk_idle := replicate 16 0 |}.

Lemma pressed_A_ok : joystick_ok pressed_A.
Proof. apply (bool_decide_unpack _). vm_compute. exact I. Qed.

(** A message of zeros. *)
Definition blank (L : Layout) : bytes := replicate (4 * body_words L + 4) 0.

Lemma blank_ok L : message_ok L (blank L).
Proof. split; [apply length_replicate|]. by apply Forall_replicate. Qed.

Definition junk_frame (idle : Z) : xRockerBtnDataStruct :=
  {| rk_head := [0; 0]; rk_btn := 0xFFFF; rk_lx := fzero; rk_rx := fzero; rk_ry := fzero; rk_L2 := fzero;
     rk_ly := fzero; rk_idle := replicate 16 idle |}.

Lemma junk_frame_ok idle : in_u 8 idle -> indeterminate (junk_frame idle).
Proof.
  intros H. unfold indeterminate, GamepadProps.frame_ok. split_and!; try done.
  - by repeat constructor.
  - by apply Forall_replicate.
Qed.

(** A run in which one message is published while the key A is held. *)
Lemma joystick_travels_witness :
  ∃ p m', written p = [m'] ∧ crc_valid go2_LowState m' = true ∧ crc32_core (words m') = 0.
Proof.
  set (m0 := blank go2_LowState). set (j := pressed_A).
  set (m' := LowState_pre_communication go2_LowState (Some j) (junk_frame 1) m0).
  assert (Hh : LowState_hook go2_LowState (Some (eq j)) m0 m').
  { exists j, (junk_frame 1). split; [reflexivity|]. split; [by apply junk_frame_ok|reflexivity]. }
  pose proof pressed_A_ok as Hj. pose proof (blank_ok go2_LowState) as Hm. fold j in Hj. fold m0 in Hm.
  clearbody j m0 m'.
  destruct (PublisherProps.publish_one _ m0 m' Hh) as (p & Hp & Hreq & Hw). exists p, m'. split; [exact Hw|].
  destruct (joystick_travels go2_LowState (eq j) m0 p m') as (H1 & H2 & _).
  - by apply (layouts_ok go2_LowState); left.
  - by intros ? <-.
  - exact Hp.
  - rewrite Hreq. by constructor.
  - rewrite Hw. by left.
  - by split.
Defined.

(** ** The joystick time-out *)

(** The frame of a message holds only zeros. *)
Definition inactive (L : Layout) (m : bytes) : bool := forallb (fun i => i =? 0) (remote L m).

Definition late (timeout_ms since : Z) (u : Z * bytes) : bool := timeout_ms * 1000000 <? u.1 - since.

Lemma observe_inactive L s u : inactive L u.2 = true ->
  last_joystick_time_ (observe L s u) = last_joystick_time_ s ∧
  joystick_timeout_ms_ (observe L s u) = joystick_timeout_ms_ s ∧
  isJoystickTimeout_ (observe L s u) =
    isJoystickTimeout_ s || late (joystick_timeout_ms_ s) (last_joystick_time_ s) u.
Proof.
  unfold inactive, observe, update, receive, late. cbn [base on_message sub_msg joystick_timeout_ms_
    last_joystick_time_ isJoystickTimeout_]. intros ->. split; [done|]. split; [done|].
  by destruct (_ <? _), (isJoystickTimeout_ s).
Qed.

Lemma observe_idle L idle s : Forall (fun u => inactive L u.2 = true) idle ->
  last_joystick_time_ (foldl (observe L) s idle) = last_joystick_time_ s ∧
  isJoystickTimeout_ (foldl (observe L) s idle) =
    isJoystickTimeout_ s || existsb (late (joystick_timeout_ms_ s) (last_joystick_time_ s)) idle.
Proof.
  intros Hi. revert s. induction Hi as [|u idle Hu _ IH]; intros s; cbn [foldl existsb].
  - by rewrite orb_false_r.
  - destruct (observe_inactive L s u Hu) as (E1 & E2 & E3). destruct (IH (observe L s u)) as [-> ->].
    by rewrite E1, E2, E3, orb_assoc.
Qed.

Lemma existsb_late_last timeout since idle last :
  Sorted (fun u v : Z * bytes => u.1 <= v.1) (idle ++ [last]) ->
  existsb (late timeout since) (idle ++ [last]) = late timeout since last.
Proof.
  intros Hs. apply eq_iff_eq_true. rewrite existsb_exists. split.
  - intros (u & Hin & Hl). apply list_elem_of_In, elem_of_app in Hin as [Hin | ->%list_elem_of_singleton]; [|exact Hl].
    apply Sorted_StronglySorted in Hs; [|intros ???; lia].
    assert (u.1 <= last.1).
    { apply list_elem_of_split in Hin as (l1 & l2 & ->). rewrite <- app_assoc in Hs. clear Hl.
      induction l1 as [|v l1 IH]; inversion_clear Hs as [|?? Hs' Hf]; [|by apply IH].
      rewrite Forall_forall in Hf. apply Hf, elem_of_app. right. by left. }
    unfold late in *. rewrite Z.ltb_lt in *. lia.
  - intros Hl. exists last. split; [|exact Hl]. apply in_or_app. right. by left.
Qed.

(** The joystick time-out.  After the last frame with a non-zero byte, at
    time [t], the joystick is reported as timed out exactly when one of the
    updates since then came more than the time-out later; on a clock that never
    goes back, exactly when the last one did.  Before the first such frame the
    reference is the epoch. *)
Lemma joystick_timeout L s t m idle :
  inactive L m = false -> Forall (fun u => inactive L u.2 = true) idle ->
  let s' := foldl (observe L) s ((t, m) :: idle) in
  last_joystick_time_ s' = t ∧
  isJoystickTimeout_ s' = existsb (late (joystick_timeout_ms_ s) t) idle ∧
  (∀ pre last, idle = pre ++ [last] -> Sorted (fun u v => u.1 <= v.1) idle ->
     isJoystickTimeout_ s' = late (joystick_timeout_ms_ s) t last) ∧
  (∀ start, let s0 := LowStateSub_make (blank L) start in
     isJoystickTimeout_ (foldl (observe L) s0 idle) = existsb (late 3000 0) idle).
Proof.
  intros Hm Hi s'. cbn [foldl] in s'.
  assert (E : last_joystick_time_ (observe L s (t, m)) = t ∧ isJoystickTimeout_ (observe L s (t, m)) = false ∧
              joystick_timeout_ms_ (observe L s (t, m)) = joystick_timeout_ms_ s).
  { unfold inactive in Hm. unfold observe, update, receive. cbn [base on_message sub_msg joystick_timeout_ms_
      last_joystick_time_ isJoystickTimeout_ fst snd]. by rewrite Hm. }
  destruct E as (E1 & E2 & E3). destruct (observe_idle L idle (observe L s (t, m)) Hi) as [H1 H2].
  fold s' in H1, H2. rewrite E1, E2, E3 in *. split; [exact H1|]. split; [exact H2|]. split.
  - intros pre last -> Hs. rewrite H2. by apply existsb_late_last.
  - intros start s0. by destruct (observe_idle L idle s0 Hi) as [_ ->].
Qed.

Lemma joystick_timeout_witness :
  let frame k := set_remote g1_LowState (rf_buff (junk_frame k)) (blank g1_LowState) in
  isJoystickTimeout_ (foldl (observe g1_LowState) (LowStateSub_make (blank g1_LowState) 0)
    [(7, frame 1); (3000000008, blank g1_LowState)]) = true.
Proof.
  intros frame.
  destruct (joystick_timeout g1_LowState (LowStateSub_make (blank g1_LowState) 0) 7 (frame 1)
              [(3000000008, blank g1_LowState)]) as (_ & E & _).
  - by vm_compute.
  - by repeat constructor.
  - by rewrite E.
Defined.

(** ** A joystick at rest *)

(** The bytes of the frame that [combine] does not assign. *)
Definition unassigned (k : xRockerBtnDataStruct) : bytes := rk_head k ++ f32_le (rk_L2 k) ++ rk_idle k.

Lemma combine_init_keys w : in_u 16 w -> combine_keys init w = 0.
Proof.
  intros Hw. apply Z.bits_inj'. intros i Hi. rewrite Z.bits_0.
  destruct (Z.lt_ge_cases i 16) as [H16|H16]; [|by eapply in_u_testbit_high; [apply combine_keys_u16|]].
  unfold combine_keys. rewrite !set_field_spec by done.
  assert (Hin : In i [0; 1; 2; 3; 4; 5; 6; 7; 8; 9; 10; 11; 12; 13; 14; 15]) by (cbn; lia).
  repeat (destruct Hin as [<- | Hin]; [by vm_compute|]). destruct Hin.
Qed.

Lemma rest_frame junk : in_u 16 (rk_btn junk) ->
  forallb (fun i => i =? 0) (rf_buff (combine init junk)) = forallb (fun i => i =? 0) (unassigned junk).
Proof.
  intros Hw. unfold rf_buff, unassigned.
  change (rk_btn (combine init junk)) with (combine_keys init (rk_btn junk)). rewrite combine_init_keys by done.
  change (rk_lx (combine init junk)) with fzero. change (rk_ly (combine init junk)) with fzero.
  change (rk_rx (combine init junk)) with fzero. change (rk_ry (combine init junk)) with fzero.
  change (rk_head (combine init junk)) with (rk_head junk). change (rk_L2 (combine init junk)) with (rk_L2 junk).
  change (rk_idle (combine init junk)) with (rk_idle junk).
  rewrite !forallb_app. change (forallb (fun i => i =? 0) (f32_le fzero)) with true.
  change (forallb (fun i => i =? 0) (le_bytes 2 0)) with true. by rewrite !andb_true_l.
Qed.

(** Whether a joystick nobody touches is seen as inactive depends on
    uninitialised memory: the frame [combine] returns for it is all zeros exactly
    when the bytes it does not assign happen to be, and otherwise every update
    of a subscription clears the time-out and counts as activity. *)
Lemma rest_joystick_depends_on_junk L junk m s now later :
  layout_ok L -> message_ok L m -> indeterminate junk ->
  let m' := LowState_pre_communication L (Some init) junk m in
  let s' := update L later (receive now m' s) in
  inactive L m' = forallb (fun i => i =? 0) (unassigned junk) ∧
  (forallb (fun i => i =? 0) (unassigned junk) = false ->
   isJoystickTimeout_ s' = false ∧ last_joystick_time_ s' = later).
Proof.
  intros HL Hm Hjunk m' s'.
  assert (Hj : joystick_ok init) by (apply (bool_decide_unpack _); vm_compute; exact I).
  assert (Hr : remote L m' = rf_buff (combine init junk)).
  { destruct (combine_frame_ok init junk Hj Hjunk) as (_ & Hl & Hb).
    destruct (set_remote_ok L HL _ m Hl Hb Hm) as [Hm' Hr]. subst m'. unfold LowState_pre_communication.
    rewrite (remote_seal L HL) by by destruct Hm'. exact Hr. }
  assert (E : inactive L m' = forallb (fun i => i =? 0) (unassigned junk)).
  { unfold inactive. rewrite Hr. apply rest_frame. apply Hjunk. }
  split; [exact E|]. intros H. rewrite <- E in H. unfold inactive in H.
  subst s'. unfold update, receive. cbn [base on_message sub_msg isJoystickTimeout_ last_joystick_time_]. by rewrite H.
Qed.

Lemma rest_joystick_depends_on_junk_witness :
  inactive go2_LowState (LowState_pre_communication go2_LowState (Some init) (junk_frame 0) (blank go2_LowState)) = true ∧
  inactive go2_LowState (LowState_pre_communication go2_LowState (Some init) (junk_frame 1) (blank go2_LowState)) = false.
Proof.
  split.
  - destruct (rest_joystick_depends_on_junk go2_LowState (junk_frame 0) (blank go2_LowState)
      (LowStateSub_make (blank go2_LowState) 0) 0 0) as [E _];
      [by apply (layouts_ok go2_LowState); left|apply blank_ok|by apply junk_frame_ok|exact E].
  - destruct (rest_joystick_depends_on_junk go2_LowState (junk_frame 1) (blank go2_LowState)
      (LowStateSub_make (blank go2_LowState) 0) 0 0) as [E _];
      [by apply (layouts_ok go2_LowState); left|apply blank_ok|by apply junk_frame_ok|exact E].
Defined.

(** ** Commands *)

Lemma alter_29 (f : Hg.MotorCmd_ -> Hg.MotorCmd_) c : Hg.cmd_ok c -> ∃ m, Hg.motor_cmd c !! 29%nat = Some m.
Proof. intros (_ & _ & Hl & _). apply lookup_lt_is_Some. rewrite Hl. by apply Nat.leb_le. Qed.

(** The weight that is read back is the one that was set, clamped; only NaN
    escapes the clamp.  The other motors keep their commands. *)
Lemma weight_set coe c : Hg.cmd_ok c ->
  weight (set_weight coe c) = Some (std_clamp coe fzero (F32.of_Z 1)) ∧
  (is_nan coe = false -> fin_range fzero (std_clamp coe fzero (F32.of_Z 1)) (F32.of_Z 1)) ∧
  (∀ i, i ≠ 29%nat -> Hg.motor_cmd (set_weight coe c) !! i = Hg.motor_cmd c !! i) ∧
  Hg.cmd_ok (set_weight coe c).
Proof.
  intros Hc. destruct (alter_29 id c Hc) as [m Hm]. split; [|split; [|split]].
  - unfold weight, set_weight. cbn [Hg.motor_cmd]. by rewrite list_lookup_alter, Hm.
  - intros Hn. by apply std_clamp_range.
  - intros i Hi. cbn [set_weight Hg.motor_cmd]. by apply list_lookup_alter_ne.
  - destruct Hc as (H1 & H2 & H3 & H4 & H5). split_and!; try done.
    + cbn [set_weight Hg.motor_cmd]. by rewrite length_alter.
    + cbn [set_weight Hg.motor_cmd]. apply Forall_alter; [done|]. intros m' Hm' Hin. done.
Qed.

(** C36. A [LowCmd] publisher writes sealed commands only.  In every interleaving,
    each command written by the publisher of the go2, or of the g1, has a right
    checksum over the object it was sealed in, and differs in its checksum only
    from a command that was requested. *)
Theorem lowcmd_publishers_seal :
  (∀ c0 p c', rtc (step go2_LowCmd_hook) (make (go2_LowCmd_init c0)) p ->
     Forall LowCmdProps.cmd_ok (requested p) -> c' ∈ written p ->
     ∃ pad c, c ∈ requested p ∧ LowCmd.padding_ok pad ∧ c' = LowCmd.set_crc c (crc c') ∧
       length (LowCmd.image pad c') = 812%nat ∧ crc32_core (words (LowCmd.image pad c')) = 0) ∧
  (∀ c0 p c', rtc (step g1_LowCmd_hook) (make c0) p ->
     Forall Hg.cmd_ok (requested p) -> c' ∈ written p ->
     ∃ pad c, c ∈ requested p ∧ Hg.padding_ok pad ∧ c' = Hg.set_crc c (Hg.crc c') ∧
       length (Hg.image pad c') = 1004%nat ∧ crc32_core (words (Hg.image pad c')) = 0).
Proof.
  split; intros c0 p c' Hp Hok Hc'; destruct (written_from_request _ _ p c' Hp Hc') as (c & Hc & pad & Hpad & ->);
    rewrite Forall_forall in Hok; exists pad, c; (split; [exact Hc|]; split; [exact Hpad|]; split; [reflexivity|]).
  - by destruct (LowCmdProps.sealed_frame pad c Hpad (Hok c Hc)) as (H1 & H2 & _).
  - by apply Hg.sealed_image, Hok.
Qed.

Lemma lowcmd_publishers_seal_witness :
  ∃ p c' pad, written p = [c'] ∧ requested p = [go2_LowCmd_init LowCmd.LowCmd_default] ∧
    crc32_core (words (LowCmd.image pad c')) = 0.
Proof.
  pose proof (PublisherProps.publish_one go2_LowCmd_hook (go2_LowCmd_init LowCmd.LowCmd_default) _
    (ex_intro _ LowCmdProps.zero_padding (conj LowCmdProps.zero_padding_ok eq_refl))) as (p & Hp & Hr & Hw).
  destruct (proj1 lowcmd_publishers_seal LowCmd.LowCmd_default p
    (LowCmd.seal LowCmdProps.zero_padding (go2_LowCmd_init LowCmd.LowCmd_default)) Hp)
    as (pad & c & _ & _ & _ & _ & Hc).
  - rewrite Hr. constructor; [|constructor]. apply (bool_decide_unpack _). vm_compute. exact I.
  - rewrite Hw. by left.
  - exists p, (LowCmd.seal LowCmdProps.zero_padding (go2_LowCmd_init LowCmd.LowCmd_default)), pad.
    split; [exact Hw|]. split; [exact Hr|exact Hc].
Defined.

(** The mode of the robot fits: it is a simulation, or the modes agree. *)
Lemma check_mode_machine_spec c m :
  check_mode_machine c m = true <-> Hg.state_mode_machine m = 0 ∨ Hg.state_mode_machine m = Hg.mode_machine c.
Proof.
  unfold check_mode_machine. rewrite negb_true_iff, andb_false_iff, !negb_false_iff, !Z.eqb_eq. done.
Qed.

(** ** shutdown *)

(** The loop ends with the first call that leaves the name empty, after one
    release for every call before it; a call that stores nothing repeats the
    name of the call before, so a first call that fails without storing a name
    ends the loop although nothing was released. *)
Lemma shutdown_ends calls answer ret rest name :
  Forall (fun c => ∃ n, c.1 = Some n ∧ n ≠ ""%string) calls -> answer = Some ""%string ->
  shutdown (calls ++ (answer, ret) :: rest) name =
    Some (length calls, length (filter (fun c => c.2 ≠ 0) calls)).
Proof.
  intros Hc ->. revert name. induction Hc as [|[a r] calls (n & E & Hn) _ IH]; intros name; [done|].
  cbn [fst] in E. subst a. cbn [app shutdown from_option id]. rewrite bool_decide_false by done. rewrite (IH n). cbn [mbind option_bind].
  rewrite filter_cons. cbn [snd]. destruct (Z.eqb_spec r 0) as [->|]; [by rewrite decide_False by (intros []; done)|by rewrite decide_True].
Qed.

Lemma shutdown_failed_check ret rest : shutdown ((None, ret) :: rest) "" = Some (0, 0)%nat.
Proof. done. Qed.
End WrapperProps.
