(* ===== verification/Any.v ===== *)
(** * The type-erased value [Any].

    Models [src/include/unitree/common/any.hpp]: a holder of a value of any
    type together with its [type_info], the checked cast [AnyCast], and the
    converting cast [AnyNumberCast].  A holder is read by an unchecked pointer
    cast guarded by a comparison of [type_info]s; [content] is that read, and
    fails where the pointer cast would be to a wrong type.  [JsonMap] and
    [JsonArray] ([json.hpp]) are among the types held. *)

From stdpp Require Export gmap strings.
From S2P Require Import Prelude Floats.

Local Open Scope Z_scope.

(** ** Outcomes

    A call returns, throws ([UT_THROW]), or runs into undefined behaviour. *)
Inductive outcome (A : Type) := Ok (a : A) | Throw | Undefined.
Arguments Ok {A} a. Arguments Throw {A}. Arguments Undefined {A}.

#[global] Instance outcome_ret : MRet outcome := @Ok.
#[global] Instance outcome_bind : MBind outcome := fun A B f o =>
  match o with Ok a => f a | Throw => Throw | Undefined => Undefined end.
#[global] Instance outcome_fmap : FMap outcome := fun A B f o =>
  match o with Ok a => Ok (f a) | Throw => Throw | Undefined => Undefined end.

(** ** Types and values *)

Inductive int_type := I8 | U8 | I16 | U16 | I32 | U32 | I64 | U64.

#[global] Instance int_type_eq_dec : EqDecision int_type.
Proof. solve_decision. Defined.

(** [Tother] stands for every type the code does not name. *)
Inductive type_info :=
  | Tvoid | Tbool | Tint (i : int_type) | Tfloat | Tdouble | Tlong_double
  | Tstring | TJsonMap | TJsonArray | Tother (n : nat).

#[global] Instance type_info_eq_dec : EqDecision type_info.
Proof. solve_decision. Defined.

Definition int_width (i : int_type) : Z :=
  match i with I8 | U8 => 8 | I16 | U16 => 16 | I32 | U32 => 32 | I64 | U64 => 64 end.
Definition is_signed (i : int_type) : bool :=
  match i with I8 | I16 | I32 | I64 => true | _ => false end.

(** Conversion to an integer type, and its values. *)
Definition int_wrap (i : int_type) (z : Z) : Z :=
  if is_signed i then swrap (int_width i) z else uwrap (int_width i) z.
Definition int_min (i : int_type) : Z := if is_signed i then - 2 ^ (int_width i - 1) else 0.
Definition int_max (i : int_type) : Z :=
  if is_signed i then 2 ^ (int_width i - 1) - 1 else 2 ^ int_width i - 1.
Definition int_ok (i : int_type) (z : Z) : bool := (int_min i <=? z) && (z <=? int_max i).

#[local] Set Warnings "-register-all".

(** [Any]: no content, or a [Holder] of a value. *)
Inductive Any :=
  | Empty
  | HBool (b : bool)
  | HInt (i : int_type) (z : Z)
  | HFloat (x : float32)
  | HDouble (x : float64)
  | HLongDouble (x : spec_float)
  | HString (s : string)
  | HMap (m : gmap string Any)
  | HArray (l : list Any)
  | HOther (n : nat).

Abbreviation JsonMap := (gmap string Any).
Abbreviation JsonArray := (list Any).

#[global] Instance Any_inhabited : Inhabited Any := populate Empty.

(** The values of a type; there is none of type [void]. *)
Definition value (t : type_info) : Type :=
  match t with
  | Tvoid => Empty_set
  | Tbool => bool
  | Tint _ => Z
  | Tfloat | Tdouble | Tlong_double => spec_float
  | Tstring => string
  | TJsonMap => JsonMap
  | TJsonArray => JsonArray
  | Tother _ => unit
  end.

(** [Any(const ValueType& value)]. *)
Definition hold (t : type_info) : value t -> Any :=
  match t return value t -> Any with
  | Tvoid => fun v => match v with end
  | Tbool => HBool
  | Tint i => HInt i
  | Tfloat => HFloat
  | Tdouble => HDouble
  | Tlong_double => HLongDouble
  | Tstring => HString
  | TJsonMap => HMap
  | TJsonArray => HArray
  | Tother n => fun _ => HOther n
  end.

Definition is_empty (a : Any) : bool := match a with Empty => true | _ => false end.

Definition GetTypeInfo (a : Any) : type_info :=
  match a with
  | Empty => Tvoid
  | HBool _ => Tbool
  | HInt i _ => Tint i
  | HFloat _ => Tfloat
  | HDouble _ => Tdouble
  | HLongDouble _ => Tlong_double
  | HString _ => Tstring
  | HMap _ => TJsonMap
  | HArray _ => TJsonArray
  | HOther n => Tother n
  end.

(** [((Any::Holder<T>* )(operand->mContent))->mValue]: defined only when the
    holder is a [Holder<T>]. *)
Definition content (t : type_info) (a : Any) : option (value t) :=
  match t as t, a return option (value t) with
  | Tbool, HBool b => Some b
  | Tint i, HInt j z => if decide (i = j) then Some z else None
  | Tfloat, HFloat x | Tdouble, HDouble x | Tlong_double, HLongDouble x => Some x
  | Tstring, HString s => Some s
  | TJsonMap, HMap m => Some m
  | TJsonArray, HArray l => Some l
  | Tother i, HOther j => if decide (i = j) then Some tt else None
  | _, _ => None
  end.

(** ** Type tests *)

Definition IsTypeEqual (t1 t2 : type_info) : bool := bool_decide (t1 = t2).
Definition IsBoolType (t : type_info) : bool := IsTypeEqual t Tbool.
Definition IsFloatType (t : type_info) : bool := IsTypeEqual t Tfloat.
Definition IsDoubleType (t : type_info) : bool := IsTypeEqual t Tdouble.
Definition IsLongDoubleType (t : type_info) : bool := IsTypeEqual t Tlong_double.
(** [IsInt8Type] and its seven fellows. *)
Definition IsIntTypeOf (i : int_type) (t : type_info) : bool := IsTypeEqual t (Tint i).

Definition IsIntegerType (t : type_info) : bool :=
  IsIntTypeOf I32 t || IsIntTypeOf U32 t || IsIntTypeOf I64 t || IsIntTypeOf U64 t ||
  IsIntTypeOf I8 t || IsIntTypeOf U8 t || IsIntTypeOf I16 t || IsIntTypeOf U16 t.

Definition IsNumberType (t : type_info) : bool :=
  IsBoolType t || IsIntegerType t || IsFloatType t || IsDoubleType t || IsLongDoubleType t.

(** The tests on the value: [IsBool], [IsInt8] and its fellows, [IsInteger],
    [IsNumber], [IsString], and those of [json.hpp]. *)
Definition IsBool (a : Any) : bool := IsTypeEqual (GetTypeInfo a) Tbool.
Definition IsString (a : Any) : bool := IsTypeEqual (GetTypeInfo a) Tstring.
Definition IsIntOf (i : int_type) (a : Any) : bool := IsTypeEqual (GetTypeInfo a) (Tint i).
Definition IsFloat (a : Any) : bool := IsTypeEqual (GetTypeInfo a) Tfloat.
Definition IsDouble (a : Any) : bool := IsTypeEqual (GetTypeInfo a) Tdouble.
Definition IsLongDouble (a : Any) : bool := IsTypeEqual (GetTypeInfo a) Tlong_double.
Definition IsInteger (a : Any) : bool :=
  IsIntOf I32 a || IsIntOf U32 a || IsIntOf I64 a || IsIntOf U64 a ||
  IsIntOf I16 a || IsIntOf U16 a || IsIntOf I8 a || IsIntOf U8 a.
Definition IsNumber (a : Any) : bool :=
  IsBool a || IsInteger a || IsFloat a || IsDouble a || IsLongDouble a.
Definition IsNull (a : Any) : bool := is_empty a.
Definition IsJsonArray (a : Any) : bool := IsTypeEqual (GetTypeInfo a) TJsonArray.
Definition IsJsonMap (a : Any) : bool := IsTypeEqual (GetTypeInfo a) TJsonMap.

(** ** Casts *)

(** The unchecked read, as an outcome. *)
Definition read_content (t : type_info) (a : Any) : outcome (value t) :=
  match content t a with Some v => Ok v | None => Undefined end.

Definition AnyCast (t : type_info) (operand : Any) : outcome (value t) :=
  if IsTypeEqual t (GetTypeInfo operand) then read_content t operand else Throw.

(** The arithmetic conversions [(ValueType)x], from an integer or a floating
    value.  [long double] has the 64-bit mantissa of x86-64. *)
Inductive number := NInt (z : Z) | NFlt (x : spec_float).

Definition round_to (prec emax : Z) (x : spec_float) : spec_float :=
  match x with S754_finite s m e => binary_round prec emax s m e | _ => x end.

Definition convert (t : type_info) (n : number) : outcome (value t) :=
  match t return outcome (value t) with
  | Tbool => Ok match n with NInt z => negb (z =? 0) | NFlt x => negb (SFeqb x fzero) end
  | Tint i =>
      match n with
      | NInt z => Ok (int_wrap i z)
      | NFlt x => match ftrunc x with
                  | Some z => if int_ok i z then Ok z else Undefined
                  | None => Undefined
                  end
      end
  | Tfloat => Ok match n with NInt z => F32.of_Z z | NFlt x => round_to 24 128 x end
  | Tdouble => Ok match n with NInt z => F64.of_Z z | NFlt x => round_to 53 1024 x end
  | Tlong_double =>
      Ok match n with NInt z => binary_normalize 64 16384 z 0 false | NFlt x => round_to 64 16384 x end
  | _ => Throw
  end.

(** The last branch of the cascade builds its message with
    [std::string(const char*, const char* )], the constructor from a range of
    iterators, on two unrelated pointers. *)
Definition AnyNumberCast (t1 : type_info) (operand : Any) : outcome (value t1) :=
  let t2 := GetTypeInfo operand in
  if IsNumberType t1 && IsNumberType t2 then
    if IsTypeEqual t1 t2 then read_content t1 operand
    else if IsFloatType t2 then read_content Tfloat operand ≫= fun x => convert t1 (NFlt x)
    else if IsDoubleType t2 then read_content Tdouble operand ≫= fun x => convert t1 (NFlt x)
    else if IsLongDoubleType t2 then read_content Tlong_double operand ≫= fun x => convert t1 (NFlt x)
    else if IsIntTypeOf I8 t2 then read_content (Tint I8) operand ≫= fun z => convert t1 (NInt z)
    else if IsIntTypeOf U8 t2 then read_content (Tint U8) operand ≫= fun z => convert t1 (NInt z)
    else if IsIntTypeOf I16 t2 then read_content (Tint I16) operand ≫= fun z => convert t1 (NInt z)
    else if IsIntTypeOf U16 t2 then read_content (Tint U16) operand ≫= fun z => convert t1 (NInt z)
    else if IsIntTypeOf I32 t2 then read_content (Tint I32) operand ≫= fun z => convert t1 (NInt z)
    else if IsIntTypeOf U32 t2 then read_content (Tint U32) operand ≫= fun z => convert t1 (NInt z)
    else if IsIntTypeOf I64 t2 then read_content (Tint I64) operand ≫= fun z => convert t1 (NInt z)
    else if IsIntTypeOf U64 t2 then read_content (Tint U64) operand ≫= fun z => convert t1 (NInt z)
    else Undefined
  else Throw.

(** [ToString(operand)]. *)
Definition ToString (operand : Any) : outcome string :=
  if is_empty operand then Ok ""%string else AnyCast Tstring operand.

(** [StringTo(s, value)]. *)
Definition StringTo (s : string) : Any := hold Tstring s.

(** ** Properties *)
Module AnyProps.

Lemma int_width_pos i : 0 < int_width i.
Proof. by destruct i. Qed.

Lemma int_wrap_id i z : int_ok i z = true -> int_wrap i z = z.
Proof.
  unfold int_ok, int_min, int_max, int_wrap. rewrite andb_true_iff, !Z.leb_le.
  pose proof (int_width_pos i). destruct (is_signed i); intros [??].
  - apply swrap_id; [lia|]. unfold in_s. lia.
  - apply uwrap_id. unfold in_u. lia.
Qed.

Lemma content_hold t v : content t (hold t v) = Some v.
Proof. by destruct t as [| |i| | | | | | |n]; destruct v; cbn; rewrite ?decide_True. Qed.

Lemma GetTypeInfo_hold t v : GetTypeInfo (hold t v) = t.
Proof. destruct t; by try destruct v. Qed.

(** A holder of a type other than [void] holds a value of that type. *)
Lemma read_content_type t a : t ≠ Tvoid -> GetTypeInfo a = t -> ∃ v, read_content t a = Ok v ∧ a = hold t v.
Proof.
  intros Ht <-. unfold read_content.
  destruct a; [done|eexists; cbn; rewrite ?decide_True by done; done..|].
  exists tt. cbn. by rewrite decide_True.
Qed.

Lemma IsNumberType_cases t :
  IsNumberType t = true <-> t = Tbool ∨ (∃ i, t = Tint i) ∨ t = Tfloat ∨ t = Tdouble ∨ t = Tlong_double.
Proof.
  split.
  - destruct t as [| |[]| | | | | | |]; try done; intros _; eauto 6.
  - by intros [-> | [[[] ->] | [-> | [-> | ->]]]].
Qed.

(** The converting read of a number other than a [bool]. *)
Definition number_of (a : Any) : option number :=
  match a with
  | HInt _ z => Some (NInt z)
  | HFloat x | HDouble x | HLongDouble x => Some (NFlt x)
  | _ => None
  end.

Lemma AnyNumberCast_spec t a :
  AnyNumberCast t a =
  if IsNumberType t && IsNumberType (GetTypeInfo a) then
    if decide (t = GetTypeInfo a) then read_content t a
    else match number_of a with Some n => convert t n | None => Undefined end
  else Throw.
Proof.
  unfold AnyNumberCast. destruct (IsNumberType t && _) eqn:E; [|done].
  unfold IsTypeEqual. destruct (decide (t = GetTypeInfo a)) as [Ht|Ht].
  { by rewrite bool_decide_true. }
  rewrite bool_decide_false by done.
  apply andb_true_iff in E as [_ E]. by destruct a as [| |[] z| | | | | | |].
Qed.

Lemma AnyCast_cases t a :
  t ≠ Tvoid ->
  (∀ v, AnyCast t a = Ok v <-> a = hold t v) ∧
  (AnyCast t a = Throw <-> GetTypeInfo a ≠ t) ∧
  AnyCast t a ≠ Undefined.
Proof.
  intros Ht. unfold AnyCast, IsTypeEqual. case_bool_decide as E.
  - destruct (read_content_type t a Ht (eq_sym E)) as (w & -> & ->).
    rewrite GetTypeInfo_hold. split_and!; [|by split|done].
    intros v. split; [by intros [= ->]|]. intros Hv.
    assert (Some w = Some v) as [= ->]; [|done]. by rewrite <- !(content_hold t), Hv.
  - split_and!; [|by split; [intros _ ?; apply E|]|done].
    intros v. split; [done|]. intros ->. by rewrite GetTypeInfo_hold in E.
Qed.

(** C31. A checked cast never misreads a holder: [AnyCast<T>] returns a value
    exactly when the operand holds a [T], and it is that value; otherwise,
    the empty [Any] included, it throws; and what was stored is read back. *)
Theorem any_cast_type_safe t a :
  t ≠ Tvoid ->
  (∀ v, AnyCast t a = Ok v <-> a = hold t v) ∧
  (AnyCast t a = Throw <-> GetTypeInfo a ≠ t) ∧
  AnyCast t a ≠ Undefined.
Proof. apply AnyCast_cases. Qed.

Lemma any_cast_type_safe_witness :
  AnyCast (Tint I32) (HInt I32 7) = Ok 7 ∧ AnyCast (Tint I32) (HInt I64 7) = Throw ∧
  AnyCast (Tint I32) Empty ≠ Undefined.
Proof.
  split_and!.
  - by apply (any_cast_type_safe (Tint I32) (HInt I32 7) ltac:(done)).
  - by apply (any_cast_type_safe (Tint I32) (HInt I64 7) ltac:(done)).
  - by apply (any_cast_type_safe (Tint I32) Empty ltac:(done)).
Defined.

Lemma number_cast_int i j z :
  int_ok i z = true -> AnyNumberCast (Tint j) (HInt i z) = Ok (int_wrap j z).
Proof.
  intros Hz. rewrite AnyNumberCast_spec, (proj2 (IsNumberType_cases _)) by eauto.
  rewrite (proj2 (IsNumberType_cases (GetTypeInfo _))) by (cbn; eauto). cbn [andb].
  case_decide as E; [|done]. injection E as ->.
  unfold read_content. cbn. rewrite decide_True by done. by rewrite int_wrap_id.
Qed.

(** The converting cast between integer types is the C++ conversion
    (reduction modulo [2^w]), hence the identity on every value of the target
    type; and an integer below [2^53] that was widened to [double] is read back
    unchanged. *)
Lemma number_cast_integers i j z :
  int_ok i z = true ->
  AnyNumberCast (Tint j) (HInt i z) = Ok (int_wrap j z) ∧
  (int_ok j z = true -> AnyNumberCast (Tint j) (HInt i z) = Ok z) ∧
  (Z.abs z < 2 ^ 53 ->
   ∃ d, AnyNumberCast Tdouble (HInt i z) = Ok d ∧ AnyNumberCast (Tint i) (HDouble d) = Ok z).
Proof.
  intros Hz. pose proof (number_cast_int i j z Hz) as Hc.
  split_and!; [done|intros Hj; by rewrite Hc, int_wrap_id|].
  intros Hs. exists (F64.of_Z z). split; [by destruct i|].
  rewrite AnyNumberCast_spec, (proj2 (IsNumberType_cases _)) by eauto.
  rewrite decide_False by done. cbn [andb IsNumberType GetTypeInfo number_of].
  cbn [convert]. rewrite ftrunc_f64_of_Z by done. by rewrite Hz.
Qed.

Lemma number_cast_integers_witness :
  AnyNumberCast (Tint U8) (HInt I32 (-1)) = Ok 255 ∧
  AnyNumberCast (Tint I64) (HInt I32 (-1)) = Ok (-1) ∧
  ∃ d, AnyNumberCast Tdouble (HInt I32 123456789) = Ok d ∧
       AnyNumberCast (Tint I32) (HDouble d) = Ok 123456789.
Proof.
  split_and!.
  - exact (proj1 (number_cast_integers I32 U8 (-1) ltac:(done))).
  - exact (proj1 (proj2 (number_cast_integers I32 I64 (-1) ltac:(done))) ltac:(done)).
  - exact (proj2 (proj2 (number_cast_integers I32 I32 123456789 ltac:(done))) ltac:(done)).
Defined.

(** [bool] counts as a number type, but no branch of [AnyNumberCast] reads
    a [bool] holder: for every other number type the call reaches the last
    branch, whose string constructor is given two unrelated pointers. *)
Lemma bool_number_cast_undefined t b :
  IsNumber (HBool b) = true ∧ AnyNumberCast Tbool (HBool b) = Ok b ∧
  (IsNumberType t = true -> t ≠ Tbool -> AnyNumberCast t (HBool b) = Undefined).
Proof.
  split_and!; [done|done|]. intros Hn Ht.
  rewrite AnyNumberCast_spec, Hn. cbn. by rewrite decide_False.
Qed.

Lemma bool_number_cast_undefined_witness : AnyNumberCast (Tint I32) (HBool true) = Undefined.
Proof. by apply (proj2 (proj2 (bool_number_cast_undefined (Tint I32) true))). Defined.

End AnyProps.
