(* ===== verification/JsonConfig.v ===== *)
(** * Configuration files.

    Models the templates of [src/include/unitree/common/json/json_config.hpp]: typed
    reads of a field, of the top level, of a given object, or of the object
    "Parameter", with and without a default.  The untemplated reads are in the SDK
    library; they are the operations of [JsonConfig]. *)

From S2P Require Import Prelude Floats Any.

(** The configuration's untemplated reads: they answer a value, which is empty for a
    missing field, or throw. *)
Class JsonConfig (Config JsonMap : Type) := {
  GetAny : Config -> string -> outcome Any;
  GetAnyField : JsonMap -> string -> outcome Any;
  GetAnyParameter : Config -> string -> outcome Any
}.

Section Getters.
Context `{JsonConfig Config JsonMap} (T : type_info) (config : Config).

(** The bodies with a default. *)
Definition cast_or (cast : Any -> outcome (value T)) (a : Any) (defValue : value T) : outcome (value T) :=
  if is_empty a then Ok defValue else cast a.

Definition Get (name : string) : outcome (value T) := a ← GetAny config name; AnyCast T a.

Definition GetNumber (name : string) : outcome (value T) := a ← GetAny config name; AnyNumberCast T a.

Definition Get_or (name : string) (defValue : value T) : outcome (value T) :=
  a ← GetAny config name; cast_or (AnyCast T) a defValue.

Definition GetNumber_or (name : string) (defValue : value T) : outcome (value T) :=
  a ← GetAny config name; cast_or (AnyNumberCast T) a defValue.

Definition GetField (jsonMap : JsonMap) (name : string) : outcome (value T) := a ← GetAnyField jsonMap name; AnyCast T a.

Definition GetNumberField (jsonMap : JsonMap) (name : string) : outcome (value T) :=
  a ← GetAnyField jsonMap name; AnyNumberCast T a.

Definition GetField_or (jsonMap : JsonMap) (name : string) (defValue : value T) : outcome (value T) :=
  a ← GetAnyField jsonMap name; cast_or (AnyCast T) a defValue.

Definition GetNumberField_or (jsonMap : JsonMap) (name : string) (defValue : value T) : outcome (value T) :=
  a ← GetAnyField jsonMap name; cast_or (AnyNumberCast T) a defValue.

Definition GetParameter (name : string) : outcome (value T) := a ← GetAnyParameter config name; AnyCast T a.

Definition GetNumberParameter (name : string) : outcome (value T) := a ← GetAnyParameter config name; AnyNumberCast T a.

Definition GetParameter_or (name : string) (defValue : value T) : outcome (value T) :=
  a ← GetAnyParameter config name; cast_or (AnyCast T) a defValue.

Definition GetNumberParameter_or (name : string) (defValue : value T) : outcome (value T) :=
  a ← GetAnyParameter config name; cast_or (AnyNumberCast T) a defValue.
End Getters.

(** * Properties *)
Module JsonConfigProps.
Import AnyProps.

(** A read with a default gives the default for an empty value and else what the read
    without default gives: a value of another type is an error, not a reason for
    the default. *)
Lemma cast_or_spec T a (d v : value T) :
  T ≠ Tvoid ->
  (cast_or T (AnyCast T) a d = Ok v <-> (a = Empty ∧ v = d) ∨ a = hold T v) ∧
  (cast_or T (AnyCast T) a d = Throw <-> a ≠ Empty ∧ GetTypeInfo a ≠ T).
Proof.
  intros HT. unfold cast_or. destruct a eqn:Ea; cbn [is_empty].
  { split; [|by split; [|intros []]]. split; [intros [= ->]; by left|]. intros [[_ ->]|E]; [done|].
    exfalso. apply HT. apply (f_equal GetTypeInfo) in E. by rewrite GetTypeInfo_hold in E. }
  all: rewrite <- Ea; (assert (Hne : a ≠ Empty) by (by rewrite Ea));
    destruct (AnyCast_cases T a HT) as (Hv & Ht & _); rewrite Hv, Ht; clear -Hne; tauto.
Qed.

(** The three sources behave alike. *)
Lemma getter_default `{JsonConfig Config JsonMap} T (config : Config) (jsonMap : JsonMap) name a (d : value T) :
  (GetAny config name = Ok a -> Get_or T config name d = if is_empty a then Ok d else Get T config name) ∧
  (GetAnyField jsonMap name = Ok a -> GetField_or T jsonMap name d = if is_empty a then Ok d else GetField T jsonMap name) ∧
  (GetAnyParameter config name = Ok a -> GetParameter_or T config name d = if is_empty a then Ok d else GetParameter T config name).
Proof.
  unfold Get_or, Get, GetField_or, GetField, GetParameter_or, GetParameter, cast_or.
  split_and!; intros ->; cbn; by destruct (is_empty a).
Qed.
End JsonConfigProps.
