(* ===== verification/Json.v ===== *)
(** * JSON conversion.

    Models the templates and macros of
    [src/include/unitree/common/json/jsonize.hpp]: the conversions between C++
    values and [Any] for vectors, lists, sets, maps and classes derived from
    [Jsonize].  The conversions of the primitive types, the dispatch to the
    virtual functions of a [Jsonize] object and the JSON text parser and printer
    are declared there and compiled into the SDK library: they are the
    operations of the class [Sdk], and [Channel] states what is relied on.

    An exception abandons the object being filled; what it has received until
    then is not described. *)

From S2P Require Import Prelude Floats Any.

Local Open Scope Z_scope.

(** The part of the SDK library these headers call. *)
Class Sdk := {
  text : Type;
  (** [FromAny(const Any&, T&)] and [ToAny(const T&, Any&)], [T] primitive. *)
  from_prim (t : type_info) : Any -> value t -> outcome (value t);
  to_prim (t : type_info) : value t -> Any;
  (** [FromAny(const Any&, Jsonize&)] and [ToAny(const Jsonize&, Any&)], given
      the object's [fromJson] and [toJson]. *)
  from_object {T : Type} : (JsonMap -> T -> outcome (JsonMap * T)) -> Any -> T -> outcome T;
  to_object : (JsonMap -> JsonMap) -> Any;
  (** [FromJsonString(const std::string&)], [ToJsonString(const Any&, bool)]. *)
  parse : text -> outcome Any;
  print : Any -> bool -> text;
  empty_text : text
}.

(** The overloads selected by a C++ type: [FromAny] reads into an object that
    already has a value, [ToAny] overwrites its target; [blank] is the value of
    a variable declared without an initialiser. *)
Record codec (T : Type) := {
  FromAny : Any -> T -> outcome T;
  ToAny : T -> Any;
  blank : T
}.
Arguments FromAny {T} _ _ _. Arguments ToAny {T} _ _. Arguments blank {T} _.

(** [class Jsonize], with the default constructor of the derived class. *)
Class Jsonize (T : Type) := {
  toJson : T -> JsonMap -> JsonMap;
  fromJson : JsonMap -> T -> outcome (JsonMap * T);
  construct : T
}.

Section Codecs.
Context `{Sdk}.

(** ** Primitive types and objects *)

Definition prim (t : type_info) (v : value t) : codec (value t) :=
  {| FromAny := from_prim t; ToAny := to_prim t; blank := v |}.

Definition boolean : codec bool := prim Tbool false.
Definition uint8 : codec Z := prim (Tint U8) 0.
Definition uint16 : codec Z := prim (Tint U16) 0.
Definition int32 : codec Z := prim (Tint I32) 0.
Definition uint32 : codec Z := prim (Tint U32) 0.
Definition int64 : codec Z := prim (Tint I64) 0.
Definition float : codec float32 := prim Tfloat fzero.
Definition double : codec float64 := prim Tdouble fzero.
Definition str : codec string := prim Tstring ""%string.

Definition object (T : Type) `{Jsonize T} : codec T :=
  {| FromAny := from_object fromJson; ToAny := fun v => to_object (toJson v); blank := construct |}.

(** ** Containers *)

(** [std::vector<E>]: elements are read one by one and appended. *)
Fixpoint read_elements {E} (c : codec E) (arr : JsonArray) (value : list E) : outcome (list E) :=
  match arr with
  | [] => Ok value
  | a_in :: arr => e ← FromAny c a_in (blank c); read_elements c arr (value ++ [e])
  end.

Definition vector {E} (c : codec E) : codec (list E) :=
  {| FromAny a value :=
       if is_empty a then Ok value
       else arr ← AnyCast TJsonArray a; read_elements c arr value;
     ToAny value := HArray ((fun e => ToAny c e) <$> value);
     blank := [] |}.

(** [std::list<E>] has the same code over its iterators. *)
Definition list_of {E} (c : codec E) : codec (list E) := vector c.

(** [std::set<E>]: elements are inserted. *)
Fixpoint insert_elements {E} `{Countable E} (c : codec E) (arr : JsonArray) (value : gset E) :
    outcome (gset E) :=
  match arr with
  | [] => Ok value
  | a_in :: arr => e ← FromAny c a_in (blank c); insert_elements c arr ({[e]} ∪ value)
  end.

Definition set_of {E} `{Countable E} (c : codec E) : codec (gset E) :=
  {| FromAny a value :=
       if is_empty a then Ok value
       else arr ← AnyCast TJsonArray a; insert_elements c arr value;
     ToAny value := HArray ((fun e => ToAny c e) <$> elements value);
     blank := ∅ |}.

(** [std::map<std::string, E>]: entries are assigned. *)
Fixpoint assign_entries {E} (c : codec E) (l : list (string * Any)) (value : gmap string E) :
    outcome (gmap string E) :=
  match l with
  | [] => Ok value
  | (name, a_in) :: l =>
      e ← FromAny c a_in (blank c); assign_entries c l (<[name := e]> value)
  end.

Definition map_of {E} (c : codec E) : codec (gmap string E) :=
  {| FromAny a value :=
       if is_empty a then Ok value
       else m ← AnyCast TJsonMap a; assign_entries c (map_to_list m) value;
     ToAny value := HMap ((fun e => ToAny c e) <$> value);
     blank := ∅ |}.

(** ** Members of an object *)

(** [m[name]]: the entry is created, empty, if there is none. *)
Definition subscript (m : JsonMap) (name : string) : JsonMap * Any :=
  match m !! name with
  | Some a => (m, a)
  | None => (<[name := Empty]> m, Empty)
  end.

(** [JN_TO(m, name, value)], which is [ToJson(value, m[name])]. *)
Definition JN_TO {T} (c : codec T) (name : string) (value : T) (m : JsonMap) : JsonMap :=
  <[name := ToAny c value]> (subscript m name).1.

(** [JN_FROM(m, name, value)], which is [FromJson(m[name], value)]. *)
Definition JN_FROM {T} (c : codec T) (m : JsonMap) (name : string) (value : T) :
    outcome (JsonMap * T) :=
  let '(m, a) := subscript m name in
  v ← FromAny c a value; Ok (m, v).

Definition JN_FROM_WEAK {T} (c : codec T) (m : JsonMap) (name : string) (value : T) :
    outcome (JsonMap * T) :=
  match m !! name with Some _ => JN_FROM c m name value | None => Ok (m, value) end.

(** ** Text *)

(** [FromJsonString<T>(s, t)] and [ToJsonString<T>(t, pretty)]. *)
Definition FromJsonString {T} (c : codec T) (s : text) (t : T) : outcome T :=
  a ← parse s; FromAny c a t.

Definition ToJsonString {T} (c : codec T) (t : T) (pretty : bool) : text :=
  print (ToAny c t) pretty.

End Codecs.

(** ** JSON values

    What the conversions produce: primitive values, maps and arrays of such. *)

(** The types that have a [FromAny] and a [ToAny] of their own. *)
Definition is_prim (t : type_info) : bool :=
  match t with Tbool | Tint _ | Tfloat | Tdouble | Tstring => true | _ => false end.

#[local] Set Warnings "-register-all".

Inductive json `{Sdk} : Any -> Prop :=
  | json_prim t v : is_prim t = true -> json (to_prim t v)
  | json_map m : map_Forall (fun _ => json) m -> json (HMap m)
  | json_array l : Forall json l -> json (HArray l).

(** ** What a value goes through between [ToAny] and [FromAny]

    [norm] is the identity for a value kept in memory, and the effect of printing
    and parsing for one sent as text: it acts entry by entry, and each primitive
    value that the channel [keeps] is read back. *)
Class Channel `{Sdk} (norm : Any -> Any) (keeps : ∀ t, value t -> Prop) := {
  norm_prim t v old : keeps t v -> from_prim t (norm (to_prim t v)) old = Ok v;
  norm_map m : norm (HMap m) = HMap (norm <$> m);
  norm_array l : norm (HArray l) = HArray (norm <$> l);
  from_object_map {T} (f : JsonMap -> T -> outcome (JsonMap * T)) m old :
    from_object f (HMap m) old = snd <$> f m old;
  to_object_map f : to_object f = HMap (f ∅)
}.

(** Printing and parsing is such a passage. *)
Class TextChannel `{Sdk} (norm : Any -> Any) :=
  parse_print a pretty : json a -> parse (print a pretty) = Ok (norm a).

Section Laws.
Context `{Channel} .

(** [c] gives back the values [good] for it, read into a variable [vacant] for
    it. *)
Class RoundTrip {T} (c : codec T) (good vacant : T -> Prop) := {
  roundtrip v old : good v -> vacant old -> FromAny c (norm (ToAny c v)) old = Ok v;
  blank_vacant : vacant (blank c);
  ToAny_json v : json (ToAny c v)
}.

Lemma prim_roundtrip t b : is_prim t = true -> RoundTrip (prim t b) (keeps t) (fun _ => True).
Proof.
  split; [|done|intros v; by apply json_prim]. intros v old Hv _. by apply norm_prim.
Qed.

#[global] Instance boolean_roundtrip : RoundTrip boolean (keeps Tbool) (fun _ => True) := prim_roundtrip Tbool _ eq_refl.
#[global] Instance uint8_roundtrip : RoundTrip uint8 (keeps (Tint U8)) (fun _ => True) := prim_roundtrip (Tint U8) _ eq_refl.
#[global] Instance uint16_roundtrip : RoundTrip uint16 (keeps (Tint U16)) (fun _ => True) := prim_roundtrip (Tint U16) _ eq_refl.
#[global] Instance int32_roundtrip : RoundTrip int32 (keeps (Tint I32)) (fun _ => True) := prim_roundtrip (Tint I32) _ eq_refl.
#[global] Instance uint32_roundtrip : RoundTrip uint32 (keeps (Tint U32)) (fun _ => True) := prim_roundtrip (Tint U32) _ eq_refl.
#[global] Instance int64_roundtrip : RoundTrip int64 (keeps (Tint I64)) (fun _ => True) := prim_roundtrip (Tint I64) _ eq_refl.
#[global] Instance float_roundtrip : RoundTrip float (keeps Tfloat) (fun _ => True) := prim_roundtrip Tfloat _ eq_refl.
#[global] Instance double_roundtrip : RoundTrip double (keeps Tdouble) (fun _ => True) := prim_roundtrip Tdouble _ eq_refl.
#[global] Instance str_roundtrip : RoundTrip str (keeps Tstring) (fun _ => True) := prim_roundtrip Tstring _ eq_refl.

(** The same for a class, on its members. *)
Class ObjectRoundTrip (T : Type) `{Jsonize T} (good vacant : T -> Prop) := {
  object_roundtrip x old : good x -> vacant old -> snd <$> fromJson (norm <$> toJson x ∅) old = Ok x;
  construct_vacant : vacant construct;
  toJson_json x : map_Forall (fun _ => json) (toJson x ∅)
}.

#[global] Instance object_codec_roundtrip T `{ObjectRoundTrip T good vacant} :
  RoundTrip (object T) good vacant.
Proof.
  split; [|apply construct_vacant|].
  - intros x old Hx Ho. cbn. rewrite to_object_map, norm_map, from_object_map. by apply object_roundtrip.
  - intros x. cbn. rewrite to_object_map. apply json_map, toJson_json.
Qed.

Section Containers.
Context {E : Type} (c : codec E) (good vacant : E -> Prop) `{!RoundTrip c good vacant}.

Lemma read_elements_spec l old :
  Forall good l -> read_elements c (norm <$> (ToAny c <$> l)) old = Ok (old ++ l).
Proof.
  intros Hl. revert old. induction Hl as [|e l He Hl IH]; intros old; cbn; [by rewrite app_nil_r|].
  rewrite roundtrip by (done || apply blank_vacant). cbn.
  by rewrite IH, <- app_assoc.
Qed.

(** Reading a vector appends to what the variable holds. *)
Lemma vector_appends l old :
  Forall good l -> FromAny (vector c) (norm (ToAny (vector c) l)) old = Ok (old ++ l).
Proof. intros Hl. cbn. rewrite norm_array. cbn. by apply read_elements_spec. Qed.

#[global] Instance vector_roundtrip : RoundTrip (vector c) (Forall good) (.= []).
Proof.
  split; [|done|].
  - intros v old Hv ->. by apply vector_appends.
  - intros v. apply json_array, Forall_fmap, Forall_true. intros e. apply (ToAny_json e).
Qed.

Lemma insert_elements_spec `{Countable E} l old :
  Forall good l ->
  insert_elements c (norm <$> (ToAny c <$> l)) old = Ok (list_to_set l ∪ old).
Proof.
  intros Hl. revert old. induction Hl as [|e l He Hl IH]; intros old; cbn; [by rewrite (left_id_L ∅ (∪))|].
  rewrite roundtrip by (done || apply blank_vacant). cbn.
  rewrite IH, (assoc_L (∪)). f_equal. by rewrite (comm_L (∪) {[e]}).
Qed.

(** Reading a set adds to what the variable holds. *)
Lemma set_adds `{Countable E} (X old : gset E) :
  set_Forall good X -> FromAny (set_of c) (norm (ToAny (set_of c) X)) old = Ok (X ∪ old).
Proof.
  intros HX. cbn [FromAny ToAny set_of]. rewrite norm_array.
  change (insert_elements c (norm <$> (ToAny c <$> elements X)) old = Ok (X ∪ old)).
  rewrite insert_elements_spec.
  - f_equal. set_solver.
  - apply Forall_forall. intros x Hx%elem_of_elements. by apply HX.
Qed.

Lemma assign_entries_spec l old :
  NoDup l.*1 -> Forall (fun e => good e.2) l ->
  assign_entries c (prod_map id (fun e => norm (ToAny c e)) <$> l) old = Ok (list_to_map l ∪ old).
Proof.
  revert old. induction l as [|[k e] l IH]; intros old; cbn; [by rewrite (left_id_L ∅ (∪))|].
  intros [Hk Hn]%NoDup_cons [He Hl]%Forall_cons.
  rewrite roundtrip by (done || apply blank_vacant). cbn.
  rewrite IH by done. f_equal.
  rewrite <- insert_union_r, insert_union_l; [done|]. by apply not_elem_of_list_to_map_1.
Qed.

(** Reading a map overrides what the variable holds. *)
Lemma map_overrides (m old : gmap string E) :
  map_Forall (fun _ => good) m -> FromAny (map_of c) (norm (ToAny (map_of c) m)) old = Ok (m ∪ old).
Proof.
  intros Hm. cbn [FromAny ToAny map_of]. rewrite norm_map.
  change (assign_entries c (map_to_list (norm <$> (ToAny c <$> m))) old = Ok (m ∪ old)).
  rewrite <- map_fmap_compose, map_to_list_fmap.
  change (assign_entries c (prod_map id (fun e => norm (ToAny c e)) <$> map_to_list m) old = Ok (m ∪ old)).
  rewrite assign_entries_spec.
  - by rewrite list_to_map_to_list.
  - apply NoDup_fst_map_to_list.
  - apply Forall_forall. intros [k e] He%elem_of_map_to_list. by eapply (Hm k).
Qed.

End Containers.

(** *** Text *)

Lemma text_roundtrip {T} (c : codec T) `{!RoundTrip c good vacant} `{!TextChannel norm} v old pretty :
  good v -> vacant old -> FromJsonString c (ToJsonString c v pretty) old = Ok v.
Proof.
  intros Hv Ho. unfold FromJsonString, ToJsonString.
  rewrite parse_print by apply ToAny_json. by apply roundtrip.
Qed.

(** *** Members *)

Lemma subscript_found m name a : m !! name = Some a -> subscript m name = (m, a).
Proof. unfold subscript. by intros ->. Qed.

Lemma JN_TO_insert {T} (c : codec T) name v m : JN_TO c name v m = <[name := ToAny c v]> m.
Proof.
  unfold JN_TO, subscript. destruct (m !! name); [done|]. cbn. by rewrite insert_insert_eq.
Qed.

Lemma JN_FROM_found {T} (c : codec T) `{!RoundTrip c good vacant} m name v old :
  m !! name = Some (norm (ToAny c v)) -> good v -> vacant old -> JN_FROM c m name old = Ok (m, v).
Proof.
  intros Hm Hv Ho. unfold JN_FROM. rewrite (subscript_found _ _ _ Hm). by rewrite roundtrip.
Qed.

Lemma JN_TO_json {T} (c : codec T) `{!RoundTrip c good vacant} m name v :
  map_Forall (fun _ => json) m -> map_Forall (fun _ => json) (JN_TO c name v m).
Proof. intros Hm. rewrite JN_TO_insert. apply map_Forall_insert_2; [apply ToAny_json|done]. Qed.

(** Reading a member leaves the entries of the map alone; it may add an empty
    one. *)
Lemma JN_FROM_map {T} (c : codec T) m name old m' v k :
  JN_FROM c m name old = Ok (m', v) -> m' !! k = m !! k ∨ (m !! k = None ∧ m' !! k = Some Empty).
Proof.
  unfold JN_FROM, subscript. destruct (m !! name) eqn:E; destruct (FromAny c _ old); cbn;
    intros [= <- _]; [by left|].
  destruct (decide (k = name)) as [->|]; [right|left]; by simplify_map_eq.
Qed.

End Laws.

Arguments RoundTrip {_} norm {T} c good vacant.
Arguments ObjectRoundTrip {_} norm T {_} good vacant.

(** ** An implementation of the library part

    Texts are trees in which, as in JSON, all integers are of one type and all
    floating numbers of another; reading converts with [AnyNumberCast]. *)
Module TreeText.

Fixpoint to_tree (a : Any) : Any :=
  match a with
  | HInt i z => HInt I64 z
  | HFloat x => HDouble (round_to 53 1024 x)
  | HMap m => HMap (to_tree <$> m)
  | HArray l => HArray (to_tree <$> l)
  | _ => a
  end.

Definition read_prim (t : type_info) (a : Any) (old : value t) : outcome (value t) :=
  if is_empty a then Ok old
  else if IsNumberType t then AnyNumberCast t a else AnyCast t a.

#[global] Instance tree_sdk : Sdk := {|
  text := Any;
  from_prim := read_prim;
  to_prim := hold;
  from_object T f a old := if is_empty a then Ok old else m ← AnyCast TJsonMap a; snd <$> f m old;
  to_object f := HMap (f ∅);
  parse := Ok;
  print a _ := to_tree a;
  empty_text := Empty
|}.

(** The values a text keeps: integers that fit [int64_t] and the other
    primitive types. *)
Definition tree_keeps (t : type_info) : value t -> Prop :=
  match t return value t -> Prop with
  | Tint i => fun z => int_ok i z = true ∧ int_ok I64 z = true
  | Tfloat => fun x => round_to 24 128 (round_to 53 1024 x) = x
  | Tbool | Tdouble | Tstring => fun _ => True
  | _ => fun _ => False
  end.

#[global] Instance tree_channel : Channel to_tree tree_keeps.
Proof.
  split; [|done..].
  intros t v old Hv. destruct t as [| |i| | | | | | |]; try done; cbn in *.
  - unfold read_prim. destruct Hv as [Hi H64]. rewrite (proj2 (AnyProps.IsNumberType_cases _)) by eauto.
    cbn [is_empty hold]. rewrite AnyProps.number_cast_int by done. by rewrite AnyProps.int_wrap_id.
  - change (Ok (round_to 24 128 (round_to 53 1024 v)) = Ok v). by rewrite Hv.
Qed.

#[global] Instance tree_text : TextChannel to_tree.
Proof. done. Qed.

End TreeText.

(** ** Properties of the containers *)
Module JsonProps.
Section Props.
Context `{Channel} {E : Type} (c : codec E) (good vacant : E -> Prop) `{!RoundTrip norm c good vacant}.

(** Converting a container to [Any] and back, in memory or through text,
    loses and invents nothing: vectors are appended to the target, sets are
    united with it and maps override it, so that an empty target receives
    exactly the original; this holds for any element conversion that round-trips. *)
Lemma containers_roundtrip `{Countable E} (l : list E) (X : gset E) (m : gmap string E) old oldX oldm :
  Forall good l -> set_Forall good X -> map_Forall (fun _ => good) m ->
  FromAny (vector c) (norm (ToAny (vector c) l)) old = Ok (old ++ l) ∧
  FromAny (list_of c) (norm (ToAny (list_of c) l)) old = Ok (old ++ l) ∧
  FromAny (set_of c) (norm (ToAny (set_of c) X)) oldX = Ok (X ∪ oldX) ∧
  FromAny (map_of c) (norm (ToAny (map_of c) m)) oldm = Ok (m ∪ oldm).
Proof.
  intros Hl HX Hm. split_and!; [by eapply vector_appends..|by eapply set_adds|by eapply map_overrides].
Qed.
End Props.

Lemma containers_roundtrip_witness :
  FromAny (vector int32) (TreeText.to_tree (ToAny (vector int32) [1; 2])) [7] = Ok [7; 1; 2] ∧
  FromAny (map_of int32) (TreeText.to_tree (ToAny (map_of int32) {["a" := 1]}))
    {["a" := 5; "b" := 6]} = Ok ({["a" := 1]} ∪ {["a" := 5; "b" := 6]}).
Proof.
  pose proof (containers_roundtrip (norm := TreeText.to_tree) int32 (TreeText.tree_keeps (Tint I32)) (fun _ => True)
    [1; 2] ({[3]} : gset Z) {["a" := 1]} [7] ∅ {["a" := 5; "b" := 6]}) as T.
  destruct T as (? & _ & _ & ?); [|by intros ? ->%elem_of_singleton|by apply map_Forall_singleton|done].
  by repeat constructor.
Defined.

End JsonProps.
