(* ===== verification/JsonTypes.v ===== *)
(** * The JSON types of the robot services.

    Models the classes derived from [Jsonize] in the API headers under
    [src/include/unitree/robot]: the parameters and results of the
    configuration, robot-state, obstacle-avoidance, tracking, motion-switcher,
    lease, locomotion, arm-action and audio services, and the general-purpose
    types of [go2/public/jsonize_type.hpp].  A module per class holds its
    members [t], [fromJson], [toJson] and the instance of [Jsonize]; [kept] says
    which objects a channel can carry.  The classes of the b2 that repeat those
    of the go2, and those of the g1 that repeat the h1's, are not written
    twice. *)

From S2P Require Import Prelude Floats Any Json.

Local Open Scope string_scope.
Local Open Scope Z_scope.

(** *** [include/unitree/robot/go2/public/jsonize_type.hpp] *)

Module JsonizeFlagBool.
Record t := mk { flag : bool }.

Section Code.
Context `{Sdk}.

Definition fromJson (json : JsonMap) (o : t) : outcome (JsonMap * t) :=
  '(json, flag_) ← JN_FROM boolean json "flag" (flag o);
  Ok (json, mk flag_).

Definition toJson (o : t) (json : JsonMap) : JsonMap :=
  JN_TO boolean "flag" (flag o) json.

#[global] Instance jsonize : Jsonize t :=
  {| Json.toJson := toJson; Json.fromJson := fromJson;
     construct := mk false |}.
End Code.

Definition kept (keeps : ∀ t, value t -> Prop) (o : t) : Prop :=
  keeps Tbool (flag o).
End JsonizeFlagBool.

Module JsonizeDataBool.
Record t := mk { data : bool }.

Section Code.
Context `{Sdk}.

Definition fromJson (json : JsonMap) (o : t) : outcome (JsonMap * t) :=
  '(json, data_) ← JN_FROM boolean json "data" (data o);
  Ok (json, mk data_).

Definition toJson (o : t) (json : JsonMap) : JsonMap :=
  JN_TO boolean "data" (data o) json.

#[global] Instance jsonize : Jsonize t :=
  {| Json.toJson := toJson; Json.fromJson := fromJson;
     construct := mk false |}.
End Code.

Definition kept (keeps : ∀ t, value t -> Prop) (o : t) : Prop :=
  keeps Tbool (data o).
End JsonizeDataBool.

Module JsonizeDataInt.
Record t := mk { data : Z }.

Section Code.
Context `{Sdk}.

Definition fromJson (json : JsonMap) (o : t) : outcome (JsonMap * t) :=
  '(json, data_) ← JN_FROM int32 json "data" (data o);
  Ok (json, mk data_).

Definition toJson (o : t) (json : JsonMap) : JsonMap :=
  JN_TO int32 "data" (data o) json.

#[global] Instance jsonize : Jsonize t :=
  {| Json.toJson := toJson; Json.fromJson := fromJson;
     construct := mk 0 |}.
End Code.

Definition kept (keeps : ∀ t, value t -> Prop) (o : t) : Prop :=
  keeps (Tint I32) (data o).
End JsonizeDataInt.

Module JsonizeDataFloat.
Record t := mk { data : float32 }.

Section Code.
Context `{Sdk}.

Definition fromJson (json : JsonMap) (o : t) : outcome (JsonMap * t) :=
  '(json, data_) ← JN_FROM float json "data" (data o);
  Ok (json, mk data_).

Definition toJson (o : t) (json : JsonMap) : JsonMap :=
  JN_TO float "data" (data o) json.

#[global] Instance jsonize : Jsonize t :=
  {| Json.toJson := toJson; Json.fromJson := fromJson;
     construct := mk fzero |}.
End Code.

Definition kept (keeps : ∀ t, value t -> Prop) (o : t) : Prop :=
  keeps Tfloat (data o).
End JsonizeDataFloat.

Module JsonizeDataDouble.
Record t := mk { data : float64 }.

Section Code.
Context `{Sdk}.

Definition fromJson (json : JsonMap) (o : t) : outcome (JsonMap * t) :=
  '(json, data_) ← JN_FROM double json "data" (data o);
  Ok (json, mk data_).

Definition toJson (o : t) (json : JsonMap) : JsonMap :=
  JN_TO double "data" (data o) json.

#[global] Instance jsonize : Jsonize t :=
  {| Json.toJson := toJson; Json.fromJson := fromJson;
     construct := mk fzero |}.
End Code.

Definition kept (keeps : ∀ t, value t -> Prop) (o : t) : Prop :=
  keeps Tdouble (data o).
End JsonizeDataDouble.

Module JsonizeDataString.
Record t := mk { data : string }.

Section Code.
Context `{Sdk}.

Definition fromJson (json : JsonMap) (o : t) : outcome (JsonMap * t) :=
  '(json, data_) ← JN_FROM str json "data" (data o);
  Ok (json, mk data_).

Definition toJson (o : t) (json : JsonMap) : JsonMap :=
  JN_TO str "data" (data o) json.

#[global] Instance jsonize : Jsonize t :=
  {| Json.toJson := toJson; Json.fromJson := fromJson;
     construct := mk "" |}.
End Code.

Definition kept (keeps : ∀ t, value t -> Prop) (o : t) : Prop :=
  keeps Tstring (data o).
End JsonizeDataString.

Module JsonizeVec3.
Record t := mk { x : float32; y : float32; z : float32 }.

Section Code.
Context `{Sdk}.

Definition fromJson (json : JsonMap) (o : t) : outcome (JsonMap * t) :=
  '(json, x_) ← JN_FROM float json "x" (x o);
  '(json, y_) ← JN_FROM float json "y" (y o);
  '(json, z_) ← JN_FROM float json "z" (z o);
  Ok (json, mk x_ y_ z_).

Definition toJson (o : t) (json : JsonMap) : JsonMap :=
  let json := JN_TO float "x" (x o) json in
  let json := JN_TO float "y" (y o) json in
  JN_TO float "z" (z o) json.

#[global] Instance jsonize : Jsonize t :=
  {| Json.toJson := toJson; Json.fromJson := fromJson;
     construct := mk fzero fzero fzero |}.
End Code.

Definition kept (keeps : ∀ t, value t -> Prop) (o : t) : Prop :=
  keeps Tfloat (x o) ∧ keeps Tfloat (y o) ∧ keeps Tfloat (z o).
End JsonizeVec3.

Module JsonizeQuat.
Record t := mk { x : float32; y : float32; z : float32; w : float32 }.

Section Code.
Context `{Sdk}.

Definition fromJson (json : JsonMap) (o : t) : outcome (JsonMap * t) :=
  '(json, x_) ← JN_FROM float json "x" (x o);
  '(json, y_) ← JN_FROM float json "y" (y o);
  '(json, z_) ← JN_FROM float json "z" (z o);
  '(json, w_) ← JN_FROM float json "w" (w o);
  Ok (json, mk x_ y_ z_ w_).

Definition toJson (o : t) (json : JsonMap) : JsonMap :=
  let json := JN_TO float "x" (x o) json in
  let json := JN_TO float "y" (y o) json in
  let json := JN_TO float "z" (z o) json in
  JN_TO float "w" (w o) json.

#[global] Instance jsonize : Jsonize t :=
  {| Json.toJson := toJson; Json.fromJson := fromJson;
     construct := mk fzero fzero fzero fzero |}.
End Code.

Definition kept (keeps : ∀ t, value t -> Prop) (o : t) : Prop :=
  keeps Tfloat (x o) ∧ keeps Tfloat (y o) ∧ keeps Tfloat (z o) ∧ keeps Tfloat (w o).
End JsonizeQuat.

Module JsonizePathPoint.
Record t := mk { timeFromStart : float32; x : float32; y : float32; yaw : float32; vx : float32; vy : float32; vyaw : float32 }.

Section Code.
Context `{Sdk}.

Definition fromJson (json : JsonMap) (o : t) : outcome (JsonMap * t) :=
  '(json, timeFromStart_) ← JN_FROM float json "t_from_start" (timeFromStart o);
  '(json, x_) ← JN_FROM float json "x" (x o);
  '(json, y_) ← JN_FROM float json "y" (y o);
  '(json, yaw_) ← JN_FROM float json "yaw" (yaw o);
  '(json, vx_) ← JN_FROM float json "vx" (vx o);
  '(json, vy_) ← JN_FROM float json "vy" (vy o);
  '(json, vyaw_) ← JN_FROM float json "vyaw" (vyaw o);
  Ok (json, mk timeFromStart_ x_ y_ yaw_ vx_ vy_ vyaw_).

Definition toJson (o : t) (json : JsonMap) : JsonMap :=
  let json := JN_TO float "t_from_start" (timeFromStart o) json in
  let json := JN_TO float "x" (x o) json in
  let json := JN_TO float "y" (y o) json in
  let json := JN_TO float "yaw" (yaw o) json in
  let json := JN_TO float "vx" (vx o) json in
  let json := JN_TO float "vy" (vy o) json in
  JN_TO float "vyaw" (vyaw o) json.

#[global] Instance jsonize : Jsonize t :=
  {| Json.toJson := toJson; Json.fromJson := fromJson;
     construct := mk fzero fzero fzero fzero fzero fzero fzero |}.
End Code.

Definition kept (keeps : ∀ t, value t -> Prop) (o : t) : Prop :=
  keeps Tfloat (timeFromStart o) ∧ keeps Tfloat (x o) ∧ keeps Tfloat (y o) ∧ keeps Tfloat (yaw o) ∧ keeps Tfloat (vx o) ∧ keeps Tfloat (vy o) ∧ keeps Tfloat (vyaw o).
End JsonizePathPoint.

(** *** [include/unitree/robot/go2/config/config_api.hpp] *)

(** The constructor leaves [size], [epoch] uninitialised. *)
Module JsonizeConfigMeta.
Record t := mk { name : string; lastModified : string; size : Z; epoch : Z }.

Section Code.
Context `{Sdk}.

Definition fromJson (json : JsonMap) (o : t) : outcome (JsonMap * t) :=
  '(json, name_) ← JN_FROM str json "name" (name o);
  '(json, lastModified_) ← JN_FROM str json "lastModified" (lastModified o);
  '(json, size_) ← JN_FROM int32 json "size" (size o);
  '(json, epoch_) ← JN_FROM int32 json "epoch" (epoch o);
  Ok (json, mk name_ lastModified_ size_ epoch_).

Definition toJson (o : t) (json : JsonMap) : JsonMap :=
  let json := JN_TO str "name" (name o) json in
  let json := JN_TO str "lastModified" (lastModified o) json in
  let json := JN_TO int32 "size" (size o) json in
  JN_TO int32 "epoch" (epoch o) json.

#[global] Instance jsonize : Jsonize t :=
  {| Json.toJson := toJson; Json.fromJson := fromJson;
     construct := mk "" "" 0 0 |}.
End Code.

Definition kept (keeps : ∀ t, value t -> Prop) (o : t) : Prop :=
  keeps Tstring (name o) ∧ keeps Tstring (lastModified o) ∧ keeps (Tint I32) (size o) ∧ keeps (Tint I32) (epoch o).
End JsonizeConfigMeta.

Module ConfigSetParameter.
Record t := mk { name : string; content : string }.

Section Code.
Context `{Sdk}.

Definition fromJson (json : JsonMap) (o : t) : outcome (JsonMap * t) :=
  '(json, name_) ← JN_FROM str json "name" (name o);
  '(json, content_) ← JN_FROM str json "content" (content o);
  Ok (json, mk name_ content_).

Definition toJson (o : t) (json : JsonMap) : JsonMap :=
  let json := JN_TO str "name" (name o) json in
  JN_TO str "content" (content o) json.

#[global] Instance jsonize : Jsonize t :=
  {| Json.toJson := toJson; Json.fromJson := fromJson;
     construct := mk "" "" |}.
End Code.

Definition kept (keeps : ∀ t, value t -> Prop) (o : t) : Prop :=
  keeps Tstring (name o) ∧ keeps Tstring (content o).
End ConfigSetParameter.

Module ConfigGetParameter.
Record t := mk { name : string }.

Section Code.
Context `{Sdk}.

Definition fromJson (json : JsonMap) (o : t) : outcome (JsonMap * t) :=
  '(json, name_) ← JN_FROM str json "name" (name o);
  Ok (json, mk name_).

Definition toJson (o : t) (json : JsonMap) : JsonMap :=
  JN_TO str "name" (name o) json.

#[global] Instance jsonize : Jsonize t :=
  {| Json.toJson := toJson; Json.fromJson := fromJson;
     construct := mk "" |}.
End Code.

Definition kept (keeps : ∀ t, value t -> Prop) (o : t) : Prop :=
  keeps Tstring (name o).
End ConfigGetParameter.

Module ConfigGetData.
Record t := mk { content : string }.

Section Code.
Context `{Sdk}.

Definition fromJson (json : JsonMap) (o : t) : outcome (JsonMap * t) :=
  '(json, content_) ← JN_FROM str json "content" (content o);
  Ok (json, mk content_).

Definition toJson (o : t) (json : JsonMap) : JsonMap :=
  JN_TO str "content" (content o) json.

#[global] Instance jsonize : Jsonize t :=
  {| Json.toJson := toJson; Json.fromJson := fromJson;
     construct := mk "" |}.
End Code.

Definition kept (keeps : ∀ t, value t -> Prop) (o : t) : Prop :=
  keeps Tstring (content o).
End ConfigGetData.

Module ConfigDelParameter.
Record t := mk { name : string }.

Section Code.
Context `{Sdk}.

Definition fromJson (json : JsonMap) (o : t) : outcome (JsonMap * t) :=
  '(json, name_) ← JN_FROM str json "name" (name o);
  Ok (json, mk name_).

Definition toJson (o : t) (json : JsonMap) : JsonMap :=
  JN_TO str "name" (name o) json.

#[global] Instance jsonize : Jsonize t :=
  {| Json.toJson := toJson; Json.fromJson := fromJson;
     construct := mk "" |}.
End Code.

Definition kept (keeps : ∀ t, value t -> Prop) (o : t) : Prop :=
  keeps Tstring (name o).
End ConfigDelParameter.

Module ConfigMetaParameter.
Record t := mk { name : string }.

Section Code.
Context `{Sdk}.

Definition fromJson (json : JsonMap) (o : t) : outcome (JsonMap * t) :=
  '(json, name_) ← JN_FROM str json "name" (name o);
  Ok (json, mk name_).

Definition toJson (o : t) (json : JsonMap) : JsonMap :=
  JN_TO str "name" (name o) json.

#[global] Instance jsonize : Jsonize t :=
  {| Json.toJson := toJson; Json.fromJson := fromJson;
     construct := mk "" |}.
End Code.

Definition kept (keeps : ∀ t, value t -> Prop) (o : t) : Prop :=
  keeps Tstring (name o).
End ConfigMetaParameter.

Module ConfigMetaData.
Record t := mk { meta : JsonizeConfigMeta.t }.

Section Code.
Context `{Sdk}.

Definition fromJson (json : JsonMap) (o : t) : outcome (JsonMap * t) :=
  '(json, meta_) ← JN_FROM (object JsonizeConfigMeta.t) json "meta" (meta o);
  Ok (json, mk meta_).

Definition toJson (o : t) (json : JsonMap) : JsonMap :=
  JN_TO (object JsonizeConfigMeta.t) "meta" (meta o) json.

#[global] Instance jsonize : Jsonize t :=
  {| Json.toJson := toJson; Json.fromJson := fromJson;
     construct := mk construct |}.
End Code.

Definition kept (keeps : ∀ t, value t -> Prop) (o : t) : Prop :=
  JsonizeConfigMeta.kept keeps (meta o).
End ConfigMetaData.

(** *** [include/unitree/robot/go2/robot_state/robot_state_api.hpp] *)

Module ServiceSwitchParameter.
Record t := mk { name : string; swit : Z }.

Section Code.
Context `{Sdk}.

Definition fromJson (json : JsonMap) (o : t) : outcome (JsonMap * t) :=
  '(json, name_) ← JN_FROM str json "name" (name o);
  '(json, swit_) ← JN_FROM int32 json "switch" (swit o);
  Ok (json, mk name_ swit_).

Definition toJson (o : t) (json : JsonMap) : JsonMap :=
  let json := JN_TO str "name" (name o) json in
  JN_TO int32 "switch" (swit o) json.

#[global] Instance jsonize : Jsonize t :=
  {| Json.toJson := toJson; Json.fromJson := fromJson;
     construct := mk "" 0 |}.
End Code.

Definition kept (keeps : ∀ t, value t -> Prop) (o : t) : Prop :=
  keeps Tstring (name o) ∧ keeps (Tint I32) (swit o).
End ServiceSwitchParameter.

Module ServiceSwitchData.
Record t := mk { name : string; status : Z }.

Section Code.
Context `{Sdk}.

Definition fromJson (json : JsonMap) (o : t) : outcome (JsonMap * t) :=
  '(json, name_) ← JN_FROM str json "name" (name o);
  '(json, status_) ← JN_FROM int32 json "status" (status o);
  Ok (json, mk name_ status_).

Definition toJson (o : t) (json : JsonMap) : JsonMap :=
  let json := JN_TO str "name" (name o) json in
  JN_TO int32 "status" (status o) json.

#[global] Instance jsonize : Jsonize t :=
  {| Json.toJson := toJson; Json.fromJson := fromJson;
     construct := mk "" 0 |}.
End Code.

Definition kept (keeps : ∀ t, value t -> Prop) (o : t) : Prop :=
  keeps Tstring (name o) ∧ keeps (Tint I32) (status o).
End ServiceSwitchData.

(** The constructor leaves [interval], [duration] uninitialised. *)
Module SetReportFreqParameter.
Record t := mk { interval : Z; duration : Z }.

Section Code.
Context `{Sdk}.

Definition fromJson (json : JsonMap) (o : t) : outcome (JsonMap * t) :=
  '(json, interval_) ← JN_FROM int32 json "interval" (interval o);
  '(json, duration_) ← JN_FROM int32 json "duration" (duration o);
  Ok (json, mk interval_ duration_).

Definition toJson (o : t) (json : JsonMap) : JsonMap :=
  let json := JN_TO int32 "interval" (interval o) json in
  JN_TO int32 "duration" (duration o) json.

#[global] Instance jsonize : Jsonize t :=
  {| Json.toJson := toJson; Json.fromJson := fromJson;
     construct := mk 0 0 |}.
End Code.

Definition kept (keeps : ∀ t, value t -> Prop) (o : t) : Prop :=
  keeps (Tint I32) (interval o) ∧ keeps (Tint I32) (duration o).
End SetReportFreqParameter.

(** The constructor leaves [status], [protect] uninitialised. *)
Module ServiceStateData.
Record t := mk { name : string; status : Z; protect : Z }.

Section Code.
Context `{Sdk}.

Definition fromJson (json : JsonMap) (o : t) : outcome (JsonMap * t) :=
  '(json, name_) ← JN_FROM str json "name" (name o);
  '(json, status_) ← JN_FROM int32 json "status" (status o);
  '(json, protect_) ← JN_FROM int32 json "protect" (protect o);
  Ok (json, mk name_ status_ protect_).

Definition toJson (o : t) (json : JsonMap) : JsonMap :=
  let json := JN_TO str "name" (name o) json in
  let json := JN_TO int32 "status" (status o) json in
  JN_TO int32 "protect" (protect o) json.

#[global] Instance jsonize : Jsonize t :=
  {| Json.toJson := toJson; Json.fromJson := fromJson;
     construct := mk "" 0 0 |}.
End Code.

Definition kept (keeps : ∀ t, value t -> Prop) (o : t) : Prop :=
  keeps Tstring (name o) ∧ keeps (Tint I32) (status o) ∧ keeps (Tint I32) (protect o).
End ServiceStateData.

(** *** [include/unitree/robot/b2/robot_state/robot_state_api.hpp] *)

Module LowPowerSwitchParameter.
Record t := mk { swit : Z }.

Section Code.
Context `{Sdk}.

Definition fromJson (json : JsonMap) (o : t) : outcome (JsonMap * t) :=
  '(json, swit_) ← JN_FROM int32 json "switch" (swit o);
  Ok (json, mk swit_).

Definition toJson (o : t) (json : JsonMap) : JsonMap :=
  JN_TO int32 "switch" (swit o) json.

#[global] Instance jsonize : Jsonize t :=
  {| Json.toJson := toJson; Json.fromJson := fromJson;
     construct := mk 0 |}.
End Code.

Definition kept (keeps : ∀ t, value t -> Prop) (o : t) : Prop :=
  keeps (Tint I32) (swit o).
End LowPowerSwitchParameter.

Module LowPowerStatusData.
Record t := mk { status : Z }.

Section Code.
Context `{Sdk}.

Definition fromJson (json : JsonMap) (o : t) : outcome (JsonMap * t) :=
  '(json, status_) ← JN_FROM int32 json "status" (status o);
  Ok (json, mk status_).

Definition toJson (o : t) (json : JsonMap) : JsonMap :=
  JN_TO int32 "status" (status o) json.

#[global] Instance jsonize : Jsonize t :=
  {| Json.toJson := toJson; Json.fromJson := fromJson;
     construct := mk 0 |}.
End Code.

Definition kept (keeps : ∀ t, value t -> Prop) (o : t) : Prop :=
  keeps (Tint I32) (status o).
End LowPowerStatusData.

(** *** [include/unitree/robot/go2/obstacles_avoid/obstacles_avoid_api.hpp] *)

Module ObstaclesAvoidSwitchSetParameter.
Record t := mk { mEnable : bool }.

Section Code.
Context `{Sdk}.

Definition fromJson (json : JsonMap) (o : t) : outcome (JsonMap * t) :=
  '(json, mEnable_) ← JN_FROM boolean json "enable" (mEnable o);
  Ok (json, mk mEnable_).

Definition toJson (o : t) (json : JsonMap) : JsonMap :=
  JN_TO boolean "enable" (mEnable o) json.

#[global] Instance jsonize : Jsonize t :=
  {| Json.toJson := toJson; Json.fromJson := fromJson;
     construct := mk true |}.
End Code.

Definition kept (keeps : ∀ t, value t -> Prop) (o : t) : Prop :=
  keeps Tbool (mEnable o).
End ObstaclesAvoidSwitchSetParameter.

Module ObstaclesAvoidSwitchGetData.
Record t := mk { mEnable : bool }.

Section Code.
Context `{Sdk}.

Definition fromJson (json : JsonMap) (o : t) : outcome (JsonMap * t) :=
  '(json, mEnable_) ← JN_FROM boolean json "enable" (mEnable o);
  Ok (json, mk mEnable_).

Definition toJson (o : t) (json : JsonMap) : JsonMap :=
  JN_TO boolean "enable" (mEnable o) json.

#[global] Instance jsonize : Jsonize t :=
  {| Json.toJson := toJson; Json.fromJson := fromJson;
     construct := mk true |}.
End Code.

Definition kept (keeps : ∀ t, value t -> Prop) (o : t) : Prop :=
  keeps Tbool (mEnable o).
End ObstaclesAvoidSwitchGetData.

Module ObstaclesAvoidMoveParameter.
Record t := mk { mX : float32; mY : float32; mYaw : float32; mMode : Z }.

Section Code.
Context `{Sdk}.

Definition fromJson (json : JsonMap) (o : t) : outcome (JsonMap * t) :=
  '(json, mX_) ← JN_FROM float json "x" (mX o);
  '(json, mY_) ← JN_FROM float json "y" (mY o);
  '(json, mYaw_) ← JN_FROM float json "yaw" (mYaw o);
  '(json, mMode_) ← JN_FROM int32 json "mode" (mMode o);
  Ok (json, mk mX_ mY_ mYaw_ mMode_).

Definition toJson (o : t) (json : JsonMap) : JsonMap :=
  let json := JN_TO float "x" (mX o) json in
  let json := JN_TO float "y" (mY o) json in
  let json := JN_TO float "yaw" (mYaw o) json in
  JN_TO int32 "mode" (mMode o) json.

#[global] Instance jsonize : Jsonize t :=
  {| Json.toJson := toJson; Json.fromJson := fromJson;
     construct := mk fzero fzero fzero 0 |}.
End Code.

Definition kept (keeps : ∀ t, value t -> Prop) (o : t) : Prop :=
  keeps Tfloat (mX o) ∧ keeps Tfloat (mY o) ∧ keeps Tfloat (mYaw o) ∧ keeps (Tint I32) (mMode o).
End ObstaclesAvoidMoveParameter.

Module ObstaclesAvoidRemoteCommandSource.
Record t := mk { mIsRemoteCommandsFromApi : bool }.

Section Code.
Context `{Sdk}.

Definition fromJson (json : JsonMap) (o : t) : outcome (JsonMap * t) :=
  '(json, mIsRemoteCommandsFromApi_) ← JN_FROM boolean json "is_remote_commands_from_api" (mIsRemoteCommandsFromApi o);
  Ok (json, mk mIsRemoteCommandsFromApi_).

Definition toJson (o : t) (json : JsonMap) : JsonMap :=
  JN_TO boolean "is_remote_commands_from_api" (mIsRemoteCommandsFromApi o) json.

#[global] Instance jsonize : Jsonize t :=
  {| Json.toJson := toJson; Json.fromJson := fromJson;
     construct := mk true |}.
End Code.

Definition kept (keeps : ∀ t, value t -> Prop) (o : t) : Prop :=
  keeps Tbool (mIsRemoteCommandsFromApi o).
End ObstaclesAvoidRemoteCommandSource.

(** *** [include/unitree/robot/go2/utrack/utrack_api.hpp] *)

Module UtrackSwitchSetParameter.
Record t := mk { mEnable : Z }.

Section Code.
Context `{Sdk}.

Definition fromJson (json : JsonMap) (o : t) : outcome (JsonMap * t) :=
  '(json, mEnable_) ← JN_FROM int32 json "enable" (mEnable o);
  Ok (json, mk mEnable_).

Definition toJson (o : t) (json : JsonMap) : JsonMap :=
  JN_TO int32 "enable" (mEnable o) json.

#[global] Instance jsonize : Jsonize t :=
  {| Json.toJson := toJson; Json.fromJson := fromJson;
     construct := mk 1 |}.
End Code.

Definition kept (keeps : ∀ t, value t -> Prop) (o : t) : Prop :=
  keeps (Tint I32) (mEnable o).
End UtrackSwitchSetParameter.

Module UtrackSwitchGetData.
Record t := mk { mEnable : Z }.

Section Code.
Context `{Sdk}.

Definition fromJson (json : JsonMap) (o : t) : outcome (JsonMap * t) :=
  '(json, mEnable_) ← JN_FROM int32 json "enable" (mEnable o);
  Ok (json, mk mEnable_).

Definition toJson (o : t) (json : JsonMap) : JsonMap :=
  JN_TO int32 "enable" (mEnable o) json.

#[global] Instance jsonize : Jsonize t :=
  {| Json.toJson := toJson; Json.fromJson := fromJson;
     construct := mk 1 |}.
End Code.

Definition kept (keeps : ∀ t, value t -> Prop) (o : t) : Prop :=
  keeps (Tint I32) (mEnable o).
End UtrackSwitchGetData.

(** *** [include/unitree/robot/b2/motion_switcher/motion_switcher_api.hpp] *)

Module JsonizeSilent.
Record t := mk { silent : bool }.

Section Code.
Context `{Sdk}.

Definition fromJson (json : JsonMap) (o : t) : outcome (JsonMap * t) :=
  '(json, silent_) ← JN_FROM boolean json "silent" (silent o);
  Ok (json, mk silent_).

Definition toJson (o : t) (json : JsonMap) : JsonMap :=
  JN_TO boolean "silent" (silent o) json.

#[global] Instance jsonize : Jsonize t :=
  {| Json.toJson := toJson; Json.fromJson := fromJson;
     construct := mk false |}.
End Code.

Definition kept (keeps : ∀ t, value t -> Prop) (o : t) : Prop :=
  keeps Tbool (silent o).
End JsonizeSilent.

(** *** [include/unitree/robot/internal/internal_api.hpp] *)

Module ApplyLeaseParameter.
Record t := mk { name : string }.

Section Code.
Context `{Sdk}.

Definition fromJson (json : JsonMap) (o : t) : outcome (JsonMap * t) :=
  '(json, name_) ← JN_FROM str json "name" (name o);
  Ok (json, mk name_).

Definition toJson (o : t) (json : JsonMap) : JsonMap :=
  JN_TO str "name" (name o) json.

#[global] Instance jsonize : Jsonize t :=
  {| Json.toJson := toJson; Json.fromJson := fromJson;
     construct := mk "" |}.
End Code.

Definition kept (keeps : ∀ t, value t -> Prop) (o : t) : Prop :=
  keeps Tstring (name o).
End ApplyLeaseParameter.

Module ApplyLeaseData.
Record t := mk { id : Z; term : Z }.

Section Code.
Context `{Sdk}.

Definition fromJson (json : JsonMap) (o : t) : outcome (JsonMap * t) :=
  '(json, id_) ← JN_FROM int64 json "id" (id o);
  '(json, term_) ← JN_FROM int64 json "term" (term o);
  Ok (json, mk id_ term_).

Definition toJson (o : t) (json : JsonMap) : JsonMap :=
  let json := JN_TO int64 "id" (id o) json in
  JN_TO int64 "term" (term o) json.

#[global] Instance jsonize : Jsonize t :=
  {| Json.toJson := toJson; Json.fromJson := fromJson;
     construct := mk 0 0 |}.
End Code.

Definition kept (keeps : ∀ t, value t -> Prop) (o : t) : Prop :=
  keeps (Tint I64) (id o) ∧ keeps (Tint I64) (term o).
End ApplyLeaseData.

(** *** [include/unitree/robot/h1/loco/h1_loco_api.hpp] *)

Module JsonizeDataVecFloat.
Record t := mk { data : list float32 }.

Section Code.
Context `{Sdk}.

Definition fromJson (json : JsonMap) (o : t) : outcome (JsonMap * t) :=
  '(json, data_) ← JN_FROM (vector float) json "data" (data o);
  Ok (json, mk data_).

Definition toJson (o : t) (json : JsonMap) : JsonMap :=
  JN_TO (vector float) "data" (data o) json.

#[global] Instance jsonize : Jsonize t :=
  {| Json.toJson := toJson; Json.fromJson := fromJson;
     construct := mk [] |}.
End Code.

Definition kept (keeps : ∀ t, value t -> Prop) (o : t) : Prop :=
  Forall (keeps Tfloat) (data o).
End JsonizeDataVecFloat.

(** The constructor leaves [duration] uninitialised. *)
Module JsonizeVelocityCommand.
Record t := mk { velocity : list float32; duration : float32 }.

Section Code.
Context `{Sdk}.

Definition fromJson (json : JsonMap) (o : t) : outcome (JsonMap * t) :=
  '(json, velocity_) ← JN_FROM (vector float) json "velocity" (velocity o);
  '(json, duration_) ← JN_FROM float json "duration" (duration o);
  Ok (json, mk velocity_ duration_).

Definition toJson (o : t) (json : JsonMap) : JsonMap :=
  let json := JN_TO (vector float) "velocity" (velocity o) json in
  JN_TO float "duration" (duration o) json.

#[global] Instance jsonize : Jsonize t :=
  {| Json.toJson := toJson; Json.fromJson := fromJson;
     construct := mk [] fzero |}.
End Code.

Definition kept (keeps : ∀ t, value t -> Prop) (o : t) : Prop :=
  Forall (keeps Tfloat) (velocity o) ∧ keeps Tfloat (duration o).
End JsonizeVelocityCommand.

(** The constructor leaves [x], [y], [yaw], [relative] uninitialised. *)
Module JsonizeTargetPos.
Record t := mk { x : float32; y : float32; yaw : float32; relative : bool }.

Section Code.
Context `{Sdk}.

Definition fromJson (json : JsonMap) (o : t) : outcome (JsonMap * t) :=
  '(json, x_) ← JN_FROM float json "x" (x o);
  '(json, y_) ← JN_FROM float json "y" (y o);
  '(json, yaw_) ← JN_FROM float json "yaw" (yaw o);
  '(json, relative_) ← JN_FROM boolean json "relative" (relative o);
  Ok (json, mk x_ y_ yaw_ relative_).

Definition toJson (o : t) (json : JsonMap) : JsonMap :=
  let json := JN_TO float "x" (x o) json in
  let json := JN_TO float "y" (y o) json in
  let json := JN_TO float "yaw" (yaw o) json in
  JN_TO boolean "relative" (relative o) json.

#[global] Instance jsonize : Jsonize t :=
  {| Json.toJson := toJson; Json.fromJson := fromJson;
     construct := mk fzero fzero fzero false |}.
End Code.

Definition kept (keeps : ∀ t, value t -> Prop) (o : t) : Prop :=
  keeps Tfloat (x o) ∧ keeps Tfloat (y o) ∧ keeps Tfloat (yaw o) ∧ keeps Tbool (relative o).
End JsonizeTargetPos.

(** *** [include/unitree/robot/g1/arm/g1_arm_action_api.hpp] *)

(** The constructor leaves [action_id] uninitialised. *)
Module JsonizeArmActionCommand.
Record t := mk { action_id : Z }.

Section Code.
Context `{Sdk}.

Definition fromJson (json : JsonMap) (o : t) : outcome (JsonMap * t) :=
  '(json, action_id_) ← JN_FROM int32 json "data" (action_id o);
  Ok (json, mk action_id_).

Definition toJson (o : t) (json : JsonMap) : JsonMap :=
  JN_TO int32 "data" (action_id o) json.

#[global] Instance jsonize : Jsonize t :=
  {| Json.toJson := toJson; Json.fromJson := fromJson;
     construct := mk 0 |}.
End Code.

Definition kept (keeps : ∀ t, value t -> Prop) (o : t) : Prop :=
  keeps (Tint I32) (action_id o).
End JsonizeArmActionCommand.

(** *** [include/unitree/robot/g1/audio/g1_audio_api.hpp] *)

Module TtsMakerParameter.
Record t := mk { index : Z; speaker_id : Z; text : string }.

Section Code.
Context `{Sdk}.

Definition fromJson (json : JsonMap) (o : t) : outcome (JsonMap * t) :=
  Ok (json, o).

Definition toJson (o : t) (json : JsonMap) : JsonMap :=
  let json := JN_TO int32 "index" (index o) json in
  let json := JN_TO uint16 "speaker_id" (speaker_id o) json in
  JN_TO str "text" (text o) json.

#[global] Instance jsonize : Jsonize t :=
  {| Json.toJson := toJson; Json.fromJson := fromJson;
     construct := mk 0 0 "" |}.
End Code.

End TtsMakerParameter.

Module PlayStreamParameter.
Record t := mk { app_name : string; stream_id : string }.

Section Code.
Context `{Sdk}.

Definition fromJson (json : JsonMap) (o : t) : outcome (JsonMap * t) :=
  Ok (json, o).

Definition toJson (o : t) (json : JsonMap) : JsonMap :=
  let json := JN_TO str "app_name" (app_name o) json in
  JN_TO str "stream_id" (stream_id o) json.

#[global] Instance jsonize : Jsonize t :=
  {| Json.toJson := toJson; Json.fromJson := fromJson;
     construct := mk "" "" |}.
End Code.

End PlayStreamParameter.

Module PlayStopParameter.
Record t := mk { app_name : string }.

Section Code.
Context `{Sdk}.

Definition fromJson (json : JsonMap) (o : t) : outcome (JsonMap * t) :=
  Ok (json, o).

Definition toJson (o : t) (json : JsonMap) : JsonMap :=
  JN_TO str "app_name" (app_name o) json.

#[global] Instance jsonize : Jsonize t :=
  {| Json.toJson := toJson; Json.fromJson := fromJson;
     construct := mk "" |}.
End Code.

End PlayStopParameter.

(** The constructor leaves [R], [G], [B] uninitialised. *)
Module LedControlParameter.
Record t := mk { R : Z; G : Z; B : Z }.

Section Code.
Context `{Sdk}.

Definition fromJson (json : JsonMap) (o : t) : outcome (JsonMap * t) :=
  Ok (json, o).

Definition toJson (o : t) (json : JsonMap) : JsonMap :=
  let json := JN_TO uint8 "R" (R o) json in
  let json := JN_TO uint8 "G" (G o) json in
  JN_TO uint8 "B" (B o) json.

#[global] Instance jsonize : Jsonize t :=
  {| Json.toJson := toJson; Json.fromJson := fromJson;
     construct := mk 0 0 0 |}.
End Code.

End LedControlParameter.

(** *** Classes with conversions of their own shape *)

(** [go2/public/jsonize_type.hpp]: the key is a member. *)
Module JsonizeCommObjInt.
Record t := mk { value : Z; name : string }.

Section Code.
Context `{Sdk}.

Definition fromJson (json : JsonMap) (o : t) : outcome (JsonMap * t) :=
  '(json, value_) ← JN_FROM int32 json (name o) (value o);
  Ok (json, mk value_ (name o)).

Definition toJson (o : t) (json : JsonMap) : JsonMap :=
  JN_TO int32 (name o) (value o) json.

#[global] Instance jsonize : Jsonize t :=
  {| Json.toJson := toJson; Json.fromJson := fromJson; construct := mk 0 "" |}.
End Code.
End JsonizeCommObjInt.

(** [b2/motion_switcher/motion_switcher_api.hpp]: [form] is optional. *)
Module JsonizeModeName.
Record t := mk { name : string; form : string }.

Section Code.
Context `{Sdk}.

Definition fromJson (json : JsonMap) (o : t) : outcome (JsonMap * t) :=
  '(json, name_) ← JN_FROM str json "name" (name o);
  match json !! "form" with
  | Some _ => '(json, form_) ← JN_FROM str json "form" (form o); Ok (json, mk name_ form_)
  | None => Ok (json, mk name_ (form o))
  end.

Definition toJson (o : t) (json : JsonMap) : JsonMap :=
  let json := JN_TO str "name" (name o) json in
  if bool_decide (form o = "") then json else JN_TO str "form" (form o) json.

#[global] Instance jsonize : Jsonize t :=
  {| Json.toJson := toJson; Json.fromJson := fromJson; construct := mk "" "" |}.
End Code.
End JsonizeModeName.

(** [src/example/jsonize/test_jsonize.cpp]. *)
Module Test.
Record t := mk { x : Z; y : Z; z : Z }.

Section Code.
Context `{Sdk}.

Definition fromJson (json : JsonMap) (o : t) : outcome (JsonMap * t) :=
  '(json, x_) ← JN_FROM int32 json "x" (x o);
  '(json, y_) ← JN_FROM int32 json "y" (y o);
  '(json, z_) ← JN_FROM int32 json "z" (z o);
  Ok (json, mk x_ y_ z_).

Definition toJson (o : t) (json : JsonMap) : JsonMap :=
  let json := JN_TO int32 "x" (x o) json in
  let json := JN_TO int32 "y" (y o) json in
  JN_TO int32 "z" (z o) json.

#[global] Instance jsonize : Jsonize t :=
  {| Json.toJson := toJson; Json.fromJson := fromJson; construct := mk 0 0 0 |}.
End Code.

Definition kept (keeps : ∀ t, Any.value t -> Prop) (o : t) : Prop :=
  keeps (Tint I32) (x o) ∧ keeps (Tint I32) (y o) ∧ keeps (Tint I32) (z o).
End Test.

(** ** Round trips *)

(** Follows [fromJson] member by member through the map [toJson] has built. *)
Ltac read_members :=
  repeat match goal with
  | |- context [JN_FROM ?c ?m ?name ?old] =>
      erewrite (JN_FROM_found c m name _ old);
        [cbn [mbind outcome_bind] | by rewrite lookup_fmap; simplify_map_eq | by eauto | by eauto]
  end.

Create HintDb jsonize.
#[global] Hint Unfold JsonizeFlagBool.fromJson JsonizeFlagBool.toJson JsonizeFlagBool.jsonize : jsonize.
#[global] Hint Unfold JsonizeDataBool.fromJson JsonizeDataBool.toJson JsonizeDataBool.jsonize : jsonize.
#[global] Hint Unfold JsonizeDataInt.fromJson JsonizeDataInt.toJson JsonizeDataInt.jsonize : jsonize.
#[global] Hint Unfold JsonizeDataFloat.fromJson JsonizeDataFloat.toJson JsonizeDataFloat.jsonize : jsonize.
#[global] Hint Unfold JsonizeDataDouble.fromJson JsonizeDataDouble.toJson JsonizeDataDouble.jsonize : jsonize.
#[global] Hint Unfold JsonizeDataString.fromJson JsonizeDataString.toJson JsonizeDataString.jsonize : jsonize.
#[global] Hint Unfold JsonizeVec3.fromJson JsonizeVec3.toJson JsonizeVec3.jsonize : jsonize.
#[global] Hint Unfold JsonizeQuat.fromJson JsonizeQuat.toJson JsonizeQuat.jsonize : jsonize.
#[global] Hint Unfold JsonizePathPoint.fromJson JsonizePathPoint.toJson JsonizePathPoint.jsonize : jsonize.
#[global] Hint Unfold JsonizeConfigMeta.fromJson JsonizeConfigMeta.toJson JsonizeConfigMeta.jsonize : jsonize.
#[global] Hint Unfold ConfigSetParameter.fromJson ConfigSetParameter.toJson ConfigSetParameter.jsonize : jsonize.
#[global] Hint Unfold ConfigGetParameter.fromJson ConfigGetParameter.toJson ConfigGetParameter.jsonize : jsonize.
#[global] Hint Unfold ConfigGetData.fromJson ConfigGetData.toJson ConfigGetData.jsonize : jsonize.
#[global] Hint Unfold ConfigDelParameter.fromJson ConfigDelParameter.toJson ConfigDelParameter.jsonize : jsonize.
#[global] Hint Unfold ConfigMetaParameter.fromJson ConfigMetaParameter.toJson ConfigMetaParameter.jsonize : jsonize.
#[global] Hint Unfold ConfigMetaData.fromJson ConfigMetaData.toJson ConfigMetaData.jsonize : jsonize.
#[global] Hint Unfold ServiceSwitchParameter.fromJson ServiceSwitchParameter.toJson ServiceSwitchParameter.jsonize : jsonize.
#[global] Hint Unfold ServiceSwitchData.fromJson ServiceSwitchData.toJson ServiceSwitchData.jsonize : jsonize.
#[global] Hint Unfold SetReportFreqParameter.fromJson SetReportFreqParameter.toJson SetReportFreqParameter.jsonize : jsonize.
#[global] Hint Unfold ServiceStateData.fromJson ServiceStateData.toJson ServiceStateData.jsonize : jsonize.
#[global] Hint Unfold LowPowerSwitchParameter.fromJson LowPowerSwitchParameter.toJson LowPowerSwitchParameter.jsonize : jsonize.
#[global] Hint Unfold LowPowerStatusData.fromJson LowPowerStatusData.toJson LowPowerStatusData.jsonize : jsonize.
#[global] Hint Unfold ObstaclesAvoidSwitchSetParameter.fromJson ObstaclesAvoidSwitchSetParameter.toJson ObstaclesAvoidSwitchSetParameter.jsonize : jsonize.
#[global] Hint Unfold ObstaclesAvoidSwitchGetData.fromJson ObstaclesAvoidSwitchGetData.toJson ObstaclesAvoidSwitchGetData.jsonize : jsonize.
#[global] Hint Unfold ObstaclesAvoidMoveParameter.fromJson ObstaclesAvoidMoveParameter.toJson ObstaclesAvoidMoveParameter.jsonize : jsonize.
#[global] Hint Unfold ObstaclesAvoidRemoteCommandSource.fromJson ObstaclesAvoidRemoteCommandSource.toJson ObstaclesAvoidRemoteCommandSource.jsonize : jsonize.
#[global] Hint Unfold UtrackSwitchSetParameter.fromJson UtrackSwitchSetParameter.toJson UtrackSwitchSetParameter.jsonize : jsonize.
#[global] Hint Unfold UtrackSwitchGetData.fromJson UtrackSwitchGetData.toJson UtrackSwitchGetData.jsonize : jsonize.
#[global] Hint Unfold JsonizeSilent.fromJson JsonizeSilent.toJson JsonizeSilent.jsonize : jsonize.
#[global] Hint Unfold ApplyLeaseParameter.fromJson ApplyLeaseParameter.toJson ApplyLeaseParameter.jsonize : jsonize.
#[global] Hint Unfold ApplyLeaseData.fromJson ApplyLeaseData.toJson ApplyLeaseData.jsonize : jsonize.
#[global] Hint Unfold JsonizeDataVecFloat.fromJson JsonizeDataVecFloat.toJson JsonizeDataVecFloat.jsonize : jsonize.
#[global] Hint Unfold JsonizeVelocityCommand.fromJson JsonizeVelocityCommand.toJson JsonizeVelocityCommand.jsonize : jsonize.
#[global] Hint Unfold JsonizeTargetPos.fromJson JsonizeTargetPos.toJson JsonizeTargetPos.jsonize : jsonize.
#[global] Hint Unfold JsonizeArmActionCommand.fromJson JsonizeArmActionCommand.toJson JsonizeArmActionCommand.jsonize : jsonize.
#[global] Hint Unfold TtsMakerParameter.fromJson TtsMakerParameter.toJson TtsMakerParameter.jsonize : jsonize.
#[global] Hint Unfold PlayStreamParameter.fromJson PlayStreamParameter.toJson PlayStreamParameter.jsonize : jsonize.
#[global] Hint Unfold PlayStopParameter.fromJson PlayStopParameter.toJson PlayStopParameter.jsonize : jsonize.
#[global] Hint Unfold LedControlParameter.fromJson LedControlParameter.toJson LedControlParameter.jsonize : jsonize.
#[global] Hint Unfold Test.fromJson Test.toJson Test.jsonize : jsonize.
#[global] Hint Unfold JsonizeCommObjInt.fromJson JsonizeCommObjInt.toJson JsonizeCommObjInt.jsonize : jsonize.
#[global] Hint Unfold JsonizeModeName.fromJson JsonizeModeName.toJson JsonizeModeName.jsonize : jsonize.

Ltac unfold_object := autounfold with jsonize; cbn [Json.toJson Json.fromJson]; cbn beta zeta.

Ltac write_members :=
  repeat match goal with |- map_Forall _ (JN_TO ?c ?name ?v ?m) => apply (JN_TO_json c m name v) end;
  apply map_Forall_empty.

Ltac solve_object :=
  split;
    [ let Hgood := fresh "Hgood" in intros ? ? Hgood ?; red in Hgood; split_hyps;
      unfold_object; rewrite ?JN_TO_insert; read_members;
      match goal with |- _ = Ok ?x => by destruct x end
    | done
    | intros ?; unfold_object; write_members ].

Section RoundTrips.
Context `{Channel}.

#[global] Instance JsonizeFlagBool_ok : ObjectRoundTrip norm JsonizeFlagBool.t (JsonizeFlagBool.kept keeps) (fun _ => True).
Proof. solve_object. Qed.
#[global] Instance JsonizeDataBool_ok : ObjectRoundTrip norm JsonizeDataBool.t (JsonizeDataBool.kept keeps) (fun _ => True).
Proof. solve_object. Qed.
#[global] Instance JsonizeDataInt_ok : ObjectRoundTrip norm JsonizeDataInt.t (JsonizeDataInt.kept keeps) (fun _ => True).
Proof. solve_object. Qed.
#[global] Instance JsonizeDataFloat_ok : ObjectRoundTrip norm JsonizeDataFloat.t (JsonizeDataFloat.kept keeps) (fun _ => True).
Proof. solve_object. Qed.
#[global] Instance JsonizeDataDouble_ok : ObjectRoundTrip norm JsonizeDataDouble.t (JsonizeDataDouble.kept keeps) (fun _ => True).
Proof. solve_object. Qed.
#[global] Instance JsonizeDataString_ok : ObjectRoundTrip norm JsonizeDataString.t (JsonizeDataString.kept keeps) (fun _ => True).
Proof. solve_object. Qed.
#[global] Instance JsonizeVec3_ok : ObjectRoundTrip norm JsonizeVec3.t (JsonizeVec3.kept keeps) (fun _ => True).
Proof. solve_object. Qed.
#[global] Instance JsonizeQuat_ok : ObjectRoundTrip norm JsonizeQuat.t (JsonizeQuat.kept keeps) (fun _ => True).
Proof. solve_object. Qed.
#[global] Instance JsonizePathPoint_ok : ObjectRoundTrip norm JsonizePathPoint.t (JsonizePathPoint.kept keeps) (fun _ => True).
Proof. solve_object. Qed.
#[global] Instance JsonizeConfigMeta_ok : ObjectRoundTrip norm JsonizeConfigMeta.t (JsonizeConfigMeta.kept keeps) (fun _ => True).
Proof. solve_object. Qed.
#[global] Instance ConfigSetParameter_ok : ObjectRoundTrip norm ConfigSetParameter.t (ConfigSetParameter.kept keeps) (fun _ => True).
Proof. solve_object. Qed.
#[global] Instance ConfigGetParameter_ok : ObjectRoundTrip norm ConfigGetParameter.t (ConfigGetParameter.kept keeps) (fun _ => True).
Proof. solve_object. Qed.
#[global] Instance ConfigGetData_ok : ObjectRoundTrip norm ConfigGetData.t (ConfigGetData.kept keeps) (fun _ => True).
Proof. solve_object. Qed.
#[global] Instance ConfigDelParameter_ok : ObjectRoundTrip norm ConfigDelParameter.t (ConfigDelParameter.kept keeps) (fun _ => True).
Proof. solve_object. Qed.
#[global] Instance ConfigMetaParameter_ok : ObjectRoundTrip norm ConfigMetaParameter.t (ConfigMetaParameter.kept keeps) (fun _ => True).
Proof. solve_object. Qed.
#[global] Instance ConfigMetaData_ok : ObjectRoundTrip norm ConfigMetaData.t (ConfigMetaData.kept keeps) (fun _ => True).
Proof. solve_object. Qed.
#[global] Instance ServiceSwitchParameter_ok : ObjectRoundTrip norm ServiceSwitchParameter.t (ServiceSwitchParameter.kept keeps) (fun _ => True).
Proof. solve_object. Qed.
#[global] Instance ServiceSwitchData_ok : ObjectRoundTrip norm ServiceSwitchData.t (ServiceSwitchData.kept keeps) (fun _ => True).
Proof. solve_object. Qed.
#[global] Instance SetReportFreqParameter_ok : ObjectRoundTrip norm SetReportFreqParameter.t (SetReportFreqParameter.kept keeps) (fun _ => True).
Proof. solve_object. Qed.
#[global] Instance ServiceStateData_ok : ObjectRoundTrip norm ServiceStateData.t (ServiceStateData.kept keeps) (fun _ => True).
Proof. solve_object. Qed.
#[global] Instance LowPowerSwitchParameter_ok : ObjectRoundTrip norm LowPowerSwitchParameter.t (LowPowerSwitchParameter.kept keeps) (fun _ => True).
Proof. solve_object. Qed.
#[global] Instance LowPowerStatusData_ok : ObjectRoundTrip norm LowPowerStatusData.t (LowPowerStatusData.kept keeps) (fun _ => True).
Proof. solve_object. Qed.
#[global] Instance ObstaclesAvoidSwitchSetParameter_ok : ObjectRoundTrip norm ObstaclesAvoidSwitchSetParameter.t (ObstaclesAvoidSwitchSetParameter.kept keeps) (fun _ => True).
Proof. solve_object. Qed.
#[global] Instance ObstaclesAvoidSwitchGetData_ok : ObjectRoundTrip norm ObstaclesAvoidSwitchGetData.t (ObstaclesAvoidSwitchGetData.kept keeps) (fun _ => True).
Proof. solve_object. Qed.
#[global] Instance ObstaclesAvoidMoveParameter_ok : ObjectRoundTrip norm ObstaclesAvoidMoveParameter.t (ObstaclesAvoidMoveParameter.kept keeps) (fun _ => True).
Proof. solve_object. Qed.
#[global] Instance ObstaclesAvoidRemoteCommandSource_ok : ObjectRoundTrip norm ObstaclesAvoidRemoteCommandSource.t (ObstaclesAvoidRemoteCommandSource.kept keeps) (fun _ => True).
Proof. solve_object. Qed.
#[global] Instance UtrackSwitchSetParameter_ok : ObjectRoundTrip norm UtrackSwitchSetParameter.t (UtrackSwitchSetParameter.kept keeps) (fun _ => True).
Proof. solve_object. Qed.
#[global] Instance UtrackSwitchGetData_ok : ObjectRoundTrip norm UtrackSwitchGetData.t (UtrackSwitchGetData.kept keeps) (fun _ => True).
Proof. solve_object. Qed.
#[global] Instance JsonizeSilent_ok : ObjectRoundTrip norm JsonizeSilent.t (JsonizeSilent.kept keeps) (fun _ => True).
Proof. solve_object. Qed.
#[global] Instance ApplyLeaseParameter_ok : ObjectRoundTrip norm ApplyLeaseParameter.t (ApplyLeaseParameter.kept keeps) (fun _ => True).
Proof. solve_object. Qed.
#[global] Instance ApplyLeaseData_ok : ObjectRoundTrip norm ApplyLeaseData.t (ApplyLeaseData.kept keeps) (fun _ => True).
Proof. solve_object. Qed.
#[global] Instance JsonizeDataVecFloat_ok : ObjectRoundTrip norm JsonizeDataVecFloat.t (JsonizeDataVecFloat.kept keeps) (fun o => JsonizeDataVecFloat.data o = []).
Proof. solve_object. Qed.
#[global] Instance JsonizeVelocityCommand_ok : ObjectRoundTrip norm JsonizeVelocityCommand.t (JsonizeVelocityCommand.kept keeps) (fun o => JsonizeVelocityCommand.velocity o = []).
Proof. solve_object. Qed.
#[global] Instance JsonizeTargetPos_ok : ObjectRoundTrip norm JsonizeTargetPos.t (JsonizeTargetPos.kept keeps) (fun _ => True).
Proof. solve_object. Qed.
#[global] Instance JsonizeArmActionCommand_ok : ObjectRoundTrip norm JsonizeArmActionCommand.t (JsonizeArmActionCommand.kept keeps) (fun _ => True).
Proof. solve_object. Qed.
#[global] Instance Test_ok : ObjectRoundTrip norm Test.t (Test.kept keeps) (fun _ => True).
Proof. solve_object. Qed.

End RoundTrips.

(** ** Properties *)
Module JsonTypesProps.

Definition anything {T : Type} (o : T) : Prop := True.

(** An object of class [T] is received as it was sent, through the text and
    through the values alone. *)
Definition Carried `{Sdk} (norm : Any -> Any) (T : Type) `{Jsonize T} (good vacant : T -> Prop) : Prop :=
  ∀ x old pretty, good x -> vacant old ->
  FromAny (object T) (norm (ToAny (object T) x)) old = Ok x ∧
  FromJsonString (object T) (ToJsonString (object T) x pretty) old = Ok x.

(** An object of class [T] is written, but what is read leaves the object it is
    read into as it was. *)
Definition Ignored `{Sdk} (norm : Any -> Any) (T : Type) `{Jsonize T} : Prop :=
  ∀ x old pretty,
  FromAny (object T) (norm (ToAny (object T) x)) old = Ok old ∧
  FromJsonString (object T) (ToJsonString (object T) x pretty) old = Ok old.

Section Props.
Context `{Channel} `{!TextChannel norm}.

Lemma object_text T (J : Jsonize T) (x old y : T) pretty :
  map_Forall (fun _ => json) (toJson x ∅) ->
  snd <$> fromJson (norm <$> toJson x ∅) old = Ok y ->
  FromAny (object T) (norm (ToAny (object T) x)) old = Ok y ∧
  FromJsonString (object T) (ToJsonString (object T) x pretty) old = Ok y.
Proof.
  intros Hj Hx.
  assert (FromAny (object T) (norm (ToAny (object T) x)) old = Ok y) as Hf.
  { cbn. by rewrite to_object_map, norm_map, from_object_map. }
  split; [done|]. unfold FromJsonString, ToJsonString.
  rewrite parse_print; [done|]. cbn. rewrite to_object_map. by apply json_map.
Qed.

Lemma object_carried T (J : Jsonize T) good vacant :
  ObjectRoundTrip norm T good vacant -> Carried norm T good vacant.
Proof.
  intros Hobj x old pretty Hx Ho. by apply object_text; [apply toJson_json|apply object_roundtrip].
Qed.

Lemma comm_obj_carried (x old : JsonizeCommObjInt.t) pretty :
  keeps (Tint I32) (JsonizeCommObjInt.value x) ->
  JsonizeCommObjInt.name old = JsonizeCommObjInt.name x ->
  FromAny (object JsonizeCommObjInt.t) (norm (ToAny (object JsonizeCommObjInt.t) x)) old = Ok x ∧
  FromJsonString (object JsonizeCommObjInt.t) (ToJsonString (object JsonizeCommObjInt.t) x pretty) old = Ok x.
Proof.
  intros Hk Hn. apply object_text; unfold_object; [write_members|].
  rewrite Hn, JN_TO_insert. read_members. by destruct x.
Qed.

Lemma mode_name_carried :
  Carried norm JsonizeModeName.t
    (fun x => keeps Tstring (JsonizeModeName.name x) ∧ keeps Tstring (JsonizeModeName.form x))
    (fun old => JsonizeModeName.form old = "").
Proof.
  intros x old pretty [Hn Hf] Ho. apply object_text; unfold_object.
  - case_bool_decide; write_members.
  - case_bool_decide as E; rewrite ?JN_TO_insert; read_members; rewrite lookup_fmap; simplify_map_eq;
      read_members; by destruct x, old; simplify_eq/=.
Qed.

(** The four parameters of the g1 audio service, whose [fromJson] is empty. *)
Lemma audio_parameters_ignored :
  Ignored norm TtsMakerParameter.t ∧ Ignored norm PlayStreamParameter.t ∧
  Ignored norm PlayStopParameter.t ∧ Ignored norm LedControlParameter.t.
Proof. split_and!; intros x old pretty; apply object_text; unfold_object; by try write_members. Qed.

(** C32. The parameter and result classes of the services on their journey.  For
    every class but the four parameters of the g1 audio service, [fromJson]
    applied to what [toJson] produced, directly or through the JSON text,
    restores every member, into whatever object it is read (vectors must be empty
    there, the key of [JsonizeCommObjInt] and the optional [form] of
    [JsonizeModeName] must agree).  The four audio parameters are written only:
    their [fromJson] is empty, so reading what was written never fails and leaves
    the object it is read into as it was, whatever that is. *)
Theorem service_types_roundtrip :
  Carried norm JsonizeFlagBool.t (JsonizeFlagBool.kept keeps) anything ∧
  Carried norm JsonizeDataBool.t (JsonizeDataBool.kept keeps) anything ∧
  Carried norm JsonizeDataInt.t (JsonizeDataInt.kept keeps) anything ∧
  Carried norm JsonizeDataFloat.t (JsonizeDataFloat.kept keeps) anything ∧
  Carried norm JsonizeDataDouble.t (JsonizeDataDouble.kept keeps) anything ∧
  Carried norm JsonizeDataString.t (JsonizeDataString.kept keeps) anything ∧
  Carried norm JsonizeVec3.t (JsonizeVec3.kept keeps) anything ∧
  Carried norm JsonizeQuat.t (JsonizeQuat.kept keeps) anything ∧
  Carried norm JsonizePathPoint.t (JsonizePathPoint.kept keeps) anything ∧
  Carried norm JsonizeConfigMeta.t (JsonizeConfigMeta.kept keeps) anything ∧
  Carried norm ConfigSetParameter.t (ConfigSetParameter.kept keeps) anything ∧
  Carried norm ConfigGetParameter.t (ConfigGetParameter.kept keeps) anything ∧
  Carried norm ConfigGetData.t (ConfigGetData.kept keeps) anything ∧
  Carried norm ConfigDelParameter.t (ConfigDelParameter.kept keeps) anything ∧
  Carried norm ConfigMetaParameter.t (ConfigMetaParameter.kept keeps) anything ∧
  Carried norm ConfigMetaData.t (ConfigMetaData.kept keeps) anything ∧
  Carried norm ServiceSwitchParameter.t (ServiceSwitchParameter.kept keeps) anything ∧
  Carried norm ServiceSwitchData.t (ServiceSwitchData.kept keeps) anything ∧
  Carried norm SetReportFreqParameter.t (SetReportFreqParameter.kept keeps) anything ∧
  Carried norm ServiceStateData.t (ServiceStateData.kept keeps) anything ∧
  Carried norm LowPowerSwitchParameter.t (LowPowerSwitchParameter.kept keeps) anything ∧
  Carried norm LowPowerStatusData.t (LowPowerStatusData.kept keeps) anything ∧
  Carried norm ObstaclesAvoidSwitchSetParameter.t (ObstaclesAvoidSwitchSetParameter.kept keeps) anything ∧
  Carried norm ObstaclesAvoidSwitchGetData.t (ObstaclesAvoidSwitchGetData.kept keeps) anything ∧
  Carried norm ObstaclesAvoidMoveParameter.t (ObstaclesAvoidMoveParameter.kept keeps) anything ∧
  Carried norm ObstaclesAvoidRemoteCommandSource.t (ObstaclesAvoidRemoteCommandSource.kept keeps) anything ∧
  Carried norm UtrackSwitchSetParameter.t (UtrackSwitchSetParameter.kept keeps) anything ∧
  Carried norm UtrackSwitchGetData.t (UtrackSwitchGetData.kept keeps) anything ∧
  Carried norm JsonizeSilent.t (JsonizeSilent.kept keeps) anything ∧
  Carried norm ApplyLeaseParameter.t (ApplyLeaseParameter.kept keeps) anything ∧
  Carried norm ApplyLeaseData.t (ApplyLeaseData.kept keeps) anything ∧
  Carried norm JsonizeDataVecFloat.t (JsonizeDataVecFloat.kept keeps) (fun o => JsonizeDataVecFloat.data o = []) ∧
  Carried norm JsonizeVelocityCommand.t (JsonizeVelocityCommand.kept keeps) (fun o => JsonizeVelocityCommand.velocity o = []) ∧
  Carried norm JsonizeTargetPos.t (JsonizeTargetPos.kept keeps) anything ∧
  Carried norm JsonizeArmActionCommand.t (JsonizeArmActionCommand.kept keeps) anything ∧
  Carried norm Test.t (Test.kept keeps) anything ∧
  Carried norm JsonizeModeName.t
    (fun x => keeps Tstring (JsonizeModeName.name x) ∧ keeps Tstring (JsonizeModeName.form x))
    (fun old => JsonizeModeName.form old = "") ∧
  (∀ x, Carried norm JsonizeCommObjInt.t
    (fun y => y = x ∧ keeps (Tint I32) (JsonizeCommObjInt.value y))
    (fun old => JsonizeCommObjInt.name old = JsonizeCommObjInt.name x)) ∧
  Ignored norm TtsMakerParameter.t ∧ Ignored norm PlayStreamParameter.t ∧
  Ignored norm PlayStopParameter.t ∧ Ignored norm LedControlParameter.t.
Proof.
  repeat (apply conj; [apply object_carried, _|]). split; [apply mode_name_carried|].
  split; [|apply audio_parameters_ignored].
  intros x y old pretty [-> Hk] Ho. by apply comm_obj_carried.
Qed.
End Props.

Lemma service_types_roundtrip_witness :
  FromJsonString (object JsonizeVec3.t)
    (ToJsonString (object JsonizeVec3.t) (JsonizeVec3.mk (F32.of_Z 1) (F32.of_Z (-2)) fzero) false)
    construct = Ok (JsonizeVec3.mk (F32.of_Z 1) (F32.of_Z (-2)) fzero).
Proof.
  pose proof (service_types_roundtrip (norm := TreeText.to_tree)) as T.
  do 6 apply proj2 in T. apply proj1 in T.
  apply (T _ _ false); [by split_and!; vm_compute|done].
Defined.
End JsonTypesProps.
