(* ===== verification/Clients.v ===== *)
(** * Service clients.

    Models the client classes whose bodies are in the headers:
    [LocoClient] of the g1 ([robot/g1/loco/g1_loco_client.hpp]) and of the h1
    ([robot/h1/loco/h1_loco_client.hpp]), [AudioClient]
    ([robot/g1/audio/g1_audio_client.hpp]) and [G1ArmActionClient]
    ([robot/g1/arm/g1_arm_action_client.hpp]), with the identifiers of their API
    headers.  The base class [Client] belongs to the SDK library: [Call] records
    the request, and the answer of the service is an arbitrary function of the
    requests made so far. *)

From S2P Require Import Prelude Floats Any Json JsonTypes.

Local Open Scope string_scope.
Local Open Scope list_scope.
Local Open Scope Z_scope.

Section Clients.
Context `{Sdk}.

Record request := { api : Z; parameter : text; binary : list Z }.

Context (reply : list request -> Z * text).

(** [Client::Call]: the return code, the data, and the requests made. *)
Definition Call (apiId : Z) (parameter : text) (binary : list Z) (log : list request) :
    Z * text * list request :=
  let log := log ++ [{| api := apiId; parameter := parameter; binary := binary |}] in
  (reply log, log).

(** The common body of the setters: the object is printed and sent. *)
Definition send {T} `{Jsonize T} (apiId : Z) (json : T) (log : list request) : Z * list request :=
  let '(ret, _, log) := Call apiId (ToJsonString (object T) json false) [] log in (ret, log).

(** The common body of the getters: the data are read into a new object and the
    output is assigned.  The g1 client does so only when the call succeeded. *)
Definition fetch {T A} `{Jsonize T} (checked : bool) (apiId : Z) (json : T) (member : T -> A)
    (out : A) (log : list request) : outcome (Z * A) * list request :=
  let '(ret, data, log) := Call apiId empty_text [] log in
  (if checked && negb (ret =? 0) then Ok (ret, out)
   else o ← FromJsonString (object T) data json; Ok (ret, member o),
   log).

(** The members of the two [LocoClient]s. *)
Record LocoClient := {
  continous_move_ : bool;
  first_shake_hand_stage_ : bool;
  log : list request
}.

Definition new_client : LocoClient :=
  {| continous_move_ := false; first_shake_hand_stage_ := true; log := [] |}.

(** A request that leaves the other members alone. *)
Definition request_only (f : list request -> Z * list request) (c : LocoClient) : Z * LocoClient :=
  let '(ret, l) := f (log c) in
  (ret, {| continous_move_ := continous_move_ c;
           first_shake_hand_stage_ := first_shake_hand_stage_ c; log := l |}).

Definition set_stage (first : bool) (c : LocoClient) : LocoClient :=
  {| continous_move_ := continous_move_ c; first_shake_hand_stage_ := first; log := log c |}.

Definition set_continous (flag : bool) (c : LocoClient) : LocoClient :=
  {| continous_move_ := flag; first_shake_hand_stage_ := first_shake_hand_stage_ c; log := log c |}.

End Clients.

(** ** The locomotion client of the g1 *)
Module G1.

Definition GET_FSM_ID : Z := 7001.
Definition GET_FSM_MODE : Z := 7002.
Definition GET_BALANCE_MODE : Z := 7003.
Definition GET_SWING_HEIGHT : Z := 7004.
Definition GET_STAND_HEIGHT : Z := 7005.
Definition GET_PHASE : Z := 7006.
Definition SET_FSM_ID : Z := 7101.
Definition SET_BALANCE_MODE : Z := 7102.
Definition SET_SWING_HEIGHT : Z := 7103.
Definition SET_STAND_HEIGHT : Z := 7104.
Definition SET_VELOCITY : Z := 7105.
Definition SET_ARM_TASK : Z := 7106.
Definition SET_SPEED_MODE : Z := 7107.

(** The identifiers [Init] registers. *)
Definition Init : list Z :=
  [GET_FSM_ID; GET_FSM_MODE; GET_BALANCE_MODE; GET_SWING_HEIGHT; GET_STAND_HEIGHT; GET_PHASE; SET_FSM_ID; SET_BALANCE_MODE; SET_SWING_HEIGHT; SET_STAND_HEIGHT; SET_VELOCITY; SET_ARM_TASK; SET_SPEED_MODE].

(** The operations, as the caller sees them. *)
Inductive op :=
  | OSetFsmId (z : Z) | OSetBalanceMode (z : Z) | OSetSwingHeight (x : float32) | OSetStandHeight (x : float32)
  | OSetVelocity (vx vy omega duration : float32) | OSetTaskId (z : Z)
  | ODamp | OStart | OStandUp | OZeroTorque | OStopMove | OHighStand | OLowStand
  | OMove4 (vx vy vyaw : float32) (continous : bool) | OMove (vx vy vyaw : float32)
  | OBalanceStand | OContinuousGait (flag : bool) | OSwitchMoveMode (flag : bool) | OShakeHand (stage : Z)
  | OSquat | OSit | OWaveHand (turn : bool) | OSetSpeedMode (z : Z).
Section Code.
Context `{Sdk} (reply : list request -> Z * text).

Definition GetFsmId (out : Z) (log : list request) : outcome (Z * Z) * list request :=
  fetch reply true GET_FSM_ID (construct : JsonizeDataInt.t) JsonizeDataInt.data out log.

Definition GetFsmMode (out : Z) (log : list request) : outcome (Z * Z) * list request :=
  fetch reply true GET_FSM_MODE (construct : JsonizeDataInt.t) JsonizeDataInt.data out log.

Definition GetBalanceMode (out : Z) (log : list request) : outcome (Z * Z) * list request :=
  fetch reply true GET_BALANCE_MODE (construct : JsonizeDataInt.t) JsonizeDataInt.data out log.

Definition GetSwingHeight (out : float32) (log : list request) : outcome (Z * float32) * list request :=
  fetch reply true GET_SWING_HEIGHT (construct : JsonizeDataFloat.t) JsonizeDataFloat.data out log.

Definition GetStandHeight (out : float32) (log : list request) : outcome (Z * float32) * list request :=
  fetch reply true GET_STAND_HEIGHT (construct : JsonizeDataFloat.t) JsonizeDataFloat.data out log.

Definition GetPhase (phase : list float32) (log : list request) :
    outcome (Z * list float32) * list request :=
  fetch reply true GET_PHASE (construct : JsonizeDataVecFloat.t) JsonizeDataVecFloat.data phase log.

Definition SetFsmId (fsm_id : Z) : list request -> Z * list request :=
  send reply SET_FSM_ID (JsonizeDataInt.mk fsm_id).

Definition SetBalanceMode (balance_mode : Z) : list request -> Z * list request :=
  send reply SET_BALANCE_MODE (JsonizeDataInt.mk balance_mode).

Definition SetSwingHeight (swing_height : float32) : list request -> Z * list request :=
  send reply SET_SWING_HEIGHT (JsonizeDataFloat.mk swing_height).

Definition SetStandHeight (stand_height : float32) : list request -> Z * list request :=
  send reply SET_STAND_HEIGHT (JsonizeDataFloat.mk stand_height).

Definition SetVelocity (vx vy omega duration : float32) : list request -> Z * list request :=
  send reply SET_VELOCITY (JsonizeVelocityCommand.mk [vx; vy; omega] duration).

Definition SetTaskId (task_id : Z) : list request -> Z * list request :=
  send reply SET_ARM_TASK (JsonizeDataInt.mk task_id).

Definition Damp : list request -> Z * list request := SetFsmId 1.
Definition Start : list request -> Z * list request := SetFsmId 500.
Definition Squat : list request -> Z * list request := SetFsmId 2.
Definition Sit : list request -> Z * list request := SetFsmId 3.
Definition StandUp : list request -> Z * list request := SetFsmId 4.
Definition ZeroTorque : list request -> Z * list request := SetFsmId 0.

Definition StopMove : list request -> Z * list request := SetVelocity fzero fzero fzero (F32.of_Z 1).
(** [std::numeric_limits<uint32_t>::max()] and [min()], converted to [float]. *)
Definition HighStand : list request -> Z * list request := SetStandHeight (F32.of_Z 4294967295).
Definition LowStand : list request -> Z * list request := SetStandHeight (F32.of_Z 0).

Definition Move4 (vx vy vyaw : float32) (continous_move : bool) : list request -> Z * list request :=
  SetVelocity vx vy vyaw (if continous_move then F32.of_Z 864000 else F32.of_Z 1).

Definition Move (vx vy vyaw : float32) (c : LocoClient) : Z * LocoClient :=
  request_only (Move4 vx vy vyaw (continous_move_ c)) c.

Definition BalanceStand : list request -> Z * list request := SetBalanceMode 0.
Definition ContinuousGait (flag : bool) : list request -> Z * list request :=
  SetBalanceMode (if flag then 1 else 0).

Definition SwitchMoveMode (flag : bool) (c : LocoClient) : Z * LocoClient := (0, set_continous flag c).

Definition WaveHand (turn_flag : bool) : list request -> Z * list request :=
  SetTaskId (if turn_flag then 1 else 0).

(** [ShakeHand(stage)]; the default argument is -1. *)
Definition ShakeHand (stage : Z) (c : LocoClient) : Z * LocoClient :=
  if stage =? 0 then request_only (SetTaskId 2) (set_stage false c)
  else if stage =? 1 then request_only (SetTaskId 3) (set_stage true c)
  else
    let c := set_stage (negb (first_shake_hand_stage_ c)) c in
    request_only (SetTaskId (if first_shake_hand_stage_ c then 3 else 2)) c.

Definition SetSpeedMode (speed_mode : Z) : list request -> Z * list request :=
  send reply SET_SPEED_MODE (JsonizeDataInt.mk speed_mode).

Definition run (o : op) (c : LocoClient) : Z * LocoClient :=
  match o with
  | OSetFsmId z => request_only (SetFsmId z) c
  | OSetBalanceMode z => request_only (SetBalanceMode z) c
  | OSetSwingHeight x => request_only (SetSwingHeight x) c
  | OSetStandHeight x => request_only (SetStandHeight x) c
  | OSetVelocity vx vy omega d => request_only (SetVelocity vx vy omega d) c
  | OSetTaskId z => request_only (SetTaskId z) c
  | ODamp => request_only Damp c
  | OStart => request_only Start c
  | OStandUp => request_only StandUp c
  | OZeroTorque => request_only ZeroTorque c
  | OStopMove => request_only StopMove c
  | OHighStand => request_only HighStand c
  | OLowStand => request_only LowStand c
  | OMove4 vx vy vyaw b => request_only (Move4 vx vy vyaw b) c
  | OMove vx vy vyaw => Move vx vy vyaw c
  | OBalanceStand => request_only BalanceStand c
  | OContinuousGait b => request_only (ContinuousGait b) c
  | OSwitchMoveMode b => SwitchMoveMode b c
  | OShakeHand stage => ShakeHand stage c
  | OSquat => request_only Squat c
  | OSit => request_only Sit c
  | OWaveHand b => request_only (WaveHand b) c
  | OSetSpeedMode z => request_only (SetSpeedMode z) c
  end.

End Code.
End G1.

(** ** The locomotion client of the h1 *)
Module H1.

Definition GET_FSM_ID : Z := 8001.
Definition GET_FSM_MODE : Z := 8002.
Definition GET_BALANCE_MODE : Z := 8003.
Definition GET_SWING_HEIGHT : Z := 8004.
Definition GET_STAND_HEIGHT : Z := 8005.
Definition GET_PHASE : Z := 8006.
Definition SET_FSM_ID : Z := 8101.
Definition SET_BALANCE_MODE : Z := 8102.
Definition SET_SWING_HEIGHT : Z := 8103.
Definition SET_STAND_HEIGHT : Z := 8104.
Definition SET_VELOCITY : Z := 8105.
Definition SET_PHASE : Z := 8106.
Definition SET_ARM_TASK : Z := 8107.
Definition ENABLE_ODOM : Z := 8201.
Definition DISABLE_ODOM : Z := 8202.
Definition GET_ODOM : Z := 8203.
Definition SET_TARGET_POSITION : Z := 8204.

Definition Init : list Z :=
  [GET_FSM_ID; GET_FSM_MODE; GET_BALANCE_MODE; GET_SWING_HEIGHT; GET_STAND_HEIGHT; GET_PHASE; SET_FSM_ID; SET_BALANCE_MODE; SET_SWING_HEIGHT; SET_STAND_HEIGHT; SET_VELOCITY; SET_PHASE; SET_ARM_TASK; ENABLE_ODOM; DISABLE_ODOM; GET_ODOM; SET_TARGET_POSITION].

(** The operations, as the caller sees them. *)
Inductive op :=
  | OSetFsmId (z : Z) | OSetBalanceMode (z : Z) | OSetSwingHeight (x : float32) | OSetStandHeight (x : float32)
  | OSetVelocity (vx vy omega duration : float32) | OSetTaskId (z : Z)
  | ODamp | OStart | OStandUp | OZeroTorque | OStopMove | OHighStand | OLowStand
  | OMove4 (vx vy vyaw : float32) (continous : bool) | OMove (vx vy vyaw : float32)
  | OBalanceStand | OContinuousGait (flag : bool) | OSwitchMoveMode (flag : bool) | OShakeHand (stage : Z)
  | OEnableOdom | ODisableOdom | OSetPhase (phase : list float32)
  | OSetTargetPos (x y yaw : float32) (relative : bool) | OSetNextFoot (foot : bool) | OWaveHand.
Section Code.
Context `{Sdk} (reply : list request -> Z * text).

Definition GetFsmId (out : Z) (log : list request) : outcome (Z * Z) * list request :=
  fetch reply false GET_FSM_ID (construct : JsonizeDataInt.t) JsonizeDataInt.data out log.

Definition GetFsmMode (out : Z) (log : list request) : outcome (Z * Z) * list request :=
  fetch reply false GET_FSM_MODE (construct : JsonizeDataInt.t) JsonizeDataInt.data out log.

Definition GetBalanceMode (out : Z) (log : list request) : outcome (Z * Z) * list request :=
  fetch reply false GET_BALANCE_MODE (construct : JsonizeDataInt.t) JsonizeDataInt.data out log.

Definition GetSwingHeight (out : float32) (log : list request) : outcome (Z * float32) * list request :=
  fetch reply false GET_SWING_HEIGHT (construct : JsonizeDataFloat.t) JsonizeDataFloat.data out log.

Definition GetStandHeight (out : float32) (log : list request) : outcome (Z * float32) * list request :=
  fetch reply false GET_STAND_HEIGHT (construct : JsonizeDataFloat.t) JsonizeDataFloat.data out log.

Definition GetPhase (phase : list float32) (log : list request) :
    outcome (Z * list float32) * list request :=
  fetch reply false GET_PHASE (construct : JsonizeDataVecFloat.t) JsonizeDataVecFloat.data phase log.

Definition EnableOdom (log : list request) : Z * list request :=
  let '(ret, _, log) := Call reply ENABLE_ODOM empty_text [] log in (ret, log).

Definition DisableOdom (log : list request) : Z * list request :=
  let '(ret, _, log) := Call reply DISABLE_ODOM empty_text [] log in (ret, log).

(** [GetOdom(x, y, yaw)]. *)
Definition GetOdom (out : float32 * float32 * float32) (log : list request) :
    outcome (Z * (float32 * float32 * float32)) * list request :=
  fetch reply false GET_ODOM (construct : JsonizeVec3.t)
    (fun json => (JsonizeVec3.x json, JsonizeVec3.y json, JsonizeVec3.z json)) out log.

Definition SetFsmId (fsm_id : Z) : list request -> Z * list request :=
  send reply SET_FSM_ID (JsonizeDataInt.mk fsm_id).

Definition SetBalanceMode (balance_mode : Z) : list request -> Z * list request :=
  send reply SET_BALANCE_MODE (JsonizeDataInt.mk balance_mode).

Definition SetSwingHeight (swing_height : float32) : list request -> Z * list request :=
  send reply SET_SWING_HEIGHT (JsonizeDataFloat.mk swing_height).

Definition SetStandHeight (stand_height : float32) : list request -> Z * list request :=
  send reply SET_STAND_HEIGHT (JsonizeDataFloat.mk stand_height).

Definition SetVelocity (vx vy omega duration : float32) : list request -> Z * list request :=
  send reply SET_VELOCITY (JsonizeVelocityCommand.mk [vx; vy; omega] duration).

Definition SetPhase (phase : list float32) : list request -> Z * list request :=
  send reply SET_PHASE (JsonizeDataVecFloat.mk phase).

Definition SetTargetPos (x y yaw : float32) (relative : bool) : list request -> Z * list request :=
  send reply SET_TARGET_POSITION (JsonizeTargetPos.mk x y yaw relative).

Definition SetTaskId (task_id : Z) : list request -> Z * list request :=
  send reply SET_ARM_TASK (JsonizeDataInt.mk task_id).

Definition Damp : list request -> Z * list request := SetFsmId 1.
Definition Start : list request -> Z * list request := SetFsmId 204.
Definition StandUp : list request -> Z * list request := SetFsmId 2.
Definition ZeroTorque : list request -> Z * list request := SetFsmId 0.

Definition StopMove : list request -> Z * list request := SetVelocity fzero fzero fzero (F32.of_Z 1).
(** [std::numeric_limits<uint32_t>::max()] and [min()], converted to [float]. *)
Definition HighStand : list request -> Z * list request := SetStandHeight (F32.of_Z 4294967295).
Definition LowStand : list request -> Z * list request := SetStandHeight (F32.of_Z 0).

Definition Move4 (vx vy vyaw : float32) (continous_move : bool) : list request -> Z * list request :=
  SetVelocity vx vy vyaw (if continous_move then F32.of_Z 864000 else F32.of_Z 1).

Definition Move (vx vy vyaw : float32) (c : LocoClient) : Z * LocoClient :=
  request_only (Move4 vx vy vyaw (continous_move_ c)) c.

Definition BalanceStand : list request -> Z * list request := SetBalanceMode 0.
Definition ContinuousGait (flag : bool) : list request -> Z * list request :=
  SetBalanceMode (if flag then 1 else 0).

Definition SwitchMoveMode (flag : bool) (c : LocoClient) : Z * LocoClient := (0, set_continous flag c).

Definition SetNextFoot (foot : bool) : list request -> Z * list request :=
  SetPhase (if foot then [fzero; F32.of_Z 1] else [F32.of_Z 1; fzero]).

Definition WaveHand : list request -> Z * list request := SetTaskId 0.

(** [ShakeHand(stage)]; the default argument is -1. *)
Definition ShakeHand (stage : Z) (c : LocoClient) : Z * LocoClient :=
  if stage =? 0 then request_only (SetTaskId 1) (set_stage false c)
  else if stage =? 1 then request_only (SetTaskId 2) (set_stage true c)
  else
    let c := set_stage (negb (first_shake_hand_stage_ c)) c in
    request_only (SetTaskId (if first_shake_hand_stage_ c then 2 else 1)) c.

Definition run (o : op) (c : LocoClient) : Z * LocoClient :=
  match o with
  | OSetFsmId z => request_only (SetFsmId z) c
  | OSetBalanceMode z => request_only (SetBalanceMode z) c
  | OSetSwingHeight x => request_only (SetSwingHeight x) c
  | OSetStandHeight x => request_only (SetStandHeight x) c
  | OSetVelocity vx vy omega d => request_only (SetVelocity vx vy omega d) c
  | OSetTaskId z => request_only (SetTaskId z) c
  | ODamp => request_only Damp c
  | OStart => request_only Start c
  | OStandUp => request_only StandUp c
  | OZeroTorque => request_only ZeroTorque c
  | OStopMove => request_only StopMove c
  | OHighStand => request_only HighStand c
  | OLowStand => request_only LowStand c
  | OMove4 vx vy vyaw b => request_only (Move4 vx vy vyaw b) c
  | OMove vx vy vyaw => Move vx vy vyaw c
  | OBalanceStand => request_only BalanceStand c
  | OContinuousGait b => request_only (ContinuousGait b) c
  | OSwitchMoveMode b => SwitchMoveMode b c
  | OShakeHand stage => ShakeHand stage c
  | OEnableOdom => request_only EnableOdom c
  | ODisableOdom => request_only DisableOdom c
  | OSetPhase l => request_only (SetPhase l) c
  | OSetTargetPos x y yaw b => request_only (SetTargetPos x y yaw b) c
  | OSetNextFoot b => request_only (SetNextFoot b) c
  | OWaveHand => request_only WaveHand c
  end.

End Code.
End H1.

(** ** The audio client of the g1 *)
Module Audio.

Definition TTS : Z := 1001.
Definition ASR : Z := 1002.
Definition START_PLAY : Z := 1003.
Definition STOP_PLAY : Z := 1004.
Definition GET_VOLUME : Z := 1005.
Definition SET_VOLUME : Z := 1006.
Definition SET_RGB_LED : Z := 1010.

Definition Init : list Z := [TTS; ASR; START_PLAY; STOP_PLAY; GET_VOLUME; SET_VOLUME; SET_RGB_LED].

Section Code.
Context `{Sdk} (reply : list request -> Z * text).

Record AudioClient := { tts_index : Z; requests : list request }.

Definition new_client : AudioClient := {| tts_index := 0; requests := [] |}.

(** [json.index] is an [int32_t], [tts_index] a [uint32_t], [json.speaker_id] a
    [uint16_t]. *)
Definition TtsMaker (txt : string) (speaker_id : Z) (c : AudioClient) : Z * AudioClient :=
  let '(ret, l) :=
    send reply TTS (TtsMakerParameter.mk (i32 (tts_index c)) (u16 speaker_id) txt) (requests c) in
  (ret, {| tts_index := u32 (tts_index c + 1); requests := l |}).

Definition GetVolume (volume : Z) (c : AudioClient) : outcome (Z * Z) * AudioClient :=
  let '(o, l) :=
    fetch reply true GET_VOLUME (JsonizeCommObjInt.mk 0 "volume")
      (fun json => u8 (JsonizeCommObjInt.value json)) volume (requests c) in
  (o, {| tts_index := tts_index c; requests := l |}).

Definition SetVolume (volume : Z) (c : AudioClient) : Z * AudioClient :=
  let '(ret, l) := send reply SET_VOLUME (JsonizeCommObjInt.mk volume "volume") (requests c) in
  (ret, {| tts_index := tts_index c; requests := l |}).

Definition PlayStream (app_name stream_id : string) (pcm_data : list Z) (c : AudioClient) :
    Z * AudioClient :=
  let '(ret, _, l) :=
    Call reply START_PLAY
      (ToJsonString (object PlayStreamParameter.t) (PlayStreamParameter.mk app_name stream_id) false)
      pcm_data (requests c) in
  (ret, {| tts_index := tts_index c; requests := l |}).

(** The return code of the call is dropped. *)
Definition PlayStop (app_name : string) (c : AudioClient) : Z * AudioClient :=
  let '(_, l) := send reply STOP_PLAY (PlayStopParameter.mk app_name) (requests c) in
  (0, {| tts_index := tts_index c; requests := l |}).

Definition LedControl (R G B : Z) (c : AudioClient) : Z * AudioClient :=
  let '(ret, l) := send reply SET_RGB_LED (LedControlParameter.mk R G B) (requests c) in
  (ret, {| tts_index := tts_index c; requests := l |}).

End Code.
End Audio.

(** ** The arm-action client of the g1 *)
Module ArmAction.

Definition EXECUTE_ACTION : Z := 7106.
Definition GET_ACTION_LIST : Z := 7107.

Definition Init : list Z := [EXECUTE_ACTION; GET_ACTION_LIST].

Definition action_map : gmap string Z :=
  list_to_map
    [("release arm", 99); ("two-hand kiss", 11); ("left kiss", 12); ("right kiss", 12);
     ("hands up", 15); ("clap", 17); ("high five", 18); ("hug", 19); ("heart", 20);
     ("right heart", 21); ("reject", 22); ("right hand up", 23); ("x-ray", 24);
     ("face wave", 25); ("high wave", 26); ("shake hand", 27)].

Section Code.
Context `{Sdk} (reply : list request -> Z * text).

Definition ExecuteAction (action_id : Z) : list request -> Z * list request :=
  send reply EXECUTE_ACTION (JsonizeArmActionCommand.mk action_id).

Definition GetActionList (log : list request) : Z * text * list request :=
  Call reply GET_ACTION_LIST empty_text [] log.

End Code.
End ArmAction.

(** ** What the service is asked

    The commands of the locomotion services, and how a service reads them out of
    a request: the parameter is parsed into the class of that request. *)
Inductive command :=
  | CFsm (id : Z) | CBalance (mode : Z) | CSwing (height : float32) | CStand (height : float32)
  | CVelocity (velocity : list float32) (duration : float32) | CArmTask (id : Z) | CSpeed (mode : Z)
  | CPhase (phase : list float32) | CTarget (x y yaw : float32) (relative : bool)
  | CEnableOdom | CDisableOdom.

Definition command_kept (keeps : ∀ t, value t -> Prop) (c : command) : Prop :=
  match c with
  | CFsm z | CBalance z | CArmTask z | CSpeed z => keeps (Tint I32) z
  | CSwing x | CStand x => keeps Tfloat x
  | CVelocity v d => Forall (keeps Tfloat) v ∧ keeps Tfloat d
  | CPhase l => Forall (keeps Tfloat) l
  | CTarget x y yaw b => keeps Tfloat x ∧ keeps Tfloat y ∧ keeps Tfloat yaw ∧ keeps Tbool b
  | CEnableOdom | CDisableOdom => True
  end.

Section Decode.
Context `{Sdk}.

Definition decode_as (T : Type) `{Jsonize T} (k : T -> command) (r : request) : option command :=
  match FromJsonString (object T) (parameter r) construct with Ok o => Some (k o) | _ => None end.

Definition decode_int (k : Z -> command) : request -> option command :=
  decode_as JsonizeDataInt.t (fun o => k (JsonizeDataInt.data o)).
Definition decode_float (k : float32 -> command) : request -> option command :=
  decode_as JsonizeDataFloat.t (fun o => k (JsonizeDataFloat.data o)).
Definition decode_velocity : request -> option command :=
  decode_as JsonizeVelocityCommand.t
    (fun o => CVelocity (JsonizeVelocityCommand.velocity o) (JsonizeVelocityCommand.duration o)).

Definition g1_decode (r : request) : option command :=
  if api r =? G1.SET_FSM_ID then decode_int CFsm r
  else if api r =? G1.SET_BALANCE_MODE then decode_int CBalance r
  else if api r =? G1.SET_SWING_HEIGHT then decode_float CSwing r
  else if api r =? G1.SET_STAND_HEIGHT then decode_float CStand r
  else if api r =? G1.SET_VELOCITY then decode_velocity r
  else if api r =? G1.SET_ARM_TASK then decode_int CArmTask r
  else if api r =? G1.SET_SPEED_MODE then decode_int CSpeed r
  else None.

Definition h1_decode (r : request) : option command :=
  if api r =? H1.SET_FSM_ID then decode_int CFsm r
  else if api r =? H1.SET_BALANCE_MODE then decode_int CBalance r
  else if api r =? H1.SET_SWING_HEIGHT then decode_float CSwing r
  else if api r =? H1.SET_STAND_HEIGHT then decode_float CStand r
  else if api r =? H1.SET_VELOCITY then decode_velocity r
  else if api r =? H1.SET_ARM_TASK then decode_int CArmTask r
  else if api r =? H1.SET_PHASE then
    decode_as JsonizeDataVecFloat.t (fun o => CPhase (JsonizeDataVecFloat.data o)) r
  else if api r =? H1.SET_TARGET_POSITION then
    decode_as JsonizeTargetPos.t
      (fun o => CTarget (JsonizeTargetPos.x o) (JsonizeTargetPos.y o) (JsonizeTargetPos.yaw o)
                        (JsonizeTargetPos.relative o)) r
  else if api r =? H1.ENABLE_ODOM then Some CEnableOdom
  else if api r =? H1.DISABLE_ODOM then Some CDisableOdom
  else None.

End Decode.

(** What an operation is meant to ask, given the move mode and the stage of the
    handshake. *)
Record loco_mode := { continuous : bool; hand_down : bool }.

Definition handshake (grip release : Z) (stage : Z) (hand_down : bool) : Z :=
  if (stage =? 0) || negb (stage =? 1) && hand_down then grip else release.

Definition move_seconds (continuous : bool) : float32 :=
  F32.of_Z (if continuous then 10 * 24 * 3600 else 1).

Definition g1_intent (o : G1.op) (m : loco_mode) : option command :=
  match o with
  | G1.OSetFsmId z => Some (CFsm z)
  | G1.OSetBalanceMode z => Some (CBalance z)
  | G1.OSetSwingHeight x => Some (CSwing x)
  | G1.OSetStandHeight x => Some (CStand x)
  | G1.OSetVelocity vx vy omega d => Some (CVelocity [vx; vy; omega] d)
  | G1.OSetTaskId z => Some (CArmTask z)
  | G1.ODamp => Some (CFsm 1)
  | G1.OStart => Some (CFsm 500)
  | G1.OSquat => Some (CFsm 2)
  | G1.OSit => Some (CFsm 3)
  | G1.OStandUp => Some (CFsm 4)
  | G1.OZeroTorque => Some (CFsm 0)
  | G1.OStopMove => Some (CVelocity [fzero; fzero; fzero] (move_seconds false))
  | G1.OHighStand => Some (CStand (F32.of_Z (2 ^ 32)))
  | G1.OLowStand => Some (CStand fzero)
  | G1.OMove4 vx vy vyaw b => Some (CVelocity [vx; vy; vyaw] (move_seconds b))
  | G1.OMove vx vy vyaw => Some (CVelocity [vx; vy; vyaw] (move_seconds (continuous m)))
  | G1.OBalanceStand => Some (CBalance 0)
  | G1.OContinuousGait b => Some (CBalance (Z.b2z b))
  | G1.OSwitchMoveMode _ => None
  | G1.OShakeHand stage => Some (CArmTask (handshake 2 3 stage (hand_down m)))
  | G1.OWaveHand b => Some (CArmTask (Z.b2z b))
  | G1.OSetSpeedMode z => Some (CSpeed z)
  end.

Definition h1_intent (o : H1.op) (m : loco_mode) : option command :=
  match o with
  | H1.OSetFsmId z => Some (CFsm z)
  | H1.OSetBalanceMode z => Some (CBalance z)
  | H1.OSetSwingHeight x => Some (CSwing x)
  | H1.OSetStandHeight x => Some (CStand x)
  | H1.OSetVelocity vx vy omega d => Some (CVelocity [vx; vy; omega] d)
  | H1.OSetTaskId z => Some (CArmTask z)
  | H1.ODamp => Some (CFsm 1)
  | H1.OStart => Some (CFsm 204)
  | H1.OStandUp => Some (CFsm 2)
  | H1.OZeroTorque => Some (CFsm 0)
  | H1.OStopMove => Some (CVelocity [fzero; fzero; fzero] (move_seconds false))
  | H1.OHighStand => Some (CStand (F32.of_Z (2 ^ 32)))
  | H1.OLowStand => Some (CStand fzero)
  | H1.OMove4 vx vy vyaw b => Some (CVelocity [vx; vy; vyaw] (move_seconds b))
  | H1.OMove vx vy vyaw => Some (CVelocity [vx; vy; vyaw] (move_seconds (continuous m)))
  | H1.OBalanceStand => Some (CBalance 0)
  | H1.OContinuousGait b => Some (CBalance (Z.b2z b))
  | H1.OSwitchMoveMode _ => None
  | H1.OShakeHand stage => Some (CArmTask (handshake 1 2 stage (hand_down m)))
  | H1.OWaveHand => Some (CArmTask 0)
  | H1.OEnableOdom => Some CEnableOdom
  | H1.ODisableOdom => Some CDisableOdom
  | H1.OSetPhase l => Some (CPhase l)
  | H1.OSetTargetPos x y yaw b => Some (CTarget x y yaw b)
  | H1.OSetNextFoot b => Some (CPhase (if b then [fzero; F32.of_Z 1] else [F32.of_Z 1; fzero]))
  end.

(** How the mode evolves: [SwitchMoveMode] sets the move mode; a handshake
    stage is forced by 0 and 1 and alternates otherwise. *)
Definition next_hand (stage : Z) (hand_down : bool) : bool :=
  if stage =? 0 then false else if stage =? 1 then true else negb hand_down.

Definition g1_next (o : G1.op) (m : loco_mode) : loco_mode :=
  match o with
  | G1.OSwitchMoveMode b => {| continuous := b; hand_down := hand_down m |}
  | G1.OShakeHand stage => {| continuous := continuous m; hand_down := next_hand stage (hand_down m) |}
  | _ => m
  end.

Definition h1_next (o : H1.op) (m : loco_mode) : loco_mode :=
  match o with
  | H1.OSwitchMoveMode b => {| continuous := b; hand_down := hand_down m |}
  | H1.OShakeHand stage => {| continuous := continuous m; hand_down := next_hand stage (hand_down m) |}
  | _ => m
  end.

(** The commands a sequence of operations asks for. *)
Fixpoint asked {Op} (intent : Op -> loco_mode -> option command) (next : Op -> loco_mode -> loco_mode)
    (ops : list Op) (m : loco_mode) : list command :=
  match ops with
  | [] => []
  | o :: ops =>
      match intent o m with Some c => [c] | None => [] end ++ asked intent next ops (next o m)
  end.

(** ** Properties *)

Create HintDb clients.
#[global] Hint Unfold G1.SetFsmId G1.SetBalanceMode G1.SetSwingHeight G1.SetStandHeight G1.SetVelocity G1.SetTaskId G1.Damp G1.Start G1.StandUp G1.ZeroTorque G1.StopMove G1.HighStand G1.LowStand G1.Move4 G1.Move G1.BalanceStand G1.ContinuousGait G1.SwitchMoveMode G1.ShakeHand G1.Squat G1.Sit G1.WaveHand G1.SetSpeedMode : clients.
#[global] Hint Unfold H1.SetFsmId H1.SetBalanceMode H1.SetSwingHeight H1.SetStandHeight H1.SetVelocity H1.SetTaskId H1.Damp H1.Start H1.StandUp H1.ZeroTorque H1.StopMove H1.HighStand H1.LowStand H1.Move4 H1.Move H1.BalanceStand H1.ContinuousGait H1.SwitchMoveMode H1.ShakeHand H1.EnableOdom H1.DisableOdom H1.SetPhase H1.SetTargetPos H1.SetNextFoot H1.WaveHand : clients.

Module ClientProps.

Definition mode_of `{Sdk} (c : LocoClient) : loco_mode :=
  {| continuous := continous_move_ c; hand_down := first_shake_hand_stage_ c |}.

Section Props.
Context `{Channel} `{!TextChannel norm} (reply : list request -> Z * text).

(** The service reads back the object that was sent. *)
Lemma decode_sent T (J : Jsonize T) good vacant (k : T -> command) x apiId bin :
  ObjectRoundTrip norm T good vacant -> good x ->
  decode_as T k {| api := apiId; parameter := ToJsonString (object T) x false; binary := bin |} =
  Some (k x).
Proof.
  intros Hobj Hx. unfold decode_as. cbn [parameter].
  rewrite (text_roundtrip (object T)); [done|done|apply construct_vacant].
Qed.

(** A request adds itself to the log. *)
Lemma send_log T (J : Jsonize T) apiId (x : T) l :
  (send reply apiId x l).2 =
  l ++ [{| api := apiId; parameter := ToJsonString (object T) x false; binary := [] |}].
Proof. unfold send, Call. by destruct (reply _). Qed.

Lemma request_only_spec f c :
  log (request_only f c).2 = (f (log c)).2 ∧ mode_of (request_only f c).2 = mode_of c.
Proof. unfold request_only. by destruct (f (log c)). Qed.

(** One operation: at most one request, registered, and read by the service as
    what the operation means. *)
Definition step_ok {Op} (Init : list Z) (decode : request -> option command)
    (intent : Op -> loco_mode -> option command) (next : Op -> loco_mode -> loco_mode)
    (o : Op) (c c' : LocoClient) : Prop :=
  ∃ rs, log c' = log c ++ rs ∧
        decode <$> rs = Some <$> match intent o (mode_of c) with Some cmd => [cmd] | None => [] end ∧
        Forall (fun r => api r ∈ Init) rs ∧
        mode_of c' = next o (mode_of c).

Lemma step_request {Op} Init decode (intent : Op -> loco_mode -> option command) next o c0 c
    T (J : Jsonize T) apiId (x : T) cmd :
  intent o (mode_of c0) = Some cmd ->
  decode {| api := apiId; parameter := ToJsonString (object T) x false; binary := [] |} = Some cmd ->
  apiId ∈ Init ->
  log c = log c0 -> mode_of c = next o (mode_of c0) ->
  step_ok Init decode intent next o c0 (request_only (send reply apiId x) c).2.
Proof.
  intros Hi Hd Hin Hl Hm. destruct (request_only_spec (send reply apiId x) c) as [Hlog Hmode].
  rewrite send_log, Hl in Hlog. eexists. split; [exact Hlog|].
  rewrite Hi, Hmode. cbn. rewrite Hd. split_and!; [done| |done]. by apply Forall_singleton.
Qed.

(** Applies [step_request] to an operation that sends one object. *)
Ltac use_tests := repeat match goal with E : (_ =? _) = _ |- _ => rewrite E end.

Ltac request_step_as c :=
  autounfold with clients;
  eapply (step_request _ _ _ _ _ _ _ _ _ _ _ c);
    [ cbn; unfold handshake; use_tests; reflexivity
    | unfold g1_decode, h1_decode; cbn [api]; eapply decode_sent; [apply _|by vm_compute || done]
    | vm_compute; repeat constructor
    | done
    | cbn; unfold next_hand, mode_of; use_tests; reflexivity ].

Ltac request_step :=
  match goal with
  | |- step_ok _ _ ?intent _ ?o ?c _ =>
      let i := eval cbn in (intent o (mode_of c)) in
      match i with Some ?cmd => request_step_as cmd end
  end.

Lemma g1_step o c :
  (∀ cmd, g1_intent o (mode_of c) = Some cmd -> command_kept keeps cmd) ->
  step_ok G1.Init g1_decode g1_intent g1_next o c (G1.run reply o c).2.
Proof.
  intros Hk. destruct o; cbn [G1.run]; try (specialize (Hk _ eq_refl); cbn in Hk).
  all: try request_step.
  - destruct continous; request_step.
  - destruct c as [[] first l]; request_step.
  - by exists []; rewrite app_nil_r.
  - destruct c as [cont first l]. autounfold with clients. unfold handshake in *. cbn in *.
    destruct (stage =? 0) eqn:E0; [request_step_as (CArmTask 2)|].
    destruct (stage =? 1) eqn:E1; [request_step_as (CArmTask 3)|].
    destruct first; [request_step_as (CArmTask 2)|request_step_as (CArmTask 3)].
Qed.

(** A request without a parameter. *)
Lemma step_bare {Op} Init decode (intent : Op -> loco_mode -> option command) next o c apiId cmd :
  intent o (mode_of c) = Some cmd ->
  decode {| api := apiId; parameter := empty_text; binary := [] |} = Some cmd ->
  apiId ∈ Init -> mode_of c = next o (mode_of c) ->
  step_ok Init decode intent next o c
    (request_only (fun log => let '(ret, _, log) := Call reply apiId empty_text [] log in (ret, log)) c).2.
Proof.
  intros Hi Hd Hin Hm. destruct (request_only_spec
    (fun log => let '(ret, _, log) := Call reply apiId empty_text [] log in (ret, log)) c) as [Hlog Hmode].
  unfold step_ok. rewrite Hi, Hmode, Hlog. unfold Call. destruct (reply _). eexists. split; [done|].
  cbn. rewrite Hd. split_and!; [done|by apply Forall_singleton|done].
Qed.

Lemma h1_step o c :
  (∀ cmd, h1_intent o (mode_of c) = Some cmd -> command_kept keeps cmd) ->
  step_ok H1.Init h1_decode h1_intent h1_next o c (H1.run reply o c).2.
Proof.
  intros Hk. destruct o; cbn [H1.run]; try (specialize (Hk _ eq_refl); cbn in Hk).
  all: try request_step.
  - destruct continous; request_step.
  - destruct c as [[] first l]; request_step.
  - by exists []; rewrite app_nil_r.
  - destruct c as [cont first l]. autounfold with clients. unfold handshake in *. cbn in *.
    destruct (stage =? 0) eqn:E0; [request_step_as (CArmTask 1)|].
    destruct (stage =? 1) eqn:E1; [request_step_as (CArmTask 2)|].
    destruct first; [request_step_as (CArmTask 1)|request_step_as (CArmTask 2)].
  - apply step_bare with CEnableOdom; [done|done|vm_compute; repeat constructor|done].
  - apply step_bare with CDisableOdom; [done|done|vm_compute; repeat constructor|done].
Qed.

(** *** Sequences of operations *)

Fixpoint run_all {Op} (run : Op -> LocoClient -> Z * LocoClient) (ops : list Op) (c : LocoClient) :
    LocoClient :=
  match ops with [] => c | o :: ops => run_all run ops (run o c).2 end.

Lemma steps_ok {Op} Init decode (intent : Op -> loco_mode -> option command) next run ops c :
  (∀ o c, (∀ cmd, intent o (mode_of c) = Some cmd -> command_kept keeps cmd) ->
          step_ok Init decode intent next o c (run o c).2) ->
  Forall (command_kept keeps) (asked intent next ops (mode_of c)) ->
  ∃ rs, log (run_all run ops c) = log c ++ rs ∧
        decode <$> rs = Some <$> asked intent next ops (mode_of c) ∧
        Forall (fun r => api r ∈ Init) rs.
Proof.
  intros Hstep. revert c. induction ops as [|o ops IH]; intros c Hk; cbn in *.
  { exists []. by rewrite app_nil_r. }
  apply Forall_app in Hk as [Ho Hops].
  destruct (Hstep o c) as (rs & Hl & Hd & Hi & Hm).
  { intros cmd E. rewrite E in Ho. by inversion Ho. }
  rewrite <- Hm in *. destruct (IH _ Hops) as (rs' & Hl' & Hd' & Hi').
  exists (rs ++ rs'). rewrite Hl', Hl, <- app_assoc, !fmap_app, Hd, Hd'.
  split_and!; [done|done|by apply Forall_app].
Qed.

(** C33. The locomotion clients are transparent: for every sequence of
    operations, the service reads out of the requests, in order, exactly the
    commands the operations stand for ([Move] following the move mode,
    [ShakeHand] the stage of the handshake), and every request uses an API
    identifier that [Init] registered; whatever the service answers. *)
Theorem loco_requests_refine (gops : list G1.op) (hops : list H1.op) :
  Forall (command_kept keeps) (asked g1_intent g1_next gops (mode_of new_client)) ->
  Forall (command_kept keeps) (asked h1_intent h1_next hops (mode_of new_client)) ->
  (g1_decode <$> log (run_all (G1.run reply) gops new_client) =
   Some <$> asked g1_intent g1_next gops (mode_of new_client) ∧
   Forall (fun r => api r ∈ G1.Init) (log (run_all (G1.run reply) gops new_client))) ∧
  (h1_decode <$> log (run_all (H1.run reply) hops new_client) =
   Some <$> asked h1_intent h1_next hops (mode_of new_client) ∧
   Forall (fun r => api r ∈ H1.Init) (log (run_all (H1.run reply) hops new_client))).
Proof.
  intros Hg Hh.
  destruct (steps_ok G1.Init g1_decode g1_intent g1_next (G1.run reply) gops new_client g1_step Hg)
    as (? & -> & ? & ?).
  by destruct (steps_ok H1.Init h1_decode h1_intent h1_next (H1.run reply) hops new_client h1_step Hh)
    as (? & -> & ? & ?).
Qed.

(** *** Getters *)

Lemma fetch_ok T A (J : Jsonize T) good vacant checked apiId (x json : T) (member : T -> A) out l pretty :
  ObjectRoundTrip norm T good vacant -> good x -> vacant json ->
  reply (l ++ [{| api := apiId; parameter := empty_text; binary := [] |}]) =
    (0, ToJsonString (object T) x pretty) ->
  (fetch reply checked apiId json member out l).1 = Ok (0, member x).
Proof.
  intros Hobj Hx Hv Hr. unfold fetch, Call. rewrite Hr. cbn. rewrite andb_false_r.
  by rewrite (text_roundtrip (object T)).
Qed.

Lemma fetch_failed T A (J : Jsonize T) apiId (json : T) (member : T -> A) out l ret data :
  reply (l ++ [{| api := apiId; parameter := empty_text; binary := [] |}]) = (ret, data) -> ret ≠ 0 ->
  (fetch reply true apiId json member out l).1 = Ok (ret, out).
Proof.
  intros Hr Hne. unfold fetch, Call. rewrite Hr. cbn.
  apply Z.eqb_neq in Hne. by rewrite Hne.
Qed.

Abbreviation asks apiId := {| api := apiId; parameter := empty_text; binary := [] |}.

(** The getters report what the service answered: a successful answer is
    parsed into the output.  After a failed call the g1 client leaves the output
    alone; the h1 client parses the data all the same and, when they hold
    nothing, overwrites the output with the default of the answer type. *)
Lemma loco_getters (l : list request) (z old : Z) (x out : float32) ret data :
  keeps (Tint I32) z -> keeps Tfloat x -> ret ≠ 0 ->
  (reply (l ++ [asks G1.GET_FSM_ID]) = (0, ToJsonString (object JsonizeDataInt.t) (JsonizeDataInt.mk z) false) ->
   (G1.GetFsmId reply old l).1 = Ok (0, z)) ∧
  (reply (l ++ [asks H1.GET_FSM_ID]) = (0, ToJsonString (object JsonizeDataInt.t) (JsonizeDataInt.mk z) false) ->
   (H1.GetFsmId reply old l).1 = Ok (0, z)) ∧
  (reply (l ++ [asks G1.GET_STAND_HEIGHT]) =
     (0, ToJsonString (object JsonizeDataFloat.t) (JsonizeDataFloat.mk x) false) ->
   (G1.GetStandHeight reply out l).1 = Ok (0, x)) ∧
  (reply (l ++ [asks G1.GET_FSM_ID]) = (ret, data) -> (G1.GetFsmId reply old l).1 = Ok (ret, old)) ∧
  (reply (l ++ [asks H1.GET_FSM_ID]) = (ret, data) ->
   FromJsonString (object JsonizeDataInt.t) data construct = Ok construct ->
   (H1.GetFsmId reply old l).1 = Ok (ret, 0)).
Proof.
  intros Hz Hx Hret. split_and!; intros Hr.
  - exact (fetch_ok _ _ _ _ _ _ _ (JsonizeDataInt.mk z) _ _ _ _ _ JsonizeDataInt_ok Hz I Hr).
  - exact (fetch_ok _ _ _ _ _ _ _ (JsonizeDataInt.mk z) _ _ _ _ _ JsonizeDataInt_ok Hz I Hr).
  - exact (fetch_ok _ _ _ _ _ _ _ (JsonizeDataFloat.mk x) _ _ _ _ _ JsonizeDataFloat_ok Hx I Hr).
  - by eapply fetch_failed.
  - intros Hd. unfold H1.GetFsmId, fetch, Call. rewrite Hr. cbn [fst snd andb]. by rewrite Hd.
Qed.

(** *** Audio *)

(** A series of [TtsMaker] calls. *)
Definition speak (c : Audio.AudioClient) (l : list (string * Z)) : Audio.AudioClient :=
  foldl (fun c '(txt, speaker) => (Audio.TtsMaker reply txt speaker c).2) c l.

Definition tts_request (k : nat) (t : string * Z) : request :=
  {| api := Audio.TTS;
     parameter := ToJsonString (object TtsMakerParameter.t)
                    (TtsMakerParameter.mk (i32 (u32 (Z.of_nat k))) (u16 t.2) t.1) false;
     binary := [] |}.

Lemma speak_spec l c n :
  Audio.tts_index c = u32 (Z.of_nat n) ->
  Audio.requests (speak c l) = Audio.requests c ++ imap (fun k t => tts_request (n + k) t) l.
Proof.
  revert c n. induction l as [|[txt sp] l IH]; intros c n Hc; [by rewrite app_nil_r|].
  unfold speak. cbn [foldl]. fold (speak (Audio.TtsMaker reply txt sp c).2 l).
  assert (Audio.requests (Audio.TtsMaker reply txt sp c).2 = Audio.requests c ++ [tts_request n (txt, sp)]) as Hr.
  { unfold Audio.TtsMaker. pose proof (send_log TtsMakerParameter.t _ Audio.TTS
      (TtsMakerParameter.mk (i32 (Audio.tts_index c)) (u16 sp) txt) (Audio.requests c)) as Hs.
    destruct (send _ _ _ _). cbn in *. rewrite Hs. unfold tts_request. by rewrite Hc. }
  rewrite (IH _ (S n)), Hr.
  - cbn. rewrite <- app_assoc, Nat.add_0_r. cbn. do 2 f_equal. apply imap_ext.
    intros i t _. cbn. f_equal. lia.
  - unfold Audio.TtsMaker. destruct (send _ _ _ _). cbn. rewrite Hc. unfold u32.
    rewrite Zplus_mod_idemp_l. f_equal. lia.
Qed.

(** The audio client: the volume the service stores is the one that was set
    and the one a later query of that text reports; successive speech requests
    carry the arguments of the calls and indices that repeat only after [2^32]
    requests; stopping a stream reports success whatever the service answered. *)
Lemma audio_client_requests (volume old : Z) (l : list (string * Z)) (app : string) c :
  0 <= volume < 256 -> keeps (Tint I32) volume -> Z.of_nat (length l) <= 2 ^ 32 ->
  (∃ r, Audio.requests (Audio.SetVolume reply volume c).2 = Audio.requests c ++ [r] ∧
        FromJsonString (object JsonizeCommObjInt.t) (parameter r) (JsonizeCommObjInt.mk 0 "volume") =
          Ok (JsonizeCommObjInt.mk volume "volume") ∧
        (reply (Audio.requests c ++ [asks Audio.GET_VOLUME]) = (0, parameter r) ->
         (Audio.GetVolume reply old c).1 = Ok (0, volume))) ∧
  Audio.requests (speak Audio.new_client l) = imap tts_request l ∧
  (∀ i j, (i < length l)%nat -> (j < length l)%nat ->
          i32 (u32 (Z.of_nat i)) = i32 (u32 (Z.of_nat j)) -> i = j) ∧
  (Audio.PlayStop reply app c).1 = 0.
Proof.
  intros Hv Hk Hl. split_and!.
  - eexists. split; [|split].
    + unfold Audio.SetVolume. pose proof (send_log JsonizeCommObjInt.t _ Audio.SET_VOLUME
        (JsonizeCommObjInt.mk volume "volume") (Audio.requests c)) as Hs.
      destruct (send _ _ _ _). cbn in *. exact Hs.
    + cbn [parameter]. by apply JsonTypesProps.comm_obj_carried.
    + intros Hr. cbn [parameter] in Hr. unfold Audio.GetVolume, fetch, Call. rewrite Hr. cbn [fst snd].
      rewrite (proj2 (JsonTypesProps.comm_obj_carried (JsonizeCommObjInt.mk volume "volume")
        (JsonizeCommObjInt.mk 0 "volume") false Hk eq_refl)).
      cbn -[uwrap]. by rewrite (uwrap_id 8) by (unfold in_u; lia).
  - rewrite (speak_spec _ _ 0) by done. done.
  - intros i j Hi Hj E.
    assert (∀ k, (k < length l)%nat -> in_u 32 (Z.of_nat k)) as Hb by (unfold in_u; lia).
    rewrite !(uwrap_id 32) in E by auto.
    apply (f_equal (uwrap 32)) in E. rewrite !uwrap_of_signed in E by (lia || auto). lia.
  - unfold Audio.PlayStop. by destruct (send _ _ _ _).
Qed.

End Props.

(** Answers of a service, for the examples. *)
Definition silent : list request -> Z * text := fun _ => (0, Empty).
Definition refuses : list request -> Z * text := fun _ => (3104, Empty).

Lemma loco_requests_refine_witness :
  g1_decode <$> log (run_all (G1.run silent) [G1.OSwitchMoveMode true; G1.OMove fzero fzero fzero;
                                             G1.OShakeHand (-1); G1.OShakeHand (-1)] new_client) =
  [Some (CVelocity [fzero; fzero; fzero] (F32.of_Z 864000)); Some (CArmTask 2); Some (CArmTask 3)].
Proof.
  refine (proj1 (proj1 (loco_requests_refine (norm := TreeText.to_tree) silent
    [G1.OSwitchMoveMode true; G1.OMove fzero fzero fzero; G1.OShakeHand (-1); G1.OShakeHand (-1)]
    [H1.ODamp] _ _))).
  - by repeat first [apply Forall_nil_2 | apply Forall_cons_2 | split].
  - by repeat first [apply Forall_nil_2 | apply Forall_cons_2 | split].
Defined.

Definition answers_five : list request -> Z * text :=
  fun _ => (0, ToJsonString (object JsonizeDataInt.t) (JsonizeDataInt.mk 5) false).

Lemma loco_getters_witness :
  (G1.GetFsmId answers_five 9 []).1 = Ok (0, 5) ∧
  (G1.GetFsmId refuses 9 []).1 = Ok (3104, 9) ∧
  (H1.GetFsmId refuses 9 []).1 = Ok (3104, 0).
Proof.
  split_and!.
  - by apply (loco_getters (norm := TreeText.to_tree) answers_five [] 5 9 fzero fzero 1 Empty).
  - by apply (loco_getters (norm := TreeText.to_tree) refuses [] 5 9 fzero fzero 3104 Empty).
  - by apply (loco_getters (norm := TreeText.to_tree) refuses [] 5 9 fzero fzero 3104 Empty).
Defined.

Lemma audio_client_requests_witness :
  (Audio.PlayStop refuses "app" Audio.new_client).1 = 0 ∧
  Audio.requests (speak silent Audio.new_client [("a", 0); ("b", 1)]) = imap tts_request [("a", 0); ("b", 1)].
Proof.
  split.
  - by apply (audio_client_requests (norm := TreeText.to_tree) refuses 10 0 [] "app" Audio.new_client).
  - by apply (audio_client_requests (norm := TreeText.to_tree) silent 10 0 [("a", 0); ("b", 1)] "app" Audio.new_client).
Defined.

End ClientProps.
