(* ===== verification/LocoCli.v ===== *)
(** * Command-line programs of the locomotion clients.

    Models [src/example/g1/high_level/g1_loco_client_example.cpp] and
    [src/example/h1/high_level/h1_loco_client_example.cpp]: the options are
    collected in a [std::map] and handled in the order of their names, each by the
    operations of the client of [Clients].

    The conversion of text to [float] ([std::stof] and [operator>>] of a stream) is a
    parameter.  What the getters find, they print. *)

From stdpp Require Import strings.
From Stdlib Require Import Ascii String.
From S2P Require Import Prelude Text Floats Any Json JsonTypes Clients.
Import ClientProps.

Local Open Scope string_scope.
Local Open Scope list_scope.
Local Open Scope Z_scope.

(** ** Options *)

Definition quote : ascii := Ascii.Ascii false true false false false true false false.

(** [value.back()] of a non-empty string. *)
Fixpoint back (c : ascii) (r : string) : ascii :=
  match r with EmptyString => c | String c' r' => back c' r' end.

(** The quotes around a value are removed.  [None]: [front()] of an empty string,
    which is not defined. *)
Definition unquote (value : string) : option string :=
  match value with
  | EmptyString => None
  | String c r =>
      if Ascii.eqb c quote && Ascii.eqb (back c r) quote
      then Some (substring 1 (String.length value - 2) value) else Some value
  end.

(** One argument: the option it sets, if it starts with two dashes. *)
Definition parse_argument (arg : string) : option (option (string * string)) :=
  if String.eqb (substring 0 2 arg) "--" then
    match String.index 0 "=" arg with
    | Some pos =>
        let key := substring 2 (pos - 2) arg in
        value ← unquote (substring (pos + 1) (String.length arg - (pos + 1)) arg);
        Some (Some (key, value))
    | None => Some (Some (substring 2 (String.length arg - 2) arg, ""))
    end
  else Some None.

Abbreviation Args := (list (string * string)).

Fixpoint parse_arguments (argv : list string) (args : Args) : option Args :=
  match argv with
  | [] => Some args
  | arg :: argv =>
      o ← parse_argument arg;
      parse_arguments argv match o with Some (key, value) => map_set key value args | None => args end
  end.

Definition build_args (argv : list string) : option Args := parse_arguments argv [("network_interface", "lo")].

(** ** Reactions *)

(** What an option asks for: operations of the client, a query whose answer is
    printed, [return 1], or an exception nobody catches. *)
Inductive reaction {Op Q : Type} := Run (ops : list Op) | Query (q : Q) | Reject | Raise.
Arguments reaction : clear implicits.

Section Values.
Context (stof : string -> conversion float32) (read_float : string -> option (float32 * string)).
Context {Op Q : Type}.

Fixpoint read_all (fuel : nat) (s : string) : option (list float32) :=
  match fuel with
  | O => None
  | S fuel =>
      match read_float s with
      | None => Some []
      | Some (num, rest) => l ← read_all fuel (substring 1 (String.length rest - 1) rest); Some (num :: l)
      end
  end.

(** Every round reads a character at least. *)
Definition stringToFloatVector (str : string) : option (list float32) := read_all (S (String.length str)) str.

Definition with_int (f : Z -> Op) (value : string) : reaction Op Q :=
  match stoi value with Converted z => Run [f z] | _ => Raise end.

Definition with_float (f : float32 -> Op) (value : string) : reaction Op Q :=
  match stof value with Converted x => Run [f x] | _ => Raise end.

(** A flag given as one of two words. *)
Definition with_flag (yes no : string) (f : bool -> Op) (value : string) : reaction Op Q :=
  if String.eqb value yes then Run [f true] else if String.eqb value no then Run [f false] else Reject.

Definition with_vector (f : list float32 -> reaction Op Q) (value : string) : reaction Op Q :=
  match stringToFloatVector value with Some param => f param | None => Raise end.

Definition velocity (f : float32 -> float32 -> float32 -> float32 -> Op) (param : list float32) : reaction Op Q :=
  match param with
  | [vx; vy; omega] => Run [f vx vy omega (F32.of_Z 1)]
  | [vx; vy; omega; duration] => Run [f vx vy omega duration]
  | _ => Reject
  end.

Definition move (f : float32 -> float32 -> float32 -> Op) (param : list float32) : reaction Op Q :=
  match param with [vx; vy; omega] => Run [f vx vy omega] | _ => Reject end.

Definition run_ops (ops : list Op) (value : string) : reaction Op Q := Run ops.
Definition run_query (q : Q) (value : string) : reaction Op Q := Query q.
End Values.

(** ** The two programs *)

Inductive query := QFsmId | QFsmMode | QBalanceMode | QSwingHeight | QStandHeight | QPhase | QOdom.

Section Tables.
Context (stof : string -> conversion float32) (read_float : string -> option (float32 * string)).

(** The tests of the option's name, in the order of the program. *)
Definition g1_commands : list (string * (string -> reaction G1.op query)) :=
  [ ("get_fsm_id", run_query QFsmId); ("get_fsm_mode", run_query QFsmMode);
    ("get_balance_mode", run_query QBalanceMode); ("get_swing_height", run_query QSwingHeight);
    ("get_stand_height", run_query QStandHeight); ("get_phase", run_query QPhase);
    ("set_fsm_id", with_int G1.OSetFsmId); ("set_balance_mode", with_int G1.OSetBalanceMode);
    ("set_swing_height", with_float stof G1.OSetSwingHeight); ("set_stand_height", with_float stof G1.OSetStandHeight);
    ("set_velocity", with_vector read_float (velocity G1.OSetVelocity));
    ("damp", run_ops [G1.ODamp]); ("start", run_ops [G1.OStart]); ("squat", run_ops [G1.OSquat]);
    ("sit", run_ops [G1.OSit]); ("stand_up", run_ops [G1.OStandUp]); ("zero_torque", run_ops [G1.OZeroTorque]);
    ("stop_move", run_ops [G1.OStopMove]); ("high_stand", run_ops [G1.OHighStand]);
    ("low_stand", run_ops [G1.OLowStand]); ("balance_stand", run_ops [G1.OBalanceStand]);
    ("continous_gait", with_flag "true" "false" G1.OContinuousGait);
    ("switch_move_mode", with_flag "true" "false" G1.OSwitchMoveMode);
    ("move", with_vector read_float (move G1.OMove)); ("set_task_id", with_int G1.OSetTaskId);
    ("shake_hand", run_ops [G1.OShakeHand 0; G1.OShakeHand 1]); ("wave_hand", run_ops [G1.OWaveHand false]);
    ("wave_hand_with_turn", run_ops [G1.OWaveHand true]); ("set_speed_mode", with_int G1.OSetSpeedMode) ].

Definition set_phase (param : list float32) : reaction H1.op query :=
  match param with [_; _] => Run [H1.OSetPhase param] | _ => Reject end.

(** [param.at(i)] throws when there are fewer numbers. *)
Definition target_pos (relative : bool) (param : list float32) : reaction H1.op query :=
  match param with x :: y :: yaw :: _ => Run [H1.OSetTargetPos x y yaw relative] | _ => Raise end.

Definition h1_commands : list (string * (string -> reaction H1.op query)) :=
  [ ("get_fsm_id", run_query QFsmId); ("get_fsm_mode", run_query QFsmMode);
    ("get_balance_mode", run_query QBalanceMode); ("get_swing_height", run_query QSwingHeight);
    ("get_stand_height", run_query QStandHeight); ("get_phase", run_query QPhase);
    ("enable_odom", run_ops [H1.OEnableOdom]); ("disable_odom", run_ops [H1.ODisableOdom]);
    ("get_odom", run_query QOdom);
    ("set_fsm_id", with_int H1.OSetFsmId); ("set_balance_mode", with_int H1.OSetBalanceMode);
    ("set_swing_height", with_float stof H1.OSetSwingHeight); ("set_stand_height", with_float stof H1.OSetStandHeight);
    ("set_velocity", with_vector read_float (velocity H1.OSetVelocity));
    ("set_phase", with_vector read_float set_phase); ("set_target_pos", with_vector read_float (target_pos false));
    ("set_target_pos_relative", with_vector read_float (target_pos true));
    ("damp", run_ops [H1.ODamp]); ("start", run_ops [H1.OStart]); ("stand_up", run_ops [H1.OStandUp]);
    ("zero_torque", run_ops [H1.OZeroTorque]); ("stop_move", run_ops [H1.OStopMove]);
    ("high_stand", run_ops [H1.OHighStand]); ("low_stand", run_ops [H1.OLowStand]);
    ("balance_stand", run_ops [H1.OBalanceStand]);
    ("continous_gait", with_flag "true" "false" H1.OContinuousGait);
    ("switch_move_mode", with_flag "true" "false" H1.OSwitchMoveMode);
    ("move", with_vector read_float (move H1.OMove)); ("set_next_foot", with_flag "0" "1" H1.OSetNextFoot);
    ("set_task_id", with_int H1.OSetTaskId); ("shake_hand", run_ops [H1.OShakeHand 0; H1.OShakeHand 1]);
    ("wave_hand", run_ops [H1.OWaveHand]) ].
End Tables.

Section Execution.
Context `{Sdk} (reply : list request -> Z * text).

(** A getter; its output variable is not initialised. *)
Definition ask {A} (get : A -> list request -> outcome (Z * A) * list request) (out : A) (l : list request) :
    bool * list request :=
  let '(o, l) := get out l in (match o with Ok _ => true | _ => false end, l).

Context (junk : Z) (fjunk : float32).

Definition g1_query (q : query) (l : list request) : bool * list request :=
  match q with
  | QFsmId => ask (G1.GetFsmId reply) junk l
  | QFsmMode => ask (G1.GetFsmMode reply) junk l
  | QBalanceMode => ask (G1.GetBalanceMode reply) junk l
  | QSwingHeight => ask (G1.GetSwingHeight reply) fjunk l
  | QStandHeight => ask (G1.GetStandHeight reply) fjunk l
  | QPhase => ask (G1.GetPhase reply) [] l
  | QOdom => (true, l)  (* not an option of this program *)
  end.

Definition h1_query (q : query) (l : list request) : bool * list request :=
  match q with
  | QFsmId => ask (H1.GetFsmId reply) junk l
  | QFsmMode => ask (H1.GetFsmMode reply) junk l
  | QBalanceMode => ask (H1.GetBalanceMode reply) junk l
  | QSwingHeight => ask (H1.GetSwingHeight reply) fjunk l
  | QStandHeight => ask (H1.GetStandHeight reply) fjunk l
  | QPhase => ask (H1.GetPhase reply) [] l
  | QOdom => ask (H1.GetOdom reply) (fjunk, fjunk, fjunk) l
  end.

(** How the program goes on: with the next option, out of [main] with 1, or out of
    it with an exception. *)
Inductive status := Continue | Returned1 | Raised.

Section Loop.
Context {Op : Type} (run : Op -> LocoClient -> Z * LocoClient) (ask_query : query -> list request -> bool * list request).
Context (table : list (string * (string -> reaction Op query))).

Definition set_log (l : list request) (c : LocoClient) : LocoClient :=
  {| continous_move_ := continous_move_ c; first_shake_hand_stage_ := first_shake_hand_stage_ c; log := l |}.

Definition react (r : reaction Op query) (c : LocoClient) : LocoClient * status :=
  match r with
  | Run ops => (run_all run ops c, Continue)
  | Query q => let '(ok, l) := ask_query q (log c) in (set_log l c, if ok then Continue else Raised)
  | Reject => (c, Returned1)
  | Raise => (c, Raised)
  end.

(** The [if]s on [arg_pair.first], one after the other. *)
Fixpoint handle (t : list (string * (string -> reaction Op query))) (arg_pair : string * string) (c : LocoClient) :
    LocoClient * status :=
  match t with
  | [] => (c, Continue)
  | (name, f) :: t =>
      if String.eqb arg_pair.1 name then
        match react (f arg_pair.2) c with
        | (c, Continue) => handle t arg_pair c
        | r => r
        end
      else handle t arg_pair c
  end.

Fixpoint loop (args : Args) (c : LocoClient) : LocoClient * status :=
  match args with
  | [] => (c, Continue)
  | arg_pair :: args =>
      if String.eqb arg_pair.1 "network_interface" then loop args c
      else match handle table arg_pair c with
           | (c, Continue) => loop args c
           | r => r
           end
  end.

(** [None] when an option is given an empty value. *)
Definition main (argv : list string) : option (LocoClient * status) :=
  args ← build_args argv; Some (loop args new_client).

(** ** What the options stand for *)

Definition reaction_to (arg_pair : string * string) : reaction Op query :=
  if String.eqb arg_pair.1 "network_interface" then Run []
  else match map_get arg_pair.1 table with Some f => f arg_pair.2 | None => Run [] end.

Definition operations (args : Args) : list Op :=
  flat_map (fun a => match reaction_to a with Run ops => ops | _ => [] end) args.

(** How an option ends the program, when it does: a rejected one with 1, one
    whose value cannot be converted, or a query whose answer cannot be read, with
    an exception; [l] is the requests made before it. *)
Definition halts_with (arg_pair : string * string) (l : list request) : option status :=
  match reaction_to arg_pair with
  | Run _ => None
  | Query q => if (ask_query q l).1 then None else Some Raised
  | Reject => Some Returned1
  | Raise => Some Raised
  end.

(** The [n]-th option is the first that ends the program, with [st]; or none does,
    and [n] is the number of options. *)
Definition stopped_by (args : Args) (c : LocoClient) (n : nat) (st : status) : Prop :=
  (∀ i a, (i < n)%nat -> args !! i = Some a -> halts_with a (log (loop (take i args) c).1) = None) ∧
  match st with
  | Continue => n = length args
  | _ => ∃ a, args !! n = Some a ∧ halts_with a (log (loop (take n args) c).1) = Some st
  end.

Lemma handle_absent t arg_pair c : map_get arg_pair.1 t = None -> handle t arg_pair c = (c, Continue).
Proof.
  induction t as [|[name f] t IH]; [done|]. cbn [map_get handle]. destruct (String.eqb arg_pair.1 name); [done|exact IH].
Qed.

(** Each option has one name at most. *)
Lemma handle_spec t arg_pair c :
  NoDup t.*1 -> handle t arg_pair c = match map_get arg_pair.1 t with Some f => react (f arg_pair.2) c | None => (c, Continue) end.
Proof.
  induction t as [|[name f] t IH]; intros Hd; [done|]. cbn [map_get handle]. cbn in Hd. apply NoDup_cons in Hd as [Hn Hd].
  destruct (String.eqb_spec arg_pair.1 name) as [E|]; [|by apply IH].
  destruct (react (f arg_pair.2) c) as [c' []]; [|done|done]. apply handle_absent.
  destruct (map_get arg_pair.1 t) as [g|] eqn:G; [|done]. exfalso. apply Hn. rewrite <- E. clear -G.
  induction t as [|[k g'] t IH]; [done|]. cbn [map_get] in G. cbn. apply elem_of_cons.
  destruct (String.eqb_spec arg_pair.1 k); [by left|right; by apply IH].
Qed.

(** An option, then the others. *)
Lemma loop_cons a args c :
  NoDup table.*1 ->
  loop (a :: args) c = match react (reaction_to a) c with (c, Continue) => loop args c | r => r end.
Proof.
  intros Hn. cbn [loop]. unfold reaction_to. destruct (String.eqb a.1 "network_interface"); [done|].
  rewrite handle_spec by exact Hn. by destruct (map_get a.1 table).
Qed.

(** An option ends the program as [halts_with] says. *)
Lemma react_halts a c :
  (react (reaction_to a) c).2 = default Continue (halts_with a (log c)) ∧
  (halts_with a (log c) = None <-> (react (reaction_to a) c).2 = Continue).
Proof.
  unfold halts_with. destruct (reaction_to a) as [ops|q| |]; cbn [react]; [done| |done|done].
  by destruct (ask_query q (log c)) as [[] l].
Qed.
End Loop.
End Execution.

(** * Properties *)
Module LocoCliProps.

(** ** Lists of numbers *)

Lemma length_substring n m s : (String.length (substring n m s) <= String.length s - n)%nat.
Proof.
  revert n m. induction s as [|c s IH]; intros n m; [by destruct n, m|].
  destruct n as [|n], m as [|m]; cbn [substring String.length]; try lia.
  - specialize (IH 0%nat m). lia.
  - specialize (IH n 0%nat). lia.
  - specialize (IH n (S m)). lia.
Qed.

(** [stringToFloatVector] returns for every text when a number that is read has at
    least one character. *)
Lemma stringToFloatVector_returns (read_float : string -> option (float32 * string)) str :
  (∀ s x rest, read_float s = Some (x, rest) -> (String.length rest < String.length s)%nat) ->
  is_Some (stringToFloatVector read_float str).
Proof.
  intros Hr. unfold stringToFloatVector.
  assert (H : ∀ fuel s, (String.length s < fuel)%nat -> is_Some (read_all read_float fuel s)).
  { induction fuel as [|fuel IH]; intros s Hs; [lia|]. cbn [read_all]. destruct (read_float s) as [[x rest]|] eqn:E; [|by eexists].
    apply Hr in E. pose proof (length_substring 1 (String.length rest - 1) rest).
    destruct (IH (substring 1 (String.length rest - 1) rest)) as [l ->]; [lia|]. by eexists. }
  apply H. lia.
Qed.

(** ** The options *)

(** The options an argument list sets, in order. *)
Definition options (argv : list string) : list (string * string) :=
  omap (fun arg => o ← parse_argument arg; o) argv.

(** The last value given to a key. *)
Definition last_value (key : string) (os : list (string * string)) : option string :=
  snd <$> last (filter (fun o => o.1 = key) os).

Lemma last_value_cons key o os :
  last_value key (o :: os) =
  match last_value key os with Some v => Some v | None => if decide (o.1 = key) then Some o.2 else None end.
Proof.
  unfold last_value. rewrite filter_cons. destruct (decide (o.1 = key)).
  - rewrite last_cons. by destruct (last _).
  - by destruct (last _).
Qed.

Lemma parse_arguments_spec argv args args' :
  ascending args -> parse_arguments argv args = Some args' ->
  ascending args' ∧ ∀ k, map_get k args' = match last_value k (options argv) with Some v => Some v | None => map_get k args end.
Proof.
  revert args. induction argv as [|arg argv IH]; intros args Ha; cbn [parse_arguments].
  { by intros [= <-]. }
  unfold options. cbn [omap list_omap]. fold (options argv).
  destruct (parse_argument arg) as [[[key value]|]|]; cbn; [| |done].
  - intros E. destruct (IH _ (map_set_ascending key value args Ha) E) as [Ha' Hg]. split; [done|]. intros k.
    rewrite Hg, last_value_cons. cbn [fst snd]. fold (options argv). destruct (last_value k (options argv)); [done|].
    rewrite map_get_set by done. destruct (decide (k = key)), (decide (key = k)); congruence.
  - intros E. by apply IH.
Qed.

Lemma build_args_spec argv args :
  build_args argv = Some args ->
  ascending args ∧ ∀ k, map_get k args = match last_value k (options argv) with
                                         | Some v => Some v
                                         | None => if decide (k = "network_interface") then Some "lo" else None
                                         end.
Proof.
  intros E. destruct (parse_arguments_spec argv [("network_interface", "lo")] args) as [Ha Hg]; [by repeat constructor|done|].
  split; [done|]. intros k. rewrite Hg. cbn [map_get]. destruct (last_value k (options argv)); [done|].
  destruct (String.eqb_spec k "network_interface"), (decide (k = "network_interface")); done.
Qed.

(** ** Sequences of operations *)

Lemma omap_all {A B} (f : A -> option B) (l : list A) (l' : list B) : f <$> l = Some <$> l' -> omap f l = l'.
Proof.
  revert l'. induction l as [|x l IH]; intros [|y l'] E; try done. cbn in *. injection E as E1 E2. rewrite E1. f_equal. by apply IH.
Qed.

Lemma filter_keeps {A} (P : A -> Prop) `{∀ x, Decision (P x)} (l : list A) : Forall P l -> filter P l = l.
Proof. induction 1 as [|x l Hx _ IH]; [done|]. rewrite filter_cons_True by done. by f_equal. Qed.

Section Asked.
Context {Op : Type} (intent : Op -> loco_mode -> option command) (next : Op -> loco_mode -> loco_mode).

Definition mode_after (ops : list Op) (m : loco_mode) : loco_mode := foldl (fun m o => next o m) m ops.

Lemma asked_app ops1 ops2 m :
  asked intent next (ops1 ++ ops2) m = asked intent next ops1 m ++ asked intent next ops2 (mode_after ops1 m).
Proof. revert m. induction ops1 as [|o ops IH]; intros m; [done|]. cbn. by rewrite IH, <- app_assoc. Qed.
End Asked.

Section Props.
Context `{Channel} `{!TextChannel norm} (reply : list request -> Z * text).
Context (junk : Z) (fjunk : float32).

Section Program.
Context {Op : Type} (Init : list Z) (decode : request -> option command).
Context (intent : Op -> loco_mode -> option command) (next : Op -> loco_mode -> loco_mode).
Context (run : Op -> LocoClient -> Z * LocoClient) (ask_query : query -> list request -> bool * list request).
Context (table : list (string * (string -> reaction Op query))).

Hypothesis run_ok : ∀ o c, (∀ cmd, intent o (mode_of c) = Some cmd -> command_kept keeps cmd) ->
  step_ok Init decode intent next o c (run o c).2.
Hypothesis ask_ok : ∀ q l, ∃ rs, (ask_query q l).2 = l ++ rs ∧ omap decode rs = [] ∧ Forall (fun r => api r ∈ Init) rs.
Hypothesis names : NoDup table.*1.

Lemma run_all_ok ops c :
  Forall (command_kept keeps) (asked intent next ops (mode_of c)) ->
  ∃ rs, log (run_all run ops c) = log c ++ rs ∧ omap decode rs = asked intent next ops (mode_of c) ∧
        Forall (fun r => api r ∈ Init) rs ∧ mode_of (run_all run ops c) = mode_after next ops (mode_of c).
Proof.
  revert c. induction ops as [|o ops IH]; intros c Hk; cbn in *.
  { exists []. by rewrite app_nil_r. }
  apply Forall_app in Hk as [Ho Hops]. destruct (run_ok o c) as (rs & Hl & Hd & Hi & Hm).
  { intros cmd E. rewrite E in Ho. by inversion Ho. }
  rewrite <- Hm in *. destruct (IH _ Hops) as (rs' & Hl' & Hd' & Hi' & Hm'). exists (rs ++ rs').
  rewrite Hl', Hl, <- app_assoc, omap_app, Hd', (omap_all _ _ _ Hd), Hm'. split_and!; [done|done|by apply Forall_app|done].
Qed.

Lemma react_ok r c c' st :
  react run ask_query r c = (c', st) ->
  Forall (command_kept keeps) (asked intent next (match r with Run ops => ops | _ => [] end) (mode_of c)) ->
  ∃ rs, log c' = log c ++ rs ∧ Forall (fun r => api r ∈ Init) rs ∧
    omap decode rs = asked intent next (match r with Run ops => ops | _ => [] end) (mode_of c) ∧
    mode_of c' = mode_after next (match r with Run ops => ops | _ => [] end) (mode_of c) ∧
    (st ≠ Continue -> match r with Run _ => False | _ => True end).
Proof.
  destruct r as [ops|q| |]; cbn [react]; intros E Hk.
  - injection E as <- <-. destruct (run_all_ok ops c Hk) as (rs & Hl & Hd & Hi & Hm). by exists rs.
  - pose proof (ask_ok q (log c)) as (rs & Hl & Hd & Hi). destruct (ask_query q (log c)) as [ok l]. injection E as <- <-.
    by exists rs.
  - injection E as <- <-. exists []. by rewrite app_nil_r.
  - injection E as <- <-. exists []. by rewrite app_nil_r.
Qed.

(** The first option does not end the program. *)
Lemma stopped_by_cons a args c c1 n st :
  react run ask_query (reaction_to table a) c = (c1, Continue) ->
  stopped_by run ask_query table args c1 n st -> stopped_by run ask_query table (a :: args) c (S n) st.
Proof.
  intros E [Hb Hs].
  assert (Hl : ∀ i, loop run ask_query table (take (S i) (a :: args)) c = loop run ask_query table (take i args) c1)
    by (intros i; cbn [take]; by rewrite loop_cons, E by exact names).
  split.
  - intros [|i] b Hi; cbn [lookup list_lookup].
    + intros [= <-]. apply (proj2 (react_halts run ask_query table a c)). by rewrite E.
    + intros Hb'. rewrite Hl. apply Hb; [lia|done].
  - destruct st; [cbn [length]; by rewrite Hs| |]; destruct Hs as (b & Hb' & Hh); exists b; by rewrite Hl.
Qed.

(** The first option ends the program. *)
Lemma stopped_by_first a args c c1 st :
  react run ask_query (reaction_to table a) c = (c1, st) -> st ≠ Continue ->
  stopped_by run ask_query table (a :: args) c 0 st.
Proof.
  intros E Hst. destruct (react_halts run ask_query table a c) as [Hh _]. rewrite E in Hh. cbn [snd] in Hh.
  split; [intros; lia|].
  assert (H1 : halts_with ask_query table a (log c) = Some st)
    by (destruct (halts_with ask_query table a (log c)); cbn in Hh; congruence).
  destruct st; [done| |]; by exists a.
Qed.

Lemma loop_ok args c c' st :
  loop run ask_query table args c = (c', st) ->
  Forall (command_kept keeps) (asked intent next (operations table args) (mode_of c)) ->
  ∃ n rs, log c' = log c ++ rs ∧ Forall (fun r => api r ∈ Init) rs ∧
    omap decode rs = asked intent next (operations table (take n args)) (mode_of c) ∧
    stopped_by run ask_query table args c n st.
Proof.
  revert c. induction args as [|a args IH]; intros c.
  { intros [= <- <-] _. exists 0%nat, []. rewrite app_nil_r. by split_and!. }
  rewrite loop_cons by exact names. destruct (react run ask_query (reaction_to table a) c) as [c1 st1] eqn:E1. intros E Hk.
  unfold operations in Hk. cbn [flat_map] in Hk. rewrite asked_app in Hk. apply Forall_app in Hk as [Hk1 Hk2].
  destruct (react_ok _ _ _ _ E1 Hk1) as (rs & Hl & Hi & Hd & Hm & Hst).
  assert (Hend : st1 ≠ Continue -> omap decode rs = []).
  { intros Hne. specialize (Hst Hne). rewrite Hd. by destruct (reaction_to table a). }
  destruct st1.
  - rewrite <- Hm in Hk2. destruct (IH c1 E Hk2) as (n & rs' & Hl' & Hi' & Hd' & Hs). exists (S n), (rs ++ rs').
    cbn [take]. unfold operations. cbn [flat_map]. rewrite Hl', Hl, <- app_assoc, omap_app, Hd, Hd', asked_app, Hm.
    split_and!; [done|by apply Forall_app|done|]. by eapply stopped_by_cons.
  - injection E as <- <-. exists 0%nat, rs. split_and!; [done|done|by apply Hend|by eapply stopped_by_first].
  - injection E as <- <-. exists 0%nat, rs. split_and!; [done|done|by apply Hend|by eapply stopped_by_first].
Qed.
End Program.

(** ** The two robots *)

#[local] Abbreviation asks apiId := {| api := apiId; parameter := empty_text; binary := [] |}.

Lemma fetch_asks T A (J : Jsonize T) checked apiId (json : T) (member : T -> A) out l :
  (ask (fun out => fetch reply checked apiId json member out) out l).2 = l ++ [asks apiId].
Proof. unfold ask, fetch, Call. by destruct (reply _). Qed.

Lemma g1_ask_ok q l :
  ∃ rs, (g1_query reply junk fjunk q l).2 = l ++ rs ∧ omap g1_decode rs = [] ∧ Forall (fun r => api r ∈ G1.Init) rs.
Proof.
  destruct q; try (eexists; split; [apply fetch_asks|]; split; [reflexivity|apply Forall_singleton; vm_compute; repeat constructor]).
  exists []. by rewrite app_nil_r.
Qed.

Lemma h1_ask_ok q l :
  ∃ rs, (h1_query reply junk fjunk q l).2 = l ++ rs ∧ omap h1_decode rs = [] ∧ Forall (fun r => api r ∈ H1.Init) rs.
Proof.
  destruct q; eexists; (split; [apply fetch_asks|]; split; [reflexivity|apply Forall_singleton; vm_compute; repeat constructor]).
Qed.

Context (stof : string -> conversion float32) (read_float : string -> option (float32 * string)).

#[local] Abbreviation g1_table := (g1_commands stof read_float).
#[local] Abbreviation h1_table := (h1_commands stof read_float).

Lemma g1_names : NoDup g1_table.*1.
Proof. apply (bool_decide_unpack _). vm_compute. exact I. Qed.

Lemma h1_names : NoDup h1_table.*1.
Proof. apply (bool_decide_unpack _). vm_compute. exact I. Qed.

(** C12. The command-line programs of the g1 and the h1.  Whatever the arguments, if
    no option has an empty value: the options form a map that gives each name its
    last value; they are handled in the order of their names, and the commands the
    service reads out of the requests, in order, are those the options stand for,
    up to the first option that ends the program: a rejected one (the program
    returns 1), one whose value cannot be converted, or a query whose answer
    cannot be read (an exception).  No option before it does so, and when none
    does, all are handled.  Every request uses a registered identifier, and the answers to
    queries do not disturb the commands. *)
Theorem loco_cli_refines argv args :
  build_args argv = Some args ->
  Forall (command_kept keeps) (asked g1_intent g1_next (operations g1_table args) (mode_of new_client)) ->
  Forall (command_kept keeps) (asked h1_intent h1_next (operations h1_table args) (mode_of new_client)) ->
  ascending args ∧
  (∀ k, map_get k args = match last_value k (options argv) with
                         | Some v => Some v
                         | None => if decide (k = "network_interface") then Some "lo" else None
                         end) ∧
  (∃ c st n, main (G1.run reply) (g1_query reply junk fjunk) g1_table argv = Some (c, st) ∧
     omap g1_decode (log c) = asked g1_intent g1_next (operations g1_table (take n args)) (mode_of new_client) ∧
     Forall (fun r => api r ∈ G1.Init) (log c) ∧ stopped_by (G1.run reply) (g1_query reply junk fjunk) g1_table args new_client n st) ∧
  (∃ c st n, main (H1.run reply) (h1_query reply junk fjunk) h1_table argv = Some (c, st) ∧
     omap h1_decode (log c) = asked h1_intent h1_next (operations h1_table (take n args)) (mode_of new_client) ∧
     Forall (fun r => api r ∈ H1.Init) (log c) ∧ stopped_by (H1.run reply) (h1_query reply junk fjunk) h1_table args new_client n st).
Proof.
  intros E Hg Hh. destruct (build_args_spec argv args E) as [Ha Hm]. unfold main. rewrite E. cbn [mbind option_bind].
  split; [done|]. split; [done|]. split.
  - destruct (loop _ _ _ args new_client) as [c st] eqn:L.
    destruct (loop_ok _ _ _ _ _ _ _ (g1_step reply) g1_ask_ok g1_names args new_client c st L Hg) as (n & rs & Hl & Hi & Hd & Hs).
    exists c, st, n. by rewrite Hl.
  - destruct (loop _ _ _ args new_client) as [c st] eqn:L.
    destruct (loop_ok _ _ _ _ _ _ _ (h1_step reply) h1_ask_ok h1_names args new_client c st L Hh) as (n & rs & Hl & Hi & Hd & Hs).
    exists c, st, n. by rewrite Hl.
Qed.
End Props.

(** ** The move mode *)

Section Mode.
Context {Op : Type} (intent : Op -> loco_mode -> option command) (next : Op -> loco_mode -> loco_mode).
Context (moves switches : Op -> bool) (table : list (string * (string -> reaction Op query))).

Hypothesis only_moves : ∀ o m m', moves o = false -> hand_down m = hand_down m' -> intent o m = intent o m'.
Hypothesis hands : ∀ o m m', hand_down m = hand_down m' -> hand_down (next o m) = hand_down (next o m').
Hypothesis switch_silent : ∀ o m, switches o = true -> intent o m = None ∧ hand_down (next o m) = hand_down m.
Hypothesis move_option : Forall (fun e => e.1 ≠ "move" -> ∀ v ops, e.2 v = Run ops -> Forall (fun o => moves o = false) ops) table.
Hypothesis switch_option : ∀ v ops, reaction_to table ("switch_move_mode", v) = Run ops -> Forall (fun o => switches o = true) ops.

Lemma asked_insensitive ops m m' :
  Forall (fun o => moves o = false) ops -> hand_down m = hand_down m' -> asked intent next ops m = asked intent next ops m'.
Proof.
  intros Hf. revert m m'. induction Hf as [|o ops Ho _ IH]; intros m m' Hm; [done|]. cbn.
  rewrite (only_moves o m m' Ho Hm). f_equal. apply IH. by apply hands.
Qed.

Lemma switches_silent ops m :
  Forall (fun o => switches o = true) ops ->
  asked intent next ops m = [] ∧ hand_down (mode_after next ops m) = hand_down m.
Proof.
  intros Hf. revert m. induction Hf as [|o ops Ho _ IH]; intros m; [done|]. cbn.
  destruct (switch_silent o m Ho) as [-> Hh]. destruct (IH (next o m)) as [-> Hh']. split; [done|]. fold (mode_after next ops (next o m)). congruence.
Qed.

Lemma map_get_In {V} k (v : V) m : map_get k m = Some v -> (k, v) ∈ m.
Proof.
  induction m as [|[k' v'] m IH]; [done|]. cbn [map_get]. destruct (String.eqb_spec k k') as [->|]; [intros [= ->]; left|right; by apply IH].
Qed.

Lemma no_moves args :
  Forall (fun a => a.1 ≠ "move") args -> Forall (fun o => moves o = false) (operations table args).
Proof.
  induction 1 as [|a args Ha _ IH]; [constructor|]. unfold operations. cbn [flat_map]. apply Forall_app. split; [|exact IH].
  unfold reaction_to. destruct (String.eqb a.1 "network_interface"); [constructor|].
  destruct (map_get a.1 table) as [f|] eqn:G; [|constructor]. destruct (f a.2) as [ops| | |] eqn:E; try constructor.
  rewrite Forall_forall in move_option. by apply (move_option (a.1, f) (map_get_In _ _ _ G) Ha a.2 ops).
Qed.

Lemma switch_useless args m :
  ascending args ->
  asked intent next (operations table args) m =
  asked intent next (operations table (filter (fun a => a.1 ≠ "switch_move_mode") args)) m.
Proof.
  unfold ascending. revert m. induction args as [|a args IH]; intros m Ha; [done|]. cbn in Ha. apply StronglySorted_inv in Ha as [Ha Hf].
  rewrite filter_cons. unfold operations. cbn [flat_map]. fold (operations table args). rewrite asked_app.
  destruct (decide (a.1 ≠ "switch_move_mode")) as [Hne|Heq].
  { cbn [flat_map]. rewrite asked_app. f_equal. by apply IH. }
  apply dec_stable in Heq. rewrite filter_keeps by
    (apply Forall_forall; intros b Hb Eb; rewrite Forall_forall in Hf; apply (before_irrefl "switch_move_mode");
     rewrite <- Heq at 1; rewrite <- Eb; apply Hf; apply list_elem_of_fmap; by exists b).
  assert (Hs : Forall (fun o => switches o = true) match reaction_to table a with Run ops => ops | _ => [] end).
  { destruct a as [k v]. cbn in Heq. subst k. destruct (reaction_to table ("switch_move_mode", v)) eqn:E; try constructor. by eapply switch_option. }
  destruct (switches_silent _ m Hs) as [-> Hh]. cbn [app]. apply asked_insensitive; [|exact Hh]. apply no_moves.
  apply Forall_forall. intros b Hb Eb. rewrite Forall_forall in Hf.
  assert (Hbad : before a.1 b.1) by (apply Hf; apply list_elem_of_fmap; by exists b). rewrite Heq, Eb in Hbad. discriminate Hbad.
Qed.
End Mode.

Definition g1_moves (o : G1.op) : bool := match o with G1.OMove _ _ _ => true | _ => false end.
Definition g1_switches (o : G1.op) : bool := match o with G1.OSwitchMoveMode _ => true | _ => false end.
Definition h1_moves (o : H1.op) : bool := match o with H1.OMove _ _ _ => true | _ => false end.
Definition h1_switches (o : H1.op) : bool := match o with H1.OSwitchMoveMode _ => true | _ => false end.

(** Goes through the options of a table. *)
Ltac one_option :=
  cbn [fst snd]; intros Hname v ops;
  unfold run_query, run_ops, with_int, with_float, with_flag, with_vector, velocity, move, set_phase, target_pos;
  intros Ef; first [by destruct Hname|repeat case_match; simplify_eq; by repeat constructor].

Ltac each_option := repeat (apply Forall_cons_2; [one_option|]); apply Forall_nil_2.

(** The option [switch_move_mode] has no effect.  Options are handled in the
    order of their names, so [move] comes before it and the program ends without
    another move: for every argument list and every number of options handled,
    the commands are the same with the option left out, on both robots. *)
Lemma switch_move_mode_useless stof read_float argv args n :
  build_args argv = Some args ->
  let others := filter (fun a => a.1 ≠ "switch_move_mode") (take n args) in
  asked g1_intent g1_next (operations (g1_commands stof read_float) (take n args)) {| continuous := false; hand_down := true |} =
  asked g1_intent g1_next (operations (g1_commands stof read_float) others) {| continuous := false; hand_down := true |} ∧
  asked h1_intent h1_next (operations (h1_commands stof read_float) (take n args)) {| continuous := false; hand_down := true |} =
  asked h1_intent h1_next (operations (h1_commands stof read_float) others) {| continuous := false; hand_down := true |}.
Proof.
  intros E others. destruct (build_args_spec argv args E) as [Ha _].
  assert (Hn : ascending (take n args)).
  { unfold ascending in *. rewrite fmap_take. apply (StronglySorted_app_1_l _ _ (drop n args.*1)). by rewrite take_drop. }
  split.
  - apply (switch_useless g1_intent g1_next g1_moves g1_switches); [..|exact Hn].
    + intros [] m m'; cbn; congruence.
    + intros [] m m'; cbn; congruence.
    + by intros [].
    + unfold g1_commands. each_option.
    + intros v ops Er. vm_compute in Er. repeat case_match; simplify_eq; by repeat constructor.
  - apply (switch_useless h1_intent h1_next h1_moves h1_switches); [..|exact Hn].
    + intros [] m m'; cbn; congruence.
    + intros [] m m'; cbn; congruence.
    + by intros [].
    + unfold h1_commands. each_option.
    + intros v ops Er. vm_compute in Er. repeat case_match; simplify_eq; by repeat constructor.
Qed.

(** ** Examples *)

(** A reader of plain decimal numbers. *)
Fixpoint leading (s : string) : string * string :=
  match s with
  | String c r => if starts_with_digit s then let '(l, rest) := leading r in (String c l, rest) else ("", s)
  | EmptyString => ("", "")
  end.

Definition read_decimal (s : string) : option (float32 * string) :=
  let '(negative, s) := sign (skip_space s) in
  let '(whole, rest) := leading s in
  if String.eqb whole "" then None
  else
    let '(fraction, rest) :=
      match rest with
      | String c r => if Ascii.eqb c "."%char then leading r else ("", rest)
      | EmptyString => ("", rest)
      end in
    let den := 10 ^ Z.of_nat (String.length fraction) in
    let x := lit32 (digits whole 0 * den + digits fraction 0) den in
    Some (if negative then fneg x else x, rest).

Definition to_decimal (s : string) : conversion float32 :=
  match read_decimal s with Some (x, _) => Converted x | None => InvalidArgument end.

Definition example_argv : list string := ["--stand_up"; "--switch_move_mode=true"; "--move=0.3,0,-0.5"; "skipped"; "--stand_up=again"].

Definition example_args : Args :=
  [("move", "0.3,0,-0.5"); ("network_interface", "lo"); ("stand_up", "again"); ("switch_move_mode", "true")].

Lemma example_built : build_args example_argv = Some example_args.
Proof. vm_compute. reflexivity. Qed.

(** The order of the requests is not that of the arguments, and the move lasts one
    second. *)
Lemma loco_cli_refines_witness :
  ∃ c, main (G1.run silent) (g1_query silent 0 fzero) (g1_commands to_decimal read_decimal) example_argv = Some (c, Continue) ∧
       omap g1_decode (log c) = [CVelocity [lit32 3 10; fzero; fneg (lit32 5 10)] (F32.of_Z 1); CFsm 4].
Proof.
  destruct (loco_cli_refines (norm := TreeText.to_tree) silent 0 fzero to_decimal read_decimal example_argv example_args
    example_built) as (_ & _ & (c & st & n & Em & Ed & _ & Hs) & _).
  - replace (asked _ _ _ _) with [CVelocity [lit32 3 10; fzero; fneg (lit32 5 10)] (F32.of_Z 1); CFsm 4] by (vm_compute; reflexivity).
    by repeat first [apply Forall_nil_2 | apply Forall_cons_2 | split].
  - replace (asked _ _ _ _) with [CVelocity [lit32 3 10; fzero; fneg (lit32 5 10)] (F32.of_Z 1); CFsm 2] by (vm_compute; reflexivity).
    by repeat first [apply Forall_nil_2 | apply Forall_cons_2 | split].
  - assert (Est : snd <$> Some (c, st) = Some Continue) by (rewrite <- Em; vm_compute; reflexivity). injection Est as ->. exists c. split; [exact Em|].
    rewrite Ed. destruct Hs as [_ ->]. vm_compute. reflexivity.
Defined.

(** A rejected option ends the program with 1, before the options that follow. *)
Lemma rejected_option_stops :
  (fun r => (omap g1_decode (log r.1), r.2)) <$>
    main (G1.run silent) (g1_query silent 0 fzero) (g1_commands to_decimal read_decimal)
      ["--wave_hand"; "--continous_gait=maybe"; "--balance_stand"] =
  Some ([CBalance 0], Returned1).
Proof. vm_compute. reflexivity. Qed.

Lemma switch_move_mode_useless_witness :
  asked g1_intent g1_next (operations (g1_commands to_decimal read_decimal) example_args) {| continuous := false; hand_down := true |} =
  asked g1_intent g1_next (operations (g1_commands to_decimal read_decimal)
    [("move", "0.3,0,-0.5"); ("network_interface", "lo"); ("stand_up", "again")]) {| continuous := false; hand_down := true |}.
Proof. exact (proj1 (switch_move_mode_useless to_decimal read_decimal example_argv example_args 4 example_built)). Defined.
End LocoCliProps.
