(* ===== verification/G1Audio.v ===== *)
(** * Audio example of the g1.

    Models [src/example/g1/audio/g1_audio_client_example.cpp]: a wave file is
    streamed to the robot in pieces through the audio client ([Clients.Audio]), and
    the sound of the microphone, multicast by the robot, is recorded in a wave file
    ([Wav]).  A datagram is the result of [recvfrom] and the bytes it stored; the
    set-up of the socket and what is printed are left out. *)

From stdpp Require Import strings.
From S2P Require Import Prelude Floats Wav Any Json JsonTypes Clients.
Import ClientProps.

Local Open Scope list_scope.
Local Open Scope Z_scope.

Definition CHUNK_SIZE : nat := Z.to_nat 96000.
Definition WAV_SECOND : Z := 5.
Definition WAV_LEN : Z := 16000 * 2 * WAV_SECOND.

(** ** Recording *)

(** The loop of [thread_mic]: the samples of [len / 2] pairs of bytes are
    appended.  [None] while more datagrams are needed. *)
Fixpoint record_loop (datagrams : list (Z * bytes)) (total_bytes : Z) (pcm_data : list Z) : option (list Z) :=
  if total_bytes <? WAV_LEN then
    match datagrams with
    | [] => None
    | (len, buffer) :: datagrams =>
        if 0 <? len then
          let sample_count := Z.to_nat (len / 2) in
          record_loop datagrams (total_bytes + len) (pcm_data ++ samples_of (take (2 * sample_count) buffer))
        else record_loop datagrams total_bytes pcm_data
    end
  else Some pcm_data.

(** [thread_mic]: the result of [WriteWave] is not looked at. *)
Definition thread_mic (opened written : bool) (datagrams : list (Z * bytes)) : option (option bytes) :=
  pcm_data ← record_loop datagrams 0 [];
  Some (WriteWave opened written 16000 pcm_data (Z.of_nat (length pcm_data)) 1).2.

Section Play.
Context `{Sdk} (reply : list request -> Z * text).

(** ** Playing *)

(** The loop over the pieces; the fuel bounds the number of pieces. *)
Fixpoint play_loop (fuel : nat) (pcm : bytes) (stream_id : string) (offset : nat) (client : Audio.AudioClient) :
    option Audio.AudioClient :=
  match fuel with
  | O => None
  | S fuel =>
      if (offset <? length pcm)%nat then
        let remaining := (length pcm - offset)%nat in
        let current_chunk_size := Nat.min CHUNK_SIZE remaining in
        let chunk := slice offset current_chunk_size pcm in
        let client := (Audio.PlayStream reply "example" stream_id chunk client).2 in
        play_loop fuel pcm stream_id (offset + current_chunk_size) client
      else Some client
  end.

(** The audio part of [main]: [sample_rate] and [num_channels] keep -1 and 0 when
    [ReadWave] does not store them.  [None]: the file makes [ReadWave] fail to
    return. *)
Definition play_file (fuel : nat) (file : option bytes) (stream_id : string) (client : Audio.AudioClient) :
    option Audio.AudioClient :=
  match ReadWave fuel file with
  | Some (Returned w) =>
      if is_ok w && (default (-1) (sampling_rate w) =? 16000) && (default 0 (channelCount w) =? 1) then
        client ← play_loop (S (length (ans w))) (ans w) stream_id 0 client;
        Some (Audio.PlayStop reply stream_id client).2
      else Some client
  | _ => None
  end.

(** The rest of [main]; [junk] is what [volume] holds at first.  [None] also when
    the answer to [GetVolume] makes it throw. *)
Definition main (fuel : nat) (junk : Z) (hello world : string) (file : option bytes) (stream_id : string) :
    option Audio.AudioClient :=
  let '(o, client) := Audio.GetVolume reply junk Audio.new_client in
  match o with
  | Ok _ =>
      let client := (Audio.SetVolume reply 100 client).2 in
      let client := (Audio.TtsMaker reply hello 0 client).2 in
      let client := (Audio.TtsMaker reply world 1 client).2 in
      client ← play_file fuel file stream_id client;
      let client := (Audio.LedControl reply 0 255 0 client).2 in
      let client := (Audio.LedControl reply 0 0 0 client).2 in
      Some (Audio.LedControl reply 0 0 255 client).2
  | _ => None
  end.

(** ** What the service is asked *)

Definition play_request (stream_id : string) (chunk : bytes) : request :=
  {| api := Audio.START_PLAY;
     parameter := ToJsonString (object PlayStreamParameter.t) (PlayStreamParameter.mk "example" stream_id) false;
     binary := chunk |}.

Definition stop_request (app_name : string) : request :=
  {| api := Audio.STOP_PLAY;
     parameter := ToJsonString (object PlayStopParameter.t) (PlayStopParameter.mk app_name) false; binary := [] |}.

(** The pieces of a file. *)
Definition pieces (pcm : bytes) : list bytes := chunks CHUNK_SIZE pcm.
End Play.

(** * Properties *)
Module G1AudioProps.

(** ** Samples and bytes *)

Lemma samples_nil : samples_of [] = [].
Proof. done. Qed.

Lemma samples_cons x y b : samples_of (x :: y :: b) = i16 (le_val [x; y]) :: samples_of b.
Proof.
  unfold samples_of. cbn [length]. replace (Nat.div (S (S (length b))) 2) with (S (Nat.div (length b) 2))
    by (change (S (S (length b))) with (1 * 2 + length b)%nat; by rewrite Nat.div_add_l by lia).
  cbn [seq fmap list_fmap]. f_equal. rewrite <- fmap_S_seq, <- list_fmap_compose. apply list_fmap_ext. intros i k _. cbn.
  by replace (k + S (k + 0))%nat with (S (2 * k)) by lia.
Qed.

(** Two bytes at a time. *)
Lemma pairs_ind (P : bytes -> Prop) :
  P [] -> (∀ x y b, P b -> P (x :: y :: b)) -> ∀ b, Nat.Even (length b) -> P b.
Proof.
  intros H0 H2 b [k Hk]. revert b Hk. induction k as [|k IH]; intros b Hk.
  - destruct b; [done|cbn in Hk; lia].
  - destruct b as [|x [|y b]]; cbn in Hk; [lia|lia|]. apply H2, IH. lia.
Qed.

Lemma samples_app a b : Nat.Even (length a) -> samples_of (a ++ b) = samples_of a ++ samples_of b.
Proof. revert a. apply pairs_ind; [done|]. intros x y a IH. cbn [app]. by rewrite !samples_cons, IH. Qed.

Lemma samples_in b : Nat.Even (length b) -> Forall (in_s 16) (samples_of b).
Proof. revert b. apply pairs_ind; [constructor|]. intros x y b IH. rewrite samples_cons. constructor; [by apply swrap_in|done]. Qed.

Lemma length_samples b : Nat.Even (length b) -> (2 * length (samples_of b) = length b)%nat.
Proof. revert b. apply pairs_ind; [done|]. intros x y b IH. rewrite samples_cons. cbn [length]. lia. Qed.

Lemma sample_bytes b :
  Nat.Even (length b) -> bytes_ok b -> concat ((fun v => le_bytes 2 (u16 v)) <$> samples_of b) = b.
Proof.
  revert b. apply (pairs_ind (fun b => bytes_ok b -> _)); [done|]. intros x y b IH Hb. rewrite samples_cons. cbn [fmap list_fmap concat].
  apply Forall_cons in Hb as [Hx Hb]. apply Forall_cons in Hb as [Hy Hb]. change (list_fmap Z bytes ?f ?l) with (f <$> l). rewrite (IH Hb).
  change (x :: y :: b) with ([x; y] ++ b). f_equal. assert (Hxy : bytes_ok [x; y]) by (constructor; [done|by apply Forall_singleton]).
  rewrite uwrap_of_signed by (lia || by apply (le_val_range [x; y])). by apply (le_bytes_val [x; y]).
Qed.

(** ** Recording *)

(** A datagram as [recvfrom] delivers it, of whole samples. *)
Definition whole_samples (d : Z * bytes) : Prop :=
  0 < d.1 <= 2048 ∧ d.1 = Z.of_nat (length d.2) ∧ Nat.Even (length d.2) ∧ bytes_ok d.2.

Definition received (ds : list (Z * bytes)) : bytes := concat (snd <$> ds).

Lemma received_even ds : Forall whole_samples ds -> Nat.Even (length (received ds)).
Proof.
  induction 1 as [|d ds (_ & _ & He & _) _ IH]; [by exists 0%nat|]. unfold received in *. cbn. rewrite length_app.
  by apply Nat.Even_Even_add.
Qed.

Lemma record_loop_spec ds total pcm :
  Forall whole_samples ds -> total < WAV_LEN -> WAV_LEN <= total + Z.of_nat (length (received ds)) ->
  ∃ k, record_loop ds total pcm = Some (pcm ++ samples_of (received (take k ds))) ∧
    WAV_LEN <= total + Z.of_nat (length (received (take k ds))) < WAV_LEN + 2048.
Proof.
  intros Hf. revert total pcm. induction Hf as [|[len b] ds (Hlen & Hl & He & Hb) Hf IH]; intros total pcm Ht Hs; [cbn in Hs; lia|].
  cbn [fst snd] in Hl, He, Hb, Hlen. cbn [record_loop].
  destruct (Z.ltb_spec total WAV_LEN) as [_|]; [|lia]. destruct (Z.ltb_spec 0 len) as [_|]; [|lia].
  assert (E2 : (2 * Z.to_nat (len / 2))%nat = length b).
  { destruct He as [h Hh]. rewrite Hl, Hh. rewrite Nat2Z.inj_mul, Z.mul_comm, Z.div_mul by lia. lia. }
  rewrite E2, firstn_all. unfold received in Hs. cbn in Hs. rewrite length_app in Hs.
  destruct (Z.lt_ge_cases (total + len) WAV_LEN) as [Hlt|Hge].
  - destruct (IH (total + len) (pcm ++ samples_of b) Hlt) as (k & E & Hk); [unfold received; lia|].
    exists (S k). unfold received in *. cbn [take fmap list_fmap concat snd]. rewrite E, <- app_assoc, samples_app, length_app by done. split; [done|]. lia.
  - exists 1%nat. unfold received. cbn [take fmap list_fmap concat snd]. rewrite app_nil_r.
    split; [|lia]. destruct ds; cbn [record_loop]; (destruct (Z.ltb_spec (total + len) WAV_LEN); [lia|done]).
Qed.

(** ** Playing *)

Lemma chunks_fuel_enough {A} f1 f2 n (l : list A) :
  (0 < n)%nat -> (length l <= f1)%nat -> (length l <= f2)%nat -> chunks_fuel f1 n l = chunks_fuel f2 n l.
Proof.
  intros Hn. revert f2 l. induction f1 as [|f1 IH]; intros f2 [|x l] H1 H2; cbn [length] in *; try lia; [by destruct f2|by destruct f2|].
  destruct f2 as [|f2]; [lia|]. cbn [chunks_fuel]. f_equal. apply IH; rewrite length_drop; cbn [length]; lia.
Qed.

Lemma chunks_step {A} n (l : list A) : (0 < n)%nat -> l ≠ [] -> chunks n l = take n l :: chunks n (drop n l).
Proof.
  intros Hn Hl. unfold chunks. destruct l as [|x l]; [done|]. cbn [length]. cbn [chunks_fuel]. f_equal.
  apply chunks_fuel_enough; [done|rewrite length_drop; cbn [length]; lia|done].
Qed.

Lemma chunk_size_pos : (0 < CHUNK_SIZE)%nat.
Proof. unfold CHUNK_SIZE. lia. Qed.

#[local] Opaque CHUNK_SIZE.

Section Requests.
Context `{Sdk} (reply : list request -> Z * text).

Lemma play_stream_log sid chunk c :
  Audio.requests (Audio.PlayStream reply "example" sid chunk c).2 = Audio.requests c ++ [play_request sid chunk].
Proof. unfold Audio.PlayStream, Call. by destruct (reply _). Qed.

Lemma play_stop_log app c : Audio.requests (Audio.PlayStop reply app c).2 = Audio.requests c ++ [stop_request app].
Proof. unfold Audio.PlayStop, send, Call. by destruct (reply _). Qed.

Lemma play_loop_spec fuel pcm sid offset c :
  (offset <= length pcm)%nat -> (length pcm - offset < fuel)%nat ->
  ∃ c', play_loop reply fuel pcm sid offset c = Some c' ∧
        Audio.requests c' = Audio.requests c ++ map (play_request sid) (pieces (drop offset pcm)).
Proof.
  pose proof chunk_size_pos as Hc. revert offset c. induction fuel as [|fuel IH]; intros offset c Ho Hf; [lia|]. cbn [play_loop].
  destruct (Nat.ltb_spec offset (length pcm)) as [L|L].
  - set (size := Nat.min CHUNK_SIZE (length pcm - offset)). assert (Hs : (0 < size)%nat ∧ (offset + size <= length pcm)%nat) by lia.
    destruct (IH (offset + size)%nat (Audio.PlayStream reply "example" sid (slice offset size pcm) c).2) as (c' & E & Hr); [lia|lia|].
    exists c'. split; [exact E|]. rewrite Hr, play_stream_log, <- app_assoc. f_equal. unfold pieces.
    rewrite (chunks_step CHUNK_SIZE (drop offset pcm)); [|done|intros E0; apply (f_equal length) in E0; rewrite length_drop in E0; cbn in E0; lia].
    cbn [map app]. f_equal; [f_equal; unfold slice|].
    + subst size. destruct (Nat.min_spec CHUNK_SIZE (length pcm - offset)) as [[_ ->]|[Hle ->]]; [done|].
      rewrite !take_ge; [done|rewrite length_drop; lia|rewrite length_drop; lia].
    + f_equal. rewrite drop_drop. subst size. destruct (Nat.min_spec CHUNK_SIZE (length pcm - offset)) as [[_ ->]|[Hle ->]]; [done|].
      rewrite !drop_ge; [done|lia|lia].
  - exists c. split; [done|]. rewrite drop_ge by lia. cbn. by rewrite app_nil_r.
Qed.

Lemma play_file_spec fuel file sid c w :
  ReadWave fuel file = Some (Returned w) ->
  is_ok w = true -> sampling_rate w = Some 16000 -> channelCount w = Some 1 ->
  ∃ c', play_file reply fuel file sid c = Some c' ∧
        Audio.requests c' = Audio.requests c ++ map (play_request sid) (pieces (ans w)) ++ [stop_request sid].
Proof.
  intros E Hok Hr Hc. unfold play_file. rewrite E, Hok, Hr, Hc. cbn [andb default Z.eqb Pos.eqb].
  destruct (play_loop_spec (S (length (ans w))) (ans w) sid 0 c) as (c' & E' & Hq); [lia|lia|]. rewrite E'. cbn [mbind option_bind].
  eexists. split; [reflexivity|]. rewrite play_stop_log, Hq, drop_0. by rewrite <- app_assoc.
Qed.

Lemma thread_mic_file ds b :
  record_loop ds 0 [] = Some (samples_of b) -> Nat.Even (length b) -> bytes_ok b ->
  thread_mic true true ds = Some (Some (header_bytes (wave_header 16000 (Z.of_nat (length (samples_of b))) 1) ++ b)).
Proof.
  intros E He Hb. unfold thread_mic. rewrite E. cbn [mbind option_bind]. unfold WriteWave. cbn [negb snd].
  by rewrite take_ge, (sample_bytes b He Hb) by lia.
Qed.

Lemma read_recorded fuel b :
  Nat.Even (length b) -> bytes_ok b -> Z.of_nat (length b) < 2 ^ 20 ->
  ReadWave fuel (Some (header_bytes (wave_header 16000 (Z.of_nat (length (samples_of b))) 1) ++ b)) =
  Some (Returned {| is_ok := true; ans := b; sampling_rate := Some 16000; channelCount := Some 1 |}).
Proof.
  intros He Hb Hl. pose proof (length_samples b He) as Hn.
  pose proof (WavProps.read_written fuel 16000 (Z.of_nat (length (samples_of b))) 1 (samples_of b)) as Hread.
  rewrite (sample_bytes b He Hb) in Hread. apply Hread; [split; lia|lia|lia|lia|lia|split; lia|by apply samples_in].
Qed.

(** C21. From the microphone to the loudspeaker.  Given enough datagrams of whole
    samples, the recording ends with the first of them that completes five seconds,
    and [record.wav] is a file that [ReadWave] accepts and whose samples are
    exactly the received bytes, in order.  Playing that file with the other half of
    the program sends exactly those bytes, in order, in non-empty pieces of at most
    96000, all but the last of that size, and then one stop request. *)
Theorem recording_plays_back ds :
  Forall whole_samples ds -> WAV_LEN <= Z.of_nat (length (received ds)) ->
  ∃ k file, thread_mic true true ds = Some (Some file) ∧
    WAV_LEN <= Z.of_nat (length (received (take k ds))) < WAV_LEN + 2048 ∧
    ∀ fuel sid c, ∃ c', play_file reply fuel (Some file) sid c = Some c' ∧
      Audio.requests c' = Audio.requests c ++ map (play_request sid) (pieces (received (take k ds))) ++ [stop_request sid] ∧
      concat (pieces (received (take k ds))) = received (take k ds) ∧
      Forall (fun p => (1 <= length p <= CHUNK_SIZE)%nat) (pieces (received (take k ds))) ∧
      Forall (fun p => length p = CHUNK_SIZE) (removelast (pieces (received (take k ds)))).
Proof.
  intros Hf Hl. destruct (record_loop_spec ds 0 [] Hf) as (k & E & Hk); [done|lia|]. rewrite Z.add_0_l in Hk. cbn [app] in E.
  set (b := received (take k ds)) in *. assert (Hkf : Forall whole_samples (take k ds)) by by apply Forall_take.
  assert (He : Nat.Even (length b)) by by apply received_even.
  assert (Hb : bytes_ok b).
  { unfold b, received, bytes_ok. apply Forall_concat, Forall_fmap. eapply Forall_impl; [exact Hkf|]. by intros d (_ & _ & _ & ?). }
  exists k. eexists. split; [by apply (thread_mic_file ds b)|]. split; [exact Hk|]. intros fuel sid c.
  assert (Hlb : Z.of_nat (length b) < 2 ^ 20) by (unfold WAV_LEN, WAV_SECOND in Hk; lia).
  destruct (play_file_spec fuel _ sid c _ (read_recorded fuel b He Hb Hlb)) as (c' & Ep & Hq); [done..|].
  exists c'. split; [exact Ep|]. split; [exact Hq|].
  split; [apply chunks_concat, chunk_size_pos|]. split; [|apply chunks_fuel_full].
  apply Forall_and. split; [apply chunks_fuel_nonempty, chunk_size_pos|apply chunks_fuel_length].
Qed.
End Requests.

(** Eighty-five silent datagrams of 2000 bytes: eighty are enough. *)
Definition silence : Z * bytes := (2000, replicate 2000 0).

Lemma silence_whole n : Forall whole_samples (replicate n silence).
Proof.
  apply Forall_replicate. split; [cbn [fst silence]; lia|]. unfold silence. cbn [fst snd]. rewrite length_replicate.
  split; [done|]. split; [by exists 1000%nat|]. by apply Forall_replicate.
Qed.

Lemma length_silence n : length (received (replicate n silence)) = (n * 2000)%nat.
Proof.
  induction n as [|n IH]; [done|]. unfold received in *. cbn [replicate fmap list_fmap concat]. rewrite length_app.
  change (list_fmap _ _ snd ?l) with (snd <$> l). rewrite IH. unfold silence. cbn [snd]. rewrite length_replicate. lia.
Qed.

Lemma recording_plays_back_witness :
  ∃ file c', thread_mic true true (replicate 85 silence) = Some (Some file) ∧
    play_file silent 0 (Some file) "1" Audio.new_client = Some c' ∧ last (Audio.requests c') = Some (stop_request "1").
Proof.
  destruct (recording_plays_back silent (replicate 85 silence)) as (k & file & Ef & _ & Hp).
  - apply silence_whole.
  - rewrite length_silence. unfold WAV_LEN, WAV_SECOND. lia.
  - destruct (Hp 0%nat "1" Audio.new_client) as (c' & Ep & Hr & _). exists file, c'. split; [exact Ef|]. split; [exact Ep|].
    rewrite Hr, app_assoc. apply last_snoc.
Defined.

(** A datagram of an odd number of bytes counts in full towards [WAV_LEN], but its
    last byte is dropped. *)
Example odd_datagram_loses_a_byte ds : record_loop ((3, [1; 0; 2]) :: ds) 0 [] = record_loop ds 3 [1].
Proof. reflexivity. Qed.

(** As long as [recvfrom] fails, the loop makes no progress: the thread cannot end. *)
Lemma failing_socket_never_ends n total pcm : total < WAV_LEN -> record_loop (replicate n (-1, [])) total pcm = None.
Proof.
  intros Ht. induction n as [|n IH]; cbn [replicate record_loop]; (destruct (Z.ltb_spec total WAV_LEN); [|lia]); [done|exact IH].
Qed.
End G1AudioProps.
