(* ===== verification/SportMenu.v ===== *)
(** * Test programs of the sport client.

    Models [src/example/go2w/go2w_sport_client.cpp] and
    [src/example/b2w/b2w_sport_client.cpp], the same program with two tables: it
    reads a line, which may select another test by name or number, and sends the
    request of the selected test; and [src/example/go2/go2_sport_client.cpp], whose
    periodic thread sends the request of a test chosen when the program is compiled.
    The bodies of the sport client are not in the repository: its answer to a
    request, after the requests before it, is a parameter. *)

From stdpp Require Import strings.
From S2P Require Import Prelude Text Floats.

Local Open Scope list_scope.
Local Open Scope Z_scope.

(** The methods of the sport clients that these programs call. *)
Inductive sport_request :=
| Damp | StandUp | StandDown | Move (vx vy vyaw : float32) | StopMove | SpeedLevel (level : Z) | SwitchGait (d : Z)
| RecoveryStand | BalanceStand | Sit | RiseSit.

(** ** The menu *)

Record TestOption := { name : string; id : Z }.

Abbreviation entry n i := {| name := n; id := i |}.

Definition go2w_option_list : list TestOption :=
  [entry "damp" 0; entry "stand_up" 1; entry "stand_down" 2; entry "move" 3; entry "stop_move" 4;
   entry "speed_level" 5; entry "switch_gait" 6; entry "get_state" 7; entry "recovery" 8; entry "balance" 9].

Definition b2w_option_list : list TestOption :=
  [entry "damp" 0; entry "stand_up" 1; entry "stand_down" 2; entry "move forward" 3; entry "move lateral" 4;
   entry "move rotate" 5; entry "stop_move" 6; entry "switch_gait" 7; entry "switch_gait" 8; entry "recovery" 9].

Definition ConvertToInt (str : string) : Z :=
  match stoi str with Converted z => z | InvalidArgument => -1 | OutOfRange => -1 end.

(** What is printed. *)
Inductive line :=
| Listed (o : TestOption)
| Test (o : TestOption)
| RequestError (name : string) (code count : Z)
| RequestSuccessed (name : string) (code : Z).

(** The second loop of [terminalHandle]: it does not stop at the first match. *)
Fixpoint select (option_list : list TestOption) (input : string) (test_option : TestOption) : TestOption * list line :=
  match option_list with
  | [] => (test_option, [])
  | option :: option_list =>
      if String.eqb input (name option) || (ConvertToInt input =? id option) then
        let '(test_option, out) := select option_list input {| name := name option; id := id option |} in
        (test_option, Test option :: out)
      else select option_list input test_option
  end.

Definition terminalHandle (option_list : list TestOption) (input : string) (test_option : TestOption) :
    TestOption * list line :=
  let listed := if String.eqb input "list" then Listed <$> option_list else [] in
  let '(test_option, out) := select option_list input test_option in
  (test_option, listed ++ out).

(** ** The request of a test *)

Definition go2w_request (id : Z) : option sport_request :=
  if id =? 0 then Some Damp
  else if id =? 1 then Some StandUp
  else if id =? 2 then Some StandDown
  else if id =? 3 then Some (Move (lit32 5 10) fzero fzero)
  else if id =? 4 then Some StopMove
  else if id =? 5 then Some (SpeedLevel 1)
  else if id =? 6 then None
  else if id =? 7 then None
  else if id =? 8 then Some RecoveryStand
  else if id =? 9 then Some BalanceStand
  else None.

Definition b2w_request (id : Z) : option sport_request :=
  if id =? 0 then Some Damp
  else if id =? 1 then Some StandUp
  else if id =? 2 then Some StandDown
  else if id =? 3 then Some (Move (lit32 3 10) fzero fzero)
  else if id =? 4 then Some (Move fzero (lit32 3 10) fzero)
  else if id =? 5 then Some (Move fzero fzero (lit32 5 10))
  else if id =? 6 then Some StopMove
  else if id =? 7 then Some (SwitchGait 0)
  else if id =? 8 then Some (SwitchGait 1)
  else if id =? 9 then Some RecoveryStand
  else None.

(** ** The loop *)

Record program := { option_list : list TestOption; request_of : Z -> option sport_request }.

Definition go2w : program := {| option_list := go2w_option_list; request_of := go2w_request |}.
Definition b2w : program := {| option_list := b2w_option_list; request_of := b2w_request |}.

(** [test_option] and [res_count] of [main], the requests sent and the lines
    printed. *)
Record menu := { test_option : TestOption; res_count : Z; sent : list sport_request; printed : list line }.

Definition menu_init : menu := {| test_option := entry "" 1; res_count := 0; sent := []; printed := [] |}.

Section Loop.
Context (p : program) (answer : list sport_request -> Z).

(** The request of the test, if it has one: [res] and the requests sent. *)
Definition perform (id : Z) (sent : list sport_request) : Z * list sport_request :=
  match request_of p id with
  | Some r => let sent := sent ++ [r] in (answer sent, sent)
  | None => (1, sent)
  end.

(** One round of the loop on the line read.  [None]: [option_list] is read out of
    its range. *)
Definition menu_step (input : string) (s : menu) : option menu :=
  let '(test_option, out) := terminalHandle (option_list p) input (test_option s) in
  let '(res, sent) := perform (id test_option) (sent s) in
  option ← (if id test_option <? 0 then None else option_list p !! Z.to_nat (id test_option));
  Some (if res <? 0 then
          {| test_option := test_option; res_count := res_count s + 1; sent := sent;
             printed := printed s ++ out ++ [RequestError (name option) res (res_count s + 1)] |}
        else
          {| test_option := test_option; res_count := 0; sent := sent;
             printed := printed s ++ out ++ [RequestSuccessed (name option) res] |}).

(** [rounds] rounds; [std::getline] gives an empty string when the input has
    ended. *)
Fixpoint menu_run (rounds : nat) (input : list string) (s : menu) : option menu :=
  match rounds with
  | O => Some s
  | S rounds => s ← menu_step (default EmptyString (head input)) s; menu_run rounds (tail input) s
  end.
End Loop.

(** ** The periodic test of the go2 *)

Inductive test_mode :=
| normal_stand | balance_stand | velocity_move | stand_down | stand_up | damp | recovery_stand | sit | rise_sit | stop_move
| other (value : Z).

(** [Custom]: the members [RobotControl] changes. *)
Record Custom := { ct : float64; flag : Z; calls : list sport_request }.

Definition Custom_init : Custom := {| ct := fzero; flag := 0; calls := [] |}.

Definition dt : float32 := lit32 5 1000.

Definition RobotControl (TEST_MODE : test_mode) (s : Custom) : Custom :=
  let s := {| ct := F64.add (ct s) (F64.of_f32 dt); flag := flag s; calls := calls s |} in
  let call r := {| ct := ct s; flag := flag s; calls := calls s ++ [r] |} in
  let once r := if flag s =? 0 then {| ct := ct s; flag := 1; calls := calls s ++ [r] |} else s in
  match TEST_MODE with
  | normal_stand => call StandUp
  | balance_stand => call BalanceStand
  | velocity_move => call (Move (lit32 3 10) fzero (lit32 3 10))
  | stand_down => call StandDown
  | stand_up => call StandUp
  | damp => call Damp
  | recovery_stand => call RecoveryStand
  | sit => once Sit
  | rise_sit => once RiseSit
  | stop_move => call StopMove
  | other _ => call StopMove
  end.

(** * Specification *)

(** [f] of every non-empty beginning of a list. *)
Definition histories {A B} (f : list A -> B) (l : list A) : list B := (fun k => f (take (S k) l)) <$> seq 0 (length l).

(** The test a line selects: the one of a number that has a test, or the last one of
    a name. *)
Definition chosen (p : program) (input : string) : option Z :=
  match stoi input with
  | Converted z => if decide (0 <= z < Z.of_nat (length (option_list p))) then Some z else None
  | _ => id <$> last (filter (fun o => input = name o) (option_list p))
  end.

(** The selected test after some lines is the one of the last line that selects
    one; before that, the second. *)
Definition test_after (p : program) (lines : list string) : Z := default 1 (last (omap (chosen p) lines)).

Definition tests (p : program) : list string -> list Z := histories (test_after p).

Definition requests (p : program) (lines : list string) : list sport_request := omap (request_of p) (tests p lines).

Definition result_after (p : program) (answer : list sport_request -> Z) (lines : list string) : Z :=
  match request_of p (test_after p lines) with Some _ => answer (requests p lines) | None => 1 end.

Definition results (p : program) (answer : list sport_request -> Z) : list string -> list Z :=
  histories (result_after p answer).

Definition name_of (p : program) (i : Z) : string := default EmptyString (name <$> option_list p !! Z.to_nat i).

(** The reports of the requests among the printed lines. *)
Definition report (l : line) : option (string * Z) :=
  match l with RequestError n c _ => Some (n, c) | RequestSuccessed n c => Some (n, c) | _ => None end.

(** The last [n] results are errors, and no more. *)
Definition failing_since (n : nat) (rs : list Z) : Prop :=
  ∃ before bad, rs = before ++ bad ∧ length bad = n ∧ Forall (fun r => r < 0) bad ∧ ∀ r, last before = Some r -> 0 <= r.

(** The lines the program reads in [rounds] rounds. *)
Definition padded (rounds : nat) (input : list string) : list string := take rounds (input ++ replicate rounds EmptyString).

(** * Properties *)
Module SportMenuProps.

(** What the two tables have in common: an entry is found at the index its number
    says, and no name reads as a number. *)
Class Table (p : program) : Prop := {
  table_index : ∀ i o, option_list p !! i = Some o -> id o = Z.of_nat i;
  table_names : Forall (fun o => stoi (name o) = InvalidArgument) (option_list p);
  table_nonempty : Forall (fun o => name o ≠ EmptyString) (option_list p);
  table_first : (1 < length (option_list p))%nat
}.

Ltac table :=
  split;
  [intros i o; do 10 (destruct i as [|i]; [by intros [= <-]|]); done
  |by repeat (apply Forall_cons; split; [vm_compute; reflexivity|])
  |by repeat (apply Forall_cons; split; [done|])
  |cbn; lia].

#[global] Instance go2w_table : Table go2w.
Proof. table. Qed.

#[global] Instance b2w_table : Table b2w.
Proof. table. Qed.

Lemma histories_snoc {A B} (f : list A -> B) l x : histories f (l ++ [x]) = histories f l ++ [f (l ++ [x])].
Proof.
  unfold histories. rewrite length_app. cbn [length]. rewrite Nat.add_1_r, seq_S, fmap_app. cbn [fmap list_fmap]. f_equal.
  - apply list_fmap_ext. intros i k Hk. apply lookup_seq in Hk as [-> Hk]. by rewrite take_app_le by lia.
  - f_equal. by rewrite take_ge by (rewrite length_app; cbn; lia).
Qed.

Definition matches (input : string) (o : TestOption) : bool := String.eqb input (name o) || (ConvertToInt input =? id o).

Lemma select_last l input t : (select l input t).1 = default t (last (filter (fun o => matches input o = true) l)).
Proof.
  revert t. induction l as [|o l IH]; intros t; [done|]. cbn [select]. fold (matches input o).
  destruct (matches input o) eqn:E.
  - rewrite filter_cons_True by done. destruct (select _ _ _) as [t' out] eqn:Es. cbn [fst].
    specialize (IH {| name := name o; id := id o |}). rewrite Es in IH. cbn [fst] in IH. rewrite IH.
    rewrite last_cons. by destruct (last _), o.
  - rewrite filter_cons_False by congruence. apply IH.
Qed.

Lemma select_reports l input t : omap report (select l input t).2 = [].
Proof.
  revert t. induction l as [|o l IH]; intros t; [done|]. cbn [select]. destruct (_ || _); [|apply IH].
  specialize (IH {| name := name o; id := id o |}). by destruct (select _ _ _).
Qed.

Lemma listed_reports l : omap report (Listed <$> l) = [].
Proof. by induction l. Qed.

Section Menu.
Context (p : program) `{!Table p}.

Lemma converted_matches input z o :
  stoi input = Converted z -> o ∈ option_list p -> matches input o = true <-> id o = z.
Proof.
  intros E Ho. unfold matches, ConvertToInt. rewrite E, orb_true_iff, Z.eqb_eq, String.eqb_eq.
  split; [|by right]. intros [->|]; [|done]. pose proof table_names as Hn. rewrite Forall_forall in Hn. by rewrite (Hn o Ho) in E.
Qed.

Lemma unconverted_matches input o :
  ConvertToInt input = -1 -> o ∈ option_list p -> matches input o = true <-> input = name o.
Proof.
  intros E Ho. unfold matches. rewrite E, orb_true_iff, Z.eqb_eq, String.eqb_eq. split; [|by left]. intros [|Hi]; [done|].
  apply list_elem_of_lookup_1 in Ho as [i Hl]. apply table_index in Hl. lia.
Qed.

Lemma last_elem {A} (l : list A) x : last l = Some x -> x ∈ l.
Proof. intros E. apply last_Some in E as [l' ->]. set_solver. Qed.

Lemma filter_match_ext (P Q : TestOption -> Prop) `{∀ o, Decision (P o), ∀ o, Decision (Q o)} (l : list TestOption) :
  (∀ o, o ∈ l -> P o <-> Q o) -> filter P l = filter Q l.
Proof.
  induction l as [|o l IH]; intros Hl; [done|]. rewrite !filter_cons, IH by set_solver.
  destruct (decide (P o)), (decide (Q o)); (done || (exfalso; specialize (Hl o); set_solver)).
Qed.

(** The selected entry is in the table, and is the one of [chosen]. *)
Lemma terminalHandle_chosen input t :
  id (terminalHandle (option_list p) input t).1 = default (id t) (chosen p input) ∧
  omap report (terminalHandle (option_list p) input t).2 = [].
Proof.
  unfold terminalHandle. pose proof (select_last (option_list p) input t) as Hs. pose proof (select_reports (option_list p) input t) as Hr.
  destruct (select _ _ _) as [t' out]. cbn [fst snd] in *. split.
  - subst t'. unfold chosen. destruct (stoi input) as [z| |] eqn:E.
    + rewrite (filter_match_ext _ (fun o => id o = z)) by (intros o Ho; by apply converted_matches).
      destruct (last _) as [o|] eqn:El.
      * apply last_elem, list_elem_of_filter in El as [Hz Ho]. apply list_elem_of_lookup_1 in Ho as [i Hl].
        pose proof (table_index i o Hl). apply lookup_lt_Some in Hl. rewrite decide_True by lia. done.
      * destruct (decide _) as [Hz|]; [|done]. exfalso.
        destruct (lookup_lt_is_Some_2 (option_list p) (Z.to_nat z)) as [o Hl]; [lia|]. apply last_None in El.
        assert (Hin : o ∈ filter (fun o => id o = z) (option_list p)).
        { apply list_elem_of_filter. split; [rewrite (table_index _ _ Hl); lia|by eapply list_elem_of_lookup_2]. }
        rewrite El in Hin. by apply not_elem_of_nil in Hin.
    + rewrite (filter_match_ext _ (fun o => input = name o)) by
        (intros o Ho; apply unconverted_matches; [unfold ConvertToInt; by rewrite E|done]). by destruct (last _).
    + rewrite (filter_match_ext _ (fun o => input = name o)) by
        (intros o Ho; apply unconverted_matches; [unfold ConvertToInt; by rewrite E|done]). by destruct (last _).
  - rewrite omap_app, Hr, app_nil_r. destruct (String.eqb input "list"); [apply listed_reports|done].
Qed.

Lemma chosen_range input z : chosen p input = Some z -> 0 <= z < Z.of_nat (length (option_list p)).
Proof.
  assert (Hn : id <$> last (filter (fun o => input = name o) (option_list p)) = Some z -> 0 <= z < Z.of_nat (length (option_list p))).
  { destruct (last _) as [o|] eqn:El; [|done]. intros [= <-]. apply last_elem, list_elem_of_filter in El as [_ Ho].
    apply list_elem_of_lookup_1 in Ho as [i Hl]. rewrite (table_index _ _ Hl). apply lookup_lt_Some in Hl. lia. }
  unfold chosen. destruct (stoi input) as [z'| |]; [|exact Hn|exact Hn]. case_decide; [|done]. by intros [= <-].
Qed.

Lemma test_after_range lines : 0 <= test_after p lines < Z.of_nat (length (option_list p)).
Proof.
  unfold test_after. pose proof table_first. destruct (last _) as [z|] eqn:E; cbn [default]; [|lia].
  apply last_elem, list_elem_of_omap in E as (l & _ & E). by apply (chosen_range l).
Qed.

Lemma test_after_snoc lines l : test_after p (lines ++ [l]) = default (test_after p lines) (chosen p l).
Proof.
  unfold test_after. rewrite omap_app. cbn [omap list_omap]. destruct (chosen p l); [by rewrite last_snoc|by rewrite app_nil_r].
Qed.

Lemma requests_snoc lines l :
  requests p (lines ++ [l]) = requests p lines ++ from_option (fun r => [r]) [] (request_of p (test_after p (lines ++ [l]))).
Proof.
  unfold requests, tests. by rewrite histories_snoc, omap_app.
Qed.

Context (answer : list sport_request -> Z).

(** The rounds, the last one outermost. *)
Definition rounds_of (lines : list string) (s : menu) : option menu :=
  foldl (fun o l => s ← o; menu_step p answer l s) (Some s) lines.

Lemma menu_run_rounds n input s : menu_run p answer n input s = rounds_of (padded n input) s.
Proof.
  unfold rounds_of. revert input s. induction n as [|n IH]; intros input s; [done|].
  assert (Ep : padded (S n) input = default EmptyString (head input) :: padded n (tail input)).
  { unfold padded. destruct input as [|l input]; cbn [head tail default app take]; [done|].
    f_equal. rewrite !take_app. f_equal. rewrite !take_replicate. f_equal. lia. }
  rewrite Ep. cbn [menu_run foldl mbind option_bind].
  destruct (menu_step _ _ _ _) as [s'|]; [apply IH|].
  clear Ep. induction (padded n (tail input)) as [|x l IHl]; [done|exact IHl].
Qed.

(** What holds of the state after some lines. *)
Record follows (lines : list string) (s : menu) : Prop := {
  follows_test : id (test_option s) = test_after p lines;
  follows_sent : sent s = requests p lines;
  follows_count : ∃ n, res_count s = Z.of_nat n ∧ failing_since n (results p answer lines);
  follows_reports : omap report (printed s) = zip (name_of p <$> tests p lines) (results p answer lines)
}.

Lemma failing_step n rs r :
  failing_since n rs -> failing_since (if r <? 0 then S n else 0) (rs ++ [r]).
Proof.
  intros (before & bad & -> & Hn & Hb & Hl). destruct (Z.ltb_spec r 0) as [Hr|Hr].
  - exists before, (bad ++ [r]). rewrite app_assoc, length_app, Hn. cbn [length]. split_and!; [done|lia| |done].
    apply Forall_app. split; [done|by apply Forall_singleton].
  - exists ((before ++ bad) ++ [r]), []. rewrite app_nil_r. split_and!; [done|done|constructor|].
    intros r'. rewrite last_snoc. by intros [= <-].
Qed.

Lemma menu_step_follows lines l s :
  follows lines s -> ∃ s', menu_step p answer l s = Some s' ∧ follows (lines ++ [l]) s'.
Proof.
  intros [Ht Hs (n & Hn & Hf) Hr]. unfold menu_step. destruct (terminalHandle_chosen l (test_option s)) as [Ei Eo].
  destruct (terminalHandle _ _ _) as [t out]. cbn [fst snd] in *. rewrite Ht, <- test_after_snoc in Ei.
  pose proof (test_after_range (lines ++ [l])) as Hrange. rewrite Ei.
  destruct (lookup_lt_is_Some_2 (option_list p) (Z.to_nat (test_after p (lines ++ [l])))) as [o Ho]; [lia|].
  assert (Ename : name_of p (test_after p (lines ++ [l])) = name o) by (unfold name_of; by rewrite Ho).
  destruct (Z.ltb_spec (test_after p (lines ++ [l])) 0) as [|_]; [lia|]. rewrite Ho.
  assert (Eres : perform p answer (test_after p (lines ++ [l])) (sent s) =
                 (result_after p answer (lines ++ [l]), requests p (lines ++ [l]))).
  { unfold perform, result_after. rewrite requests_snoc, Hs. destruct (request_of _ _); cbn; [done|by rewrite app_nil_r]. }
  rewrite Eres. set (res := result_after p answer (lines ++ [l])). cbn [mbind option_bind].
  eexists. split; [reflexivity|].
  assert (Hz : ∀ c, omap report (printed s ++ out ++ [c]) = omap report (printed s) ++ omap report [c])
    by (intros c; by rewrite !omap_app, Eo).
  assert (Hlen : length (name_of p <$> tests p lines) = length (results p answer lines))
    by (unfold tests, results, histories; by rewrite !length_fmap).
  pose proof (failing_step n _ res Hf) as Hf'.
  assert (Ezip : zip (name_of p <$> tests p (lines ++ [l])) (results p answer (lines ++ [l])) =
                 zip (name_of p <$> tests p lines) (results p answer lines) ++ [(name o, res)]).
  { unfold tests, results in *. rewrite !histories_snoc, fmap_app, zip_with_app by done. cbn. by rewrite Ename. }
  assert (Er : results p answer (lines ++ [l]) = results p answer lines ++ [res]) by apply histories_snoc.
  split; [by destruct (res <? 0)|by destruct (res <? 0)| |].
  - exists (if res <? 0 then S n else 0%nat). split; [|by rewrite Er]. destruct (res <? 0); cbn [res_count]; lia.
  - rewrite Ezip, <- Hr. destruct (res <? 0); cbn [printed]; by rewrite Hz.
Qed.

Lemma rounds_follow lines : ∃ s, rounds_of lines menu_init = Some s ∧ follows lines s.
Proof.
  induction lines as [|l lines (s & E & Hs)] using rev_ind.
  - exists menu_init. split; [done|]. split; [done|done| |done]. exists 0%nat. split; [done|]. by exists [], [].
  - unfold rounds_of in *. rewrite foldl_snoc, E. cbn [mbind option_bind]. by apply menu_step_follows.
Qed.

Lemma tests_after_end n input :
  (length input <= n)%nat -> tests p (padded n input) = tests p input ++ replicate (n - length input) (test_after p input).
Proof.
  intros Hn. unfold padded. rewrite take_app_ge, take_replicate by done.
  replace (Nat.min (n - length input) n) with (n - length input)%nat by lia.
  assert (Hc : chosen p EmptyString = None).
  { unfold chosen. replace (stoi EmptyString) with (@InvalidArgument Z) by reflexivity.
    destruct (last _) as [o|] eqn:El; [|done]. exfalso. apply last_elem, list_elem_of_filter in El as [Ho Hin].
    pose proof table_nonempty as Hne. rewrite Forall_forall in Hne. by apply (Hne o Hin). }
  generalize (n - length input)%nat as k. induction k as [|k IH]; [by rewrite !app_nil_r|].
  rewrite !replicate_S_end, !app_assoc, <- IH. unfold tests. rewrite histories_snoc. f_equal. f_equal.
  rewrite test_after_snoc, Hc. cbn [default]. clear IH. induction k as [|k IH]; [by rewrite app_nil_r|].
  by rewrite replicate_S_end, app_assoc, test_after_snoc, Hc.
Qed.

(** C22. The menu programs.  Whatever is typed, for as long as they run, and whatever
    the robot answers, the programs of the two robots never read their table out of
    range.  In every round they send the request of the test that the last
    recognised line selected (by its name, or by a number from 0 to 9; the second
    test before any), and report the name of that test with the answer; the error
    count is the number of last requests in a row that failed.  Once the input has
    ended, the same request is repeated for ever. *)
Theorem sport_menu_refines n input :
  ∃ s, menu_run p answer n input menu_init = Some s ∧
    id (test_option s) = test_after p (padded n input) ∧
    sent s = omap (request_of p) (tests p (padded n input)) ∧
    omap report (printed s) = zip (name_of p <$> tests p (padded n input)) (results p answer (padded n input)) ∧
    (∃ k, res_count s = Z.of_nat k ∧ failing_since k (results p answer (padded n input))) ∧
    ((length input <= n)%nat -> tests p (padded n input) = tests p input ++ replicate (n - length input) (test_after p input)).
Proof.
  rewrite menu_run_rounds. destruct (rounds_follow (padded n input)) as (s & E & [H1 H2 H3 H4]).
  exists s. split_and!; [done..|]. apply tests_after_end.
Qed.
End Menu.

(** On the robots with the two tables: a misspelt first line makes them stand up, a
    line of text after a number is read as the number, the first of two tests with
    the same name cannot be reached by it, and the end of the input repeats the
    last request; a robot that refuses everything. *)
Lemma sport_menu_refines_witness :
  (∃ s, menu_run go2w (fun _ => 0) 5 ["lst"; "3x"; "get_state"; "99"] menu_init = Some s ∧
        sent s = [StandUp; Move (lit32 5 10) fzero fzero]) ∧
  (∃ s, menu_run b2w (fun _ => -1) 3 ["switch_gait"] menu_init = Some s ∧
        sent s = [SwitchGait 1; SwitchGait 1; SwitchGait 1] ∧ res_count s = 3).
Proof.
  split.
  - destruct (sport_menu_refines go2w (fun _ => 0) 5 ["lst"; "3x"; "get_state"; "99"]) as (s & E & _ & Hs & _).
    exists s. split; [exact E|]. rewrite Hs. vm_compute. reflexivity.
  - destruct (sport_menu_refines b2w (fun _ => -1) 3 ["switch_gait"]) as (s & E & _ & Hs & _).
    exists s. split; [exact E|]. split; [rewrite Hs; vm_compute; reflexivity|].
    assert (Ec : res_count <$> Some s = Some 3) by (rewrite <- E; vm_compute; reflexivity). by injection Ec.
Defined.

(** ** The periodic test *)

(** [n] periods of the thread. *)
Fixpoint periods (mode : test_mode) (n : nat) : Custom :=
  match n with O => Custom_init | S n => RobotControl mode (periods mode n) end.

Lemma repeated_requests mode r n :
  (∀ s, calls (RobotControl mode s) = calls s ++ [r]) -> calls (periods mode n) = replicate n r.
Proof. intros Hr. induction n as [|n IH]; [done|]. cbn [periods]. by rewrite Hr, IH, replicate_S_end. Qed.

Lemma single_request mode r n :
  (∀ s, calls (RobotControl mode s) = (if flag s =? 0 then calls s ++ [r] else calls s) ∧
        flag (RobotControl mode s) = if flag s =? 0 then 1 else flag s) ->
  calls (periods mode n) = take 1 (replicate n r) ∧ flag (periods mode n) = if decide (n = 0%nat) then 0 else 1.
Proof.
  intros Hr. induction n as [|n [IH1 IH2]]; [done|]. cbn [periods]. destruct (Hr (periods mode n)) as [-> ->].
  rewrite IH1, IH2. by destruct n.
Qed.

(** The special motions are asked for once, all others in every period, that is two
    hundred times a second. *)
Lemma periodic_requests mode n :
  match mode with
  | sit => calls (periods mode n) = take 1 (replicate n Sit)
  | rise_sit => calls (periods mode n) = take 1 (replicate n RiseSit)
  | _ => ∃ r, calls (periods mode n) = replicate n r
  end.
Proof.
  destruct mode; try (eexists; by apply repeated_requests);
    (apply single_request; intros s; unfold RobotControl; cbn [flag calls]; by destruct (flag s =? 0)).
Qed.
End SportMenuProps.
