(* ===== verification/ArmSdk.v ===== *)
(** * The arm programs.

    Models the four arm examples, [g1_arm5_sdk_dds_example.cpp] and
    [g1_arm7_sdk_dds_example.cpp] (under [src/example/g1/high_level]) and
    [h1_arm_sdk_dds_example.cpp] and [h1_2_arm_sdk_dds_example.cpp] (under
    [src/example/h1/high_level]): the command sent to the arm service in each
    control period while the arms move to an initial posture, are lifted and
    lowered with bounded speed, and are handed back by reducing a weight, which
    is the [q] of an unused motor.  The programs differ in joints, gains,
    postures and in whether the weight is set to zero at the end.  An access
    with [.at] outside an array throws, which is [None] here. *)

From S2P Require Import Prelude Floats LowCmd.

Local Open Scope Z_scope.

(** ** The programs *)

Record Program := {
  motors : nat;                    (** size of [msg.motor_cmd()] *)
  reserved : list Z;               (** the [reserve] member of a motor command *)
  arm_joints : list nat;
  kNotUsedJoint : nat;             (** the motor that carries the weight *)
  kp_array : list float32; kd_array : list float32;
  init_pos : list float32; target_pos : list float32;
  start_des : list float32;        (** initial [current_jpos_des] *)
  clears_weight : bool             (** the last message sets the weight to 0 *)
}.

Definition kPi_2 : float32 := lit32 157079632 100000000.

(** The constants of the four [main] functions. *)
Definition weight_rate : float32 := lit32 2 10.
Definition control_dt : float32 := lit32 2 100.
Definition max_joint_velocity : float32 := lit32 5 10.
Definition delta_weight : float32 := F32.mul weight_rate control_dt.
Definition max_joint_delta : float32 := F32.mul max_joint_velocity control_dt.
Definition one : float32 := F32.of_Z 1.

(** [static_cast<int>(time / control_dt)]. *)
Definition steps (seconds : Z) : nat :=
  match ftrunc (F32.div (F32.of_Z seconds) control_dt) with Some n => Z.to_nat n | None => 0%nat end.
Definition init_time_steps : nat := steps 2.
Definition num_time_steps : nat := steps 5.
Definition stop_time_steps : nat := steps 2.

(** The side of an arm in the target posture, followed by [k] zeros. *)
Definition raised (s : float32) (k : nat) : list float32 := [fzero; s; fzero; kPi_2] ++ replicate k fzero.
Definition side : float32 := kPi_2.

Definition g1_arm5 : Program := {|
  motors := 35; reserved := [0]; kNotUsedJoint := 29;
  arm_joints := [15; 16; 17; 18; 19; 22; 23; 24; 25; 26; 12; 13; 14]%nat;
  kp_array := replicate 13 (F32.of_Z 60); kd_array := replicate 13 (lit32 15 10);
  init_pos := replicate 13 fzero;
  target_pos := raised side 1 ++ raised (fneg side) 1 ++ replicate 3 fzero;
  start_des := replicate 13 fzero; clears_weight := true
|}.

Definition g1_arm7 : Program := {|
  motors := 35; reserved := [0]; kNotUsedJoint := 29;
  arm_joints := [15; 16; 17; 18; 19; 20; 21; 22; 23; 24; 25; 26; 27; 28; 12; 13; 14]%nat;
  kp_array := replicate 17 (F32.of_Z 60); kd_array := replicate 17 (lit32 15 10);
  init_pos := replicate 17 fzero;
  target_pos := raised side 3 ++ raised (fneg side) 3 ++ replicate 3 fzero;
  start_des := replicate 17 fzero; clears_weight := true
|}.

Definition h1_arm : Program := {|
  motors := 20; reserved := [0; 0; 0]; kNotUsedJoint := 9;
  arm_joints := [16; 17; 18; 19; 12; 13; 14; 15; 6]%nat;
  kp_array := replicate 9 (F32.of_Z 60); kd_array := replicate 9 (lit32 15 10);
  init_pos := replicate 9 fzero;
  target_pos := raised side 0 ++ raised (fneg side) 0 ++ [fzero];
  start_des := replicate 9 fzero; clears_weight := false
|}.

Definition tucked (s : float32) : list float32 := [fzero; s] ++ replicate 5 fzero.

Definition h1_2_arm : Program := {|
  motors := 35; reserved := [0]; kNotUsedJoint := 27;
  arm_joints := [13; 14; 15; 16; 17; 18; 19; 20; 21; 22; 23; 24; 25; 26; 12]%nat;
  kp_array := F32.of_Z <$> [120; 120; 80; 50; 50; 50; 50; 120; 120; 80; 50; 50; 50; 50; 200];
  kd_array := (fun z => lit32 z 10) <$> [20; 20; 15; 10; 10; 10; 10; 20; 20; 15; 10; 10; 10; 10; 20];
  init_pos := tucked (lit32 3 10) ++ tucked (lit32 (-3) 10) ++ [fzero];
  target_pos := raised side 3 ++ raised (fneg side) 3 ++ [fzero];
  start_des := tucked (lit32 3 10) ++ tucked (lit32 (-3) 10) ++ [fzero]; clears_weight := false
|}.

Definition programs : list Program := [g1_arm5; g1_arm7; h1_arm; h1_2_arm].

(** ** The code *)

Record arm := {
  msg : list MotorCmd_;            (** [msg.motor_cmd()] *)
  weight : float32;
  current_jpos_des : list float32;
  written : list (list MotorCmd_)  (** what the publisher was given *)
}.

Definition blank_motor (p : Program) : MotorCmd_ :=
  {| mode := 0; q := fzero; dq := fzero; tau := fzero; kp := fzero; kd := fzero; reserve := reserved p |}.

Definition start (p : Program) : arm :=
  {| msg := replicate (motors p) (blank_motor p); weight := fzero;
     current_jpos_des := start_des p; written := [] |}.

(** [msg.motor_cmd().at(i)], modified. *)
Definition at_motor (i : nat) (f : MotorCmd_ -> MotorCmd_) (msg : list MotorCmd_) : option (list MotorCmd_) :=
  m ← msg !! i; Some (<[i := f m]> msg).

Definition set_q (x : float32) (m : MotorCmd_) : MotorCmd_ :=
  {| mode := mode m; q := x; dq := dq m; tau := tau m; kp := kp m; kd := kd m; reserve := reserve m |}.

Definition set_motor (x p d : float32) (m : MotorCmd_) : MotorCmd_ :=
  {| mode := mode m; q := x; dq := fzero; tau := fzero; kp := p; kd := d; reserve := reserve m |}.

(** The loop [for j < init_pos.size()] that sets the control joints, [qs] being
    the angles. *)
Definition set_joint (p : Program) (qs : list float32) (msg : list MotorCmd_) (j : nat) :
    option (list MotorCmd_) :=
  i ← arm_joints p !! j; x ← qs !! j; kp ← kp_array p !! j; kd ← kd_array p !! j;
  at_motor i (set_motor x kp kd) msg.

Definition set_controls (p : Program) (qs : list float32) (msg : list MotorCmd_) : option (list MotorCmd_) :=
  foldl (fun m j => m ← m; set_joint p qs m j) (Some msg) (seq 0 (length (init_pos p))).

Definition write (msg : list MotorCmd_) (s : arm) : arm :=
  {| msg := msg; weight := weight s; current_jpos_des := current_jpos_des s;
     written := written s ++ [msg] |}.

(** [current_jpos.at(i) = state_msg.motor_state().at(arm_joints.at(i)).q()]. *)
Definition read_joints (p : Program) (motor_state : list float32) : option (list float32) :=
  mapM (fun i => motor_state !! i) (arm_joints p).

(** [float phase = 1.0 * i / init_time_steps]. *)
Definition phase (i : nat) : float32 :=
  F32.of_f64 (F64.div (F64.mul (F64.of_Z 1) (F64.of_Z (Z.of_nat i)))
                      (F64.of_Z (Z.of_nat init_time_steps))).

(** [init_pos * phase + current_jpos * (1 - phase)]. *)
Definition blend (ph init cur : float32) : float32 :=
  F32.add (F32.mul init ph) (F32.mul cur (F32.sub one ph)).

(** The body of the initialisation loop. *)
Definition init_step (p : Program) (current_jpos : list float32) (s : arm) (i : nat) : option arm :=
  m ← at_motor (kNotUsedJoint p) (set_q one) (msg s);
  m ← set_controls p (zip_with (blend (phase i)) (init_pos p) current_jpos) m;
  Some (write m {| msg := m; weight := one; current_jpos_des := current_jpos_des s; written := written s |}).

(** [des += std::clamp(goal - des, -max_joint_delta, max_joint_delta)]. *)
Definition approach (goal des : float32) : float32 :=
  F32.add des (std_clamp (F32.sub goal des) (fneg max_joint_delta) max_joint_delta).

(** The body of the lifting and of the lowering loop. *)
Definition move_step (p : Program) (goal : list float32) (s : arm) (i : nat) : option arm :=
  let des := zip_with approach goal (current_jpos_des s) in
  m ← set_controls p des (msg s);
  Some (write m {| msg := m; weight := weight s; current_jpos_des := des; written := written s |}).

(** [weight -= delta_weight; weight = std::clamp(weight, 0.f, 1.f)]. *)
Definition reduce (w : float32) : float32 := std_clamp (F32.sub w delta_weight) fzero one.

(** The body of the stopping loop. *)
Definition stop_step (p : Program) (s : arm) (i : nat) : option arm :=
  let w := reduce (weight s) in
  m ← at_motor (kNotUsedJoint p) (set_q w) (msg s);
  Some (write m {| msg := m; weight := w; current_jpos_des := current_jpos_des s; written := written s |}).

(** [for (int i = 0; i < n; ++i)]. *)
Definition loop (body : arm -> nat -> option arm) (n : nat) (s : arm) : option arm :=
  foldl (fun s i => s ← s; body s i) (Some s) (seq 0 n).

(** [main], from the reading of the joint positions on; [motor_state] is what the
    joints' positions were when [main] read each of them. *)
Definition main (p : Program) (motor_state : list float32) : option arm :=
  current_jpos ← read_joints p motor_state;
  s ← loop (init_step p current_jpos) init_time_steps (start p);
  s ← loop (move_step p (target_pos p)) num_time_steps s;
  s ← loop (move_step p (init_pos p)) num_time_steps s;
  s ← loop (stop_step p) stop_time_steps s;
  if clears_weight p then
    m ← at_motor (kNotUsedJoint p) (set_q fzero) (msg s); Some (write m s)
  else Some s.

(** The four programs. *)
Definition g1_arm5_main : list float32 -> option arm := main g1_arm5.
Definition g1_arm7_main : list float32 -> option arm := main g1_arm7.
Definition h1_arm_main : list float32 -> option arm := main h1_arm.
Definition h1_2_arm_main : list float32 -> option arm := main h1_2_arm.

(** ** The messages, as a function of weight and angles *)

(** The [j] for which [arm_joints[j] = i]. *)
Definition joint_of (p : Program) (i : nat) : option nat := fst <$> list_find (i =.) (arm_joints p).

Definition motor_at (p : Program) (w : float32) (qs : option (list float32)) (i : nat) : MotorCmd_ :=
  if decide (i = kNotUsedJoint p) then set_q w (blank_motor p)
  else match joint_of p i, qs with
       | Some j, Some qs => set_motor (qs !!! j) (kp_array p !!! j) (kd_array p !!! j) (blank_motor p)
       | _, _ => blank_motor p
       end.

Definition frame (p : Program) (w : float32) (qs : option (list float32)) : list MotorCmd_ :=
  motor_at p w qs <$> seq 0 (motors p).

(** The angles after [k] steps towards a goal. *)
Definition moved (goal : list float32) (k : nat) (des : list float32) : list float32 :=
  Nat.iter k (zip_with approach goal) des.

(** Everything the program sends, when it read the angles [cur]. *)
Definition schedule (p : Program) (cur : list float32) : list (list MotorCmd_) :=
  let top := moved (target_pos p) num_time_steps (start_des p) in
  let low := moved (init_pos p) num_time_steps top in
  ((fun i => frame p one (Some (zip_with (blend (phase i)) (init_pos p) cur))) <$> seq 0 init_time_steps) ++
  ((fun k => frame p one (Some (moved (target_pos p) (S k) (start_des p)))) <$> seq 0 num_time_steps) ++
  ((fun k => frame p one (Some (moved (init_pos p) (S k) top))) <$> seq 0 num_time_steps) ++
  ((fun k => frame p (Nat.iter (S k) reduce one) (Some low)) <$> seq 0 stop_time_steps) ++
  (if clears_weight p then [frame p fzero (Some low)] else []).

(** ** The loops implement the schedule *)

(** What the four programs have in common. *)
Record wf (p : Program) : Prop := {
  wf_nodup : NoDup (arm_joints p);
  wf_weight : kNotUsedJoint p ∉ arm_joints p;
  wf_weight_motor : (kNotUsedJoint p < motors p)%nat;
  wf_motors : Forall (fun i => (i < motors p)%nat) (arm_joints p);
  wf_init : length (init_pos p) = length (arm_joints p);
  wf_target : length (target_pos p) = length (arm_joints p);
  wf_start : length (start_des p) = length (arm_joints p);
  wf_kp : length (kp_array p) = length (arm_joints p);
  wf_kd : length (kd_array p) = length (arm_joints p)
}.

Lemma programs_wf p : p ∈ programs -> wf p.
Proof.
  intros Hp. repeat (apply elem_of_cons in Hp as [->|Hp]; [|]); [..|by apply elem_of_nil in Hp];
    (split; try reflexivity; apply (bool_decide_unpack _); by vm_compute).
Qed.

Lemma programs_motors p : p ∈ programs -> (motors p <= 35)%nat.
Proof.
  intros Hp. repeat (apply elem_of_cons in Hp as [->|Hp]; [by apply Nat.leb_le|]). by apply elem_of_nil in Hp.
Qed.

Lemma lookup_seq_0 n i : seq 0 n !! i = if decide (i < n)%nat then Some i else None.
Proof.
  case_decide; [by rewrite lookup_seq_lt|rewrite lookup_seq_ge; [done|lia]].
Qed.

Section Program.
Context (p : Program) (Hp : wf p).

Lemma joint_of_spec i j : joint_of p i = Some j <-> arm_joints p !! j = Some i.
Proof.
  unfold joint_of. rewrite fmap_Some. split.
  - intros ([j' x] & (Hl & -> & _)%list_find_Some & ->). done.
  - intros Hj. exists (j, i). split; [|done]. apply list_find_Some. split_and!; [done..|].
    intros k y Hk Hlt ->. pose proof (NoDup_lookup _ _ _ _ (wf_nodup p Hp) Hj Hk). lia.
Qed.

Lemma joint_of_weight : joint_of p (kNotUsedJoint p) = None.
Proof.
  destruct (joint_of p _) eqn:E; [|done]. apply joint_of_spec, list_elem_of_lookup_2 in E.
  by apply (wf_weight p Hp) in E.
Qed.

Lemma frame_lookup w o i :
  frame p w o !! i = if decide (i < motors p)%nat then Some (motor_at p w o i) else None.
Proof. unfold frame. rewrite list_lookup_fmap, lookup_seq_0. by case_decide. Qed.

Lemma motor_at_frame w o i x g d :
  i ≠ kNotUsedJoint p -> set_motor x g d (motor_at p w o i) = set_motor x g d (blank_motor p).
Proof. intros Hi. unfold motor_at. rewrite decide_False by done. by destruct (joint_of p i), o. Qed.

(** The message when the first [k] joints have been set. *)
Definition mixed (w : float32) (o : option (list float32)) (qs : list float32) (k : nat) : list MotorCmd_ :=
  (fun i => match joint_of p i with
            | Some j => motor_at p w (if (j <? k)%nat then Some qs else o) i
            | None => motor_at p w o i
            end) <$> seq 0 (motors p).

Lemma mixed_lookup w o qs k i :
  mixed w o qs k !! i =
  if decide (i < motors p)%nat
  then Some (motor_at p w (match joint_of p i with
                           | Some j => if (j <? k)%nat then Some qs else o | None => o end) i)
  else None.
Proof.
  unfold mixed. rewrite list_lookup_fmap, lookup_seq_0. case_decide; [|done]. cbn.
  by destruct (joint_of p i).
Qed.

Lemma mixed_0 w o qs : mixed w o qs 0 = frame p w o.
Proof.
  apply list_eq. intros i. rewrite mixed_lookup, frame_lookup. case_decide; [|done].
  by destruct (joint_of p i).
Qed.

Lemma mixed_all w o qs : mixed w o qs (length (arm_joints p)) = frame p w (Some qs).
Proof.
  apply list_eq. intros i. rewrite mixed_lookup, frame_lookup. case_decide; [|done]. f_equal.
  destruct (joint_of p i) as [j|] eqn:E.
  - apply joint_of_spec, lookup_lt_Some in E. by rewrite (proj2 (Nat.ltb_lt _ _)).
  - unfold motor_at. by rewrite E.
Qed.

Lemma set_joint_mixed w o qs k :
  length qs = length (arm_joints p) -> (k < length (arm_joints p))%nat ->
  set_joint p qs (mixed w o qs k) k = Some (mixed w o qs (S k)).
Proof.
  intros Hq Hk. unfold set_joint.
  destruct (lookup_lt_is_Some_2 (arm_joints p) k Hk) as [i Hi].
  destruct (lookup_lt_is_Some_2 qs k ltac:(lia)) as [x Hx].
  destruct (lookup_lt_is_Some_2 (kp_array p) k ltac:(rewrite (wf_kp p Hp); lia)) as [g Hg].
  destruct (lookup_lt_is_Some_2 (kd_array p) k ltac:(rewrite (wf_kd p Hp); lia)) as [d Hd].
  rewrite Hi, Hx, Hg, Hd. cbn. unfold at_motor.
  assert (Hm : (i < motors p)%nat) by (by eapply Forall_lookup_1 in Hi; [|apply (wf_motors p Hp)]).
  assert (Hw : i ≠ kNotUsedJoint p).
  { intros ->. apply (wf_weight p Hp). by eapply list_elem_of_lookup_2. }
  pose proof (proj2 (joint_of_spec i k) Hi) as Hj.
  rewrite mixed_lookup, decide_True by done. cbn. f_equal. apply list_eq. intros i'.
  destruct (decide (i' = i)) as [->|Hne].
  - rewrite list_lookup_insert_eq by (unfold mixed; by rewrite length_fmap, length_seq).
    rewrite mixed_lookup, decide_True, Hj, motor_at_frame by done.
    rewrite (proj2 (Nat.ltb_lt k (S k))) by lia. unfold motor_at. rewrite decide_False, Hj by done.
    by rewrite !(list_lookup_total_correct _ _ _ Hx), !(list_lookup_total_correct _ _ _ Hg),
      !(list_lookup_total_correct _ _ _ Hd).
  - rewrite list_lookup_insert_ne, !mixed_lookup by done. case_decide; [|done]. do 2 f_equal.
    destruct (joint_of p i') as [j|] eqn:E; [|done]. apply joint_of_spec in E.
    assert (j ≠ k) by (intros ->; congruence).
    destruct (Nat.ltb_spec j k), (Nat.ltb_spec j (S k)); done || lia.
Qed.

Lemma set_controls_frame w o qs :
  length qs = length (arm_joints p) -> set_controls p qs (frame p w o) = Some (frame p w (Some qs)).
Proof.
  intros Hq. unfold set_controls. rewrite (wf_init p Hp), <- (mixed_0 w o qs), <- (mixed_all w o qs).
  assert (∀ k, (k <= length (arm_joints p))%nat ->
    foldl (fun m j => m ← m; set_joint p qs m j) (Some (mixed w o qs 0)) (seq 0 k) = Some (mixed w o qs k)) as Hi.
  { induction k as [|k IH]; intros Hk; [done|].
    rewrite seq_S, foldl_app, IH by lia. cbn. by apply set_joint_mixed. }
  by apply Hi.
Qed.

Lemma set_weight_frame w w' o :
  at_motor (kNotUsedJoint p) (set_q w') (frame p w o) = Some (frame p w' o).
Proof.
  unfold at_motor. rewrite frame_lookup, decide_True by apply (wf_weight_motor p Hp). cbn. f_equal.
  apply list_eq. intros i. destruct (decide (i = kNotUsedJoint p)) as [->|Hne].
  - rewrite list_lookup_insert_eq, frame_lookup, decide_True.
    + unfold motor_at. by rewrite !decide_True.
    + apply (wf_weight_motor p Hp).
    + unfold frame. rewrite length_fmap, length_seq. apply (wf_weight_motor p Hp).
  - rewrite list_lookup_insert_ne, !frame_lookup by done. case_decide; [|done].
    unfold motor_at. by rewrite !decide_False.
Qed.

(** *** The loops *)

Lemma loop_spec body (st : nat -> arm) n :
  (∀ i, (i < n)%nat -> body (st i) i = Some (st (S i))) -> loop body n (st 0%nat) = Some (st n).
Proof.
  unfold loop. induction n as [|n IH]; intros Hb; [done|].
  rewrite seq_S, foldl_app, IH by (intros; apply Hb; lia). cbn. apply Hb. lia.
Qed.

(** Messages written one per step. *)
Lemma written_step {A} (l : list A) (f : nat -> A) k : (l ++ (f <$> seq 0 k)) ++ [f k] = l ++ (f <$> seq 0 (S k)).
Proof. by rewrite seq_S, fmap_app, app_assoc. Qed.

Lemma start_frame : msg (start p) = frame p fzero None.
Proof.
  apply list_eq. intros i. rewrite frame_lookup. cbn. case_decide as Hi.
  - rewrite lookup_replicate_2 by done. unfold motor_at. case_decide; [done|]. by destruct (joint_of p i).
  - apply lookup_ge_None. rewrite length_replicate. lia.
Qed.

Lemma init_loop cur n :
  length cur = length (arm_joints p) -> (0 < n)%nat ->
  loop (init_step p cur) n (start p) =
  Some {| msg := frame p one (Some (zip_with (blend (phase (n - 1))) (init_pos p) cur));
          weight := one; current_jpos_des := start_des p;
          written := (fun i => frame p one (Some (zip_with (blend (phase i)) (init_pos p) cur))) <$> seq 0 n |}.
Proof.
  intros Hc Hn. set (F := fun i => frame p one (Some (zip_with (blend (phase i)) (init_pos p) cur))).
  rewrite (loop_spec (init_step p cur) (fun k => match k with
    | O => start p
    | S k => {| msg := F k; weight := one; current_jpos_des := start_des p; written := F <$> seq 0 (S k) |}
    end) n).
  - destruct n as [|n]; [lia|]. by rewrite Nat.sub_succ, Nat.sub_0_r.
  - intros i _. unfold init_step.
    assert (∃ w o, msg (match i with O => start p
      | S k => {| msg := F k; weight := one; current_jpos_des := start_des p; written := F <$> seq 0 (S k) |}
      end) = frame p w o) as (w & o & Hm).
    { destruct i; [by exists fzero, None; apply start_frame|by eexists _, _]. }
    rewrite Hm, set_weight_frame. cbn.
    rewrite set_controls_frame by (rewrite length_zip_with, (wf_init p Hp), Hc; lia).
    cbn. unfold write. cbn. fold (F i). destruct i; [done|]. cbn [current_jpos_des written].
    exact (f_equal (fun l => Some {| msg := F (S i); weight := one; current_jpos_des := start_des p; written := l |})
             (written_step [] F (S i))).
Qed.

Lemma length_moved goal k des :
  length goal = length (arm_joints p) -> length des = length (arm_joints p) ->
  length (moved goal k des) = length (arm_joints p).
Proof.
  intros Hg Hd. unfold moved. induction k as [|k IH]; [done|].
  rewrite Nat.iter_succ, length_zip_with, IH, Hg. lia.
Qed.

Lemma move_loop goal n w o des wr :
  length goal = length (arm_joints p) -> length des = length (arm_joints p) -> (0 < n)%nat ->
  loop (move_step p goal) n {| msg := frame p w o; weight := w; current_jpos_des := des; written := wr |} =
  Some {| msg := frame p w (Some (moved goal n des)); weight := w; current_jpos_des := moved goal n des;
          written := wr ++ ((fun k => frame p w (Some (moved goal (S k) des))) <$> seq 0 n) |}.
Proof.
  intros Hg Hd Hn. set (F := fun k => frame p w (Some (moved goal (S k) des))).
  pose proof (loop_spec (move_step p goal) (fun k =>
    {| msg := match k with O => frame p w o | S k => F k end; weight := w;
       current_jpos_des := moved goal k des; written := wr ++ (F <$> seq 0 k) |}) n) as L.
  cbn [seq fmap list_fmap] in L. rewrite app_nil_r in L.
  change (moved goal 0 des) with des in L. rewrite L.
  - destruct n; [lia|done].
  - intros i _. unfold move_step. cbn [msg weight current_jpos_des written].
    assert (∃ o', match i with O => frame p w o | S k => F k end = frame p w o') as [o' ->]
      by (destruct i; by eexists).
    change (zip_with approach goal (moved goal i des)) with (moved goal (S i) des).
    rewrite set_controls_frame by (by apply length_moved). 
    exact (f_equal (fun l => Some {| msg := F i; weight := w; current_jpos_des := moved goal (S i) des;
                                     written := l |}) (written_step wr F i)).
Qed.

Lemma stop_loop n w o des wr :
  loop (stop_step p) n {| msg := frame p w o; weight := w; current_jpos_des := des; written := wr |} =
  Some {| msg := frame p (Nat.iter n reduce w) o; weight := Nat.iter n reduce w; current_jpos_des := des;
          written := wr ++ ((fun k => frame p (Nat.iter (S k) reduce w) o) <$> seq 0 n) |}.
Proof.
  set (F := fun k => frame p (Nat.iter (S k) reduce w) o).
  pose proof (loop_spec (stop_step p) (fun k =>
    {| msg := frame p (Nat.iter k reduce w) o; weight := Nat.iter k reduce w;
       current_jpos_des := des; written := wr ++ (F <$> seq 0 k) |}) n) as L.
  cbn [seq fmap list_fmap] in L. rewrite app_nil_r in L. apply L.
  intros i _. unfold stop_step. cbn [msg weight current_jpos_des written].
  rewrite set_weight_frame.
  exact (f_equal (fun l => Some {| msg := F i; weight := Nat.iter (S i) reduce w; current_jpos_des := des;
                                   written := l |}) (written_step wr F i)).
Qed.

(** *** The program *)

Lemma read_joints_ok motor_state :
  (motors p <= length motor_state)%nat ->
  ∃ cur, read_joints p motor_state = Some cur ∧ length cur = length (arm_joints p).
Proof.
  intros Hl. destruct (read_joints p motor_state) as [cur|] eqn:E.
  - exists cur. split; [done|]. by apply length_mapM in E.
  - apply mapM_None_1 in E. apply Exists_exists in E as (i & Hi & Hn).
    pose proof (proj1 (Forall_forall _ _) (wf_motors p Hp) i Hi) as Hm.
    apply lookup_ge_None in Hn. cbn in Hm. exfalso. lia.
Qed.

Lemma steps_positive : (0 < init_time_steps)%nat ∧ (0 < num_time_steps)%nat.
Proof. by vm_compute; split; repeat constructor. Qed.

Lemma main_schedule motor_state cur :
  read_joints p motor_state = Some cur -> length cur = length (arm_joints p) ->
  ∃ s, main p motor_state = Some s ∧ written s = schedule p cur.
Proof.
  intros Hr Hc. destruct steps_positive as [Hi Hn]. unfold main, schedule. rewrite Hr.
  cbn [mbind option_bind]. rewrite init_loop by done. cbn [mbind option_bind].
  rewrite move_loop by (apply (wf_target p Hp) || apply (wf_start p Hp) || done). cbn [mbind option_bind].
  rewrite move_loop by (rewrite ?length_moved; apply (wf_target p Hp) || apply (wf_init p Hp) ||
    apply (wf_start p Hp) || done). cbn [mbind option_bind].
  rewrite stop_loop. cbn [mbind option_bind].
  destruct (clears_weight p).
  - cbn [msg]. rewrite set_weight_frame. eexists. split; [done|]. cbn. by rewrite <- !app_assoc.
  - eexists. split; [done|]. cbn. by rewrite app_nil_r, <- !app_assoc.
Qed.

End Program.

(** ** The motion

    The lifting and lowering are the same float iterations in every run: one per
    triple of target, initial and starting angle.  They are computed once. *)

(** 0.0100001 rad per message. *)
Definition max_step : float32 := lit32 100001 10000000.
Definition close (x y : float32) : bool := fle (fabs (F32.sub y x)) max_step.

Definition triples (p : Program) : list (float32 * float32 * float32) :=
  zip (zip (target_pos p) (init_pos p)) (start_des p).

Definition triple_ok (c : float32 * float32 * float32) : bool :=
  let '(t, i, s) := c in
  check_iter (approach t) (fun _ x => close x (approach t x)) num_time_steps 0 s &&
  bool_decide (Nat.iter num_time_steps (approach t) s = t) &&
  check_iter (approach i) (fun _ x => close x (approach i x)) num_time_steps 0 t &&
  bool_decide (Nat.iter num_time_steps (approach i) t = i) &&
  close i i.

Definition all_triples : list (float32 * float32 * float32) :=
  remove_dups (concat (triples <$> programs)).

Lemma all_triples_ok : forallb triple_ok all_triples = true.
Proof. by vm_compute. Qed.

Lemma elem_of_all_triples p c : p ∈ programs -> c ∈ triples p -> c ∈ all_triples.
Proof.
  intros Hp Hc. unfold all_triples. rewrite elem_of_remove_dups, list_elem_of_In, in_concat.
  exists (triples p). rewrite <- !list_elem_of_In. split; [|done]. by apply list_elem_of_fmap_2.
Qed.

#[global] Opaque all_triples init_time_steps num_time_steps stop_time_steps.

Lemma program_triple_ok p c : p ∈ programs -> c ∈ triples p -> triple_ok c = true.
Proof.
  intros Hp Hc. pose proof (proj1 (forallb_forall _ _) all_triples_ok c) as H.
  rewrite <- list_elem_of_In in H. apply H. by eapply elem_of_all_triples.
Qed.

Section Motion.
Context (p : Program) (Hin : p ∈ programs).

(** The iterations of one joint. *)
Lemma joint_ok j t i s :
  target_pos p !! j = Some t -> init_pos p !! j = Some i -> start_des p !! j = Some s ->
  (∀ k, (k < num_time_steps)%nat ->
     close (Nat.iter k (approach t) s) (Nat.iter (S k) (approach t) s) = true) ∧
  Nat.iter num_time_steps (approach t) s = t ∧
  (∀ k, (k < num_time_steps)%nat ->
     close (Nat.iter k (approach i) t) (Nat.iter (S k) (approach i) t) = true) ∧
  Nat.iter num_time_steps (approach i) t = i ∧ close i i = true.
Proof.
  intros Ht Hi Hs. assert (triple_ok (t, i, s) = true) as H.
  { apply (program_triple_ok p); [done|]. apply (list_elem_of_lookup_2 _ j).
    unfold triples. apply lookup_zip_Some. split; [|done]. by apply lookup_zip_Some. }
  unfold triple_ok in H. apply andb_true_iff in H as [H H5]. apply andb_true_iff in H as [H H4].
  apply andb_true_iff in H as [H H3]. apply andb_true_iff in H as [H1 H2].
  apply bool_decide_eq_true in H2, H4. split_and!; [|done| |done|done]; intros k Hk.
  - apply (check_iter_sound _ _ _ _ _ H1 k Hk).
  - apply (check_iter_sound _ _ _ _ _ H3 k Hk).
Qed.

Lemma moved_lookup goal des j g d k :
  goal !! j = Some g -> des !! j = Some d -> moved goal k des !! j = Some (Nat.iter k (approach g) d).
Proof.
  intros Hg Hd. unfold moved. induction k as [|k IH]; [done|].
  rewrite !Nat.iter_succ, lookup_zip_with, Hg, IH. done.
Qed.

Lemma joint_lookup j : (j < length (arm_joints p))%nat ->
  ∃ t i s, target_pos p !! j = Some t ∧ init_pos p !! j = Some i ∧ start_des p !! j = Some s.
Proof.
  intros Hj. pose proof (programs_wf p Hin) as Hp.
  destruct (lookup_lt_is_Some_2 (target_pos p) j) as [t ?]; [by rewrite (wf_target p Hp)|].
  destruct (lookup_lt_is_Some_2 (init_pos p) j) as [i ?]; [by rewrite (wf_init p Hp)|].
  destruct (lookup_lt_is_Some_2 (start_des p) j) as [s ?]; [by rewrite (wf_start p Hp)|].
  by exists t, i, s.
Qed.

(** Lists of angles that agree joint by joint are equal. *)
Lemma angles_eq (l l' : list float32) :
  length l = length (arm_joints p) -> length l' = length (arm_joints p) ->
  (∀ j, (j < length (arm_joints p))%nat -> l !! j = l' !! j) -> l = l'.
Proof.
  intros Hl Hl' He. apply list_eq. intros j. destruct (decide (j < length (arm_joints p))%nat); [auto|].
  rewrite !lookup_ge_None_2 by lia. done.
Qed.

Lemma lift_reaches : moved (target_pos p) num_time_steps (start_des p) = target_pos p.
Proof.
  pose proof (programs_wf p Hin) as Hp.
  apply angles_eq; [by apply length_moved; [..|apply wf_target|apply wf_start]|by apply wf_target|].
  intros j Hj. destruct (joint_lookup j Hj) as (t & i & s & Ht & Hi & Hs).
  rewrite (moved_lookup _ _ _ _ _ _ Ht Hs), Ht. by destruct (joint_ok j t i s) as (_ & -> & _).
Qed.

Lemma lower_reaches : moved (init_pos p) num_time_steps (target_pos p) = init_pos p.
Proof.
  pose proof (programs_wf p Hin) as Hp.
  apply angles_eq; [by apply length_moved; [..|apply wf_init|apply wf_target]|by apply wf_init|].
  intros j Hj. destruct (joint_lookup j Hj) as (t & i & s & Ht & Hi & Hs).
  rewrite (moved_lookup _ _ _ _ _ _ Hi Ht), Hi. by destruct (joint_ok j t i s) as (_ & _ & _ & -> & _).
Qed.

(** *** The schedule, message by message *)

Lemma init_steps : init_time_steps = 100%nat.
Proof. by vm_compute. Qed.
Lemma num_steps : num_time_steps = 250%nat.
Proof. by vm_compute. Qed.
Lemma stop_steps : stop_time_steps = 100%nat.
Proof. by vm_compute. Qed.

(** The angles and the weight of message [100 + k]. *)
Definition angle (k : nat) : list float32 :=
  if decide (k < 250)%nat then moved (target_pos p) (S k) (start_des p)
  else if decide (k < 500)%nat then moved (init_pos p) (S (k - 250)) (target_pos p)
  else init_pos p.

Definition weight_at (k : nat) : float32 :=
  if decide (k < 500)%nat then one
  else if decide (k < 600)%nat then Nat.iter (S (k - 500)) reduce one else fzero.

Definition messages : nat := 700 + if clears_weight p then 1 else 0.

Lemma lookup_fmap_seq {A} (f : nat -> A) n i : (i < n)%nat -> (f <$> seq 0 n) !! i = Some (f i).
Proof. intros Hi. by rewrite list_lookup_fmap, lookup_seq_0, decide_True. Qed.

Lemma lookup_app_seq {A} (f : nat -> A) n l i :
  ((f <$> seq 0 n) ++ l) !! i = if decide (i < n)%nat then Some (f i) else l !! (i - n)%nat.
Proof.
  case_decide.
  - rewrite lookup_app_l by (by rewrite length_fmap, length_seq). by apply lookup_fmap_seq.
  - rewrite lookup_app_r; rewrite length_fmap, length_seq; [done|lia].
Qed.

Lemma schedule_first cur i : (i < 100)%nat ->
  schedule p cur !! i = Some (frame p one (Some (zip_with (blend (phase i)) (init_pos p) cur))).
Proof.
  intros Hi. unfold schedule. rewrite lookup_app_seq, decide_True; [done|].
  by rewrite init_steps.
Qed.

Lemma schedule_next cur k : (100 + k < messages)%nat ->
  schedule p cur !! (100 + k)%nat = Some (frame p (weight_at k) (Some (angle k))).
Proof.
  intros Hk. unfold schedule, messages in *.
  rewrite lift_reaches, lower_reaches, !lookup_app_seq, init_steps, num_steps, stop_steps. unfold weight_at, angle.
  rewrite decide_False by lia. replace (100 + k - 100)%nat with k by lia.
  destruct (decide (k < 250)%nat); [by rewrite decide_True by lia|].
  destruct (decide (k < 500)%nat).
  { by rewrite decide_True by lia. }
  rewrite decide_False by lia. replace (k - 250 - 250)%nat with (k - 500)%nat by lia.
  destruct (decide (k < 600)%nat); [by rewrite decide_True by lia|].
  rewrite decide_False by lia. destruct (clears_weight p); [|lia].
  by replace (k - 500 - 100)%nat with 0%nat by lia.
Qed.

Lemma schedule_at cur k n : n = (100 + k)%nat -> (n < messages)%nat ->
  schedule p cur !! n = Some (frame p (weight_at k) (Some (angle k))).
Proof. intros ->. apply schedule_next. Qed.

Lemma length_schedule cur : length (schedule p cur) = messages.
Proof.
  unfold schedule, messages.
  rewrite !length_app, !length_fmap, !length_seq, init_steps, num_steps, stop_steps. by destruct (clears_weight p).
Qed.

(** *** Bounds *)

Lemma weight_range k : fin_range fzero (weight_at k) one.
Proof.
  unfold weight_at. repeat case_decide; [split; by vm_compute| |split; by vm_compute].
  assert (∀ n, (n < 101)%nat -> is_nan (F32.sub (Nat.iter n reduce one) delta_weight) = false) as Hn.
  { intros n Hn. apply negb_true_iff.
    apply (check_iter_sound reduce (fun _ w => negb (is_nan (F32.sub w delta_weight))) 101 0 one); [|done].
    by vm_compute. }
  rewrite Nat.iter_succ. apply std_clamp_range; [apply Hn; lia|by vm_compute].
Qed.

Lemma length_angle k : length (angle k) = length (arm_joints p).
Proof.
  pose proof (programs_wf p Hin) as Hp.
  unfold angle. repeat case_decide; [apply length_moved..|]; by destruct Hp.
Qed.

Lemma angle_close k j x y :
  angle k !! j = Some x -> angle (S k) !! j = Some y -> close x y = true.
Proof.
  pose proof (programs_wf p Hin) as Hp.
  pose proof (length_angle k) as Hlen.
  intros Hx Hy. pose proof (lookup_lt_Some _ _ _ Hx) as Hj. rewrite Hlen in Hj.
  destruct (joint_lookup j Hj) as (t & i & s & Ht & Hi & Hs).
  destruct (joint_ok j t i s Ht Hi Hs) as (C1 & R1 & C2 & R2 & C3).
  rewrite num_steps in C1, R1, C2, R2.
  unfold angle in Hx, Hy. repeat case_decide; try lia.
  - rewrite (moved_lookup _ _ _ _ _ _ Ht Hs) in Hx. rewrite (moved_lookup _ _ _ _ _ _ Ht Hs) in Hy. apply (inj Some) in Hx, Hy; subst x y. apply C1. lia.
  - rewrite (moved_lookup _ _ _ _ _ _ Ht Hs) in Hx. rewrite (moved_lookup _ _ _ _ _ _ Hi Ht) in Hy.
    replace (S k) with 250%nat in Hx by lia. rewrite R1 in Hx.
    replace (S (S k - 250)) with 1%nat in Hy by lia. apply (inj Some) in Hx, Hy; subst x y. exact (C2 0%nat ltac:(lia)).
  - rewrite (moved_lookup _ _ _ _ _ _ Hi Ht) in Hx. rewrite (moved_lookup _ _ _ _ _ _ Hi Ht) in Hy. apply (inj Some) in Hx, Hy; subst x y.
    replace (S k - 250)%nat with (S (k - 250)) by lia. apply C2. lia.
  - rewrite (moved_lookup _ _ _ _ _ _ Hi Ht) in Hx. rewrite Hi in Hy.
    replace (S (k - 250)) with 250%nat in Hx by lia. rewrite R2 in Hx. apply (inj Some) in Hx, Hy; subst x y. exact C3.
  - rewrite Hi in Hx, Hy. apply (inj Some) in Hx, Hy; subst x y. exact C3.
Qed.

Lemma frame_joint w qs i j :
  arm_joints p !! j = Some i ->
  frame p w (Some qs) !! i = Some (set_motor (qs !!! j) (kp_array p !!! j) (kd_array p !!! j) (blank_motor p)).
Proof.
  intros Hj. pose proof (programs_wf p Hin) as Hp. pose proof (proj2 (joint_of_spec p Hp i j) Hj) as Hi.
  rewrite frame_lookup, decide_True.
  - unfold motor_at. rewrite Hi, decide_False; [done|]. intros ->.
    apply (wf_weight p Hp). by eapply list_elem_of_lookup_2.
  - by eapply Forall_lookup_1 in Hj; [|apply (wf_motors p Hp)].
Qed.

Lemma frame_weight w o : frame p w o !! kNotUsedJoint p = Some (set_q w (blank_motor p)).
Proof.
  pose proof (programs_wf p Hin) as Hp.
  rewrite frame_lookup, decide_True by apply (wf_weight_motor p Hp). unfold motor_at. by rewrite decide_True.
Qed.

Lemma frame_other w o i :
  (i < motors p)%nat -> i ∉ arm_joints p -> i ≠ kNotUsedJoint p -> frame p w o !! i = Some (blank_motor p).
Proof.
  intros Hi Hn Hw. rewrite frame_lookup, decide_True by done. unfold motor_at. rewrite decide_False by done.
  destruct (joint_of p i) eqn:E; [|done]. exfalso. apply Hn.
  apply (joint_of_spec p (programs_wf p Hin)) in E. by eapply list_elem_of_lookup_2.
Qed.

(** Every message is a frame with a weight in range. *)
Lemma schedule_frame cur k m :
  schedule p cur !! k = Some m -> ∃ w qs, m = frame p w (Some qs) ∧ fin_range fzero w one.
Proof.
  intros Hk. pose proof (lookup_lt_Some _ _ _ Hk) as Hlt. rewrite length_schedule in Hlt.
  destruct (decide (k < 100)%nat).
  - rewrite schedule_first in Hk by done. apply (inj Some) in Hk. subst m. eexists _, _.
    split; [reflexivity|]. split; by vm_compute.
  - rewrite (schedule_at cur (k - 100)) in Hk by lia. apply (inj Some) in Hk. subst m. eexists _, _.
    split; [reflexivity|]. apply weight_range.
Qed.

(** The targets of successive messages, from the lifting on. *)
Lemma frames_close cur k i j m m' a a' :
  (100 <= k)%nat -> arm_joints p !! j = Some i ->
  schedule p cur !! k = Some m -> schedule p cur !! S k = Some m' ->
  m !! i = Some a -> m' !! i = Some a' -> close (q a) (q a') = true.
Proof.
  intros Hk Hj Hm Hm' Ha Ha'.
  pose proof (lookup_lt_Some _ _ _ Hm') as Hlt. rewrite length_schedule in Hlt.
  rewrite (schedule_at cur (k - 100)) in Hm by lia. apply (inj Some) in Hm. subst m.
  rewrite (schedule_at cur (S (k - 100))) in Hm' by lia. apply (inj Some) in Hm'. subst m'.
  rewrite (frame_joint _ _ _ _ Hj) in Ha. rewrite (frame_joint _ _ _ _ Hj) in Ha'. apply (inj Some) in Ha, Ha'. subst a a'. cbn [q set_motor].
  apply (angle_close (k - 100) j); apply list_lookup_lookup_total_lt; rewrite length_angle;
    by eapply lookup_lt_Some.
Qed.

(** *** The first message *)

(** The initial postures are finite numbers. *)
Definition is_finite (x : float32) : bool :=
  match x with S754_zero _ | S754_finite _ _ _ => true | _ => false end.

Lemma init_finite j i : init_pos p !! j = Some i -> is_finite i = true.
Proof.
  assert (forallb is_finite (init_pos p) = true) as H.
  { pose proof Hin as H. repeat (apply elem_of_cons in H as [->|H]; [by vm_compute|]). by apply elem_of_nil in H. }
  intros Hi. eapply forallb_forall; [exact H|]. apply list_elem_of_In. by eapply list_elem_of_lookup_2.
Qed.

Lemma blend_start init cur :
  is_finite init = true -> is_finite cur = true -> f32_ok cur = true -> SFeqb (blend (phase 0) init cur) cur = true.
Proof.
  intros Hi Hc Hok.
  assert (phase 0 = fzero) as -> by (by vm_compute).
  unfold blend. assert (F32.sub one fzero = F32.of_Z 1) as -> by (by vm_compute).
  rewrite F32_mul_one by done.
  assert (∃ b, F32.mul init fzero = S754_zero b) as [b ->] by (destruct init; try done; by eexists).
  destruct cur as [[]| | |[] m e]; try done; destruct b; try done;
    cbn; unfold SFeqb; cbn; rewrite Z.compare_refl, Pos.compare_cont_refl; done.
Qed.

Lemma first_angle motor_state cur i j x :
  read_joints p motor_state = Some cur -> arm_joints p !! j = Some i -> motor_state !! i = Some x ->
  f32_ok x = true -> is_finite x = true ->
  SFeqb (zip_with (blend (phase 0)) (init_pos p) cur !!! j) x = true.
Proof.
  intros Hr Hj Hx Hok Hfin. pose proof (programs_wf p Hin) as Hp.
  assert (cur !! j = Some x) as Hcur.
  { apply mapM_Some_1 in Hr. eapply Forall2_lookup_l in Hr as (y & Hy & Hf); [|exact Hj].
    rewrite Hx in Hf. by injection Hf as ->. }
  destruct (joint_lookup j (lookup_lt_Some _ _ _ Hj)) as (t & i0 & s & _ & Hi & _).
  erewrite list_lookup_total_correct; [|by rewrite lookup_zip_with, Hi, Hcur].
  apply blend_start; [by eapply init_finite|done|done].
Qed.

End Motion.

(** ** Properties *)
Module ArmProps.

(** C34. The arm programs do not throw, and send exactly their schedule: the
    blend from the measured to the initial posture, the lifting, the lowering
    and the reduction of the weight.  The lifting ends exactly in the target
    posture and the lowering exactly in the initial one; at the end the weight
    is zero for the g1 programs, but still 10066316 / 2^24 (0.6) for the h1's. *)
Theorem arm_sdk_refines_schedule p motor_state :
  p ∈ programs -> (35 <= length motor_state)%nat ->
  ∃ cur s, read_joints p motor_state = Some cur ∧ main p motor_state = Some s ∧
    written s = schedule p cur ∧ length (written s) = messages p ∧
    written s !! 349%nat = Some (frame p one (Some (target_pos p))) ∧
    written s !! 599%nat = Some (frame p one (Some (init_pos p))) ∧
    last (written s) =
      Some (frame p (if clears_weight p then fzero else S754_finite false 10066316 (-24)) (Some (init_pos p))).
Proof.
  intros Hin Hl. pose proof (programs_wf p Hin) as Hp. pose proof (programs_motors p Hin) as Hm.
  destruct (read_joints_ok p Hp motor_state) as (cur & Hr & Hc); [lia|].
  destruct (main_schedule p Hp motor_state cur Hr Hc) as (s & Hs & Hw).
  exists cur, s. rewrite Hw, length_schedule by exact Hin.
  split; [exact Hr|]. split; [exact Hs|]. split; [reflexivity|]. split; [reflexivity|].
  split; [|split].
  - rewrite (schedule_at p Hin cur 249 349) by (reflexivity || unfold messages; lia). do 3 f_equal.
    unfold angle. rewrite decide_True by lia. rewrite <- (lift_reaches p Hin) at 2. by rewrite num_steps.
  - rewrite (schedule_at p Hin cur 499 599) by (reflexivity || unfold messages; lia). do 3 f_equal.
    unfold angle. rewrite decide_False, decide_True by lia. rewrite <- (lower_reaches p Hin) at 2. by rewrite num_steps.
  - rewrite last_lookup, length_schedule by exact Hin. unfold messages. destruct (clears_weight p) eqn:Ec.
    + change (pred (700 + 1)) with 700%nat.
      by rewrite (schedule_at p Hin cur 600 700) by (reflexivity || unfold messages; rewrite Ec; lia).
    + change (pred (700 + 0)) with 699%nat.
      rewrite (schedule_at p Hin cur 599 699) by (reflexivity || unfold messages; rewrite Ec; lia).
      reflexivity.
Qed.

Lemma arm_sdk_refines_schedule_witness :
  ∃ s, main h1_arm (replicate 35 one) = Some s ∧ length (written s) = 700%nat.
Proof.
  destruct (arm_sdk_refines_schedule h1_arm (replicate 35 one)) as (cur & s & _ & Hm & _ & Hl & _).
  - by (do 2 apply list_elem_of_further; apply list_elem_of_here).
  - rewrite length_replicate. lia.
  - exists s. split; [exact Hm|]. rewrite Hl. reflexivity.
Defined.

(** C35. What the arm programs send is safe: in every message the weight is in
    [0, 1] and the motors that are neither arm joints nor the weight are left
    uncommanded; the first message holds each arm joint where it was measured;
    and from the start of the lifting on, no joint's target moves by more than
    0.0100001 rad between messages. *)
Theorem arm_sdk_safe_motion p motor_state s :
  p ∈ programs -> (35 <= length motor_state)%nat -> main p motor_state = Some s ->
  (∀ k m, written s !! k = Some m ->
     (∃ a, m !! kNotUsedJoint p = Some a ∧ fin_range fzero (q a) one) ∧
     (∀ i, (i < motors p)%nat -> i ∉ arm_joints p -> i ≠ kNotUsedJoint p -> m !! i = Some (blank_motor p))) ∧
  (∀ i x m, i ∈ arm_joints p -> motor_state !! i = Some x -> f32_ok x = true -> is_finite x = true ->
     written s !! 0%nat = Some m -> ∃ a, m !! i = Some a ∧ SFeqb (q a) x = true) ∧
  (∀ k i m m' a a', (100 <= k)%nat -> i ∈ arm_joints p ->
     written s !! k = Some m -> written s !! S k = Some m' -> m !! i = Some a -> m' !! i = Some a' ->
     close (q a) (q a') = true).
Proof.
  intros Hin Hl Hs. pose proof (programs_wf p Hin) as Hp. pose proof (programs_motors p Hin) as Hm.
  destruct (read_joints_ok p Hp motor_state) as (cur & Hr & Hc); [lia|].
  destruct (main_schedule p Hp motor_state cur Hr Hc) as (s' & Hs' & Hw).
  rewrite Hs in Hs'. apply (inj Some) in Hs'. subst s'. rewrite Hw. split; [|split].
  - intros k m Hk. destruct (schedule_frame p Hin cur k m Hk) as (w & qs & -> & Hrange). split.
    + eexists. split; [by apply frame_weight|exact Hrange].
    + intros i Hi Hn Hne. by apply frame_other.
  - intros i x m [j Hj]%list_elem_of_lookup_1 Hx Hok Hfin H0.
    rewrite schedule_first in H0 by lia. apply (inj Some) in H0. subst m.
    eexists. split; [by apply frame_joint|]. cbn [q set_motor].
    eapply (first_angle p Hin motor_state cur i j); eassumption.
  - intros k i m m' a a' Hk [j Hj]%list_elem_of_lookup_1 Hm1 Hm2 Ha Ha'.
    eapply (frames_close p Hin cur k); eassumption.
Qed.

Lemma arm_sdk_safe_motion_witness :
  ∃ s, main h1_arm (replicate 35 one) = Some s ∧
       ∀ k m, written s !! k = Some m -> ∃ a, m !! 9%nat = Some a ∧ fin_range fzero (q a) one.
Proof.
  assert (h1_arm ∈ programs) as Hin by (by (do 2 apply list_elem_of_further; apply list_elem_of_here)).
  assert (35 <= length (replicate 35 one))%nat as Hl by (rewrite length_replicate; lia).
  destruct (read_joints_ok h1_arm (programs_wf _ Hin) (replicate 35 one)) as (cur & Hr & Hc).
  { rewrite length_replicate. apply (programs_motors _ Hin). }
  destruct (main_schedule h1_arm (programs_wf _ Hin) _ cur Hr Hc) as (s & Hs & _).
  exists s. split; [exact Hs|]. intros k m Hk.
  exact (proj1 (proj1 (arm_sdk_safe_motion h1_arm _ s Hin Hl Hs) k m Hk)).
Defined.

End ArmProps.
