(* ===== verification/LowLevel.v ===== *)
(** * The low-level programs of the humanoid robots.

    Models [src/example/g1/low_level/g1_ankle_swing_example.cpp],
    [g1_dual_arm_example.cpp] and [src/example/h1/low_level/h1_27dof_example.cpp].
    The three programs share one architecture: the subscriber calls
    [LowStateHandler], and two recurrent threads call [Control] and
    [LowCommandWriter]; they communicate through [DataBuffer]s and the members
    [mode_] and [mode_machine_].  Each method is written down as a whole and as
    the sequence of its accesses to the shared members, and a system of the three
    threads interleaves these accesses.

    [std::sin] is a parameter, and so is the recorded motion of the dual-arm
    program, which it loads from a file.  Printing and the creation of channels
    and threads are left out. *)

From S2P Require Import Prelude Floats Rounding Crc LowCmd HgMsg Gamepad.
Import Hg.

Local Open Scope Z_scope.

(** ** Data *)

(** [DataBuffer<T>]: every method holds the lock for its whole body, so it is
    one atomic access. *)
Module DataBuffer.
Definition t (T : Type) : Type := option T.
Definition SetData {T} (newData : T) (_ : t T) : t T := Some newData.
Definition GetData {T} (b : t T) : option T := b.
Definition Clear {T} (_ : t T) : t T := None.
End DataBuffer.

Record ImuState := { imu_rpy : list float32; imu_omega : list float32 }.
Record MotorCommand := {
  q_target : list float32; dq_target : list float32; cmd_kp : list float32; cmd_kd : list float32;
  tau_ff : list float32
}.
Record MotorState := { ms_q : list float32; ms_dq : list float32 }.

(** [PRorAB], which the ankle-swing program calls [Mode]. *)
Inductive PRorAB := PR | AB.

Definition PRorAB_value (m : PRorAB) : Z := match m with PR => 0 | AB => 1 end.

Inductive MotorType := GearboxS | GearboxM | GearboxL.

Inductive program := AnkleSwing | DualArm | H1_27dof.

#[global] Instance program_eq_dec : EqDecision program.
Proof. solve_decision. Defined.

(** [G1_NUM_MOTOR] and [H1_NUM_MOTOR]. *)
Definition NUM_MOTOR (p : program) : nat := match p with H1_27dof => 27 | _ => 29 end.

Definition legs : list MotorType :=
  [GearboxM; GearboxM; GearboxM; GearboxL; GearboxS; GearboxS;
   GearboxM; GearboxM; GearboxM; GearboxL; GearboxS; GearboxS].

Definition G1MotorType : list MotorType := legs ++ [GearboxM; GearboxS; GearboxS] ++ replicate 14 GearboxS.
Definition H1MotorType : list MotorType := legs ++ [GearboxM] ++ replicate 14 GearboxS.

Definition GetMotorKp (p : program) (type : MotorType) : float32 :=
  F32.of_Z match p, type with
           | H1_27dof, GearboxS => 80 | H1_27dof, GearboxM => 100 | H1_27dof, GearboxL => 200
           | _, GearboxL => 100 | _, _ => 40
           end.

Definition GetMotorKd (p : program) (type : MotorType) : float32 :=
  F32.of_Z match p, type with
           | H1_27dof, GearboxS => 2 | H1_27dof, GearboxM => 3 | H1_27dof, GearboxL => 5
           | _, _ => 1
           end.

(** The arrays [Kp] and [Kd] of the ankle-swing program. *)
Definition Kp : list float32 :=
  F32.of_Z <$> [60; 60; 60; 100; 40; 40; 60; 60; 60; 100; 40; 40; 60; 40; 40] ++ replicate 14 40.
Definition Kd : list float32 :=
  F32.of_Z <$> [1; 1; 1; 2; 1; 1; 1; 1; 1; 2; 1; 1; 1; 1; 1] ++ replicate 14 1.

(** The gains of every joint. *)
Definition gains (p : program) : list float32 * list float32 :=
  match p with
  | AnkleSwing => (Kp, Kd)
  | DualArm => (GetMotorKp p <$> G1MotorType, GetMotorKd p <$> G1MotorType)
  | H1_27dof => (GetMotorKp p <$> H1MotorType, GetMotorKd p <$> H1MotorType)
  end.

(** ** The control law *)

Definition control_dt_ : float64 := F64.lit 2 1000.
Definition duration_ : float64 := F64.of_Z 3.
Definition zero : float64 := F64.of_Z 0.
Definition one : float64 := F64.of_Z 1.
Definition two : float64 := F64.of_Z 2.

(** [duration_ * 2]. *)
Definition duration_2 : float64 := F64.mul duration_ two.

(** A command with the targets [q] and the fixed gains. *)
Definition command (p : program) (q : list float32) : MotorCommand :=
  {| q_target := q; dq_target := replicate (NUM_MOTOR p) fzero; cmd_kp := (gains p).1; cmd_kd := (gains p).2;
     tau_ff := replicate (NUM_MOTOR p) fzero |}.

(** [std::clamp(time_ / duration_, 0.0, 1.0)]. *)
Definition ratio (time : float64) : float64 := std_clamp (F64.div time duration_) zero one.

(** Stage 1, [(1.0 - ratio) * q] or [(q_des - q) * ratio + q] with [q_des = 0]. *)
Definition zero_target (p : program) (r : float64) (q : float32) : float32 :=
  let q := F64.of_f32 q in
  F32.of_f64
    match p with
    | AnkleSwing => F64.mul (F64.sub one r) q
    | _ => F64.add (F64.mul (F64.sub zero q) r) q
    end.

Definition zero_posture (p : program) (time : float64) (ms : MotorState) : MotorCommand :=
  command p ((fun i => zero_target p (ratio time) (ms_q ms !!! i)) <$> seq 0 (NUM_MOTOR p)).

(** [M_PI * degrees / 180.0]. *)
Definition radians (degrees : Z) : float64 := F64.div (F64.mul F64.M_PI (F64.of_Z degrees)) (F64.of_Z 180).

Definition max_P : float64 := radians 30.
Definition max_R : float64 := radians 10.

(** The ankle joints: pitch and roll in the PR mode, B and A in the AB mode. *)
Definition LeftAnklePitch : nat := 4.
Definition LeftAnkleRoll : nat := 5.
Definition RightAnklePitch : nat := 10.
Definition RightAnkleRoll : nat := 11.
Definition LeftAnkleB : nat := 4.
Definition LeftAnkleA : nat := 5.
Definition RightAnkleB : nat := 10.
Definition RightAnkleA : nat := 11.
Definition LeftShoulderPitch : nat := 15.

Definition zeros (p : program) : list float32 := replicate (NUM_MOTOR p) fzero.

Section Law.
Context (sin : float64 -> float64) (frames_data_ : list (list float64)).

(** Stage 2 of the swing programs, [t = time_ - duration_]. *)
Definition swing_PR (p : program) (time : float64) : MotorCommand :=
  let t := F64.sub time duration_ in
  let w := sin (F64.mul (F64.mul two F64.M_PI) t) in
  let L_P_des := F64.mul max_P w in
  let L_R_des := F64.mul max_R w in
  let R_P_des := F64.mul max_P w in
  let R_R_des := F64.mul (fneg max_R) w in
  command p (<[RightAnkleRoll := F32.of_f64 R_R_des]> (<[RightAnklePitch := F32.of_f64 R_P_des]>
            (<[LeftAnkleRoll := F32.of_f64 L_R_des]> (<[LeftAnklePitch := F32.of_f64 L_P_des]> (zeros p))))).

(** Stage 3, [t = time_ - duration_ * 2], [max_A = max_P], [max_B = max_R]. *)
Definition swing_AB (p : program) (time : float64) : MotorCommand :=
  let t := F64.sub time duration_2 in
  let w := sin (F64.mul F64.M_PI t) in
  let v := sin (F64.add (F64.mul F64.M_PI t) F64.M_PI) in
  let L_A_des := F64.mul max_P w in
  let L_B_des := F64.mul max_R v in
  let R_A_des := F64.mul (fneg max_P) w in
  let R_B_des := F64.mul (fneg max_R) v in
  command p (<[RightAnkleB := F32.of_f64 R_B_des]> (<[RightAnkleA := F32.of_f64 R_A_des]>
            (<[LeftAnkleB := F32.of_f64 L_B_des]> (<[LeftAnkleA := F32.of_f64 L_A_des]> (zeros p))))).

(** [(size_t)((time_ - duration_) / control_dt_)]; undefined when the quotient is
    not in range. *)
Definition frame_index (time : float64) : option Z :=
  z ← ftrunc (F64.div (F64.sub time duration_) control_dt_);
  guard (0 <= z < 2 ^ 64);; Some z.

(** Stage 2 of the dual-arm program: the index that is played and the new
    [time_], which is reset after the last frame; [n] is [frames_data_.size()]. *)
Definition next_frame (n : Z) (time : float64) : option (Z * float64) :=
  i ← frame_index time;
  Some (if n <=? i then (uwrap 64 (n - 1), zero) else (i, time)).

(** The targets of a frame: the arms follow it, the other joints stay at zero. *)
Definition frame_targets (frame : list float64) : option (list float32) :=
  mapM (fun i =>
    if (LeftShoulderPitch <=? i)%nat then F32.of_f64 <$> frame !! (i - LeftShoulderPitch)%nat
    else Some fzero) (seq 0 (NUM_MOTOR DualArm)).

(** The part of [Control] under [if (ms)], from [time_ += control_dt_] on: the new
    [time_] and [mode_], and the command; [None] for an access out of range. *)
Definition law (p : program) (time : float64) (mode : PRorAB) (ms : MotorState) :
    option (float64 * PRorAB * MotorCommand) :=
  let time := F64.add time control_dt_ in
  if flt time duration_ then Some (time, mode, zero_posture p time ms)
  else match p with
  | DualArm =>
      '(i, time) ← next_frame (Z.of_nat (length frames_data_)) time;
      frame ← frames_data_ !! Z.to_nat i;
      q ← frame_targets frame;
      Some (time, mode, command p q)
  | _ =>
      if flt time duration_2 then Some (time, PR, swing_PR p time)
      else Some (time, AB, swing_AB p time)
  end.
End Law.

(** ** The object *)

(** The members of [G1Example] and [H1Example]; [published] is what was handed to
    [lowcmd_publisher_].  Only the ankle-swing program has [counter_] and
    [gamepad_]. *)
Record Example := {
  time_ : float64; mode_ : PRorAB; mode_machine_ : Z; counter_ : Z; gamepad_ : Gamepad.t;
  motor_state_buffer_ : DataBuffer.t MotorState;
  motor_command_buffer_ : DataBuffer.t MotorCommand;
  imu_state_buffer_ : DataBuffer.t ImuState;
  published : list LowCmd_
}.

(** After the constructor. *)
Definition Example_init : Example :=
  {| time_ := zero; mode_ := PR; mode_machine_ := 0; counter_ := 0; gamepad_ := Gamepad.init;
     motor_state_buffer_ := None; motor_command_buffer_ := None; imu_state_buffer_ := None; published := [] |}.

Definition set_motor_state (ms : MotorState) (e : Example) : Example :=
  {| time_ := time_ e; mode_ := mode_ e; mode_machine_ := mode_machine_ e; counter_ := counter_ e;
     gamepad_ := gamepad_ e; motor_state_buffer_ := DataBuffer.SetData ms (motor_state_buffer_ e);
     motor_command_buffer_ := motor_command_buffer_ e; imu_state_buffer_ := imu_state_buffer_ e;
     published := published e |}.

Definition set_motor_command (c : MotorCommand) (e : Example) : Example :=
  {| time_ := time_ e; mode_ := mode_ e; mode_machine_ := mode_machine_ e; counter_ := counter_ e;
     gamepad_ := gamepad_ e; motor_state_buffer_ := motor_state_buffer_ e;
     motor_command_buffer_ := DataBuffer.SetData c (motor_command_buffer_ e);
     imu_state_buffer_ := imu_state_buffer_ e; published := published e |}.

Definition set_imu_state (s : ImuState) (e : Example) : Example :=
  {| time_ := time_ e; mode_ := mode_ e; mode_machine_ := mode_machine_ e; counter_ := counter_ e;
     gamepad_ := gamepad_ e; motor_state_buffer_ := motor_state_buffer_ e;
     motor_command_buffer_ := motor_command_buffer_ e;
     imu_state_buffer_ := DataBuffer.SetData s (imu_state_buffer_ e); published := published e |}.

Definition set_gamepad (g : Gamepad.t) (e : Example) : Example :=
  {| time_ := time_ e; mode_ := mode_ e; mode_machine_ := mode_machine_ e; counter_ := counter_ e;
     gamepad_ := g; motor_state_buffer_ := motor_state_buffer_ e;
     motor_command_buffer_ := motor_command_buffer_ e; imu_state_buffer_ := imu_state_buffer_ e;
     published := published e |}.

Definition set_machine (m counter : Z) (e : Example) : Example :=
  {| time_ := time_ e; mode_ := mode_ e; mode_machine_ := m; counter_ := counter; gamepad_ := gamepad_ e;
     motor_state_buffer_ := motor_state_buffer_ e; motor_command_buffer_ := motor_command_buffer_ e;
     imu_state_buffer_ := imu_state_buffer_ e; published := published e |}.

Definition set_time_mode (t : float64) (m : PRorAB) (e : Example) : Example :=
  {| time_ := t; mode_ := m; mode_machine_ := mode_machine_ e; counter_ := counter_ e; gamepad_ := gamepad_ e;
     motor_state_buffer_ := motor_state_buffer_ e; motor_command_buffer_ := motor_command_buffer_ e;
     imu_state_buffer_ := imu_state_buffer_ e; published := published e |}.

Definition Write (c : LowCmd_) (e : Example) : Example :=
  {| time_ := time_ e; mode_ := mode_ e; mode_machine_ := mode_machine_ e; counter_ := counter_ e;
     gamepad_ := gamepad_ e; motor_state_buffer_ := motor_state_buffer_ e;
     motor_command_buffer_ := motor_command_buffer_ e; imu_state_buffer_ := imu_state_buffer_ e;
     published := published e ++ [c] |}.

(** *** LowStateHandler *)

(** [ms_tmp], filled by the loop over the motors. *)
Definition motor_state (p : program) (m : LowState_) : MotorState :=
  {| ms_q := (fun i => motor_q i m) <$> seq 0 (NUM_MOTOR p); ms_dq := (fun i => motor_dq i m) <$> seq 0 (NUM_MOTOR p) |}.

Definition imu_state (m : LowState_) : ImuState := {| imu_rpy := rpy m; imu_omega := gyroscope m |}.

(** The update of the gamepad, in the program that has one. *)
Definition store_gamepad (p : program) (m : LowState_) (e : Example) : Example :=
  match p with
  | AnkleSwing => set_gamepad (Gamepad.update (gamepad_ e) (rf_rx (wireless_remote m))) e
  | _ => e
  end.

(** [mode_machine_], and the counter of the reports. *)
Definition store_machine (p : program) (m : LowState_) (e : Example) : Example :=
  set_machine (if bool_decide (mode_machine_ e = state_mode_machine m) then mode_machine_ e
               else state_mode_machine m)
    (match p with
     | AnkleSwing => let c := i32 (counter_ e + 1) in if Z.rem c 500 =? 0 then 0 else c
     | _ => counter_ e
     end) e.

Definition LowStateHandler (p : program) (m : LowState_) (e : Example) : Example :=
  if crc_matches m then
    store_machine p m (store_gamepad p m (set_imu_state (imu_state m) (set_motor_state (motor_state p m) e)))
  else e.

(** *** LowCommandWriter *)

(** The loop over the motors. *)
Definition fill_motors (p : program) (mc : MotorCommand) (l : list MotorCmd_) : list MotorCmd_ :=
  imap (fun i m =>
    if (i <? NUM_MOTOR p)%nat
    then {| mode := 1; tau := tau_ff mc !!! i; q := q_target mc !!! i; dq := dq_target mc !!! i;
            kp := cmd_kp mc !!! i; kd := cmd_kd mc !!! i; reserve := reserve m |}
    else m) l.

(** [dds_low_command], with the values read from [mode_] and [mode_machine_]. *)
Definition frame (pad : Padding) (p : program) (pr : PRorAB) (machine : Z) (mc : MotorCommand) : LowCmd_ :=
  seal pad {| mode_pr := PRorAB_value pr; mode_machine := machine;
              motor_cmd := fill_motors p mc (motor_cmd LowCmd_default);
              lc_reserve := lc_reserve LowCmd_default; crc := crc LowCmd_default |}.

Section Threads.
Context (pad : Padding) (sin : float64 -> float64) (frames_data_ : list (list float64)).

Definition LowCommandWriter (p : program) (e : Example) : Example :=
  match DataBuffer.GetData (motor_command_buffer_ e) with
  | Some mc => Write (frame pad p (mode_ e) (mode_machine_ e) mc) e
  | None => e
  end.

(** *** Control *)

Definition Control (p : program) (e : Example) : option Example :=
  match DataBuffer.GetData (motor_state_buffer_ e) with
  | Some ms =>
      '(t, m, c) ← law sin frames_data_ p (time_ e) (mode_ e) ms;
      Some (set_motor_command c (set_time_mode t m e))
  | None => Some e
  end.

(** ** The three threads *)

(** Where each thread is in its method; a thread between two calls is idle. *)
Inductive handler_pc := HIdle | HImu (m : LowState_) | HGamepad (m : LowState_) | HMachine (m : LowState_).
Inductive control_pc := CIdle | CLaw (ms : MotorState) | CStore (c : MotorCommand).
Inductive writer_pc := WIdle | WMachine (pr : PRorAB) | WWrite (pr : PRorAB) (machine : Z).

(** [received] lists the messages the handler accepted. *)
Record System := {
  obj : Example; handler : handler_pc; control : control_pc; writer : writer_pc; received : list LowState_
}.

Definition System_init : System :=
  {| obj := Example_init; handler := HIdle; control := CIdle; writer := WIdle; received := [] |}.

Definition with_handler (e : Example) (h : handler_pc) (s : System) : System :=
  {| obj := e; handler := h; control := control s; writer := writer s; received := received s |}.
Definition with_control (e : Example) (c : control_pc) (s : System) : System :=
  {| obj := e; handler := handler s; control := c; writer := writer s; received := received s |}.
Definition with_writer (e : Example) (w : writer_pc) (s : System) : System :=
  {| obj := e; handler := handler s; control := control s; writer := w; received := received s |}.

(** What can happen next: a message arrives, or a thread makes its next access. *)
Inductive event := Deliver (m : LowState_) | Handler | Ctrl | Writer.

Definition handler_step (p : program) (s : System) : option System :=
  match handler s with
  | HIdle => None
  | HImu m => Some (with_handler (set_imu_state (imu_state m) (obj s)) (HGamepad m) s)
  | HGamepad m => Some (with_handler (store_gamepad p m (obj s)) (HMachine m) s)
  | HMachine m => Some (with_handler (store_machine p m (obj s)) HIdle s)
  end.

(** The call of the handler, up to the first buffer. *)
Definition deliver (p : program) (m : LowState_) (s : System) : option System :=
  match handler s with
  | HIdle =>
      Some (if crc_matches m
            then {| obj := set_motor_state (motor_state p m) (obj s); handler := HImu m;
                    control := control s; writer := writer s; received := received s ++ [m] |}
            else s)
  | _ => None
  end.

Definition control_step (p : program) (s : System) : option System :=
  match control s with
  | CIdle =>
      Some (match DataBuffer.GetData (motor_state_buffer_ (obj s)) with
            | Some ms => with_control (obj s) (CLaw ms) s
            | None => s
            end)
  | CLaw ms =>
      '(t, m, c) ← law sin frames_data_ p (time_ (obj s)) (mode_ (obj s)) ms;
      Some (with_control (set_time_mode t m (obj s)) (CStore c) s)
  | CStore c => Some (with_control (set_motor_command c (obj s)) CIdle s)
  end.

Definition writer_step (p : program) (s : System) : option System :=
  Some match writer s with
       | WIdle => with_writer (obj s) (WMachine (mode_ (obj s))) s
       | WMachine pr => with_writer (obj s) (WWrite pr (mode_machine_ (obj s))) s
       | WWrite pr machine =>
           match DataBuffer.GetData (motor_command_buffer_ (obj s)) with
           | Some mc => with_writer (Write (frame pad p pr machine mc) (obj s)) WIdle s
           | None => with_writer (obj s) WIdle s
           end
       end.

Definition step (p : program) (ev : event) (s : System) : option System :=
  match ev with
  | Deliver m => deliver p m s
  | Handler => handler_step p s
  | Ctrl => control_step p s
  | Writer => writer_step p s
  end.

Fixpoint run (p : program) (evs : list event) (s : System) : option System :=
  match evs with
  | [] => Some s
  | ev :: evs => s ← step p ev s; run p evs s
  end.

(** What is delivered is an object of type [LowState_]. *)
Definition event_ok (ev : event) : Prop := match ev with Deliver m => state_ok m | _ => True end.

(** The states a program can be in. *)
Definition reachable (p : program) (s : System) : Prop :=
  ∃ evs, Forall event_ok evs ∧ run p evs System_init = Some s.
End Threads.

(** The methods of the two classes that share the definitions above. *)
Definition g1_dual_arm_LowStateHandler : LowState_ -> Example -> Example := LowStateHandler DualArm.
Definition g1_dual_arm_LowCommandWriter (pad : Padding) : Example -> Example := LowCommandWriter pad DualArm.
Definition g1_dual_arm_Control (sin : float64 -> float64) (frames_data_ : list (list float64)) :
  Example -> option Example := Control sin frames_data_ DualArm.

Definition h1_27dof_LowStateHandler : LowState_ -> Example -> Example := LowStateHandler H1_27dof.
Definition h1_27dof_LowCommandWriter (pad : Padding) : Example -> Example := LowCommandWriter pad H1_27dof.
Definition h1_27dof_Control (sin : float64 -> float64) : Example -> option Example := Control sin [] H1_27dof.
