(* ===== verification/LowLevelSchedule.v ===== *)
(** * The schedules of the low-level programs.

    When each stage of the programs of [LowLevel] begins and ends.  [time_] is a
    [double] that accumulates 0.002, so the boundaries are computed on the actual
    rounded clock: 1500 steps to the zero posture, then, in the swing programs,
    1500 in the PR mode and the rest in the AB mode, and in the dual-arm program
    the recorded motion, after which the turn starts again. *)

From S2P Require Import Prelude Floats Rounding LowLevel.

Local Open Scope Z_scope.

Module ScheduleProps.

(** A [double] usable as a proportion. *)
Definition unit_ratio (r : float64) : bool := ok64 r && fle zero r && fle r one.

(** ** The clock *)

(** [time_] after [k] steps of [Control], when it is not reset. *)
Definition time_at (k : nat) : float64 := Nat.iter k (fun t => F64.add t control_dt_) zero.

Lemma time_at_S k : time_at (S k) = F64.add (time_at k) control_dt_.
Proof. done. Qed.

(** [time_] cannot pass [2^45]: there the step is less than half a unit in the
    last place. *)
Definition time_limit : float64 := F64.of_Z (2 ^ 45).

Lemma time_limit_fixed : F64.add time_limit control_dt_ = time_limit.
Proof. vm_compute. reflexivity. Qed.

Lemma fval_time_limit : fval time_limit = 2 ^ 53 * pw (-8).
Proof. vm_compute. reflexivity. Qed.

Lemma dt_small : 0 <= fval control_dt_ <= pw (-8).
Proof. split; vm_compute; congruence. Qed.

Lemma below_limit_gap t :
  ok64 t = true -> 0 <= fval t < fval time_limit -> fval t + fval control_dt_ <= fval time_limit.
Proof.
  rewrite fval_time_limit. intros Ht [H0 Hlt]. pose proof dt_small as [_ Hd].
  assert (Hp : 0 < pw (-8)) by (apply pw_pos; unfold scale; lia).
  assert (fval t <= (2 ^ 53 - 1) * pw (-8)); [|lia].
  destruct t as [s|s| |s m e]; try done.
  pose proof (number_mantissa 53 1024 ltac:(lia) ltac:(lia) ltac:(lia) _ _ _ Ht) as (M1 & M2 & M3 & M4).
  unfold emin in *. assert (Hpe : 0 < pw e) by (apply pw_pos; unfold scale; lia).
  destruct s; cbn [fval cond_Zopp] in *; [lia|].
  destruct (Z.lt_trichotomy e (-8)) as [He|[->|He]].
  - assert (pw e <= pw (-9)) by (apply pw_mono; lia).
    assert (pw (-8) = 2 * pw (-9)) by (apply (pw_add (-9) 1); unfold scale; lia). nia.
  - nia.
  - exfalso. specialize (M4 ltac:(lia)).
    assert (pw (-7) <= pw e) by (apply pw_mono; lia).
    assert (pw (-7) = 2 * pw (-8)) by (apply (pw_add (-8) 1); unfold scale; lia).
    change (53 - 1) with 52 in M4. change (2 ^ 53) with (2 * 2 ^ 52) in Hlt. nia.
Qed.

(** A step keeps every lower bound. *)
Lemma tick_bounds t lo :
  ok64 t = true -> ok64 lo = true -> 0 <= fval lo <= fval t -> fval t <= fval time_limit ->
  ok64 (F64.add t control_dt_) = true ∧ fval lo <= fval (F64.add t control_dt_) <= fval time_limit.
Proof.
  intros Ht Hlo Hb Hle. assert (HT : ok64 time_limit = true) by done.
  destruct (Z.eq_dec (fval t) (fval time_limit)) as [He|Hne].
  - assert (t = time_limit) as ->.
    { destruct time_limit as [s|s| |s m e] eqn:E; try done. apply SFeqb_finite. rewrite <- E in *.
      unfold SFeqb. rewrite (compare_fval 53 1024), He, Z.compare_refl by (lia || done). done. }
    rewrite time_limit_fixed. split; [done|lia].
  - pose proof (below_limit_gap t Ht). pose proof dt_small.
    apply (add_between 53 1024); try done; lia.
Qed.

(** [scan check n t] tests the next [n] values of the clock. *)
Fixpoint scan (check : float64 -> bool) (n : nat) (t : float64) : bool :=
  match n with
  | O => true
  | S n => let t := F64.add t control_dt_ in check t && scan check n t
  end.

Lemma scan_spec check n k j : scan check n (time_at k) = true -> (j < n)%nat -> check (time_at (S (k + j))) = true.
Proof.
  revert k j; induction n as [|n IH]; intros k j; [lia|]. cbn [scan]. rewrite <- time_at_S.
  intros [H1 H2]%andb_true_iff Hj. destruct j as [|j]; [by rewrite Nat.add_0_r|].
  rewrite Nat.add_succ_r. apply (IH (S k)); [done|lia].
Qed.

Definition early (t : float64) : bool := flt t duration_ && unit_ratio (ratio t).
Definition middle (t : float64) : bool := negb (flt t duration_) && flt t duration_2.

Definition late (t : float64) : bool := ok64 t && fle duration_2 t && fle t time_limit.

Lemma clock_early : scan early 1500 (time_at 0) = true.
Proof. vm_compute. reflexivity. Qed.

Lemma clock_middle : scan middle 1500 (time_at 1500) = true.
Proof. vm_compute. reflexivity. Qed.

Lemma clock_late : late (time_at 3001) = true.
Proof. vm_compute. reflexivity. Qed.

Lemma time_0 : time_at 0 = zero.
Proof. done. Qed.

#[global] Opaque time_at.

Lemma time_early k : (k < 1500)%nat ->
  flt (time_at (S k)) duration_ = true ∧ unit_ratio (ratio (time_at (S k))) = true.
Proof.
  intros Hk. pose proof (scan_spec _ _ 0 k clock_early Hk) as H. by apply andb_true_iff in H.
Qed.

Lemma time_middle k : (1500 <= k < 3000)%nat ->
  flt (time_at (S k)) duration_ = false ∧ flt (time_at (S k)) duration_2 = true.
Proof.
  intros Hk. pose proof (scan_spec _ _ 1500 (k - 1500) clock_middle ltac:(lia)) as H.
  replace (1500 + (k - 1500))%nat with k in H by lia.
  apply andb_true_iff in H as [H1%negb_true_iff H2]. done.
Qed.

Lemma durations : ok64 duration_ = true ∧ ok64 duration_2 = true ∧ 0 <= fval duration_ <= fval duration_2 ∧
                  0 <= fval time_limit.
Proof. split_and!; try done; vm_compute; congruence. Qed.

(** From tick 3001 on the clock is past both stages, for ever. *)
Lemma late_spec t : late t = true -> ok64 t = true ∧ fval duration_2 <= fval t <= fval time_limit.
Proof.
  intros [[H1 H2]%andb_true_iff H3]%andb_true_iff. rewrite fle64 in H2, H3 by done. split; [done|lia].
Qed.

Lemma time_from j k :
  ok64 (time_at k) = true ∧ fval duration_2 <= fval (time_at k) <= fval time_limit ->
  ok64 (time_at (j + k)) = true ∧ fval duration_2 <= fval (time_at (j + k)) <= fval time_limit.
Proof.
  pose proof durations as (D1 & D2 & D3 & D4). intros H. induction j as [|j (IH1 & IH2 & IH3)]; [exact H|].
  cbn [Nat.add]. rewrite time_at_S. apply tick_bounds; [exact IH1|exact D2|lia|exact IH3].
Qed.

Lemma time_late_number k : (3000 <= k)%nat ->
  ok64 (time_at (S k)) = true ∧ fval duration_2 <= fval (time_at (S k)) <= fval time_limit.
Proof.
  intros Hk. replace (S k) with ((k - 3000) + 3001)%nat by lia. apply time_from, late_spec, clock_late.
Qed.

Lemma time_late k : (3000 <= k)%nat ->
  flt (time_at (S k)) duration_ = false ∧ flt (time_at (S k)) duration_2 = false.
Proof.
  intros Hk. pose proof (time_late_number k Hk) as (H1 & H2 & _). pose proof durations as (D1 & D2 & D3 & _).
  split; apply not_true_iff_false; rewrite flt64 by done; lia.
Qed.

Lemma time_number k : ok64 (time_at k) = true ∧ 0 <= fval (time_at k) <= fval time_limit.
Proof.
  pose proof durations as (_ & _ & _ & D4). induction k as [|k [IH1 IH2]].
  - rewrite time_0. split; [done|]. change (fval zero) with 0. lia.
  - rewrite time_at_S. apply (tick_bounds (time_at k) zero); try done; change (fval zero) with 0; lia.
Qed.

(** ** What [Control] does, call after call *)

Section Laws.
Context (sin : float64 -> float64) (frames : list (list float64)).

(** Successive calls of [Control], each after a state message with the motor
    states of [mss]. *)
Definition calls (p : program) (mss : list MotorState) : option Example :=
  foldl (fun o ms => e ← o; Control sin frames p (set_motor_state ms e)) (Some Example_init) mss.

Lemma calls_snoc p mss ms :
  calls p (mss ++ [ms]) = e ← calls p mss; Control sin frames p (set_motor_state ms e).
Proof. unfold calls. by rewrite foldl_app. Qed.

(** The schedule of the swing programs: the [k]-th call. *)
Definition swing_stage (p : program) (k : nat) (ms : MotorState) : PRorAB * MotorCommand :=
  if (k <? 1500)%nat then (PR, zero_posture p (time_at (S k)) ms)
  else if (k <? 3000)%nat then (PR, swing_PR sin p (time_at (S k)))
  else (AB, swing_AB sin p (time_at (S k))).

Definition mode_before (k : nat) : PRorAB := if (k <=? 3000)%nat then PR else AB.

Lemma mode_before_0 : mode_before 0 = PR.
Proof. done. Qed.

Lemma law_swing p k ms :
  p ≠ DualArm ->
  law sin frames p (time_at k) (mode_before k) ms
  = Some (time_at (S k), mode_before (S k), (swing_stage p k ms).2) ∧
  (swing_stage p k ms).1 = mode_before (S k).
Proof.
  intros Hp. unfold law. cbn zeta. rewrite <- time_at_S. unfold swing_stage, mode_before.
  destruct (Nat.ltb_spec k 1500) as [H1|H1]; [|destruct (Nat.ltb_spec k 3000) as [H2|H2]].
  - destruct (time_early k H1) as [-> _].
    rewrite (proj2 (Nat.leb_le k 3000)), (proj2 (Nat.leb_le (S k) 3000)) by lia. done.
  - destruct (time_middle k) as [-> ->]; [lia|]. rewrite (proj2 (Nat.leb_le (S k) 3000)) by lia.
    by destruct p.
  - destruct (time_late k H2) as [-> ->]. rewrite (proj2 (Nat.leb_gt (S k) 3000)) by lia.
    by destruct p.
Qed.

Lemma calls_swing p mss :
  p ≠ DualArm ->
  ∃ e, calls p mss = Some e ∧ time_ e = time_at (length mss) ∧ mode_ e = mode_before (length mss) ∧
       ∀ mss' ms, mss = mss' ++ [ms] -> mode_ e = (swing_stage p (length mss') ms).1 ∧
                                        motor_command_buffer_ e = Some (swing_stage p (length mss') ms).2.
Proof.
  intros Hp. induction mss as [|ms mss (e & IH & Ht & Hm & _)] using rev_ind.
  - exists Example_init. split_and!; [done|exact (eq_sym time_0)|exact (eq_sym mode_before_0)|].
    intros mss' ms Hn. by destruct mss'.
  - rewrite calls_snoc, IH. cbn [mbind option_bind].
    unfold Control. cbn [set_motor_state motor_state_buffer_ DataBuffer.SetData DataBuffer.GetData time_ mode_].
    rewrite Ht, Hm. destruct (law_swing p (length mss) ms Hp) as [-> Hs]. cbn [mbind option_bind].
    eexists. split; [reflexivity|]. rewrite length_app, Nat.add_1_r.
    cbn [set_motor_command set_time_mode time_ mode_ motor_command_buffer_ DataBuffer.SetData].
    split_and!; [done|done|]. intros mss' ms' [<- [= <-]]%app_inj_tail. done.
Qed.
End Laws.

#[global] Opaque mode_before.

(** ** The replay of the dual-arm program *)

(** A step of its clock: the frame that is played, if any, and the new [time_].
    [motion.seq] has 3817 frames. *)
Definition motion_frames : Z := 3817.

Definition play (t : float64) : option (option Z * float64) :=
  let t := F64.add t control_dt_ in
  if flt t duration_ then Some (None, t) else '(i, t) ← next_frame motion_frames t; Some (Some i, t).

Definition dual_time (k : nat) : float64 := Nat.iter k (fun t => match play t with Some (_, t) => t | None => t end) zero.

Lemma dual_time_S k : dual_time (S k) = match play (dual_time k) with Some (_, t) => t | None => dual_time k end.
Proof. done. Qed.

(** What one turn plays: 1500 steps to the zero posture, then the frames. *)
Definition turn : list (option Z) :=
  replicate 1500 None ++ (Some <$> seqZ 0 3486) ++ (Some <$> seqZ 3487 330) ++ [Some 3816].

Definition play_ok (e : option Z) (t : float64) : bool :=
  match e with None => unit_ratio (ratio t) | Some _ => true end.

(** [replays es t]: from [t] the clock plays [es]; the time reached. *)
Fixpoint replays (es : list (option Z)) (t : float64) : option float64 :=
  match es with
  | [] => Some t
  | e :: es =>
      match play t with
      | Some (e', t') => if bool_decide (e' = e) && play_ok e t' then replays es t' else None
      | None => None
      end
  end.

Lemma turn_replayed : replays turn zero = Some zero.
Proof. vm_compute. reflexivity. Qed.

Lemma length_turn : Z.of_nat (length turn) = 5317.
Proof. vm_compute. reflexivity. Qed.

Lemma replays_spec es k t :
  replays es (dual_time k) = Some t ->
  dual_time (length es + k) = t ∧
  ∀ j e, es !! j = Some e -> play (dual_time (j + k)) = Some (e, dual_time (S (j + k))) ∧
                             play_ok e (dual_time (S (j + k))) = true.
Proof.
  revert k; induction es as [|e es IH]; intros k; cbn [replays].
  - intros [= <-]. done.
  - destruct (play (dual_time k)) as [[e' t']|] eqn:E; [|done].
    destruct (bool_decide_reflect (e' = e)) as [->|]; [|done]. cbn [andb].
    destruct (play_ok e t') eqn:Ho; [|done].
    assert (Ht : dual_time (S k) = t') by (by rewrite dual_time_S, E). rewrite <- Ht.
    intros H. destruct (IH (S k) H) as [H1 H2]. rewrite Nat.add_succ_r in H1. split; [exact H1|].
    intros [|j] e0 Hj; cbn [lookup list_lookup] in Hj.
    + injection Hj as <-. cbn [Nat.add]. by rewrite E, Ht.
    + specialize (H2 j e0 Hj). by rewrite Nat.add_succ_r in H2.
Qed.


(** The frame of the [k]-th step, turn after turn. *)
Definition played (k : nat) : option Z := turn !!! (k mod length turn)%nat.

Lemma length_turn_pos : (0 < length turn)%nat.
Proof. pose proof length_turn. lia. Qed.

Lemma mod_turn k : (k mod length turn < length turn)%nat.
Proof. apply Nat.mod_upper_bound. pose proof length_turn_pos. lia. Qed.

Lemma dual_time_0 : dual_time 0 = zero.
Proof. done. Qed.

Lemma lookup_turn j : (j < length turn)%nat -> turn !! j = Some (turn !!! j).
Proof. apply list_lookup_lookup_total_lt. Qed.

#[global] Opaque turn dual_time motion_frames.

Lemma turns q : dual_time (q * length turn) = zero.
Proof.
  induction q as [|q IH]; [apply dual_time_0|].
  assert (H : replays turn (dual_time (q * length turn)) = Some zero) by (rewrite IH; exact turn_replayed).
  apply replays_spec in H as [H _]. exact H.
Qed.

Lemma play_at k :
  play (dual_time k) = Some (played k, dual_time (S k)) ∧ play_ok (played k) (dual_time (S k)) = true.
Proof.
  pose proof length_turn_pos as Hp.
  assert (H : replays turn (dual_time (k / length turn * length turn)) = Some zero)
    by (rewrite turns; exact turn_replayed).
  apply replays_spec in H as [_ H]. specialize (H (k mod length turn)%nat _ (lookup_turn _ (mod_turn k))).
  replace (k mod length turn + k / length turn * length turn)%nat with k in H; [exact H|].
  pose proof (Nat.div_mod_eq k (length turn)). lia.
Qed.

(** The motion as the program loads it: every frame has the fourteen arm angles. *)
Definition motion_ok (frames : list (list float64)) : Prop :=
  Z.of_nat (length frames) = motion_frames ∧ Forall (fun fr => (14 <= length fr)%nat) frames.

Definition frame_angles (fr : list float64) : list float32 := replicate 15 fzero ++ (F32.of_f64 <$> take 14 fr).

Lemma frame_targets_ok fr : (14 <= length fr)%nat -> frame_targets fr = Some (frame_angles fr).
Proof.
  intros Hl. do 14 (destruct fr as [|? fr]; [simpl in Hl; lia|]). cbn. done.
Qed.

Lemma played_range k i : played k = Some i -> 0 <= i < motion_frames.
Proof.
  intros H. assert (Hin : Some i ∈ turn).
  { apply list_elem_of_lookup_2 with (k mod length turn)%nat. rewrite <- H. apply lookup_turn, mod_turn. }
  clear H. revert Hin. with_strategy transparent [turn motion_frames] unfold turn, motion_frames.
  rewrite !elem_of_app. intros [Hi|[Hi|[Hi|Hi]]].
  - by apply elem_of_replicate in Hi as [? _].
  - apply list_elem_of_fmap in Hi as (z & [= ->] & Hz%elem_of_seqZ). lia.
  - apply list_elem_of_fmap in Hi as (z & [= ->] & Hz%elem_of_seqZ). lia.
  - apply list_elem_of_singleton in Hi as [= ->]. lia.
Qed.

Section Dual.
Context (sin : float64 -> float64) (frames : list (list float64)) (Hframes : motion_ok frames).

(** What the [k]-th call does: a step to the zero posture, or a frame. *)
Definition dual_stage (k : nat) (ms : MotorState) : PRorAB * MotorCommand :=
  (PR, match played k with
       | None => zero_posture DualArm (dual_time (S k)) ms
       | Some i => command DualArm (frame_angles (frames !!! Z.to_nat i))
       end).

Lemma frame_exists i : 0 <= i < motion_frames ->
  ∃ fr, frames !! Z.to_nat i = Some fr ∧ frames !!! Z.to_nat i = fr ∧ (14 <= length fr)%nat.
Proof.
  destruct Hframes as [Hl Hf]. intros Hi. destruct (lookup_lt_is_Some_2 frames (Z.to_nat i)) as [fr Hfr]; [lia|].
  exists fr. split_and!; [done|by apply list_lookup_total_correct|]. rewrite Forall_lookup in Hf. by eapply Hf.
Qed.

Lemma law_dual k ms :
  law sin frames DualArm (dual_time k) PR ms = Some (dual_time (S k), PR, (dual_stage k ms).2).
Proof.
  destruct (play_at k) as [Hp _]. unfold play in Hp. unfold law, dual_stage. cbn zeta in *.
  destruct (flt (F64.add (dual_time k) control_dt_) duration_) eqn:E.
  - injection Hp as Hp Ht. rewrite <- Hp, Ht. done.
  - destruct Hframes as [Hl _]. rewrite Hl.
    destruct (next_frame motion_frames (F64.add (dual_time k) control_dt_)) as [[i t]|]; [|done].
    cbn [mbind option_bind] in Hp |- *. injection Hp as Hi Ht. symmetry in Hi. rewrite Hi, Ht.
    destruct (frame_exists i (played_range k i Hi)) as (fr & -> & -> & Hlen).
    cbn [mbind option_bind]. by rewrite (frame_targets_ok fr Hlen).
Qed.

Lemma calls_dual mss :
  ∃ e, calls sin frames DualArm mss = Some e ∧ time_ e = dual_time (length mss) ∧ mode_ e = PR ∧
       ∀ mss' ms, mss = mss' ++ [ms] -> motor_command_buffer_ e = Some (dual_stage (length mss') ms).2.
Proof.
  induction mss as [|ms mss (e & IH & Ht & Hm & _)] using rev_ind.
  - exists Example_init. split_and!; [done|exact (eq_sym dual_time_0)|done|].
    intros mss' ms Hn. by destruct mss'.
  - rewrite calls_snoc, IH. cbn [mbind option_bind].
    unfold Control. cbn [set_motor_state motor_state_buffer_ DataBuffer.SetData DataBuffer.GetData time_ mode_].
    rewrite Ht, Hm, law_dual. cbn [mbind option_bind].
    eexists. split; [reflexivity|]. rewrite length_app, Nat.add_1_r.
    cbn [set_motor_command set_time_mode time_ mode_ motor_command_buffer_ DataBuffer.SetData].
    split_and!; [done|done|]. intros mss' ms' [<- [= <-]]%app_inj_tail. done.
Qed.
End Dual.

(** ** The schedules *)

(** The swing programs follow their schedule for ever.  After any number of
    calls of [Control], each with the motor states it finds, the last call has
    written the command of its stage and set the mode: the first 1500 calls move
    to the zero posture, the next 1500 swing the ankles in the PR mode, and every
    later call swings them in the AB mode, at the accumulated time of the call. *)
Lemma swing_schedule sin frames p mss ms :
  p ≠ DualArm ->
  let k := length mss in
  let stage :=
    if (k <? 1500)%nat then (PR, zero_posture p (time_at (S k)) ms)
    else if (k <? 3000)%nat then (PR, swing_PR sin p (time_at (S k)))
    else (AB, swing_AB sin p (time_at (S k))) in
  ∃ e, calls sin frames p (mss ++ [ms]) = Some e ∧ time_ e = time_at (S k) ∧
       mode_ e = stage.1 ∧ motor_command_buffer_ e = Some stage.2.
Proof.
  intros Hp k stage. destruct (calls_swing sin frames p (mss ++ [ms]) Hp) as (e & He & Ht & _ & Hc).
  destruct (Hc mss ms eq_refl) as [Hm Hq]. exists e.
  rewrite length_app, Nat.add_1_r in Ht. by split_and!.
Qed.

Lemma swing_schedule_witness :
  let ms := {| ms_q := replicate 29 fzero; ms_dq := replicate 29 fzero |} in
  ∃ e, calls (fun x => x) [] AnkleSwing ([] ++ [ms]) = Some e ∧
       mode_ e = PR ∧ motor_command_buffer_ e = Some (zero_posture AnkleSwing (time_at 1) ms).
Proof.
  intros ms. destruct (swing_schedule (fun x => x) [] AnkleSwing [] ms) as (e & H1 & _ & H2 & H3); [discriminate|].
  exists e. split; [exact H1|]. split; [exact H2|exact H3].
Defined.

(** The dual-arm program repeats one turn of 5317 calls for ever, whatever
    the robot answers, and never leaves the recorded motion: 1500 calls move to
    the zero posture, then the 3817 frames are played in their order.  Because
    the frame index is a truncated quotient of rounded times, frame 3486 is never
    played and the last frame is played twice. *)
Lemma dual_arm_replay sin frames mss ms :
  motion_ok frames ->
  let k := length mss in
  (∃ e, calls sin frames DualArm (mss ++ [ms]) = Some e ∧ mode_ e = PR ∧
        motor_command_buffer_ e = Some
          match turn !!! (k mod length turn)%nat with
          | None => zero_posture DualArm (dual_time (S k)) ms
          | Some i => command DualArm (frame_angles (frames !!! Z.to_nat i))
          end) ∧
  turn = replicate 1500 None ++ (Some <$> seqZ 0 3486) ++ (Some <$> seqZ 3487 330) ++ [Some 3816] ∧
  Z.of_nat (length turn) = 5317.
Proof.
  intros Hf k. split; [|split; [reflexivity|exact length_turn]].
  destruct (calls_dual sin frames Hf (mss ++ [ms])) as (e & He & _ & Hm & Hc).
  exists e. split_and!; [exact He|exact Hm|]. by rewrite (Hc mss ms eq_refl).
Qed.

Lemma motion_witness : motion_ok (replicate 3817 (replicate 14 zero)).
Proof. split; [vm_compute; reflexivity|]. apply Forall_replicate. rewrite length_replicate. lia. Qed.

Lemma dual_arm_replay_witness :
  let ms := {| ms_q := replicate 29 fzero; ms_dq := replicate 29 fzero |} in
  ∃ e, calls (fun x => x) (replicate 3817 (replicate 14 zero)) DualArm ([] ++ [ms]) = Some e ∧ mode_ e = PR.
Proof.
  intros ms. destruct (dual_arm_replay (fun x => x) _ [] ms motion_witness) as [(e & H1 & H2 & _) _].
  exists e. split; [exact H1|exact H2].
Defined.
End ScheduleProps.
