(* ===== verification/LowLevelSafety.v ===== *)
(** * Safety of the low-level programs.

    What the three threads of [LowLevel] publish, however they interleave: the
    targets stay within bounds, the gains are fixed, the frames are sealed, and
    nothing is sent before a valid state message. *)

From S2P Require Import Prelude Floats Rounding Crc LowCmd HgMsg Gamepad LowLevel LowLevelSchedule.
Import Hg Crc32 ScheduleProps.

Local Open Scope Z_scope.

Module LowLevelProps.

Create HintDb lowlevel.

(** ** Stage 1 stays between the measured angle and zero *)

(** [x] lies between zero and [q]. *)
Definition toward_zero (q x : float32) : Prop :=
  (fle fzero x = true ∧ fle x q = true) ∨ (fle q x = true ∧ fle x fzero = true).

#[global] Instance toward_zero_dec q x : Decision (toward_zero q x).
Proof. unfold toward_zero. apply _. Defined.

Lemma unit_ratio_spec r : unit_ratio r = true -> ok64 r = true ∧ 0 <= fval r <= fval one.
Proof.
  unfold unit_ratio. intros [[Hr H1]%andb_true_iff H2]%andb_true_iff.
  rewrite fle64 in H1, H2 by done. split; [done|]. split; [exact H1|exact H2].
Qed.

Lemma narrow_toward q y :
  ok32 q = true -> between 53 1024 (Z.min 0 (fval q)) y (Z.max 0 (fval q)) -> toward_zero q (F32.of_f64 y).
Proof.
  intros Hq [Hy Hb]. unfold toward_zero.
  destruct (Z.le_ge_cases 0 (fval q)); [left|right].
  - rewrite Z.min_l, Z.max_r in Hb by lia.
    destruct (of_f64_between y fzero q Hy) as [Hn Hv]; [done|done|exact Hb|].
    split; apply fle32; try done; apply Hv.
  - rewrite Z.min_r, Z.max_l in Hb by lia.
    destruct (of_f64_between y q fzero Hy) as [Hn Hv]; [done|done|exact Hb|].
    split; apply fle32; try done; apply Hv.
Qed.

Lemma between_shift lo hi lo' hi' x :
  between 53 1024 lo x hi -> lo = lo' -> hi = hi' -> between 53 1024 lo' x hi'.
Proof. by intros ? <- <-. Qed.

Lemma zero_target_toward p r q :
  unit_ratio r = true -> ok32 q = true -> toward_zero q (zero_target p r q).
Proof.
  intros [Hr Hr2]%unit_ratio_spec Hq. destruct (of_f32_exact q Hq) as [Hx Hv].
  unfold zero_target. set (x := F64.of_f32 q) in *. clearbody x.
  assert (H1 : ok64 one = true) by done. assert (H0 : ok64 zero = true) by done.
  assert (Fo : fval one = pw 0) by exact fval_one_64.
  assert (Fz : fval zero = 0) by done.
  assert (Hswing : between 53 1024 (Z.min 0 (fval q)) (F64.add (F64.mul (F64.sub zero x) r) x) (Z.max 0 (fval q))).
  { destruct (sub_between 53 1024 ltac:(lia) ltac:(lia) ltac:(lia) zero x (SFopp x) (SFopp x)) as [Hs Hsv];
      [done|done|by rewrite number_opp|by rewrite number_opp|rewrite fval_opp, Fz; lia|].
    rewrite fval_opp in Hsv.
    destruct (mul_unit_between 53 1024 ltac:(lia) ltac:(lia) ltac:(lia) (F64.sub zero x) r) as [Hm Hmv];
      [done|done|lia|].
    fold (F64.sub zero x) in Hsv. assert (Hsx : fval (F64.sub zero x) = - fval x) by lia. rewrite Hsx in Hmv.
    rewrite <- Hv. destruct (Z.le_ge_cases 0 (fval x)).
    - eapply between_shift; [apply (add_between 53 1024 ltac:(lia) ltac:(lia) ltac:(lia) _ x zero x)| |];
        [done|done|done|done|fold (F64.mul (F64.sub zero x) r) in Hmv; lia|lia|lia].
    - eapply between_shift; [apply (add_between 53 1024 ltac:(lia) ltac:(lia) ltac:(lia) _ x x zero)| |];
        [done|done|done|done|fold (F64.mul (F64.sub zero x) r) in Hmv; lia|lia|lia]. }
  destruct p; [|by apply narrow_toward..]. apply narrow_toward; [done|].
  destruct (sub_between 53 1024 ltac:(lia) ltac:(lia) ltac:(lia) one r zero one) as [Hs Hsv];
    [done|done|done|done|lia|].
  unfold F64.mul. rewrite SFmul_comm, <- Hv.
  apply mul_unit_between; [lia|lia|lia|done|done|]. unfold F64.sub. lia.
Qed.

(** ** The swing targets are bounded *)

(** 30 degrees, rounded up. *)
Definition angle_limit : float32 := lit32 5236 10000.
Definition within_limit (x : float32) : bool := fle (fneg angle_limit) x && fle x angle_limit.

(** What is used of [std::sin]. *)
Definition sin_range (sin : float64 -> float64) : Prop :=
  ∀ x, ok64 x = true -> ok64 (sin x) = true ∧ fle (fneg one) (sin x) = true ∧ fle (sin x) one = true.

Definition limit_64 : float64 := F64.of_f32 angle_limit.

Lemma limit_64_ok : ok64 limit_64 = true ∧ fval limit_64 = fval angle_limit ∧ ok32 angle_limit = true.
Proof. split_and!; vm_compute; reflexivity. Qed.

Lemma amplitudes c :
  c ∈ [max_P; max_R; fneg max_P; fneg max_R] -> ok64 c = true ∧ - fval limit_64 <= fval c <= fval limit_64.
Proof.
  intros Hc. assert (H : Forall (fun c => ok64 c = true ∧ - fval limit_64 <= fval c <= fval limit_64)
    [max_P; max_R; fneg max_P; fneg max_R]).
  { repeat (constructor; [split_and!; [reflexivity|vm_compute; congruence|vm_compute; congruence]|]). constructor. }
  rewrite Forall_forall in H. by apply H.
Qed.

#[local] Opaque max_P max_R limit_64 angle_limit.

Lemma amplitude_within c w :
  c ∈ [max_P; max_R; fneg max_P; fneg max_R] ->
  ok64 w = true ∧ fle (fneg one) w = true ∧ fle w one = true ->
  within_limit (F32.of_f64 (F64.mul c w)) = true.
Proof.
  intros [Hc Hcl]%amplitudes (Hw & Hw1 & Hw2). destruct limit_64_ok as (HL & HLv & HA).
  rewrite fle64 in Hw1, Hw2 by done.
  change (fval (fneg one)) with (- fval one) in Hw1. change (fval one) with (pw 0) in Hw1, Hw2.
  destruct (mul_between 53 1024 ltac:(lia) ltac:(lia) ltac:(lia) c w (fneg limit_64) limit_64) as [Hm Hmv];
    [done|done|by rewrite number_opp|done|rewrite fval_opp; nia|].
  rewrite fval_opp, HLv in Hmv. fold (F64.mul c w) in Hm, Hmv.
  destruct (of_f64_between (F64.mul c w) (fneg angle_limit) angle_limit Hm) as [Hf Hfv];
    [by rewrite number_opp|done|rewrite fval_opp; lia|].
  unfold within_limit. apply andb_true_iff. rewrite !fle32 by (done || by rewrite number_opp).
  rewrite fval_opp in Hfv |- *. lia.
Qed.

(** The arguments of [std::sin] are finite. *)
Lemma elapsed_ok k d : d = duration_ ∨ d = duration_2 ->
  ok64 (F64.sub (time_at k) d) = true ∧ - (2 ^ 46 * pw 0) <= fval (F64.sub (time_at k) d) <= 2 ^ 46 * pw 0.
Proof.
  intros Hd. destruct (time_number k) as [Ht Htv].
  assert (HT : fval time_limit = 2 ^ 45 * pw 0) by (vm_compute; reflexivity). rewrite HT in Htv.
  assert (Hdv : ok64 d = true ∧ 0 <= fval d <= 2 ^ 45 * pw 0)
    by (destruct Hd as [-> | ->]; split_and!; [done|vm_compute; congruence|vm_compute; congruence|
                                              done|vm_compute; congruence|vm_compute; congruence]).
  assert (HB : ok64 (F64.of_Z (2 ^ 46)) = true ∧ fval (F64.of_Z (2 ^ 46)) = 2 ^ 46 * pw 0)
    by (split; vm_compute; reflexivity).
  destruct HB as [HB HBv], Hdv as [Hd1 Hd2].
  destruct (sub_between 53 1024 ltac:(lia) ltac:(lia) ltac:(lia) (time_at k) d
    (fneg (F64.of_Z (2 ^ 46))) (F64.of_Z (2 ^ 46))) as [Hs Hsv];
    [done|done|by rewrite number_opp|done|rewrite fval_opp, HBv; lia|].
  rewrite fval_opp, HBv in Hsv. done.
Qed.

Definition angles : list float64 := [F64.mul two F64.M_PI; F64.M_PI].

Lemma angles_ok c : c ∈ angles -> ok64 c = true ∧ 0 <= fval c <= 7 * pw 0.
Proof.
  intros Hc. assert (H : Forall (fun c => ok64 c = true ∧ 0 <= fval c <= 7 * pw 0) angles).
  { repeat (constructor; [split_and!; [reflexivity|vm_compute; congruence|vm_compute; congruence]|]). constructor. }
  rewrite Forall_forall in H. by apply H.
Qed.

Lemma argument_ok c t :
  c ∈ angles -> ok64 t = true -> - (2 ^ 46 * pw 0) <= fval t <= 2 ^ 46 * pw 0 ->
  ok64 (F64.mul c t) = true ∧ ok64 (F64.add (F64.mul c t) F64.M_PI) = true.
Proof.
  intros [Hc Hcv]%angles_ok Ht Htv.
  assert (HB : ∀ n, n = 50 ∨ n = 51 -> ok64 (F64.of_Z (2 ^ n)) = true ∧ fval (F64.of_Z (2 ^ n)) = 2 ^ n * pw 0)
    by (intros n [-> | ->]; split; vm_compute; reflexivity).
  destruct (HB 50) as [B1 V1]; [by left|]. destruct (HB 51) as [B2 V2]; [by right|].
  assert (Hp : 0 < pw 0) by (apply pw_pos; unfold scale; lia).
  destruct (mul_between 53 1024 ltac:(lia) ltac:(lia) ltac:(lia) c t
    (fneg (F64.of_Z (2 ^ 50))) (F64.of_Z (2 ^ 50))) as [Hm Hmv];
    [done|done|by rewrite number_opp|done|rewrite fval_opp, V1; nia|].
  fold (F64.mul c t) in Hm, Hmv. rewrite fval_opp, V1 in Hmv. split; [exact Hm|].
  destruct (angles_ok F64.M_PI) as [Hpi Hpiv]; [right; left|].
  eapply between_number, (add_between 53 1024 ltac:(lia) ltac:(lia) ltac:(lia) _ _
    (fneg (F64.of_Z (2 ^ 51))) (F64.of_Z (2 ^ 51))); [done|done|by rewrite number_opp|done|].
  rewrite fval_opp, V2. lia.
Qed.

(** ** Commands *)

Section Safety.
Context (pad : Padding) (sin : float64 -> float64) (frames : list (list float64)).
Context (p : program).
Context (Hpad : padding_ok pad) (Hsin : sin_range sin) (Hframes : p = DualArm -> motion_ok frames).

(** A target is safe if it lies between zero and the angle an accepted message
    reported for the motor, or within 30 degrees, or in a recorded frame. *)
Definition target_ok (received : list LowState_) (i : nat) (x : float32) : Prop :=
  (∃ m, m ∈ received ∧ (is_finite (motor_q i m) = true -> toward_zero (motor_q i m) x)) ∨
  within_limit x = true ∨
  (p = DualArm ∧ ∃ fr a, fr ∈ frames ∧ a ∈ fr ∧ x = F32.of_f64 a).

Definition command_ok (received : list LowState_) (c : MotorCommand) : Prop :=
  received ≠ [] ∧
  ∃ q, c = command p q ∧ length q = NUM_MOTOR p ∧ ∀ i x, q !! i = Some x -> target_ok received i x.

Definition machine_ok (received : list LowState_) (z : Z) : Prop :=
  z = 0 ∨ ∃ m, m ∈ received ∧ z = state_mode_machine m.

Definition state_from (received : list LowState_) (ms : MotorState) : Prop :=
  ∃ m, m ∈ received ∧ ms = motor_state p m.

Lemma fzero_within : within_limit fzero = true.
Proof. vm_compute. reflexivity. Qed.

Lemma ms_q_lookup m i : (i < NUM_MOTOR p)%nat -> ms_q (motor_state p m) !!! i = motor_q i m.
Proof.
  intros Hi. apply list_lookup_total_correct. cbn [motor_state ms_q].
  rewrite list_lookup_fmap, lookup_seq_lt by done. done.
Qed.

Lemma length_zeros : length (zeros p) = NUM_MOTOR p.
Proof. apply length_replicate. Qed.

Lemma zero_posture_ok received m t :
  m ∈ received -> unit_ratio (ratio t) = true -> command_ok received (zero_posture p t (motor_state p m)).
Proof.
  intros Hm Hr. split; [by intros ->; apply not_elem_of_nil in Hm|].
  eexists. split; [reflexivity|]. split; [by rewrite length_fmap, length_seq|].
  intros i x Hx. rewrite list_lookup_fmap in Hx. apply fmap_Some in Hx as (j & [-> Hj]%lookup_seq & ->).
  cbn [Nat.add] in *. left. exists m. split; [exact Hm|]. rewrite ms_q_lookup by done. intros Hf.
  apply zero_target_toward; [exact Hr|]. unfold is_number. rewrite Hf. apply motor_q_valid.
Qed.

(** Commands made of zeros and of products of an amplitude and a sine. *)
Lemma insert_within (q : list float32) j y received :
  (∀ i x, q !! i = Some x -> target_ok received i x) -> within_limit y = true ->
  ∀ i x, <[j := y]> q !! i = Some x -> target_ok received i x.
Proof.
  intros Hq Hy i x Hx. destruct (decide (i = j)) as [->|Hne].
  - apply list_lookup_insert_Some in Hx as [(_ & <- & _)|(? & _)]; [|done]. right. by left.
  - rewrite list_lookup_insert_ne in Hx by done. by apply Hq.
Qed.

Lemma zeros_ok received i x : zeros p !! i = Some x -> target_ok received i x.
Proof. intros [-> _]%lookup_replicate. right. left. exact fzero_within. Qed.

Lemma swing_PR_ok received k : received ≠ [] -> command_ok received (swing_PR sin p (time_at k)).
Proof.
  intros Hr. split; [exact Hr|]. unfold swing_PR. cbn zeta. eexists. split; [reflexivity|]. split; [by rewrite !length_insert, length_zeros|].
  destruct (elapsed_ok k duration_) as [Ht Htv]; [by left|].
  destruct (argument_ok (F64.mul two F64.M_PI) _ ltac:(left) Ht Htv) as [Ha _]. apply Hsin in Ha.
  repeat (apply insert_within; [|apply amplitude_within; [|exact Ha]]).
  - apply zeros_ok.
  - left.
  - right. left.
  - left.
  - do 3 right. left.
Qed.

Lemma swing_AB_ok received k : received ≠ [] -> command_ok received (swing_AB sin p (time_at k)).
Proof.
  intros Hr. split; [exact Hr|]. unfold swing_AB. cbn zeta. eexists. split; [reflexivity|]. split; [by rewrite !length_insert, length_zeros|].
  destruct (elapsed_ok k duration_2) as [Ht Htv]; [by right|].
  destruct (argument_ok F64.M_PI _ ltac:(right; left) Ht Htv) as [Ha Hb]. apply Hsin in Ha, Hb.
  repeat (apply insert_within; [|apply amplitude_within; [|first [exact Ha | exact Hb]]]).
  - apply zeros_ok.
  - left.
  - right. left.
  - do 2 right. left.
  - do 3 right. left.
Qed.

Lemma frame_ok received i : received ≠ [] -> p = DualArm -> 0 <= i < motion_frames ->
  command_ok received (command p (frame_angles (frames !!! Z.to_nat i))).
Proof.
  intros Hr Hp Hi. split; [exact Hr|]. destruct (frame_exists frames (Hframes Hp) i Hi) as (fr & Hfr & -> & Hl).
  eexists. split; [reflexivity|]. split.
  { rewrite Hp. unfold frame_angles. rewrite length_app, length_replicate, length_fmap, length_take, Nat.min_l by lia. done. }
  intros j x Hx. unfold frame_angles in Hx. apply lookup_app_Some in Hx as [[-> _]%lookup_replicate|[_ Hx]].
  - right. left. exact fzero_within.
  - right. right. split; [exact Hp|]. rewrite list_lookup_fmap in Hx. apply fmap_Some in Hx as (a & Ha & ->).
    exists fr, a. split; [by eapply list_elem_of_lookup_2|]. split; [|done].
    apply lookup_take_Some in Ha as [Ha _]. by eapply list_elem_of_lookup_2.
Qed.

(** More messages keep everything that was justified. *)
Lemma target_ok_app r r' i x : target_ok r i x -> target_ok (r ++ r') i x.
Proof.
  intros [(m & Hm & H)|H]; [left; exists m; split; [apply elem_of_app; by left|done]|by right].
Qed.

Lemma command_ok_app r r' c : command_ok r c -> command_ok (r ++ r') c.
Proof.
  intros (Hr & q & -> & Hl & H). split; [by intros [? _]%app_nil|].
  exists q. split_and!; [done..|]. intros. by apply target_ok_app, H.
Qed.

Lemma machine_ok_app r r' z : machine_ok r z -> machine_ok (r ++ r') z.
Proof. intros [->|(m & Hm & ->)]; [by left|right; exists m; split; [apply elem_of_app; by left|done]]. Qed.

Lemma state_from_app r r' ms : state_from r ms -> state_from (r ++ r') ms.
Proof. intros (m & Hm & ->). exists m. split; [apply elem_of_app; by left|done]. Qed.

(** ** The invariant of the three threads *)

(** The clock and the mode are those of some number of calls of [Control]. *)
Definition clock_ok (e : Example) : Prop :=
  ∃ k, match p with
       | DualArm => time_ e = dual_time k ∧ mode_ e = PR
       | _ => time_ e = time_at k ∧ mode_ e = mode_before k
       end.

Definition frame_from (received : list LowState_) (f : LowCmd_) : Prop :=
  ∃ pr machine c, f = frame pad p pr machine c ∧ machine_ok received machine ∧ command_ok received c.

Record Inv (s : System) : Prop := {
  inv_clock : clock_ok (obj s);
  inv_state : ∀ ms, motor_state_buffer_ (obj s) = Some ms -> state_from (received s) ms;
  inv_command : ∀ c, motor_command_buffer_ (obj s) = Some c -> command_ok (received s) c;
  inv_machine : machine_ok (received s) (mode_machine_ (obj s));
  inv_handler : match handler s with HIdle => True | HImu m | HGamepad m | HMachine m => m ∈ received s end;
  inv_control : match control s with
                | CIdle => True | CLaw ms => state_from (received s) ms | CStore c => command_ok (received s) c
                end;
  inv_writer : match writer s with WWrite _ z => machine_ok (received s) z | _ => True end;
  inv_published : ∀ f, f ∈ published (obj s) -> frame_from (received s) f;
  inv_received : Forall (fun m => state_ok m ∧ crc_matches m = true) (received s)
}.

Lemma Inv_init : Inv System_init.
Proof.
  constructor; cbn; try done.
  - exists 0%nat. by destruct p.
  - by left.
  - intros f Hf. by apply not_elem_of_nil in Hf.
Qed.

(** What the law computes from a reachable clock. *)
Lemma law_ok received e ms t m c :
  clock_ok e -> state_from received ms -> law sin frames p (time_ e) (mode_ e) ms = Some (t, m, c) ->
  command_ok received c ∧ ∀ e', time_ e' = t -> mode_ e' = m -> clock_ok e'.
Proof.
  intros [k Hk] (msg & Hmsg & ->) Hl. assert (Hr : received ≠ []) by (by intros ->; apply not_elem_of_nil in Hmsg).
  destruct (decide (p = DualArm)) as [Hp|Hp].
  - rewrite Hp in Hk, Hl. destruct Hk as [Hk1 Hk2]. rewrite Hk1, Hk2 in Hl.
    rewrite (law_dual sin frames (Hframes Hp)) in Hl. injection Hl as <- <- <-. split.
    + unfold dual_stage. destruct (play_at k) as [_ Ho]. cbn [snd]. rewrite <- Hp.
      destruct (played k) as [i|] eqn:E; cbn [play_ok] in Ho.
      * apply frame_ok; [exact Hr|exact Hp|]. by eapply played_range.
      * by apply zero_posture_ok.
    + intros e' H1 H2. exists (S k). by rewrite Hp.
  - assert (Hk' : time_ e = time_at k ∧ mode_ e = mode_before k) by (by destruct p).
    destruct Hk' as [Hk1 Hk2]. rewrite Hk1, Hk2 in Hl.
    destruct (law_swing sin frames p k (motor_state p msg) Hp) as [E _]. rewrite E in Hl.
    injection Hl as <- <- <-. split.
    + unfold swing_stage. destruct (Nat.ltb_spec k 1500) as [H1|_]; [|destruct (k <? 3000)%nat]; cbn [snd].
      * apply zero_posture_ok; [exact Hmsg|]. by apply time_early.
      * by apply swing_PR_ok.
      * by apply swing_AB_ok.
    + intros e' H1 H2. exists (S k). by destruct p.
Qed.

(** [clock_ok] only looks at [time_] and [mode_]. *)
Lemma clock_ok_eq e e' : time_ e' = time_ e -> mode_ e' = mode_ e -> clock_ok e -> clock_ok e'.
Proof. intros H1 H2 [k Hk]. exists k. by rewrite H1, H2. Qed.

#[local] Hint Resolve target_ok_app command_ok_app machine_ok_app state_from_app : lowlevel.

(** Accepting a message. *)
Lemma deliver_inv m s s' : state_ok m -> Inv s -> deliver p m s = Some s' -> Inv s'.
Proof.
  intros Hm Hs. unfold deliver. destruct (handler s); [|done..]. destruct (crc_matches m) eqn:Hc; intros [= <-]; [|done].
  assert (Hin : m ∈ received s ++ [m]) by (apply elem_of_app; right; by apply list_elem_of_singleton).
  destruct Hs as [H1 H2 H3 H4 H5 H6 H7 H8 H9]. constructor; cbn [obj handler control writer received set_motor_state
    motor_state_buffer_ motor_command_buffer_ mode_machine_ published]; eauto with lowlevel.
  - intros ms [= <-]. by exists m.
  - destruct (control s); eauto with lowlevel.
  - destruct (writer s); eauto with lowlevel.
  - intros f Hf. destruct (H8 f Hf) as (pr & z & c & -> & Hz & Hcmd).
    exists pr, z, c. split_and!; eauto with lowlevel.
  - apply Forall_app. split; [done|]. by apply Forall_singleton.
Qed.

Lemma handler_inv s s' : Inv s -> handler_step p s = Some s' -> Inv s'.
Proof.
  intros [H1 H2 H3 H4 H5 H6 H7 H8 H9]. unfold handler_step.
  destruct (handler s) as [|m|m|m] eqn:E; [done|..]; intros [= <-].
  - constructor; cbn [with_handler obj handler control writer received set_imu_state motor_state_buffer_
      motor_command_buffer_ mode_machine_ published]; eauto.
  - constructor; cbn [with_handler obj handler control writer received]; eauto.
    all: unfold store_gamepad; destruct p; done.
  - constructor; cbn [with_handler obj handler control writer received store_machine set_machine motor_state_buffer_
      motor_command_buffer_ mode_machine_ published]; eauto.
    case_bool_decide; [done|]. right. by exists m.
Qed.

Lemma control_inv s s' : Inv s -> control_step sin frames p s = Some s' -> Inv s'.
Proof.
  intros [H1 H2 H3 H4 H5 H6 H7 H8 H9]. unfold control_step.
  destruct (control s) as [|ms|c] eqn:E.
  - destruct (DataBuffer.GetData _) as [ms|] eqn:Hms; intros [= <-].
    + constructor; cbn [with_control obj handler control writer received]; eauto.
    + constructor; rewrite ?E; eauto.
  - destruct (law sin frames p (time_ (obj s)) (mode_ (obj s)) ms) as [[[t m] c]|] eqn:Hl; [|done].
    cbn [mbind option_bind]. intros [= <-]. destruct (law_ok (received s) _ _ _ _ _ H1 H6 Hl) as [Hc Hk].
    constructor; cbn [with_control obj handler control writer received set_time_mode motor_state_buffer_
      motor_command_buffer_ mode_machine_ published]; eauto.
  - intros [= <-]. constructor; cbn [with_control obj handler control writer received set_motor_command
      motor_state_buffer_ motor_command_buffer_ mode_machine_ published]; eauto. by intros c' [= <-].
Qed.

Lemma writer_inv s s' : Inv s -> writer_step pad p s = Some s' -> Inv s'.
Proof.
  intros [H1 H2 H3 H4 H5 H6 H7 H8 H9]. unfold writer_step. intros [= <-].
  destruct (writer s) as [|pr|pr z] eqn:E.
  - constructor; cbn [with_writer obj handler control writer received]; eauto.
  - constructor; cbn [with_writer obj handler control writer received]; eauto.
  - destruct (DataBuffer.GetData _) as [c|] eqn:Hc.
    + constructor; cbn [with_writer obj handler control writer received Write motor_state_buffer_
        motor_command_buffer_ mode_machine_ published]; eauto.
      intros f [Hf|Hf%list_elem_of_singleton]%elem_of_app; [by apply H8|]. subst f.
      exists pr, z, c. split_and!; eauto.
    + constructor; cbn [with_writer obj handler control writer received]; eauto.
Qed.

Lemma system_step_inv ev s s' : event_ok ev -> Inv s -> step pad sin frames p ev s = Some s' -> Inv s'.
Proof.
  destruct ev as [m| | |]; cbn [event_ok step]; intros He Hs Hst.
  - by eapply deliver_inv.
  - by eapply handler_inv.
  - by eapply control_inv.
  - by eapply writer_inv.
Qed.

Lemma reachable_inv s : reachable pad sin frames p s -> Inv s.
Proof.
  intros (evs & Hok & Hr). assert (Hi : Inv System_init) by exact Inv_init.
  revert Hi Hr. generalize System_init as s0. induction Hok as [|ev evs He _ IH]; cbn [run]; intros s0 Hi Hr.
  - by injection Hr as <-.
  - destruct (step pad sin frames p ev s0) as [s1|] eqn:E; [|done]. cbn [mbind option_bind] in Hr.
    eapply IH; [|exact Hr]. by eapply system_step_inv.
Qed.

(** ** Frames *)

Lemma fill_motors_command q :
  length q = NUM_MOTOR p ->
  fill_motors p (command p q) (motor_cmd LowCmd_default)
  = imap (fun i x => {| mode := 1; q := x; dq := fzero; tau := fzero; kp := (gains p).1 !!! i;
                        kd := (gains p).2 !!! i; reserve := 0 |}) q ++
    replicate (35 - NUM_MOTOR p) MotorCmd_default.
Proof.
  clear Hframes Hsin. intros Hq. assert (HN : (NUM_MOTOR p <= 35)%nat) by (destruct p; cbn; lia).
  apply list_eq. intros i. unfold fill_motors. rewrite list_lookup_imap. cbn [motor_cmd LowCmd_default].
  destruct (decide (i < 35)%nat) as [Hi|Hi].
  - rewrite lookup_replicate_2 by done. cbn [fmap option_fmap option_map].
    destruct (Nat.ltb_spec i (NUM_MOTOR p)) as [Hn|Hn].
    + rewrite lookup_app_l by (rewrite length_imap; lia). rewrite list_lookup_imap.
      destruct (lookup_lt_is_Some_2 q i) as [x Hx]; [lia|]. rewrite Hx.
      cbn [fmap option_fmap option_map command q_target dq_target tau_ff cmd_kp cmd_kd reserve MotorCmd_default].
      rewrite (list_lookup_total_correct q i x Hx), !lookup_total_replicate_2 by done. done.
    + rewrite lookup_app_r by (rewrite length_imap; lia). rewrite length_imap.
      rewrite lookup_replicate_2 by lia. done.
  - rewrite (proj1 (lookup_replicate_None 35 MotorCmd_default i)) by lia. symmetry.
    apply lookup_ge_None_2. rewrite length_app, length_imap, length_replicate. lia.
Qed.

Lemma machine_byte received z :
  Forall (fun m => state_ok m ∧ crc_matches m = true) received -> machine_ok received z -> in_u 8 z.
Proof.
  intros Hf [->|(m & Hm & ->)]; [done|]. rewrite Forall_forall in Hf. destruct (Hf m Hm) as [[Hl Hb] _].
  unfold state_mode_machine. assert (Hlen : length (slice 9 1 m) = 1%nat) by (apply length_slice; rewrite Hl; unfold LowState_size; lia).
  pose proof (le_val_range (slice 9 1 m)) as Hr. rewrite Hlen in Hr. apply Hr. by apply Forall_take, Forall_drop.
Qed.

Lemma frame_sealed pr z q :
  in_u 8 z -> length q = NUM_MOTOR p ->
  length (image pad (frame pad p pr z (command p q))) = 1004%nat ∧
  crc32_core (words (image pad (frame pad p pr z (command p q)))) = 0.
Proof.
  clear Hframes Hsin. intros Hz Hq. apply sealed_image; [exact Hpad|]. unfold cmd_ok. cbn [mode_pr mode_machine motor_cmd lc_reserve].
  assert (HN : (NUM_MOTOR p <= 35)%nat) by (destruct p; cbn; lia).
  rewrite fill_motors_command by done. split_and!; [by destruct pr|exact Hz| | |done].
  - rewrite length_app, length_imap, length_replicate. lia.
  - apply Forall_app. split; [|by apply Forall_replicate].
    apply Forall_lookup. intros i m. rewrite list_lookup_imap. by intros (x & _ & ->)%fmap_Some.
Qed.
End Safety.

(** C16. Whatever the interleaving of the state messages, the control thread and
    the writer thread, every frame the program has published is safe: its
    checksum is right, its motors are enabled with the fixed gains and no
    velocity or torque, the motors the robot does not have are untouched, the
    robot type is one a message reported, at least one message with a right
    checksum was received before, and every target lies between zero and an
    angle such a message reported (when that angle is finite), within 30
    degrees, or in the recorded motion. *)
Theorem lowlevel_frames_safe pad sin frames p s f :
  padding_ok pad -> sin_range sin -> (p = DualArm -> motion_ok frames) ->
  reachable pad sin frames p s -> f ∈ published (obj s) ->
  length (image pad f) = 1004%nat ∧ crc32_core (words (image pad f)) = 0 ∧
  (mode_pr f = 0 ∨ mode_pr f = 1) ∧
  (mode_machine f = 0 ∨ ∃ m, m ∈ received s ∧ mode_machine f = state_mode_machine m) ∧
  received s ≠ [] ∧ Forall (fun m => crc_matches m = true) (received s) ∧
  ∃ q, length q = NUM_MOTOR p ∧
       motor_cmd f = imap (fun i x => {| mode := 1; q := x; dq := fzero; tau := fzero; kp := (gains p).1 !!! i;
                                         kd := (gains p).2 !!! i; reserve := 0 |}) q ++
                     replicate (35 - NUM_MOTOR p) MotorCmd_default ∧
       ∀ i x, q !! i = Some x -> target_ok frames p (received s) i x.
Proof.
  intros Hpad Hsin Hfr Hs Hf. apply reachable_inv in Hs; [|done..].
  destruct (inv_published _ _ _ _ Hs f Hf) as (pr & z & c & -> & Hz & Hne & q & -> & Hq & Ht).
  destruct (frame_sealed pad p Hpad pr z q) as [Hl Hcrc]; [|done|].
  { eapply machine_byte; [apply (inv_received _ _ _ _ Hs)|exact Hz]. }
  split_and!; [exact Hl|exact Hcrc|destruct pr; [by left|by right]|exact Hz|exact Hne| |].
  - eapply Forall_impl; [apply (inv_received _ _ _ _ Hs)|]. by intros m [_ ?].
  - exists q. split_and!; [exact Hq| |exact Ht]. by apply fill_motors_command.
Qed.

(** A message of zeros with its checksum. *)
Definition quiet_state : LowState_ := replicate 2088 0 ++ le_bytes 4 (crc32_core (replicate 522 0)).

Lemma quiet_state_ok : state_ok quiet_state.
Proof.
  split; [reflexivity|]. apply Forall_app. split; [by apply Forall_replicate|apply le_bytes_ok].
Qed.

Lemma quiet_state_crc : crc_matches quiet_state = true.
Proof. vm_compute. reflexivity. Qed.

(** A sine for the witnesses: the identity, clamped. *)
Definition clamp_sin (x : float64) : float64 := std_clamp x (fneg one) one.

Lemma clamp_sin_range : sin_range clamp_sin.
Proof.
  intros x Hx. assert (Hn : is_nan x = false) by (by destruct x).
  destruct (std_clamp_range x (fneg one) one) as [H1 H2]; try done.
  split_and!; [|done..]. unfold clamp_sin, std_clamp. by repeat split_if.
Qed.

Definition no_padding : Padding := {| pad_head := [0; 0]; pad_mode := [0; 0; 0] |}.

Lemma no_padding_ok : padding_ok no_padding.
Proof. apply (bool_decide_unpack _). vm_compute. exact I. Qed.

(** A message, a call of [Control] and one of the writer. *)
Definition sample_events : list event :=
  [Deliver quiet_state; Handler; Handler; Handler; Ctrl; Ctrl; Ctrl; Writer; Writer; Writer].

Lemma sample_run_frames :
  (fun s => length (published (obj s))) <$> run no_padding clamp_sin [] AnkleSwing sample_events System_init = Some 1%nat.
Proof. vm_compute. reflexivity. Qed.

Lemma sample_frame :
  ∃ s f, run no_padding clamp_sin [] AnkleSwing sample_events System_init = Some s ∧ f ∈ published (obj s).
Proof.
  pose proof sample_run_frames as H. destruct (run no_padding clamp_sin [] AnkleSwing sample_events System_init) as [s|]; [|done].
  destruct (published (obj s)) as [|f l] eqn:E; cbn [fmap option_fmap option_map] in H; rewrite E in H; [done|].
  exists s, f. rewrite E. split; [done|left].
Qed.

Lemma lowlevel_frames_safe_witness :
  ∃ s f, run no_padding clamp_sin [] AnkleSwing sample_events System_init = Some s ∧
    f ∈ published (obj s) ∧ crc32_core (words (image no_padding f)) = 0.
Proof.
  destruct sample_frame as (s & f & Hs & Hf). exists s, f. split; [exact Hs|]. split; [exact Hf|].
  eapply (lowlevel_frames_safe no_padding clamp_sin [] AnkleSwing);
    [exact no_padding_ok|exact clamp_sin_range|discriminate| |exact Hf].
  exists sample_events. split; [|exact Hs].
  constructor; [exact quiet_state_ok|]. repeat (constructor; [exact I|]). constructor.
Defined.

(** ** Corrupted messages *)

(** A state message in which one 32-bit word was changed on the way is
    ignored: the handler leaves the object as it was, and the delivery leaves the
    three threads as they were. *)
Lemma corrupted_state_ignored p (pre w w' post : bytes) a e s :
  length pre = (4 * a)%nat -> (a < 522)%nat -> length w = 4%nat -> length w' = 4%nat ->
  state_ok (pre ++ w ++ post) -> crc_matches (pre ++ w ++ post) = true -> bytes_ok w' -> w ≠ w' ->
  LowStateHandler p (pre ++ w' ++ post) e = e ∧
  (handler s = HIdle -> deliver p (pre ++ w' ++ post) s = Some s).
Proof.
  intros Ha Ha' Hw Hw' Hok Hc Hb Hne.
  pose proof (corrupted_word pre w w' post a Ha Ha' Hw Hw' Hok Hb Hne Hc) as E.
  split; [unfold LowStateHandler|intros Hi; unfold deliver; rewrite Hi]; by rewrite E.
Qed.

Lemma corrupted_state_ignored_witness :
  LowStateHandler AnkleSwing (take 76 quiet_state ++ [0; 0; 128; 63] ++ drop 80 quiet_state) Example_init
  = Example_init.
Proof.
  apply (corrupted_state_ignored AnkleSwing (take 76 quiet_state) [0; 0; 0; 0] [0; 0; 128; 63]
           (drop 80 quiet_state) 19 Example_init System_init);
    [reflexivity|lia|reflexivity|reflexivity|exact quiet_state_ok|exact quiet_state_crc| |discriminate].
  repeat (constructor; [vm_compute; split; congruence|]). constructor.
Defined.

(** ** The mode and the command are not read together *)

Lemma run_app pad sin frames p evs evs' s :
  run pad sin frames p (evs ++ evs') s = s' ← run pad sin frames p evs s; run pad sin frames p evs' s'.
Proof.
  revert s; induction evs as [|ev evs IH]; intros s; [done|]. cbn [app run].
  destruct (step pad sin frames p ev s); [|done]. apply IH.
Qed.

Section Rounds.
Context (pad : Padding) (sin : float64 -> float64) (frames : list (list float64)) (p : program).
Context (Hp : p ≠ DualArm).

(** The control thread is idle, with a motor state, after [k] calls. *)
Definition after_calls (k : nat) (ms : MotorState) (s : System) : Prop :=
  control s = CIdle ∧ motor_state_buffer_ (obj s) = Some ms ∧ time_ (obj s) = time_at k ∧
  mode_ (obj s) = mode_before k.

Definition round : list event := [Ctrl; Ctrl; Ctrl].

Lemma run_round k ms s :
  after_calls k ms s ->
  ∃ s', run pad sin frames p round s = Some s' ∧ after_calls (S k) ms s' ∧ writer s' = writer s ∧
        motor_command_buffer_ (obj s') = Some (swing_stage sin p k ms).2.
Proof.
  intros (Hc & Hms & Ht & Hm). destruct (law_swing sin frames p k ms Hp) as [Hl _].
  set (s1 := with_control (obj s) (CLaw ms) s).
  assert (E1 : control_step sin frames p s = Some s1) by (unfold control_step; rewrite Hc, Hms; done).
  set (c := (swing_stage sin p k ms).2) in *.
  set (s2 := with_control (set_time_mode (time_at (S k)) (mode_before (S k)) (obj s)) (CStore c) s).
  assert (E2 : control_step sin frames p s1 = Some s2).
  { unfold control_step. cbn [s1 with_control control obj]. rewrite Ht, Hm, Hl. done. }
  assert (E3 : control_step sin frames p s2 = Some (with_control (set_motor_command c (obj s2)) CIdle s2)) by done.
  unfold round. cbn [run step]. rewrite E1. cbn [mbind option_bind]. rewrite E2. cbn [mbind option_bind].
  rewrite E3. cbn [mbind option_bind].
  eexists. split; [reflexivity|]. by split_and!.
Qed.

Lemma run_rounds n k ms s :
  after_calls k ms s ->
  ∃ s', run pad sin frames p (concat (replicate n round)) s = Some s' ∧ after_calls (k + n) ms s' ∧
        writer s' = writer s.
Proof.
  revert k s; induction n as [|n IH]; intros k s Hs.
  - exists s. rewrite Nat.add_0_r. by split_and!.
  - destruct (run_round k ms s Hs) as (s1 & H1 & Hs1 & Hw1 & _).
    destruct (IH (S k) s1 Hs1) as (s2 & H2 & Hs2 & Hw2).
    exists s2. cbn [replicate concat]. rewrite run_app, H1. cbn [mbind option_bind].
    rewrite Nat.add_succ_r. split_and!; [exact H2|exact Hs2|by rewrite Hw2].
Qed.
End Rounds.

Lemma mode_before_early k : (k <= 3000)%nat -> mode_before k = PR.
Proof. intros Hk. with_strategy transparent [mode_before] unfold mode_before. by rewrite (proj2 (Nat.leb_le k 3000)). Qed.

(** The writer reads the mode and the command separately: in both swing
    programs a frame can be published that announces the PR mode and carries the
    first targets of the AB mode, which name different joints. *)
Lemma mode_race pad sin frames p m :
  p ≠ DualArm -> state_ok m -> crc_matches m = true ->
  ∃ s f machine, reachable pad sin frames p s ∧ f ∈ published (obj s) ∧ mode_pr f = 0 ∧
    f = frame pad p PR machine (swing_AB sin p (time_at 3001)).
Proof.
  intros Hp Hm Hc. set (ms := motor_state p m).
  assert (∃ s0, run pad sin frames p [Deliver m] System_init = Some s0 ∧ after_calls 0 ms s0 ∧ writer s0 = WIdle)
    as (s0 & H0 & Hs0 & Hw0).
  { cbn [run step]. unfold deliver. cbn [System_init handler]. rewrite Hc. cbn [mbind option_bind].
    eexists. split; [reflexivity|]. split; [|done]. by split_and!; [| |apply eq_sym, time_0|apply eq_sym, mode_before_0]. }
  destruct (run_rounds pad sin frames p Hp 3000 0 ms s0 Hs0) as (s1 & H1 & Hs1 & Hw1).
  change (0 + 3000)%nat with 3000%nat in Hs1. rewrite Hw0 in Hw1.
  pose (s2 := with_writer (obj s1) (WMachine (mode_ (obj s1))) s1).
  assert (Hs2 : after_calls 3000 ms s2) by exact Hs1.
  destruct (run_round pad sin frames p Hp 3000 ms s2 Hs2) as (s3 & H3 & Hs3 & Hw3 & Hcmd).
  assert (Hst : (swing_stage sin p 3000 ms).2 = swing_AB sin p (time_at 3001)).
  { unfold swing_stage. rewrite (proj2 (Nat.ltb_ge 3000 1500)), (proj2 (Nat.ltb_ge 3000 3000)) by lia. reflexivity. }
  rewrite Hst in Hcmd. destruct Hs1 as (_ & _ & _ & Hmode). rewrite mode_before_early in Hmode by lia.
  assert (Hw3' : writer s3 = WMachine PR) by (rewrite Hw3; cbn [s2 with_writer writer]; by rewrite Hmode).
  set (machine := mode_machine_ (obj s3)). set (c := swing_AB sin p (time_at 3001)) in *.
  set (s4 := with_writer (obj s3) (WWrite PR machine) s3).
  set (s5 := with_writer (Write (frame pad p PR machine c) (obj s4)) WIdle s4).
  assert (E2 : writer_step pad p s1 = Some s2) by (unfold writer_step; by rewrite Hw1).
  assert (E4 : writer_step pad p s3 = Some s4) by (unfold writer_step; by rewrite Hw3').
  assert (E5 : writer_step pad p s4 = Some s5).
  { unfold writer_step. cbn [s4 with_writer writer obj]. by rewrite Hcmd. }
  exists s5, (frame pad p PR machine c), machine. split; [|split; [|split; reflexivity]].
  - exists ([Deliver m] ++ concat (replicate 3000 round) ++ [Writer] ++ round ++ [Writer; Writer]). split.
    + constructor; [exact Hm|]. rewrite !Forall_app. split_and!; [|repeat constructor..].
      apply Forall_concat, Forall_replicate. repeat constructor.
    + rewrite run_app, H0. cbn [mbind option_bind]. rewrite run_app, H1. cbn [mbind option_bind].
      rewrite run_app. cbn [run step]. rewrite E2. cbn [mbind option_bind].
      rewrite run_app, H3. cbn [mbind option_bind run step]. rewrite E4. cbn [mbind option_bind].
      rewrite E5. reflexivity.
  - cbn [s5 with_writer obj Write published]. apply elem_of_app. right. by apply list_elem_of_singleton.
Qed.

Lemma mode_race_witness :
  ∃ s f, reachable no_padding clamp_sin [] H1_27dof s ∧ f ∈ published (obj s) ∧ mode_pr f = 0.
Proof.
  destruct (mode_race no_padding clamp_sin [] H1_27dof quiet_state) as (s & f & z & H1 & H2 & H3 & _);
    [discriminate|exact quiet_state_ok|exact quiet_state_crc|].
  exists s, f. split; [exact H1|]. split; [exact H2|exact H3].
Defined.
End LowLevelProps.
