(* ===== verification/H1LowLevel.v ===== *)
(** * The other low-level programs of the h1.

    Module [AnkleTrack] models [src/example/h1/low_level/h1_2_ankle_track.cpp],
    which has no buffers: [Control] reads the last state message and writes the
    command itself.  Module [Humanoid] models [humanoid.hpp] and [motors.hpp] of
    the same directory, a program in single precision that moves the joints to a
    standing posture and uses the messages of the go2.  The handler, [Control] and
    the writer are atomic here. *)

From S2P Require Import Prelude Floats Rounding Crc LowCmd HgMsg Gamepad RobotInterface LowLevel LowLevelSchedule LowLevelSafety.
Import Crc32 ScheduleProps LowLevelProps.

Local Open Scope Z_scope.

(** ** h1_2_ankle_track.cpp *)
Module AnkleTrack.
Import Hg.

(** [H1_NUM_MOTOR]. *)
Definition H1_NUM_MOTOR : nat := 27.

(** The members of [H1Example]; [mode_] is always [PR]. *)
Record H1Example := {
  time_ : float64; mode_ : PRorAB; low_state_ : Hg.LowState_; published : list LowCmd_
}.

Definition H1Example_init : H1Example :=
  {| time_ := zero; mode_ := PR; low_state_ := LowState_default; published := [] |}.

(** The message is stored before its checksum is tested; a mismatch is only
    printed. *)
Definition LowStateHandler (m : Hg.LowState_) (s : H1Example) : H1Example :=
  {| time_ := time_ s; mode_ := mode_ s; low_state_ := m; published := published s |}.

(** [(i < 13) ? 100.0 : 50.0]. *)
Definition joint_kp (i : nat) : float32 := F32.of_Z (if (i <? 13)%nat then 100 else 50).

Definition joint (q kp : float32) (m : MotorCmd_) : MotorCmd_ :=
  {| mode := 1; tau := fzero; q := q; dq := fzero; kp := kp; kd := F32.of_Z 1; reserve := reserve m |}.

(** The first loop: every motor enabled, at zero. *)
Definition enable (l : list MotorCmd_) : list MotorCmd_ :=
  imap (fun i m => if (i <? H1_NUM_MOTOR)%nat then joint fzero (joint_kp i) m else m) l.

(** Stage 1, [(1. - ratio) * low_state_.motor_state().at(i).q()]. *)
Definition to_zero (time : float64) (st : Hg.LowState_) (l : list MotorCmd_) : list MotorCmd_ :=
  let ratio := std_clamp (F64.div time duration_) zero one in
  imap (fun i m =>
    if (i <? H1_NUM_MOTOR)%nat
    then {| mode := mode m; tau := tau m;
            q := F32.of_f64 (F64.mul (F64.sub one ratio) (F64.of_f32 (motor_q i st)));
            dq := dq m; kp := kp m; kd := kd m; reserve := reserve m |}
    else m) l.

Section Control.
Context (pad : Padding) (sin cos : float64 -> float64).

(** Stage 2: the ankles, with their own gains. *)
Definition swing (time : float64) (l : list MotorCmd_) : list MotorCmd_ :=
  let max_P := F64.lit 25 100 in
  let max_R := F64.lit 25 100 in
  let t := F64.sub time duration_ in
  let w := F64.mul (F64.mul two F64.M_PI) t in
  let L_P_des := F64.mul max_P (cos w) in
  let L_R_des := F64.mul max_R (sin w) in
  let R_P_des := F64.mul max_P (cos w) in
  let R_R_des := F64.mul (fneg max_R) (sin w) in
  let Kp := F32.of_Z 80 in
  alter (joint (F32.of_f64 R_R_des) Kp) 11%nat (alter (joint (F32.of_f64 R_P_des) Kp) 10%nat
    (alter (joint (F32.of_f64 L_R_des) Kp) 5%nat (alter (joint (F32.of_f64 L_P_des) Kp) 4%nat l))).

Definition Control (s : H1Example) : H1Example :=
  let motors := enable (motor_cmd LowCmd_default) in
  let time := F64.add (time_ s) control_dt_ in
  let '(mode, motors) :=
    if flt time duration_ then (mode_ s, to_zero time (low_state_ s) motors)
    else (PR, swing time motors) in
  let cmd := seal pad {| mode_pr := PRorAB_value (mode_ s); mode_machine := state_mode_machine (low_state_ s);
                         motor_cmd := motors; lc_reserve := lc_reserve LowCmd_default;
                         crc := crc LowCmd_default |} in
  {| time_ := time; mode_ := mode; low_state_ := low_state_ s; published := published s ++ [cmd] |}.

(** Messages and calls of [Control], in any order. *)
Inductive event := Deliver (m : Hg.LowState_) | Tick.

Definition step (s : H1Example) (ev : event) : H1Example :=
  match ev with Deliver m => LowStateHandler m s | Tick => Control s end.

Definition run (evs : list event) : H1Example := foldl step H1Example_init evs.

Definition ticks (evs : list event) : nat :=
  foldl (fun n ev => match ev with Deliver _ => n | Tick => S n end) 0%nat evs.
Definition last_message (evs : list event) : Hg.LowState_ :=
  foldl (fun m ev => match ev with Deliver m' => m' | Tick => m end) LowState_default evs.

(** *** Properties *)

(** The state after any sequence of events. *)
Lemma run_state evs :
  let s := run evs in
  time_ s = time_at (ticks evs) ∧ mode_ s = PR ∧ low_state_ s = last_message evs.
Proof.
  induction evs as [|ev evs (H1 & H2 & H3)] using rev_ind; [by split_and!; [apply eq_sym, time_0| |]|].
  unfold run, ticks, last_message in *. rewrite !foldl_app. cbn [foldl].
  destruct ev as [m|]; cbn [step LowStateHandler time_ mode_ low_state_]; [by split_and!|].
  unfold Control. cbn zeta. rewrite H1, H2, H3, <- time_at_S.
  destruct (flt _ _); cbn [time_ mode_ low_state_]; done.
Qed.

Lemma fzero_between x : fle fzero x = true -> fle x fzero = true -> SFeqb x fzero = true.
Proof. by destruct x as [[]|[]| |[]]. Qed.

(** What a call sends in the first stage. *)
Definition zero_motors (k : nat) (st : Hg.LowState_) : list MotorCmd_ :=
  imap (fun i m =>
    if (i <? H1_NUM_MOTOR)%nat
    then {| mode := 1; tau := fzero; q := zero_target LowLevel.AnkleSwing (ratio (time_at k)) (motor_q i st);
            dq := fzero; kp := joint_kp i; kd := F32.of_Z 1; reserve := reserve m |}
    else m) (motor_cmd LowCmd_default).

Lemma to_zero_enable k st : to_zero (time_at k) st (enable (motor_cmd LowCmd_default)) = zero_motors k st.
Proof.
  unfold to_zero, enable, zero_motors. apply list_eq. intros i. rewrite !list_lookup_imap.
  destruct (motor_cmd LowCmd_default !! i) as [m|]; [|done]. cbn [fmap option_fmap option_map].
  by destruct (i <? H1_NUM_MOTOR)%nat.
Qed.

(** The h1-2 ankle program does not wait for a state and does not reject
    corrupted messages.  In each of the first 1500 calls of [Control] it sends a
    command for the 27 joints whose targets and robot type come from the last
    message delivered, whether or not its checksum was right, and from an object
    of zeros when there was none: before the first message every joint is sent to
    the zero posture at full gain. *)
Lemma track_unchecked_state evs :
  (ticks evs < 1500)%nat ->
  published (run (evs ++ [Tick])) =
  published (run evs) ++
    [seal pad {| mode_pr := 0; mode_machine := state_mode_machine (last_message evs);
                 motor_cmd := zero_motors (S (ticks evs)) (last_message evs);
                 lc_reserve := [0; 0; 0; 0]; crc := 0 |}] ∧
  (last_message evs = LowState_default ->
   ∀ i m, (i < H1_NUM_MOTOR)%nat -> zero_motors (S (ticks evs)) (last_message evs) !! i = Some m ->
          mode m = 1 ∧ SFeqb (q m) fzero = true ∧ (kp m = F32.of_Z 100 ∨ kp m = F32.of_Z 50)).
Proof.
  intros Hk. destruct (run_state evs) as (H1 & H2 & H3). destruct (time_early (ticks evs) Hk) as [Hf Hr]. split.
  - unfold run at 1. rewrite foldl_app. fold (run evs). cbn [foldl step]. unfold Control. cbn zeta.
    rewrite H1, H2, H3, <- time_at_S, Hf. cbn [published]. by rewrite to_zero_enable.
  - intros -> i m Hi Hm. unfold zero_motors in Hm. rewrite list_lookup_imap in Hm.
    apply fmap_Some in Hm as (m0 & _ & ->). rewrite (proj2 (Nat.ltb_lt i H1_NUM_MOTOR)) by done.
    cbn [mode q kp]. split; [done|]. split.
    + assert (Hq : motor_q i LowState_default = fzero) by (do 27 (destruct i as [|i]; [vm_compute; reflexivity|]); unfold H1_NUM_MOTOR in Hi; lia).
      rewrite Hq. pose proof (zero_target_toward LowLevel.AnkleSwing _ fzero Hr eq_refl) as [[T1 T2]|[T1 T2]].
      * by apply fzero_between.
      * by apply fzero_between.
    + unfold joint_kp. destruct (i <? 13)%nat; [by left|by right].
Qed.
End Control.

(** A message whose checksum does not match. *)
Definition corrupted_state : Hg.LowState_ := take 76 quiet_state ++ [0; 0; 128; 63] ++ drop 80 quiet_state.

Lemma corrupted_state_crc : crc_matches corrupted_state = false.
Proof. vm_compute. reflexivity. Qed.

Lemma track_unchecked_state_witness :
  crc_matches corrupted_state = false ∧
  published (run no_padding clamp_sin clamp_sin ([Deliver corrupted_state] ++ [Tick])) =
  [] ++ [seal no_padding {| mode_pr := 0; mode_machine := state_mode_machine corrupted_state;
                            motor_cmd := zero_motors 1 corrupted_state; lc_reserve := [0; 0; 0; 0]; crc := 0 |}].
Proof.
  split; [exact corrupted_state_crc|].
  apply (track_unchecked_state no_padding clamp_sin clamp_sin [Deliver corrupted_state]). cbn. lia.
Defined.
End AnkleTrack.

(** ** humanoid.hpp *)
Module Humanoid.
Import LowCmd.

Create HintDb humanoid.

Definition kNumMotors : nat := 20.

(** [JointIndex]. *)
Definition kRightHipYaw : nat := 8.
Definition kRightHipRoll : nat := 0.
Definition kRightHipPitch : nat := 1.
Definition kRightKnee : nat := 2.
Definition kRightAnkle : nat := 11.
Definition kLeftHipYaw : nat := 7.
Definition kLeftHipRoll : nat := 3.
Definition kLeftHipPitch : nat := 4.
Definition kLeftKnee : nat := 5.
Definition kLeftAnkle : nat := 10.
Definition kWaistYaw : nat := 6.
Definition kNotUsedJoint : nat := 9.
Definition kRightShoulderPitch : nat := 12.
Definition kRightShoulderRoll : nat := 13.
Definition kRightShoulderYaw : nat := 14.
Definition kRightElbow : nat := 15.
Definition kLeftShoulderPitch : nat := 16.
Definition kLeftShoulderRoll : nat := 17.
Definition kLeftShoulderYaw : nat := 18.
Definition kLeftElbow : nat := 19.

Record MotorCommand := {
  q_ref : list float32; dq_ref : list float32; cmd_kp : list float32; cmd_kd : list float32; tau_ff : list float32
}.
Record MotorState := { ms_q : list float32; ms_dq : list float32 }.
Record BaseState := { bs_rpy : list float32; bs_omega : list float32 }.

Definition IsWeakMotor (i : nat) : bool :=
  bool_decide (i ∈ [kLeftAnkle; kRightAnkle; kRightShoulderPitch; kRightShoulderRoll; kRightShoulderYaw; kRightElbow;
                    kLeftShoulderPitch; kLeftShoulderRoll; kLeftShoulderYaw; kLeftElbow]).

Definition kp_low_ : float32 := F32.of_Z 60.
Definition kp_high_ : float32 := F32.of_Z 200.
Definition kd_low_ : float32 := lit32 15 10.
Definition kd_high_ : float32 := F32.of_Z 5.
Definition control_dt_ : float32 := lit32 1 100.
Definition hip_pitch_init_pos_ : float32 := lit32 (-5) 10.
Definition knee_init_pos_ : float32 := F32.of_Z 1.
Definition ankle_init_pos_ : float32 := lit32 (-5) 10.
Definition shoulder_pitch_init_pos_ : float32 := lit32 4 10.
Definition init_duration_ : float32 := F32.of_Z 10.

(** The members of [HumanoidExample]; [published] is what was handed to
    [lowcmd_publisher_]. *)
Record HumanoidExample := {
  time_ : float32;
  motor_state_buffer_ : DataBuffer.t MotorState;
  motor_command_buffer_ : DataBuffer.t MotorCommand;
  base_state_buffer_ : DataBuffer.t BaseState;
  published : list LowCmd_
}.

Definition HumanoidExample_init : HumanoidExample :=
  {| time_ := fzero; motor_state_buffer_ := None; motor_command_buffer_ := None; base_state_buffer_ := None;
     published := [] |}.

Definition RecordMotorState (msg : RobotInterface.LowState_) (s : HumanoidExample) : HumanoidExample :=
  let motor i := st_motor msg !!! i in
  let ms := {| ms_q := (fun i => (motor i).1.1) <$> seq 0 kNumMotors; ms_dq := (fun i => (motor i).1.2) <$> seq 0 kNumMotors |} in
  {| time_ := time_ s; motor_state_buffer_ := DataBuffer.SetData ms (motor_state_buffer_ s);
     motor_command_buffer_ := motor_command_buffer_ s; base_state_buffer_ := base_state_buffer_ s;
     published := published s |}.

Definition RecordBaseState (msg : RobotInterface.LowState_) (s : HumanoidExample) : HumanoidExample :=
  let bs := {| bs_rpy := st_rpy msg; bs_omega := st_gyroscope msg |} in
  {| time_ := time_ s; motor_state_buffer_ := motor_state_buffer_ s;
     motor_command_buffer_ := motor_command_buffer_ s;
     base_state_buffer_ := DataBuffer.SetData bs (base_state_buffer_ s); published := published s |}.

Definition LowStateHandler (msg : RobotInterface.LowState_) (s : HumanoidExample) : HumanoidExample :=
  RecordBaseState msg (RecordMotorState msg s).

(** The posture: the last assignment that applies to joint [i]. *)
Definition init_pos (i : nat) : float32 :=
  let q := fzero in
  let q := if (i =? kLeftHipPitch)%nat || (i =? kRightHipPitch)%nat then hip_pitch_init_pos_ else q in
  let q := if (i =? kLeftKnee)%nat || (i =? kRightKnee)%nat then knee_init_pos_ else q in
  let q := if (i =? kLeftAnkle)%nat || (i =? kRightAnkle)%nat then ankle_init_pos_ else q in
  if (i =? kLeftShoulderPitch)%nat || (i =? kRightShoulderPitch)%nat then shoulder_pitch_init_pos_ else q.

(** [(q_des - q) * ratio + q], in single precision. *)
Definition interpolate (d ratio q : float32) : float32 := F32.add (F32.mul (F32.sub d q) ratio) q.

(** [time_ += control_dt_; time_ = std::clamp(time_, 0.f, init_duration_)]. *)
Definition advance (time : float32) : float32 := std_clamp (F32.add time control_dt_) fzero init_duration_.

(** [time_ / init_duration_]. *)
Definition ratio (time : float32) : float32 := F32.div time init_duration_.

Definition motor_command (r : float32) (ms : MotorState) : MotorCommand :=
  let each {A} (f : nat -> A) := f <$> seq 0 kNumMotors in
  {| cmd_kp := each (fun i => if IsWeakMotor i then kp_low_ else kp_high_);
     cmd_kd := each (fun i => if IsWeakMotor i then kd_low_ else kd_high_);
     dq_ref := each (fun _ => fzero); tau_ff := each (fun _ => fzero);
     q_ref := each (fun i => interpolate (init_pos i) r (ms_q ms !!! i)) |}.

Definition Control (s : HumanoidExample) : HumanoidExample :=
  match DataBuffer.GetData (motor_state_buffer_ s) with
  | Some ms =>
      let time := advance (time_ s) in
      {| time_ := time; motor_state_buffer_ := motor_state_buffer_ s;
         motor_command_buffer_ := DataBuffer.SetData (motor_command (ratio time) ms) (motor_command_buffer_ s);
         base_state_buffer_ := base_state_buffer_ s; published := published s |}
  | None => s
  end.

(** The loop of [LowCommandWriter]. *)
Definition fill_motors (mc : MotorCommand) (l : list MotorCmd_) : list MotorCmd_ :=
  imap (fun i m =>
    if (i <? kNumMotors)%nat
    then {| mode := if IsWeakMotor i then 0x01 else 0x0A; tau := tau_ff mc !!! i; q := q_ref mc !!! i;
            dq := dq_ref mc !!! i; kp := cmd_kp mc !!! i; kd := cmd_kd mc !!! i; reserve := reserve m |}
    else m) l.

Section Writer.
Context (pad : Padding).

Definition dds_low_command (mc : MotorCommand) : LowCmd_ :=
  let c := LowCmd_default in
  seal pad {| head := [0xFE; 0xEF]; level_flag := 0xFF; frame_reserve := frame_reserve c; sn := sn c;
              version := version c; bandwidth := bandwidth c; motor_cmd := fill_motors mc (motor_cmd c);
              bms_cmd := bms_cmd c; wireless_remote := wireless_remote c; led := led c; fan := fan c;
              gpio := 0; lc_reserve := lc_reserve c; crc := crc c |}.

Definition LowCommandWriter (s : HumanoidExample) : HumanoidExample :=
  match DataBuffer.GetData (motor_command_buffer_ s) with
  | Some mc =>
      {| time_ := time_ s; motor_state_buffer_ := motor_state_buffer_ s;
         motor_command_buffer_ := motor_command_buffer_ s; base_state_buffer_ := base_state_buffer_ s;
         published := published s ++ [dds_low_command mc] |}
  | None => s
  end.
End Writer.

(** *** Interpolation in single precision *)

Definition one32 : float32 := F32.of_Z 1.

Definition unit32 (r : float32) : bool := ok32 r && fle fzero r && fle r one32.

Lemma unit32_spec r : unit32 r = true -> ok32 r = true ∧ 0 <= fval r <= pw 0.
Proof.
  intros [[Hr H1]%andb_true_iff H2]%andb_true_iff. rewrite fle32 in H1, H2 by done.
  split; [done|]. split; [exact H1|]. assert (E : fval one32 = pw 0) by (vm_compute; reflexivity). lia.
Qed.

Lemma init_pos_ok i : ok32 (init_pos i) = true ∧ Z.abs (fval (init_pos i)) <= pw 0.
Proof.
  unfold init_pos. cbn zeta. repeat split_if; split; vm_compute; congruence.
Qed.

(** The subtraction is off by at most one unit, and so is the final sum. *)
Lemma interpolate_bounds d r q :
  ok32 d = true -> Z.abs (fval d) <= pw 0 -> unit32 r = true -> angle_ok q = true ->
  ok32 (interpolate d r q) = true ∧
  Z.min (fval q) (fval d) - tolerance <= fval (interpolate d r q) <= Z.max (fval q) (fval d) + tolerance ∧
  (r = one32 -> Z.abs (fval (interpolate d r q) - fval d) <= tolerance).
Proof.
  intros Hd Hdv [Hr Hrv]%unit32_spec [Hq Hqv]%angle_spec. pose proof pw_21_pos as Hp.
  rewrite unit_pw in Hdv, Hqv. unfold interpolate, tolerance.
  destruct (sub_near 24 128 ltac:(lia) ltac:(lia) ltac:(lia) d q (-21)) as [Hs Hsv];
    [done|done|unfold emin; lia|unfold emin; lia|change (2 ^ 24) with (8 * 2 ^ 21); lia|].
  fold (F32.sub d q) in Hs, Hsv. set (s := F32.sub d q) in *. clearbody s.
  destruct (mul_unit_between 24 128 ltac:(lia) ltac:(lia) ltac:(lia) s r Hs Hr Hrv) as [Hm Hmv].
  assert (Hone : r = one32 -> F32.mul s r = s).
  { intros ->. apply F32_mul_one. by apply andb_true_iff in Hs as [_ Hs]. }
  fold (F32.mul s r) in Hm, Hmv. set (m := F32.mul s r) in *. clearbody m.
  destruct (add_near 24 128 ltac:(lia) ltac:(lia) ltac:(lia) m q (-21)) as [Ha Hav];
    [done|done|unfold emin; lia|unfold emin; lia|change (2 ^ 24) with (8 * 2 ^ 21); lia|].
  fold (F32.add m q) in Ha, Hav. split; [done|]. split; [lia|]. intros E. rewrite (Hone E) in Hav |- *. lia.
Qed.

(** *** The clock *)

Definition humanoid_time (k : nat) : float32 := Nat.iter k advance fzero.

Lemma humanoid_time_S k : humanoid_time (S k) = advance (humanoid_time k).
Proof. done. Qed.

Fixpoint ramp (n : nat) (t : float32) : option float32 :=
  match n with
  | O => Some t
  | S n => let t := advance t in if unit32 (ratio t) then ramp n t else None
  end.

Lemma ramp_spec n k t :
  ramp n (humanoid_time k) = Some t ->
  humanoid_time (n + k) = t ∧ ∀ j, (j < n)%nat -> unit32 (ratio (humanoid_time (S (j + k)))) = true.
Proof.
  revert k; induction n as [|n IH]; intros k; cbn [ramp]; [intros [= <-]; split; [done|lia]|].
  rewrite <- humanoid_time_S. destruct (unit32 _) eqn:E; [|done]. intros H.
  apply IH in H as [H1 H2]. rewrite Nat.add_succ_r in H1. split; [exact H1|].
  intros [|j] Hj; [exact E|]. specialize (H2 j ltac:(lia)). by rewrite Nat.add_succ_r in H2.
Qed.

Lemma ramp_1000 : ramp 1000 (humanoid_time 0) = Some init_duration_.
Proof. vm_compute. reflexivity. Qed.

Lemma advance_end : advance init_duration_ = init_duration_.
Proof. vm_compute. reflexivity. Qed.

Lemma ratio_end : ratio init_duration_ = one32 ∧ unit32 one32 = true.
Proof. split; vm_compute; reflexivity. Qed.

#[global] Opaque humanoid_time.

Lemma humanoid_time_end j : humanoid_time (j + 1000) = init_duration_.
Proof.
  induction j as [|j IH].
  - pose proof (ramp_spec 1000 0 _ ramp_1000) as [H _]. rewrite Nat.add_0_r in H. exact H.
  - cbn [Nat.add]. rewrite humanoid_time_S, IH. exact advance_end.
Qed.

Lemma humanoid_ratio k : unit32 (ratio (humanoid_time (S k))) = true ∧ ((1000 <= k)%nat -> ratio (humanoid_time k) = one32).
Proof.
  destruct ratio_end as [R1 R2]. split.
  - destruct (Nat.lt_ge_cases k 1000) as [Hk|Hk].
    + pose proof (ramp_spec 1000 0 _ ramp_1000) as [_ H]. specialize (H k Hk). by rewrite Nat.add_0_r in H.
    + replace (S k) with (S (k - 1000) + 1000)%nat by lia. by rewrite humanoid_time_end, R1.
  - intros Hk. replace k with (k - 1000 + 1000)%nat by lia. by rewrite humanoid_time_end.
Qed.

(** *** Runs *)

Section Runs.
Context (pad : Padding).

Inductive event := Deliver (msg : RobotInterface.LowState_) | Ctrl | Writer.

Definition step (s : HumanoidExample) (ev : event) : HumanoidExample :=
  match ev with
  | Deliver msg => LowStateHandler msg s
  | Ctrl => Control s
  | Writer => LowCommandWriter pad s
  end.

Definition run (evs : list event) : HumanoidExample := foldl step HumanoidExample_init evs.

Definition messages (evs : list event) : list RobotInterface.LowState_ :=
  omap (fun ev => match ev with Deliver msg => Some msg | _ => None end) evs.

(** The calls of [Control] that found a state. *)
Definition count (c : bool * nat) (ev : event) : bool * nat :=
  match ev with
  | Deliver _ => (true, c.2)
  | Ctrl => (c.1, if c.1 then S c.2 else c.2)
  | Writer => c
  end.

Definition counts (evs : list event) : bool * nat := foldl count (false, 0%nat) evs.
Definition effective (evs : list event) : nat := (counts evs).2.

Lemma run_snoc evs ev : run (evs ++ [ev]) = step (run evs) ev.
Proof. unfold run. by rewrite foldl_app. Qed.

Lemma counts_snoc evs ev : counts (evs ++ [ev]) = count (counts evs) ev.
Proof. unfold counts. by rewrite foldl_app. Qed.

Lemma messages_snoc evs ev msg : msg ∈ messages evs -> msg ∈ messages (evs ++ [ev]).
Proof. intros Hm. unfold messages. rewrite omap_app. apply elem_of_app. by left. Qed.

Lemma messages_deliver evs msg : msg ∈ messages (evs ++ [Deliver msg]).
Proof. unfold messages. rewrite omap_app. apply elem_of_app. right. left. Qed.

#[local] Hint Resolve messages_snoc messages_deliver : humanoid.

Definition angle_of (msg : RobotInterface.LowState_) (i : nat) : float32 := (st_motor msg !!! i).1.1.

(** What a command computed from [msg] holds. *)
Definition command_for (msg : RobotInterface.LowState_) (k : nat) (c : MotorCommand) : Prop :=
  ∃ ms, c = motor_command (ratio (humanoid_time (S k))) ms ∧
        ∀ i, (i < kNumMotors)%nat -> ms_q ms !!! i = angle_of msg i.

Definition state_of (evs : list event) (ms : MotorState) : Prop :=
  ∃ msg, msg ∈ messages evs ∧ ∀ i, (i < kNumMotors)%nat -> ms_q ms !!! i = angle_of msg i.

Definition command_of (evs : list event) (c : MotorCommand) (k : nat) : Prop :=
  ∃ msg, msg ∈ messages evs ∧ command_for msg k c.

Record Inv (evs : list event) : Prop := {
  inv_seen : (counts evs).1 = bool_decide (is_Some (motor_state_buffer_ (run evs)));
  inv_time : time_ (run evs) = humanoid_time (effective evs);
  inv_state : ∀ ms, motor_state_buffer_ (run evs) = Some ms -> state_of evs ms;
  inv_command : ∀ c, motor_command_buffer_ (run evs) = Some c -> ∃ k, command_of evs c k ∧ effective evs = S k;
  inv_published : ∀ f, f ∈ published (run evs) -> ∃ c k, command_of evs c k ∧ f = dds_low_command pad c
}.

Lemma state_of_snoc evs ev ms : state_of evs ms -> state_of (evs ++ [ev]) ms.
Proof. intros (msg & Hm & H). exists msg. eauto with humanoid. Qed.

Lemma command_of_snoc evs ev c k : command_of evs c k -> command_of (evs ++ [ev]) c k.
Proof. intros (msg & Hm & H). exists msg. eauto with humanoid. Qed.

#[local] Hint Resolve state_of_snoc command_of_snoc : humanoid.

Lemma published_snoc evs ev f :
  (∃ c k, command_of evs c k ∧ f = dds_low_command pad c) ->
  ∃ c k, command_of (evs ++ [ev]) c k ∧ f = dds_low_command pad c.
Proof. intros (c & k & H & ->). eauto with humanoid. Qed.

#[local] Hint Resolve published_snoc : humanoid.

Lemma humanoid_deliver_inv evs msg : Inv evs -> Inv (evs ++ [Deliver msg]).
Proof.
  intros [H1 H2 H3 H4 H5]. unfold effective in *.
  constructor; unfold effective; rewrite ?run_snoc, ?counts_snoc; cbn [count step LowStateHandler RecordBaseState
    RecordMotorState time_ motor_state_buffer_ motor_command_buffer_ published fst snd]; eauto with humanoid.
  - intros ms [= <-]. exists msg. split; [apply messages_deliver|]. intros i Hi. cbn [ms_q].
    apply list_lookup_total_correct. change ((angle_of msg <$> seq 0 kNumMotors) !! i = Some (angle_of msg i)).
    by rewrite list_lookup_fmap, lookup_seq_lt.
  - intros c Hc. destruct (H4 c Hc) as (k & Hk & E). eauto with humanoid.
Qed.

Lemma ctrl_inv evs : Inv evs -> Inv (evs ++ [Ctrl]).
Proof.
  intros [H1 H2 H3 H4 H5]. unfold effective in *.
  constructor; unfold effective; rewrite ?run_snoc, ?counts_snoc; cbn [count step fst snd]; unfold Control; rewrite ?H1;
    (destruct (motor_state_buffer_ (run evs)) as [ms|] eqn:E; cbn [DataBuffer.GetData DataBuffer.SetData time_
      motor_state_buffer_ motor_command_buffer_ published]; rewrite ?E); eauto with humanoid.
  - by rewrite H2.
  - intros c [= <-]. destruct (H3 ms eq_refl) as (msg & Hin & Hq). eexists. split; [|reflexivity].
    exists msg. split; [by apply messages_snoc|]. exists ms. by rewrite H2.
  - intros c Hc. destruct (H4 c Hc) as (k & Hk & Ek). eauto with humanoid.
Qed.

Lemma humanoid_writer_inv evs : Inv evs -> Inv (evs ++ [Writer]).
Proof.
  intros [H1 H2 H3 H4 H5]. unfold effective in *.
  constructor; unfold effective; rewrite ?run_snoc, ?counts_snoc; cbn [count step fst snd]; unfold LowCommandWriter;
    (destruct (motor_command_buffer_ (run evs)) as [mc|] eqn:E; cbn [DataBuffer.GetData time_
      motor_state_buffer_ motor_command_buffer_ published]; rewrite ?E); eauto with humanoid; try done.
  - intros c [= <-]. destruct (H4 mc eq_refl) as (k & Hk & Ek). eauto with humanoid.
  - intros f [Hf|Hf%list_elem_of_singleton]%elem_of_app; [eauto with humanoid|].
    destruct (H4 mc eq_refl) as (k & Hk & Ek). eauto with humanoid.
Qed.

Lemma run_inv evs : Inv evs.
Proof.
  induction evs as [|[msg| |] evs IH] using rev_ind;
    [|by apply humanoid_deliver_inv|by apply ctrl_inv|by apply humanoid_writer_inv].
  constructor; try done. intros f Hf. by apply not_elem_of_nil in Hf.
Qed.

(** *** What is sent *)

(** A target computed from the angle [q] of joint [i]. *)
Definition near_path (i : nat) (q x : float32) : Prop :=
  ok32 x = true ∧
  Z.min (fval q) (fval (init_pos i)) - tolerance <= fval x <= Z.max (fval q) (fval (init_pos i)) + tolerance.

Definition motor_for (i : nat) (x : float32) : MotorCmd_ :=
  {| mode := if IsWeakMotor i then 1 else 10; q := x; dq := fzero; tau := fzero;
     kp := F32.of_Z (if IsWeakMotor i then 60 else 200);
     kd := if IsWeakMotor i then lit32 15 10 else F32.of_Z 5; reserve := [0; 0; 0] |}.

Lemma each_lookup {A} `{!Inhabited A} (f : nat -> A) i : (i < kNumMotors)%nat -> (f <$> seq 0 kNumMotors) !!! i = f i.
Proof. intros Hi. apply list_lookup_total_correct. by rewrite list_lookup_fmap, lookup_seq_lt. Qed.

Lemma fill_lookup r ms i :
  (i < kNumMotors)%nat ->
  fill_motors (motor_command r ms) (motor_cmd LowCmd_default) !! i
  = Some (motor_for i (interpolate (init_pos i) r (ms_q ms !!! i))).
Proof.
  intros Hi. unfold fill_motors. rewrite list_lookup_imap. cbn [motor_cmd LowCmd_default].
  rewrite lookup_replicate_2 by exact Hi. cbn [fmap option_fmap option_map].
  rewrite (proj2 (Nat.ltb_lt i kNumMotors) Hi).
  unfold motor_command. cbn zeta. cbv beta iota delta [tau_ff q_ref dq_ref cmd_kp cmd_kd].
  rewrite !each_lookup by done. unfold motor_for, kp_low_, kp_high_, kd_low_, kd_high_.
  by destruct (IsWeakMotor i).
Qed.

Lemma length_fill mc : length (fill_motors mc (motor_cmd LowCmd_default)) = 20%nat.
Proof. unfold fill_motors. by rewrite length_imap. Qed.

Lemma dds_command_ok r ms :
  LowCmdProps.cmd_ok
    {| head := [0xFE; 0xEF]; level_flag := 0xFF; frame_reserve := 0; sn := [0; 0]; version := [0; 0]; bandwidth := 0;
       motor_cmd := fill_motors (motor_command r ms) (motor_cmd LowCmd_default);
       bms_cmd := bms_cmd LowCmd_default; wireless_remote := wireless_remote LowCmd_default;
       led := led LowCmd_default; fan := fan LowCmd_default; gpio := 0; lc_reserve := 0; crc := 0 |}.
Proof.
  assert (HM : Forall LowCmdProps.motor_ok (fill_motors (motor_command r ms) (motor_cmd LowCmd_default))).
  { apply Forall_lookup. intros i m Hm. assert (Hi : (i < kNumMotors)%nat).
    { apply lookup_lt_Some in Hm. by rewrite length_fill in Hm. }
    rewrite (fill_lookup r ms i Hi) in Hm. injection Hm as <-. unfold motor_for.
    destruct (IsWeakMotor i); split_and!; try done; by repeat constructor. }
  unfold LowCmdProps.cmd_ok. cbn [head level_flag frame_reserve sn version bandwidth motor_cmd bms_cmd wireless_remote
    led fan gpio]. split_and!; try exact HM; try apply length_fill; try reflexivity;
    try (apply (bool_decide_unpack _); vm_compute; exact I).
Qed.

(** C17. The h1 standing program, for every interleaving of state messages whose
    angles are at most 4 rad, calls of [Control] and calls of the writer.  Every
    frame sent is a valid sealed frame computed from some message received; it
    drives each of the twenty motors in the mode and with the gains of its class,
    towards a target that lies, up to 1e-6 rad, between the measured angle and
    the standing posture; and once [Control] has found a state 1000 times the
    command is the standing posture, up to 1e-6 rad, whatever was measured. *)
Theorem humanoid_reaches_posture evs :
  padding_ok pad ->
  (∀ msg i, msg ∈ messages evs -> (i < kNumMotors)%nat -> angle_ok (angle_of msg i) = true) ->
  (∀ f, f ∈ published (run evs) ->
     length (image pad f) = 812%nat ∧ crc32_core (words (image pad f)) = 0 ∧
     ∃ msg, msg ∈ messages evs ∧
       ∀ i, (i < kNumMotors)%nat ->
            ∃ x, motor_cmd f !! i = Some (motor_for i x) ∧ near_path i (angle_of msg i) x) ∧
  ((1000 <= effective evs)%nat ->
   ∀ c i, motor_command_buffer_ (run evs) = Some c -> (i < kNumMotors)%nat ->
          Z.abs (fval (q_ref c !!! i) - fval (init_pos i)) <= tolerance).
Proof.
  intros Hpad Hang. destruct (run_inv evs) as [_ _ _ Hcmd Hpub]. split.
  - intros f Hf. destruct (Hpub f Hf) as (c & k & (msg & Hm & ms & -> & Hms) & ->).
    destruct (LowCmdProps.sealed_frame pad _ Hpad (dds_command_ok (ratio (humanoid_time (S k))) ms)) as (Hl & Hc & _).
    split; [exact Hl|]. split; [exact Hc|]. exists msg. split; [exact Hm|]. intros i Hi.
    eexists. split; [exact (fill_lookup _ ms i Hi)|]. rewrite (Hms i Hi).
    destruct (init_pos_ok i) as [Hd Hdv]. destruct (humanoid_ratio k) as [Hr _].
    destruct (interpolate_bounds _ _ _ Hd Hdv Hr (Hang msg i Hm Hi)) as (H1 & H2 & _). by split.
  - intros Hk c i Hc Hi. destruct (Hcmd c Hc) as (k & (msg & Hm & ms & -> & Hms) & Ek).
    assert (Eq : q_ref (motor_command (ratio (humanoid_time (S k))) ms) !!! i
                 = interpolate (init_pos i) (ratio (humanoid_time (S k))) (ms_q ms !!! i))
      by exact (each_lookup (fun i => interpolate (init_pos i) (ratio (humanoid_time (S k))) (ms_q ms !!! i)) i Hi).
    rewrite Eq, (Hms i Hi).
    destruct (init_pos_ok i) as [Hd Hdv]. destruct (humanoid_ratio k) as [Hr _].
    apply (interpolate_bounds _ _ _ Hd Hdv Hr (Hang msg i Hm Hi)). apply humanoid_ratio. lia.
Qed.
End Runs.

Definition standing_message : RobotInterface.LowState_ :=
  {| st_quaternion := []; st_rpy := []; st_gyroscope := [];
     st_motor := replicate 20 (lit32 3 10, fzero, fzero); st_wireless_remote := [] |}.

Lemma standing_ok evs :
  messages evs = [standing_message] ->
  ∀ msg i, msg ∈ messages evs -> (i < kNumMotors)%nat -> angle_ok (angle_of msg i) = true.
Proof.
  intros -> msg i ->%list_elem_of_singleton Hi. unfold angle_of, standing_message. cbn [st_motor].
  rewrite lookup_total_replicate_2 by exact Hi. vm_compute. reflexivity.
Qed.

Abbreviation zero_pad := LowCmdProps.zero_padding.
Abbreviation one_round := [Deliver standing_message; Ctrl; Writer].

Lemma humanoid_reaches_posture_witness :
  length (published (run zero_pad one_round)) = 1%nat ∧
  Forall (fun f => crc32_core (words (image zero_pad f)) = 0) (published (run zero_pad one_round)).
Proof.
  split; [reflexivity|]. apply Forall_forall. intros f Hf.
  apply (humanoid_reaches_posture zero_pad one_round);
    [exact LowCmdProps.zero_padding_ok|by apply standing_ok|exact Hf].
Defined.
End Humanoid.
