(* ===== verification/Dex3.v ===== *)
(** * The dexterous hand of the g1.

    Models [src/example/g1/dex3/g1_dex3_example.cpp]: a thread turns key presses
    into a state, and the main loop reads the state and commands the seven motors
    of one hand, rotating them between their limits, gripping, stopping, or
    printing their positions.  The loop reads the state and acts on it in two
    steps, between which the input thread may run.

    [sin] is a parameter.  The bit-field [timeout] that [rotateMotors] and
    [gripHand] do not set is [junk].  Console output is left out but for the
    positions, sleeping altogether. *)

From S2P Require Import Prelude Floats Rounding Division HgMsg.

Local Open Scope Z_scope.

Inductive State := INIT | ROTATE | GRIP | STOP | PRINT.

#[global] Instance State_eq_dec : EqDecision State.
Proof. solve_decision. Defined.

Definition MOTOR_MAX : nat := 7.

(** Limits in thousandths of a radian. *)
Definition limits (l : list Z) : list float32 := (fun z => lit32 z 1000) <$> l.

Definition maxLimits_left : list float32 := limits [1050; 1050; 1750; 0; 0; 0; 0].
Definition minLimits_left : list float32 := limits [-1050; -724; 0; -1570; -1750; -1570; -1750].
Definition maxLimits_right : list float32 := limits [1050; 742; 0; 1570; 1750; 1570; 1750].
Definition minLimits_right : list float32 := limits [-1050; -1050; -1750; 0; 0; 0; 0].

Definition maxLimits (isLeftHand : bool) : list float32 := if isLeftHand then maxLimits_left else maxLimits_right.
Definition minLimits (isLeftHand : bool) : list float32 := if isLeftHand then minLimits_left else minLimits_right.

(** The byte assembled from [RIS_Mode_t]. *)
Definition ris_mode (id status : Z) (timeout : bool) : Z :=
  let mode := Z.lor 0 (Z.land id 0x0F) in
  let mode := Z.lor mode (Z.shiftl (Z.land status 0x07) 4) in
  Z.lor mode (Z.shiftl (Z.land (if timeout then 1 else 0) 0x01) 7).

Definition half (x : float32) : float32 := F32.of_f64 (F64.div (F64.of_f32 x) (F64.of_Z 2)).

(** [(maxLimits[i] + minLimits[i]) / 2.0], and half the range. *)
Definition mid (left : bool) (i : nat) : float32 := half (F32.add (maxLimits left !!! i) (minLimits left !!! i)).
Definition amplitude (left : bool) (i : nat) : float32 := half (F32.sub (maxLimits left !!! i) (minLimits left !!! i)).

(** ** The program *)

(** Where the main loop is: before it reads [currentState], or before the
    [switch] on what it read. *)
Inductive main_pc := Top | Act (state : State).

Record world := {
  msg : list Hg.MotorCmd_;           (** [msg.motor_cmd()] *)
  hand_q : list float32;             (** [state.motor_state()[i].q()] *)
  currentState : State;
  count : Z; dir : Z;                (** the static locals of [rotateMotors] *)
  pc : main_pc;
  input : bool;                      (** the input thread is running *)
  written : list (list Hg.MotorCmd_);
  printed : list (option (list float32))
}.

Definition init : world :=
  {| msg := replicate MOTOR_MAX Hg.MotorCmd_default; hand_q := replicate MOTOR_MAX fzero; currentState := INIT;
     count := 1; dir := 1; pc := Top; input := true; written := []; printed := [] |}.

Section Hand.
Context (sin : float64 -> float64) (isLeftHand : bool).

Abbreviation m_dq := Hg.dq.

(** The body of the loop of [rotateMotors]. *)
Definition rotation_angle (count : Z) (i : nat) : float32 :=
  F32.of_f64 (F64.add (F64.of_f32 (mid isLeftHand i))
    (F64.mul (F64.of_f32 (amplitude isLeftHand i))
       (sin (F64.mul (F64.div (F64.of_Z count) (F64.of_Z 20000)) F64.M_PI)))).

Definition rotate_motor (junk : nat -> bool) (count : Z) (i : nat) (m : Hg.MotorCmd_) : Hg.MotorCmd_ :=
  {| Hg.mode := ris_mode (Z.of_nat i) 0x01 (junk i); Hg.tau := fzero; Hg.kp := lit32 5 10; Hg.kd := lit32 1 10;
     Hg.q := rotation_angle count i; Hg.dq := Hg.dq m; Hg.reserve := Hg.reserve m |}.

Definition rotateMotors (junk : nat -> bool) (w : world) : world :=
  let cmd := imap (fun i m => rotate_motor junk (count w) i m) (msg w) in
  let count' := count w + dir w in
  let dir' := if 10000 <=? count' then -1 else dir w in
  let dir' := if count' <=? -10000 then 1 else dir' in
  {| msg := cmd; hand_q := hand_q w; currentState := currentState w; count := count'; dir := dir'; pc := pc w;
     input := input w; written := written w ++ [cmd]; printed := printed w |}.

Definition write (cmd : list Hg.MotorCmd_) (w : world) : world :=
  {| msg := cmd; hand_q := hand_q w; currentState := currentState w; count := count w; dir := dir w; pc := pc w;
     input := input w; written := written w ++ [cmd]; printed := printed w |}.

Definition grip_motor (junk : nat -> bool) (i : nat) (m : Hg.MotorCmd_) : Hg.MotorCmd_ :=
  {| Hg.mode := ris_mode (Z.of_nat i) 0x01 (junk i); Hg.tau := fzero; Hg.q := mid isLeftHand i; Hg.dq := fzero;
     Hg.kp := lit32 15 10; Hg.kd := lit32 1 10; Hg.reserve := Hg.reserve m |}.

Definition gripHand (junk : nat -> bool) (w : world) : world := write (imap (grip_motor junk) (msg w)) w.

Definition stop_motor (i : nat) (m : Hg.MotorCmd_) : Hg.MotorCmd_ :=
  {| Hg.mode := ris_mode (Z.of_nat i) 0x01 true; Hg.tau := fzero; Hg.dq := fzero; Hg.kp := fzero; Hg.kd := fzero;
     Hg.q := fzero; Hg.reserve := Hg.reserve m |}.

Definition stopMotors (w : world) : world := write (imap stop_motor (msg w)) w.

(** The position of joint [i] in its range, as [printState] shows it. *)
Definition position (q : list float32) (i : nat) : float32 :=
  std_clamp (F32.div (F32.sub (q !!! i) (minLimits isLeftHand !!! i))
                     (F32.sub (maxLimits isLeftHand !!! i) (minLimits isLeftHand !!! i))) fzero (F32.of_Z 1).

(** All seven; [None] when the last message has fewer than seven motors, which the
    code reads past the end. *)
Definition positions (q : list float32) : option (list float32) :=
  if (length q <? 7)%nat then None else Some (position q <$> seq 0 7).

Definition printState (w : world) : world :=
  {| msg := msg w; hand_q := hand_q w; currentState := currentState w; count := count w; dir := dir w; pc := pc w;
     input := input w; written := written w; printed := printed w ++ [positions (hand_q w)] |}.

Definition StateHandler (q : list float32) (w : world) : world :=
  {| msg := msg w; hand_q := q; currentState := currentState w; count := count w; dir := dir w; pc := pc w;
     input := input w; written := written w; printed := printed w |}.

Definition set_state (s : State) (w : world) : world :=
  {| msg := msg w; hand_q := hand_q w; currentState := s; count := count w; dir := dir w; pc := pc w;
     input := input w; written := written w; printed := printed w |}.

Definition set_pc (p : main_pc) (w : world) : world :=
  {| msg := msg w; hand_q := hand_q w; currentState := currentState w; count := count w; dir := dir w; pc := p;
     input := input w; written := written w; printed := printed w |}.

Definition end_input (w : world) : world :=
  {| msg := msg w; hand_q := hand_q w; currentState := currentState w; count := count w; dir := dir w; pc := pc w;
     input := false; written := written w; printed := printed w |}.

(** One iteration of [userInputThread]. *)
Inductive key := Kq | Kr | Kg | Kp | Ks | Other.

Definition userInput (k : key) (w : world) : world :=
  match k with
  | Kq => end_input (set_state STOP w)
  | Kr => set_state ROTATE w
  | Kg => set_state GRIP w
  | Kp => set_state PRINT w
  | Ks => set_state STOP w
  | Other => w
  end.

(** The [switch] of the main loop. *)
Definition perform (junk : nat -> bool) (s : State) (w : world) : world :=
  match s with
  | INIT => set_state ROTATE w
  | ROTATE => rotateMotors junk w
  | GRIP => gripHand junk w
  | STOP => stopMotors w
  | PRINT => printState w
  end.

Definition main_step (junk : nat -> bool) (w : world) : world :=
  match pc w with
  | Top => set_pc (Act (currentState w)) w
  | Act s => set_pc Top (perform junk s w)
  end.

(** The three threads. *)
Inductive step : world -> world -> Prop :=
| step_key k w : input w = true -> step w (userInput k w)
| step_main junk w : step w (main_step junk w)
| step_message q w : step w (StateHandler q w).
End Hand.

(** * Properties *)
Module Dex3Props.

(** ** The angles of the rotation *)

(** What is used of [sin]. *)
Definition sin_range (sin : float64 -> float64) : Prop :=
  ∀ x, ok64 x = true -> ok64 (sin x) = true ∧ fle (F64.of_Z (-1)) (sin x) = true ∧ fle (sin x) (F64.of_Z 1) = true.

Definition sweep_ok (count : Z) : Prop := -10000 <= count <= 10000.

Definition phase (count : Z) : float64 := F64.mul (F64.div (F64.of_Z count) (F64.of_Z 20000)) F64.M_PI.

Lemma integers z : z ∈ [-10000; -1; 1; 4; -4; 10000; 20000] -> ok64 (F64.of_Z z) = true ∧ fval (F64.of_Z z) = z * pw 0.
Proof.
  intros Hz. assert (H : Forall (fun z => ok64 (F64.of_Z z) = true ∧ fval (F64.of_Z z) = z * pw 0)
    [-10000; -1; 1; 4; -4; 10000; 20000]).
  { repeat (constructor; [split; vm_compute; reflexivity|]). constructor. }
  rewrite Forall_forall in H. by apply H.
Qed.

Ltac integer z := let O := fresh "O" in let V := fresh "V" in
  destruct (integers z) as [O V]; [rewrite ?elem_of_cons; tauto|].

(** The count as a [double]: zero, or of the order of one at least. *)
Lemma count_number k : sweep_ok k ->
  ok64 (F64.of_Z k) = true ∧ -10000 * pw 0 <= fval (F64.of_Z k) <= 10000 * pw 0 ∧
  (fval (F64.of_Z k) = 0 ∨ pw 0 <= Z.abs (fval (F64.of_Z k))).
Proof.
  intros Hk. assert (Hp : 0 < pw 0) by (apply pw_pos; unfold scale; lia). unfold sweep_ok in Hk.
  integer (-10000). integer (-1). integer 1. integer 10000.
  destruct (Z.lt_trichotomy k 0) as [H|[->|H]].
  - destruct (of_Z64_between k (F64.of_Z (-10000)) (F64.of_Z (-1))) as [Hn Hv]; [done|done|nia|].
    split; [exact Hn|]. lia.
  - split; [reflexivity|]. change (fval (F64.of_Z 0)) with 0. lia.
  - destruct (of_Z64_between k (F64.of_Z 1) (F64.of_Z 10000)) as [Hn Hv]; [done|done|nia|].
    split; [exact Hn|]. lia.
Qed.

Lemma phase_number k : sweep_ok k -> ok64 (phase k) = true.
Proof.
  intros (Hn & Hv & Hbig)%count_number. unfold phase.
  assert (Hp : 0 < pw 0) by (apply pw_pos; unfold scale; lia).
  integer 20000. integer (-1). integer 1. integer 4. integer (-4).
  destruct (div_between 53 1024 ltac:(lia) ltac:(lia) ltac:(lia) (F64.of_Z k) (F64.of_Z 20000) (F64.of_Z (-1)) (F64.of_Z 1))
    as [Hd Hdv]; [done|done|rewrite V; lia|done|done| |rewrite V, V0, V1; nia|].
  { destruct Hbig as [H0|Hbig]; [by left|right]. rewrite V.
    assert (pw (emin 53 1024 + 3) * 20000 <= pw 0) by (vm_compute; congruence). nia. }
  fold (F64.div (F64.of_Z k) (F64.of_Z 20000)) in Hd, Hdv. rewrite V0, V1 in Hdv.
  assert (Hpi : ok64 F64.M_PI = true ∧ 0 <= fval F64.M_PI <= 4 * pw 0) by (split_and!; vm_compute; congruence).
  destruct Hpi as [Hpi Hpv].
  eapply between_number, (mul_between 53 1024 ltac:(lia) ltac:(lia) ltac:(lia) _ _ (F64.of_Z (-4)) (F64.of_Z 4));
    [done|done|done|done|]. rewrite V2, V3. nia.
Qed.

(** The middle and half the range give the limits exactly, in every joint. *)
Definition limits_check (left : bool) (i : nat) : bool :=
  let hi := maxLimits left !!! i in let lo := minLimits left !!! i in
  ok32 hi && ok32 lo && ok32 (mid left i) && ok32 (amplitude left i) && (0 <=? fval (amplitude left i)) &&
  (fval (mid left i) + fval (amplitude left i) =? fval hi) && (fval (mid left i) - fval (amplitude left i) =? fval lo).

Lemma limits_checked : forallb (fun l => forallb (limits_check l) (seq 0 7)) [true; false] = true.
Proof. vm_compute. reflexivity. Qed.

Lemma limits_ok left i : (i < 7)%nat -> limits_check left i = true.
Proof.
  intros Hi. pose proof limits_checked as H. rewrite forallb_forall in H.
  assert (Hl : In left [true; false]) by (destruct left; cbn; auto). specialize (H left Hl). cbn beta in H.
  rewrite forallb_forall in H. apply H, in_seq. lia.
Qed.

#[local] Opaque mid amplitude maxLimits minLimits.

Lemma rotation_within sin left count i :
  sin_range sin -> sweep_ok count -> (i < 7)%nat ->
  fin_range (minLimits left !!! i) (rotation_angle sin left count i) (maxLimits left !!! i).
Proof.
  intros Hsin Hc Hi. pose proof (limits_ok left i Hi) as H. unfold limits_check in H.
  rewrite !andb_true_iff, !Z.eqb_eq, Z.leb_le in H. destruct H as ((((((Hhi & Hlo) & Hm) & Ha) & Ha0) & Eh) & El).
  unfold rotation_angle. fold (phase count).
  destruct (Hsin _ (phase_number count Hc)) as (Hw & W1 & W2). set (w := sin (phase count)) in *. clearbody w.
  integer (-1). integer 1. rewrite fle64 in W1, W2 by done. rewrite V in W1. rewrite V0 in W2.
  set (m := mid left i) in *. set (a := amplitude left i) in *. set (hi := maxLimits left !!! i) in *.
  set (lo := minLimits left !!! i) in *. clearbody m a hi lo.
  destruct (of_f32_exact m Hm) as [Om Em], (of_f32_exact a Ha) as [Oa Ea].
  destruct (of_f32_exact hi Hhi) as [Ohi Ehi], (of_f32_exact lo Hlo) as [Olo Elo].
  destruct (mul_between 53 1024 ltac:(lia) ltac:(lia) ltac:(lia) (F64.of_f32 a) w (SFopp (F64.of_f32 a)) (F64.of_f32 a))
    as [Hp Hpv]; [done|done|by rewrite number_opp|done|rewrite fval_opp; nia|].
  rewrite fval_opp in Hpv. fold (F64.mul (F64.of_f32 a) w) in Hp, Hpv. set (p := F64.mul _ _) in *. clearbody p.
  destruct (add_between 53 1024 ltac:(lia) ltac:(lia) ltac:(lia) (F64.of_f32 m) p (F64.of_f32 lo) (F64.of_f32 hi))
    as [Hs Hsv]; [done|done|done|done|lia|].
  fold (F64.add (F64.of_f32 m) p) in Hs, Hsv. rewrite Ehi, Elo in Hsv.
  destruct (of_f64_between _ lo hi Hs Hlo Hhi Hsv) as [Hf Hfv]. split; apply fle32; lia || done.
Qed.

(** ** Commands *)

(** What every command has in common: neither torque nor velocity, and the motor's
    identifier and enabling status in the mode byte. *)
Definition common (i : nat) (m : Hg.MotorCmd_) : Prop :=
  Hg.tau m = fzero ∧ Hg.dq m = fzero ∧ Hg.reserve m = 0 ∧ Z.land (Hg.mode m) 0x7F = 16 + Z.of_nat i.

Definition rotating (left : bool) (i : nat) (m : Hg.MotorCmd_) : Prop :=
  common i m ∧ Hg.kp m = lit32 5 10 ∧ Hg.kd m = lit32 1 10 ∧
  fin_range (minLimits left !!! i) (Hg.q m) (maxLimits left !!! i).

Definition gripping (left : bool) (i : nat) (m : Hg.MotorCmd_) : Prop :=
  common i m ∧ Hg.kp m = lit32 15 10 ∧ Hg.kd m = lit32 1 10 ∧ Hg.q m = mid left i ∧
  fin_range (minLimits left !!! i) (Hg.q m) (maxLimits left !!! i).

(** Limp, with the time-out bit set. *)
Definition stopped (i : nat) (m : Hg.MotorCmd_) : Prop :=
  common i m ∧ Hg.kp m = fzero ∧ Hg.kd m = fzero ∧ Hg.q m = fzero ∧ Hg.mode m = 144 + Z.of_nat i.

(** All seven motors are commanded alike. *)
Definition whole (P : nat -> Hg.MotorCmd_ -> Prop) (c : list Hg.MotorCmd_) : Prop :=
  length c = MOTOR_MAX ∧ ∀ i m, c !! i = Some m -> P i m.

Definition command_ok (left : bool) (c : list Hg.MotorCmd_) : Prop :=
  whole (rotating left) c ∨ whole (gripping left) c ∨ whole stopped c.

Lemma whole_imap (P : nat -> Hg.MotorCmd_ -> Prop) f (c : list Hg.MotorCmd_) :
  length c = MOTOR_MAX -> (∀ i m, (i < 7)%nat -> c !! i = Some m -> P i (f i m)) -> whole P (imap f c).
Proof.
  intros Hl Hf. split; [by rewrite length_imap|]. intros i m Hm. rewrite list_lookup_imap in Hm.
  destruct (c !! i) as [m'|] eqn:E; [|done]. injection Hm as <-. apply Hf; [|done].
  apply lookup_lt_Some in E. by rewrite Hl in E.
Qed.

Lemma ris_mode_bits i b : (i < 7)%nat ->
  Z.land (ris_mode (Z.of_nat i) 1 b) 0x7F = 16 + Z.of_nat i ∧ ris_mode (Z.of_nat i) 1 true = 144 + Z.of_nat i.
Proof. intros Hi. do 7 (destruct i as [|i]; [by destruct b|]). lia. Qed.

Lemma mid_within left i : (i < 7)%nat -> fin_range (minLimits left !!! i) (mid left i) (maxLimits left !!! i).
Proof.
  intros Hi. pose proof (limits_ok left i Hi) as H. unfold limits_check in H.
  rewrite !andb_true_iff, !Z.eqb_eq, Z.leb_le in H. destruct H as ((((((Hhi & Hlo) & Hm) & Ha) & Ha0) & Eh) & El).
  split; apply fle32; lia || done.
Qed.

(** ** The invariant *)
Section Invariant.
Context (sin : float64 -> float64) (left : bool) (Hsin : sin_range sin).

Record inv (w : world) : Prop := {
  inv_length : length (msg w) = MOTOR_MAX;
  inv_rest : ∀ i m, msg w !! i = Some m -> Hg.dq m = fzero ∧ Hg.reserve m = 0;
  inv_sweep : dir w = 1 ∧ -10000 <= count w < 10000 ∨ dir w = -1 ∧ -10000 < count w <= 10000;
  inv_written : Forall (command_ok left) (written w)
}.

(** The commands of the three actions. *)
Lemma rotate_command w junk : inv w ->
  whole (rotating left) (imap (fun i m => rotate_motor sin left junk (count w) i m) (msg w)).
Proof.
  intros [Hl Hr Hs _]. apply whole_imap; [done|]. intros i m Hi Hm. destruct (Hr i m Hm) as [H1 H2].
  split; [split_and!; [reflexivity|exact H1|exact H2|by apply ris_mode_bits]|].
  split_and!; [reflexivity|reflexivity|]. apply rotation_within; [done|unfold sweep_ok; lia|done].
Qed.

Lemma grip_command w junk : inv w -> whole (gripping left) (imap (grip_motor left junk) (msg w)).
Proof.
  intros [Hl Hr Hs _]. apply whole_imap; [done|]. intros i m Hi Hm. destruct (Hr i m Hm) as [H1 H2].
  split; [split_and!; [reflexivity|reflexivity|exact H2|by apply ris_mode_bits]|].
  split_and!; [reflexivity|reflexivity|reflexivity|]. by apply mid_within.
Qed.

Lemma stop_command w : inv w -> whole stopped (imap stop_motor (msg w)).
Proof.
  intros [Hl Hr Hs _]. apply whole_imap; [done|]. intros i m Hi Hm. destruct (Hr i m Hm) as [H1 H2].
  split; [split_and!; [reflexivity|reflexivity|exact H2|by apply ris_mode_bits]|].
  split_and!; [reflexivity|reflexivity|reflexivity|]. exact (proj2 (ris_mode_bits i true Hi)).
Qed.

Lemma whole_rest P c : (∀ i m, P i m -> common i m) -> whole P c ->
  length c = MOTOR_MAX ∧ ∀ i m, c !! i = Some m -> Hg.dq m = fzero ∧ Hg.reserve m = 0.
Proof. intros HP [Hl Hc]. split; [done|]. intros i m Hm. by destruct (HP i m (Hc i m Hm)) as (_ & ? & ? & _). Qed.

(** Writing a good command keeps the invariant. *)
Lemma hand_write_inv P c w : (∀ i m, P i m -> common i m) -> whole P c -> command_ok left c -> inv w -> inv (write c w).
Proof.
  intros HP Hc Hok [Hl Hr Hs Hw]. destruct (whole_rest P c HP Hc) as [H1 H2].
  split; cbn [write msg dir count written]; try done. apply Forall_app. split; [done|]. by constructor.
Qed.

Lemma perform_inv junk s w : inv w -> inv (perform sin left junk s w).
Proof.
  intros Hi. destruct s; cbn [perform].
  - by destruct Hi.
  - pose proof (rotate_command w junk Hi) as Hc.
    pose proof (hand_write_inv _ _ w (fun i m (H : rotating left i m) => proj1 H) Hc (or_introl Hc) Hi) as [Hl Hr Hs Hw].
    unfold rotateMotors. split; cbn [write msg dir count written] in *; try done. clear - Hs.
    destruct (Z.leb_spec 10000 (count w + dir w)), (Z.leb_spec (count w + dir w) (-10000)); lia.
  - pose proof (grip_command w junk Hi) as Hc.
    exact (hand_write_inv _ _ w (fun i m (H : gripping left i m) => proj1 H) Hc (or_intror (or_introl Hc)) Hi).
  - pose proof (stop_command w Hi) as Hc.
    exact (hand_write_inv _ _ w (fun i m (H : stopped i m) => proj1 H) Hc (or_intror (or_intror Hc)) Hi).
  - by destruct Hi.
Qed.

Lemma hand_step_inv w w' : step sin left w w' -> inv w -> inv w'.
Proof.
  intros Hs Hi. destruct Hs as [k w _|junk w|q w].
  - destruct Hi. by destruct k.
  - unfold main_step. destruct (pc w) as [|s]; [by destruct Hi|]. by destruct (perform_inv junk s w Hi).
  - by destruct Hi.
Qed.

Lemma hand_reachable_inv w : rtc (step sin left) init w -> inv w.
Proof.
  intros H. assert (Hi : inv init).
  { split; [reflexivity| |left; cbn; lia|constructor]. intros i m. cbn [init msg].
    intros [-> _]%lookup_replicate. by split. }
  revert Hi. induction H as [|w1 w2 w3 Hs _ IH]; [done|]. intros Hi. eapply IH, hand_step_inv; done.
Qed.
End Invariant.

(** C14. Every command sent to the hand, in every interleaving of key presses, the
    main loop and state messages, is one of three: a rotation, every joint
    within its limits exactly, with the rotation's gains; a grip, every joint in
    the middle of its range; or a stop, limp and with the time-out bit.  None
    carries torque or velocity, and every mode byte names its motor. *)
Theorem hand_commands_within_limits sin left w :
  sin_range sin -> rtc (step sin left) init w -> Forall (command_ok left) (written w).
Proof. intros Hsin H. apply (hand_reachable_inv sin left Hsin w H). Qed.

Definition no_junk : nat -> bool := fun _ => false.

(** Three iterations of the main loop: the initialisation and two rotations. *)
Lemma hand_commands_within_limits_witness :
  let w := Nat.iter 6 (main_step (fun _ => fzero) true no_junk) init in
  length (written w) = 2%nat ∧ Forall (command_ok true) (written w).
Proof.
  intros w. split; [reflexivity|]. apply (hand_commands_within_limits (fun _ => fzero) true).
  - intros x _. split_and!; reflexivity.
  - assert (H : ∀ n, rtc (step (fun _ => fzero) true) init (Nat.iter n (main_step (fun _ => fzero) true no_junk) init)).
    { induction n as [|n IH]; [apply rtc_refl|]. eapply rtc_r; [exact IH|apply step_main]. }
    apply (H 6%nat).
Defined.

(** ** Stopping *)
Section Stop.
Context (sin : float64 -> float64) (left : bool) (Hsin : sin_range sin).

(** [n] steps of the main loop and any number of messages, without a key. *)
Inductive quiet : nat -> world -> world -> Prop :=
| quiet_refl w : quiet 0 w w
| quiet_main junk n w w' : quiet n (main_step sin left junk w) w' -> quiet (S n) w w'
| quiet_message q n w w' : quiet n (StateHandler q w) w' -> quiet n w w'.

(** The main loop is not about to overwrite the state. *)
Definition past_init (w : world) : Prop := currentState w ≠ INIT ∧ pc w ≠ Act INIT.

(** The last command is a stop. *)
Definition halted (w : world) : Prop := ∃ c, last (written w) = Some c ∧ whole stopped c.

(** The number of steps until a stop is commanded. *)
Definition steps_to_stop (w : world) : nat :=
  match pc w with Top => 2 | Act STOP => 1 | Act _ => 3 end.

Definition settled (w : world) : Prop := halted w ∧ (pc w = Top ∨ pc w = Act STOP).

Lemma last_written w c : last (written (write c w)) = Some c.
Proof. apply last_snoc. Qed.

Lemma main_step_stops junk w :
  inv left w -> currentState w = STOP -> pc w ≠ Act INIT ->
  let w' := main_step sin left junk w in
  inv left w' ∧ currentState w' = STOP ∧ pc w' ≠ Act INIT ∧
  (settled w -> settled w') ∧ (settled w' ∨ S (steps_to_stop w') = steps_to_stop w).
Proof.
  intros Hi Hs Hp w'.
  assert (Hi' : inv left w') by (eapply hand_step_inv; [done|apply step_main|done]).
  split; [exact Hi'|]. subst w'. unfold main_step in *. destruct (pc w) as [|s] eqn:Ep.
  - cbn [set_pc currentState pc] in *. rewrite Hs. split_and!; try done.
    + intros [H _]. split; [exact H|by right].
    + right. unfold steps_to_stop. cbn [set_pc pc]. by rewrite Ep.
  - assert (Hstate : currentState (perform sin left junk s w) = STOP) by (destruct s; congruence || exact Hs).
    split; [exact Hstate|]. split; [done|]. split.
    + intros [_ [H|H]]; rewrite Ep in H; [done|injection H as ->]. split; [|by left]. eexists. split; [apply last_written|]. by eapply stop_command.
    + destruct s; [congruence|right|right|left|right]; unfold steps_to_stop; cbn [set_pc pc]; rewrite ?Ep; try reflexivity.
      split; [|by left]. eexists. split; [apply last_written|]. by eapply stop_command.
Qed.

Lemma quiet_stops n w w' :
  quiet n w w' -> inv left w -> currentState w = STOP -> pc w ≠ Act INIT ->
  settled w ∨ (steps_to_stop w <= n)%nat -> halted w' ∧ currentState w' = STOP.
Proof.
  induction 1 as [w|junk n w w' Hq IH|q n w w' Hq IH]; intros Hi Hs Hp Hn.
  - destruct Hn as [[Hh _]|Hn]; [done|]. unfold steps_to_stop in Hn. destruct (pc w) as [|[]]; lia.
  - destruct (main_step_stops junk w Hi Hs Hp) as (H1 & H2 & H3 & H4 & H5). apply IH; try done.
    destruct Hn as [Hn|Hn]; [left; by apply H4|]. destruct H5 as [H5|H5]; [by left|right; lia].
  - apply IH; try done. by destruct Hi.
Qed.
End Stop.

(** C37. A stop is obeyed once the program has left its initial state: after the
    key s or q, whatever the main loop was doing, three of its steps (finishing
    the action it is in, reading the state, acting on it) are enough for the
    last command to be a stop, and it stays so as long as no other key is
    pressed. *)
Theorem hand_stop_obeyed sin left w k n w' :
  sin_range sin -> rtc (step sin left) init w -> past_init w -> k = Ks ∨ k = Kq ->
  quiet sin left n (userInput k w) w' -> (3 <= n)%nat ->
  currentState w' = STOP ∧ ∃ c, last (written w') = Some c ∧ whole stopped c.
Proof.
  intros Hsin Hr [_ Hp] Hk Hq Hn. pose proof (hand_reachable_inv sin left Hsin w Hr) as Hi.
  destruct (quiet_stops sin left Hsin n (userInput k w) w' Hq) as [H1 H2]; [| | |right|by split].
  - destruct Hi. by destruct Hk as [-> | ->].
  - by destruct Hk as [-> | ->].
  - by destruct Hk as [-> | ->].
  - unfold steps_to_stop. destruct (pc (userInput k w)) as [|[]]; cbn; lia.
Qed.

(** After six steps the hand rotates; then the key s is pressed. *)
Lemma hand_stop_obeyed_witness :
  let go := main_step (fun _ => fzero) true no_junk in
  let w := Nat.iter 6 go init in
  currentState (Nat.iter 3 go (userInput Ks w)) = STOP ∧
  ∃ c, last (written (Nat.iter 3 go (userInput Ks w))) = Some c ∧ whole stopped c.
Proof.
  intros go w. apply (hand_stop_obeyed (fun _ => fzero) true w Ks 3).
  - intros x _. split_and!; reflexivity.
  - assert (H : ∀ n, rtc (step (fun _ => fzero) true) init (Nat.iter n go init)).
    { induction n as [|n IH]; [apply rtc_refl|]. eapply rtc_r; [exact IH|apply step_main]. }
    apply (H 6%nat).
  - by split.
  - by left.
  - do 3 (apply (quiet_main _ _ no_junk)). apply quiet_refl.
  - lia.
Defined.

(** A stop during the initialisation is lost.  When q is pressed after the
    main loop has read INIT and before it stores ROTATE, the store overwrites
    the stop: from then on the hand rotates for ever, no key is read any more,
    and no stop is ever commanded. *)
Lemma hand_stop_lost sin left :
  sin_range sin ->
  let w := main_step sin left no_junk (userInput Kq (main_step sin left no_junk init)) in
  rtc (step sin left) init w ∧
  (∀ w', rtc (step sin left) w w' ->
     input w' = false ∧ currentState w' = ROTATE ∧ Forall (whole (rotating left)) (written w')) ∧
  (∀ n, ∃ w', rtc (step sin left) w w' ∧ length (written w') = n).
Proof.
  intros Hsin w. assert (Hr : rtc (step sin left) init w).
  { eapply rtc_l; [apply (step_main _ _ no_junk)|]. eapply rtc_l; [by apply (step_key _ _ Kq)|].
    apply rtc_once, step_main. }
  split; [exact Hr|]. split.
  - set (lost w := input w = false ∧ currentState w = ROTATE ∧ (pc w = Top ∨ pc w = Act ROTATE) ∧
                   inv left w ∧ Forall (whole (rotating left)) (written w)).
    assert (Hl : lost w).
    { split; [done|]. split; [done|]. split; [by left|]. split; [by apply (hand_reachable_inv sin)|constructor]. }
    clearbody w. clear Hr. intros w' H. assert (Hl' : lost w'); [|by destruct Hl' as (? & ? & _ & _ & ?)].
    induction H as [|w1 w2 w3 Hs _ IH]; [done|]. apply IH. clear IH.
    destruct Hl as (L1 & L2 & L3 & L4 & L5).
    assert (Hi2 : inv left w2) by (by eapply hand_step_inv).
    destruct Hs as [k w1 Hk|junk w1|q w1]; [congruence| |by split].
    unfold main_step in *. destruct L3 as [E|E]; rewrite E in *.
    + split; [done|]. split; [done|]. split; [right; cbn [set_pc pc]; by rewrite L2|]. by split.
    + split; [done|]. split; [done|]. split; [by left|]. split; [done|].
      cbn [set_pc written perform rotateMotors]. apply Forall_app. split; [done|]. constructor; [|done].
      by apply rotate_command.
  - intros n. assert (Hn : ∃ w', rtc (step sin left) w w' ∧ length (written w') = n ∧ currentState w' = ROTATE ∧ pc w' = Top).
    { induction n as [|n (w' & H1 & H2 & H3 & H4)]; [exists w; split; [apply rtc_refl|done]|].
      exists (main_step sin left no_junk (main_step sin left no_junk w')). split.
      - eapply rtc_r; [eapply rtc_r; [exact H1|apply step_main]|apply step_main].
      - unfold main_step. rewrite H4. cbn [set_pc pc]. rewrite H3.
        cbn [perform rotateMotors set_pc written currentState pc]. rewrite length_app, H2. cbn [length].
        split; [lia|by split]. }
    destruct Hn as (w' & H1 & H2 & _). by exists w'.
Qed.

Lemma hand_stop_lost_witness :
  let w := main_step (fun _ => fzero) true no_junk (userInput Kq (main_step (fun _ => fzero) true no_junk init)) in
  currentState w = ROTATE ∧ ∃ w', rtc (step (fun _ => fzero) true) w w' ∧ length (written w') = 100%nat.
Proof.
  intros w. split; [reflexivity|]. apply (hand_stop_lost (fun _ => fzero) true). intros x _. split_and!; reflexivity.
Defined.

(** ** The two hands *)

(** The limits of the two hands are mirror images, except in the second joint:
    -0.724 on the left, 0.742 on the right. *)
Lemma hands_mirror : (fun i => bool_decide (maxLimits_right !!! i = fneg (minLimits_left !!! i))) <$> [0; 1; 3; 4; 5; 6]%nat =
  [true; false; true; true; true; true].
Proof. vm_compute. reflexivity. Qed.

(** What is printed lies between zero and one, but for a NaN. *)
Lemma positions_unit left q ps x :
  positions left q = Some ps -> x ∈ ps -> is_nan x = false -> fin_range fzero x (F32.of_Z 1).
Proof.
  unfold positions. destruct (_ <? _)%nat; [done|]. intros E Hx Hn. apply (inj Some) in E. subst ps.
  apply list_elem_of_fmap in Hx as (i & -> & _). unfold position in *.
  apply std_clamp_range; [|reflexivity]. revert Hn. unfold std_clamp. by destruct (F32.div _ _) as [[]|[]| |[]].
Qed.
End Dex3Props.
