(* ===== verification/Terminations.v ===== *)
(** * Protective checks of the g1.

    Models [src/include/unitree/robot/g1/common/terminations.hpp], the functions
    that tell a program to give up control of the motors, and the reading of the
    last arrival time they rest on ([ChannelSubscriber::GetLastDataAvailableTime],
    [robot/channel/channel_subscriber.hpp]).

    The rotation of the gravity vector belongs to Eigen and is a parameter, and so
    is [std::acos].  A state message is the bytes of the object, as in [HgMsg]. *)

From S2P Require Import Prelude Floats Rounding Division HgMsg.

Local Open Scope Z_scope.

(** ** The state message *)

(** [imu_state().quaternion()]. *)
Definition quaternion (m : Hg.LowState_) : list float32 := Hg.floats 16 4 m.

(** [motor_state()[i].temperature()[k]], an [int16_t]. *)
Definition temperature (i k : nat) (m : Hg.LowState_) : Z := i16 (le_val (slice (72 + 56 * i + 20 + 2 * k) 2 m)).

Definition motors : list nat := seq 0 35.

(** ** The checks *)

(** [bad_orientation]: [gravity_z q] is the third component of
    [quat.conjugate() * Eigen::Vector3f(0, 0, -1)]. *)
Definition bad_orientation (acos : float32 -> float32) (gravity_z : list float32 -> float32)
    (lowstate : Hg.LowState_) (limit_angle : float32) : bool :=
  fgt (fabs (acos (fneg (gravity_z (quaternion lowstate))))) limit_angle.

Definition joint_vel_out_of_limit (lowstate : Hg.LowState_) (limit_vel : float32) : bool :=
  existsb (fun i => fgt (fabs (Hg.motor_dq i lowstate)) limit_vel) motors.

Definition ang_vel_out_of_limit (lowstate : Hg.LowState_) (limit_vel : float32) : bool :=
  existsb (fun ang_vel => fgt (fabs ang_vel) limit_vel) (Hg.gyroscope lowstate).

Definition motor_winding_overheat (lowstate : Hg.LowState_) (limit_temp : float32) : bool :=
  existsb (fun i => fgt (F32.of_Z (temperature i 1 lowstate)) limit_temp) motors.

Definition motor_casing_overheat (lowstate : Hg.LowState_) (limit_temp : float32) : bool :=
  existsb (fun i => fgt (F32.of_Z (temperature i 0 lowstate)) limit_temp) motors.

(** [soc] is a [uint8_t]. *)
Definition low_battery (soc : Z) (limit_soc : float32) : bool := flt (F32.of_Z soc) limit_soc.

(** [GetLastDataAvailableTime] of a subscriber: its channel's, or -1 without a
    channel. *)
Definition GetLastDataAvailableTime (channel : option Z) : Z := default (-1) channel.

(** [lost_connection]: [now] is a [uint64_t] and the time of the last message an
    [int64_t], so the difference is unsigned. *)
Definition lost_connection (now last timeout_ms : Z) : bool :=
  let elasped_ms := F64.div (F64.of_Z (u64 (now - last))) (F64.of_Z 1000000) in
  fgt elasped_ms (F64.of_Z timeout_ms).

(** * Properties *)
Module TerminationProps.

(** ** The elapsed time *)

(** Integers below [2^53] are [double]s. *)
Lemma of_Z64_exact z : Z.abs z < 2 ^ 53 -> ok64 (F64.of_Z z) = true ∧ fval (F64.of_Z z) = z * pw 0.
Proof.
  intros Hz. destruct (grid 53 1024 ltac:(lia) ltac:(lia) z 0 Hz) as (x & Hx & Vx); [unfold emin; lia|lia|].
  destruct (of_Z64_between z x x) as [Hn Hv]; [done|done|rewrite Vx; split; reflexivity|]. rewrite Vx in Hv. split; [exact Hn|lia].
Qed.

Lemma million : ok64 (F64.of_Z 1000000) = true ∧ fval (F64.of_Z 1000000) = 1000000 * pw 0.
Proof. by apply of_Z64_exact. Qed.

(** The comparison decides whether more than the time-out has elapsed, exactly,
    although it is made on rounded numbers. *)
Lemma elapsed_exceeds elapsed timeout :
  0 <= elapsed < 2 ^ 64 -> 0 <= timeout < 2 ^ 31 ->
  fgt (F64.div (F64.of_Z elapsed) (F64.of_Z 1000000)) (F64.of_Z timeout) = (timeout * 1000000 <? elapsed).
Proof.
  intros He Ht. assert (Hp : 0 < pw 0) by (apply pw_pos; unfold scale; lia). destruct million as [OM VM].
  destruct (of_Z64_exact timeout) as [OT VT]; [lia|].
  assert (E21 : pw 0 = 2 ^ 21 * pw (-21)) by exact unit_pw. pose proof pw_21_pos as P21.
  assert (Hsmall : fval (F64.of_Z 1000000) * pw (emin 53 1024 + 3) <= pw 0 * pw 0)
    by (rewrite VM; assert (1000000 * pw (emin 53 1024 + 3) <= pw 0) by (vm_compute; congruence); nia).
  destruct (Z.ltb_spec (timeout * 1000000) elapsed) as [L|L].
  - destruct (of_Z64_exact (timeout * 1000000 + 1)) as [O1 V1]; [lia|].
    destruct (of_Z64_exact (2 ^ 50)) as [_ _]; [lia|].
    assert (H64 : ok64 (F64.of_Z (2 ^ 64)) = true ∧ fval (F64.of_Z (2 ^ 64)) = 2 ^ 64 * pw 0) by (split; vm_compute; reflexivity).
    destruct H64 as [O64 V64].
    destruct (of_Z64_between elapsed (F64.of_Z (timeout * 1000000 + 1)) (F64.of_Z (2 ^ 64))) as [On Vn];
      [done|done|rewrite V1, V64; nia|]. rewrite V1, V64 in Vn.
    destruct (grid 53 1024 ltac:(lia) ltac:(lia) (timeout * 2 ^ 21 + 1) (-21)) as (lo & Hlo & Vlo);
      [lia|unfold emin; lia|lia|].
    destruct (div_between 53 1024 ltac:(lia) ltac:(lia) ltac:(lia) (F64.of_Z elapsed) (F64.of_Z 1000000) lo (F64.of_Z (2 ^ 64)))
      as [Od Vd]; [done|done|lia|done|done|right; nia| |].
    { rewrite VM, Vlo, V64. split; [|nia]. rewrite E21 in *. nia. }
    fold (F64.div (F64.of_Z elapsed) (F64.of_Z 1000000)) in Od, Vd. change (fgt ?a ?b) with (flt b a). apply flt64; [done|done|].
    rewrite VT. rewrite Vlo in Vd. rewrite E21. nia.
  - destruct (of_Z64_exact elapsed) as [On Vn]; [lia|].
    destruct (div_between 53 1024 ltac:(lia) ltac:(lia) ltac:(lia) (F64.of_Z elapsed) (F64.of_Z 1000000) fzero (F64.of_Z timeout))
      as [Od Vd]; [done|done|lia|done|done| |rewrite VM, VT, Vn; cbn [fval fzero]; nia|].
    { rewrite Vn. destruct (Z.eq_dec elapsed 0) as [->|]; [by left|right]. rewrite Z.abs_eq by nia. nia. }
    fold (F64.div (F64.of_Z elapsed) (F64.of_Z 1000000)) in Od, Vd.
    destruct (fgt _ _) eqn:E; [|done]. change (fgt ?a ?b) with (flt b a) in E. apply flt64 in E; [lia|done|done].
Qed.

(** C38. The check for a lost connection.  When the time of the last message was
    read before the clock passed [2^63] ns, the robot is reported lost exactly when
    more than [timeout_ms] milliseconds have gone by, to the nanosecond although the
    comparison is made on rounded numbers.  But the clock is read before the time
    of the last message, and the difference is unsigned: a message that arrives
    between the two readings makes the check report a lost connection, whatever
    the time-out (below [2^31] ms).  Without a channel the time of the last
    message is -1, and the elapsed time is the clock's plus a nanosecond. *)
Theorem lost_connection_spec now last timeout_ms :
  0 <= now < 2 ^ 63 -> -1 <= last < 2 ^ 63 -> 0 <= timeout_ms < 2 ^ 31 ->
  (last <= now -> lost_connection now last timeout_ms = true <-> timeout_ms * 1000000 < now - last) ∧
  (now < last -> lost_connection now last timeout_ms = true).
Proof.
  intros Hn Hl Ht. unfold lost_connection. split; intros Hle.
  - rewrite (uwrap_id 64) by (unfold in_u; lia). rewrite elapsed_exceeds by lia. apply Z.ltb_lt.
  - assert (E : u64 (now - last) = now - last + 2 ^ 64) by (symmetry; apply (Z.mod_unique _ _ (-1)); lia).
    rewrite E, elapsed_exceeds by lia. apply Z.ltb_lt. lia.
Qed.

(** A message that arrived 5 ms and one that arrived 1 ns after the clock was
    read, against one second. *)
Lemma lost_connection_spec_witness :
  lost_connection 7005000000 7000000000 1000 = false ∧ lost_connection 7000000000 7000000001 1000 = true.
Proof.
  split.
  - apply not_true_iff_false. rewrite (proj1 (lost_connection_spec 7005000000 7000000000 1000
      ltac:(lia) ltac:(lia) ltac:(lia))) by lia. lia.
  - apply (lost_connection_spec 7000000000 7000000001 1000); lia.
Defined.

(** ** The envelope *)

Lemma of_Z32_exact z : Z.abs z < 2 ^ 24 -> ok32 (F32.of_Z z) = true ∧ fval (F32.of_Z z) = z * pw 0.
Proof.
  intros Hz. destruct (grid 24 128 ltac:(lia) ltac:(lia) z 0 Hz) as (x & Hx & Vx); [unfold emin; lia|lia|].
  destruct (of_Z32_between z x x) as [Hn Hv]; [done|done|rewrite Vx; split; reflexivity|]. rewrite Vx in Hv. split; [exact Hn|lia].
Qed.

(** Comparing small integers as [float]s compares the integers. *)
Lemma fle_of_Z x y : Z.abs x < 2 ^ 24 -> Z.abs y < 2 ^ 24 -> fle (F32.of_Z x) (F32.of_Z y) = true <-> x <= y.
Proof.
  intros Hx Hy. destruct (of_Z32_exact x Hx) as [Ox Vx]. destruct (of_Z32_exact y Hy) as [Oy Vy].
  assert (0 < pw 0) by (apply pw_pos; unfold scale; lia). rewrite (fle32 _ _ Ox Oy), Vx, Vy. nia.
Qed.

Lemma number_not_nan prec emax x : is_number prec emax x = true -> is_nan x = false.
Proof. by destruct x. Qed.

(** A limit is not exceeded by what is no number, or not above it. *)
Lemma fgt_false x y : is_nan y = false -> fgt x y = false <-> is_nan x = true ∨ fle x y = true.
Proof.
  intros Hy. change (fgt x y) with (flt y x). destruct (is_nan x) eqn:Hx.
  - destruct x; try discriminate Hx. split; [by left|]. by destruct y as [| | |[]].
  - split; [right; by apply flt_false_fle|]. intros [?|Hle]; [done|]. ford.
Qed.

Lemma fgt_fabs_false x limit : is_nan limit = false -> fgt (fabs x) limit = false <-> is_nan x = true ∨ fle (fabs x) limit = true.
Proof. intros Hl. rewrite (fgt_false _ _ Hl). by destruct x. Qed.

Lemma existsb_none {A} (p : A -> bool) (l : list A) : existsb p l = false <-> Forall (fun x => p x = false) l.
Proof.
  induction l as [|x l IH]; cbn [existsb]; [by split|]. by rewrite orb_false_iff, Forall_cons, IH.
Qed.

Lemma small_of_Z_gt x limit :
  Z.abs x < 2 ^ 24 -> Z.abs limit < 2 ^ 24 -> fgt (F32.of_Z x) (F32.of_Z limit) = false <-> x <= limit.
Proof.
  intros Hx Hl. pose proof (proj1 (of_Z32_exact x Hx)) as Ox. pose proof (proj1 (of_Z32_exact limit Hl)) as Ol.
  rewrite fgt_false, fle_of_Z by (done || by eapply number_not_nan). rewrite (number_not_nan _ _ _ Ox). naive_solver.
Qed.

Lemma temperature_small i k m : Z.abs (temperature i k m) < 2 ^ 24.
Proof. pose proof (swrap_in 16 (le_val (slice (72 + 56 * i + 20 + 2 * k) 2 m)) ltac:(lia)) as H. unfold in_s in H. unfold temperature. lia. Qed.

Lemma overheat_none k limit m :
  Z.abs limit < 2 ^ 24 ->
  existsb (fun i => fgt (F32.of_Z (temperature i k m)) (F32.of_Z limit)) motors = false <->
  Forall (fun i => temperature i k m <= limit) motors.
Proof. intros Hl. rewrite existsb_none. apply Forall_iff. intros i. apply small_of_Z_gt; [apply temperature_small|done]. Qed.

Lemma velocities_none {A} (v : A -> float32) limit l :
  is_nan limit = false ->
  existsb (fun x => fgt (fabs (v x)) limit) l = false <-> Forall (fun x => is_nan (v x) = true ∨ fle (fabs (v x)) limit = true) l.
Proof. intros Hl. rewrite existsb_none. apply Forall_iff. intros x. by apply fgt_fabs_false. Qed.

(** What [std::acos] promises: a number on [-1, 1], not a number elsewhere. *)
Definition acos_domain (acos : float32 -> float32) : Prop :=
  ∀ x, is_nan (acos x) = true <-> fgt (fabs x) (F32.of_Z 1) = true ∨ is_nan x = true.

(** C39. The state that passes every check.  None of the checks asks for the
    motors to be released exactly when every joint velocity and every angular
    velocity is within its limit or is not a number, every winding and casing
    temperature and the charge are within theirs, and the vertical component of
    gravity in the body's frame gives an angle within the limit, or lies outside
    [-1, 1], where [std::acos] gives no number. *)
Theorem protection_envelope acos gravity_z m angle joint_vel ang_vel winding casing soc min_soc :
  acos_domain acos -> is_nan angle = false -> is_nan joint_vel = false -> is_nan ang_vel = false ->
  Z.abs winding < 2 ^ 24 -> Z.abs casing < 2 ^ 24 -> 0 <= soc < 256 -> Z.abs min_soc < 2 ^ 24 ->
  bad_orientation acos gravity_z m angle = false ∧ joint_vel_out_of_limit m joint_vel = false ∧
    ang_vel_out_of_limit m ang_vel = false ∧ motor_winding_overheat m (F32.of_Z winding) = false ∧
    motor_casing_overheat m (F32.of_Z casing) = false ∧ low_battery soc (F32.of_Z min_soc) = false <->
  (let c := gravity_z (quaternion m) in
    is_nan c = true ∨ fgt (fabs c) (F32.of_Z 1) = true ∨ fle (fabs (acos (fneg c))) angle = true) ∧
    Forall (fun i => is_nan (Hg.motor_dq i m) = true ∨ fle (fabs (Hg.motor_dq i m)) joint_vel = true) motors ∧
    Forall (fun w => is_nan w = true ∨ fle (fabs w) ang_vel = true) (Hg.gyroscope m) ∧
    Forall (fun i => temperature i 1 m <= winding ∧ temperature i 0 m <= casing) motors ∧ min_soc <= soc.
Proof.
  intros Hacos Ha Hj Hw Hwi Hca Hs Hm. unfold joint_vel_out_of_limit, ang_vel_out_of_limit, motor_winding_overheat, motor_casing_overheat.
  rewrite (velocities_none (fun i => Hg.motor_dq i m) _ _ Hj), (velocities_none (fun w => w) _ _ Hw).
  rewrite (overheat_none 1 _ m Hwi), (overheat_none 0 _ m Hca), Forall_and.
  rewrite <- (small_of_Z_gt min_soc soc) by lia. unfold low_battery, bad_orientation.
  rewrite (fgt_fabs_false _ _ Ha), (Hacos _). cbv zeta. set (c := gravity_z (quaternion m)).
  assert (En : is_nan (fneg c) = is_nan c ∧ fabs (fneg c) = fabs c) by (by destruct c). destruct En as [-> ->].
  change (fgt (F32.of_Z min_soc) (F32.of_Z soc)) with (flt (F32.of_Z soc) (F32.of_Z min_soc)). tauto.
Qed.

(** A robot on its back, reported with a quaternion whose length exceeds one by a
    rounding, and whose first motor reports a velocity that is not a number: no
    check objects.  The component of gravity is computed as Eigen does, and the
    angle by a coarse [acos]. *)
Definition rotated_z (q : list float32) : float32 :=
  match q with
  | [w; x; y; z] =>
      (* [uv = vec x v; uv += uv; v + w * uv + vec x uv], [vec = (-x, -y, -z)], [v = (0, 0, -1)] *)
      let ux := F32.add y y in
      let uy := fneg (F32.add x x) in
      F32.add (F32.add (F32.of_Z (-1)) (F32.mul w fzero)) (F32.sub (F32.mul (fneg x) uy) (F32.mul (fneg y) ux))
  | _ => S754_nan
  end.

Definition coarse_acos (x : float32) : float32 :=
  if fgt (fabs x) (F32.of_Z 1) || is_nan x then S754_nan
  else if flt x fzero then F32.of_Z 2 else fzero.

Definition upside_down : Hg.LowState_ :=
  list_inserts 16 (concat (map f32_le [fzero; S754_finite false 8388609 (-23); fzero; fzero]))
    (list_inserts 80 (f32_le S754_nan) Hg.LowState_default).

Lemma protection_envelope_witness :
  bad_orientation coarse_acos rotated_z upside_down (F32.of_Z 1) = false ∧
    joint_vel_out_of_limit upside_down (F32.of_Z 10) = false ∧ ang_vel_out_of_limit upside_down (F32.of_Z 6) = false ∧
    motor_winding_overheat upside_down (F32.of_Z 120) = false ∧ motor_casing_overheat upside_down (F32.of_Z 85) = false ∧
    low_battery 50 (F32.of_Z 20) = false.
Proof.
  apply (protection_envelope coarse_acos rotated_z upside_down (F32.of_Z 1) (F32.of_Z 10) (F32.of_Z 6) 120 85 50 20);
    [|reflexivity|reflexivity|reflexivity|lia|lia|lia|lia|].
  - intros x. unfold coarse_acos. destruct (fgt (fabs x) (F32.of_Z 1)), (is_nan x); cbn [orb]; try (by intuition).
    destruct (flt x fzero); split; [discriminate| |discriminate|]; by intros [|].
  - cbv zeta. refine (conj (or_intror (or_introl _)) (conj _ (conj _ (conj _ _)))); [vm_compute; reflexivity| | | |lia];
      apply (bool_decide_unpack _); vm_compute; exact I.
Defined.

(** The unscaled quaternion is noticed. *)
Example upside_down_noticed :
  bad_orientation coarse_acos rotated_z (list_inserts 20 (f32_le (F32.of_Z 1)) upside_down) (F32.of_Z 1) = true.
Proof. vm_compute. reflexivity. Qed.

End TerminationProps.
